(** * AI SEO assistant: the job engine, verified against its source

    A shallow embedding of the worker ([app/worker/seo.worker.js]), the
    queue adapter ([app/queue.server.js]), the free-plan usage counter
    ([app/billing.usage.server.js]) and the job helpers
    ([app/jobs.server.js]), followed by the properties proved about them.

    Conventions of the embedding:
    - a JavaScript string is the list of its UTF-16 code units;
    - a JavaScript number is an IEEE 754 binary64 value ([spec_float] with
      precision 53 and maximal exponent 1024), so every rounding of the
      source is reproduced bit for bit;
    - [undefined] is [None]; a nullable column is an [option];
    - the relational store is a pair of finite maps keyed by primary key;
    - what an external service answers is an argument of the function that
      calls it, and what the function sends is part of its result. *)

From Stdlib Require Import ZArith NArith List Bool Lia Ascii String.
From Stdlib Require Import Floats.SpecFloat.
From stdpp Require Import gmap list sorting.

Open Scope Z_scope.

(** ** ECMAScript strings *)

Module Js.

Definition jsstring := list N.

(** Literal with code units below 128, written as a Rocq string. *)
Definition js (s : string) : jsstring :=
  map N_of_ascii (list_ascii_of_string s).

Definition eqb (a b : jsstring) : bool := bool_decide (a = b).

(** WhiteSpace and LineTerminator code points (ECMA-262, 12.2 and 12.3). *)
Definition isWhiteSpace (c : N) : bool :=
  ((9 <=? c) && (c <=? 13) || (c =? 32) || (c =? 160) || (c =? 5760)
   || (8192 <=? c) && (c <=? 8202) || (c =? 8232) || (c =? 8233)
   || (c =? 8239) || (c =? 8287) || (c =? 12288) || (c =? 65279))%N.

Definition isLineTerminator (c : N) : bool :=
  ((c =? 10) || (c =? 13) || (c =? 8232) || (c =? 8233))%N.

Fixpoint trimStart (s : jsstring) : jsstring :=
  match s with
  | c :: r => if isWhiteSpace c then trimStart r else s
  | [] => []
  end.

Definition trimEnd (s : jsstring) : jsstring := rev (trimStart (rev s)).

(** [String.prototype.trim] *)
Definition trim (s : jsstring) : jsstring := trimEnd (trimStart s).

(** Simple case folding of one code unit, as the [i] flag of a regular
    expression without the [u] flag applies it to a pattern made of
    code units below 128: only A-Z and a-z are identified. *)
Definition foldAscii (c : N) : N :=
  if ((65 <=? c) && (c <=? 90))%N then (c + 32)%N else c.

(** [String.prototype.toLowerCase] on Basic Latin, Latin-1 Supplement and
    Latin Extended-A, together with the two other code points whose lower
    case contains a Basic Latin letter (U+0130 and U+212A); every other
    code unit is left as it is. *)
Definition lowerUnit (c : N) : jsstring :=
  (if (65 <=? c) && (c <=? 90) then [c + 32]
   else if (192 <=? c) && (c <=? 222) && negb (c =? 215) then [c + 32]
   else if c =? 304 then [105; 775]
   else if c =? 376 then [255]
   else if c =? 8490 then [107]
   else if c =? 8491 then [229]
   else if ((256 <=? c) && (c <=? 311) || (330 <=? c) && (c <=? 375))
           && N.even c then [c + 1]
   else if ((313 <=? c) && (c <=? 328) || (377 <=? c) && (c <=? 382))
           && N.odd c then [c + 1]
   else [c])%N.

Definition toLowerCase (s : jsstring) : jsstring := flat_map lowerUnit s.

(** [String.prototype.startsWith] *)
Fixpoint startsWith (p s : jsstring) : bool :=
  match p, s with
  | [], _ => true
  | a :: p', b :: s' => (a =? b)%N && startsWith p' s'
  | _ :: _, [] => false
  end.

(** [String.prototype.includes] *)
Fixpoint includes (p s : jsstring) : bool :=
  startsWith p s ||
  match s with
  | [] => false
  | _ :: r => includes p r
  end.

(** Prefix and substring tests of a case-insensitive regular expression
    whose pattern [p] is a fixed text. *)
Fixpoint startsWithCI (p s : jsstring) : bool :=
  match p, s with
  | [], _ => true
  | a :: p', b :: s' => (foldAscii a =? foldAscii b)%N && startsWithCI p' s'
  | _ :: _, [] => false
  end.

Fixpoint includesCI (p s : jsstring) : bool :=
  startsWithCI p s ||
  match s with
  | [] => false
  | _ :: r => includesCI p r
  end.

(** [s.replace(p, q)] with a string pattern: the first occurrence only. *)
Fixpoint replaceFirst (p q s : jsstring) : jsstring :=
  if startsWith p s then q ++ skipn (length p) s
  else match s with
       | [] => []
       | c :: r => c :: replaceFirst p q r
       end.

(** [s.slice(0, n)] for a non-negative integer [n]. *)
Definition slice0 (n : nat) (s : jsstring) : jsstring := firstn n s.

Definition isDigit (c : N) : bool := ((48 <=? c) && (c <=? 57))%N.

(** Decimal rendering of a natural number, as a template literal prints
    an integer-valued number below 2^53. *)
Fixpoint digitsFuel (fuel : nat) (n : N) (acc : jsstring) : jsstring :=
  match fuel with
  | O => acc
  | S f =>
      let acc' := (48 + n mod 10)%N :: acc in
      if (n / 10 =? 0)%N then acc' else digitsFuel f (n / 10)%N acc'
  end.

Definition natToString (n : N) : jsstring :=
  digitsFuel (S (N.to_nat (N.log2 n))) n [].

End Js.

(** ** ECMAScript numbers and JSON values *)

Module Num.
Import Js.

Definition number := spec_float.
Definition prec : Z := 53.
Definition emax : Z := 1024.

Definition NaN : number := S754_nan.
Definition zero : number := S754_zero false.

(** The number an integer literal of the source denotes. *)
Definition ofZ (z : Z) : number := binary_normalize prec emax z 0 false.

Definition sub (a b : number) : number := SFsub prec emax a b.
Definition div (a b : number) : number := SFdiv prec emax a b.
Definition mul (a b : number) : number := SFmul prec emax a b.

(** [a < b], [a <= b] and [a >= b]: false as soon as one side is NaN. *)
Definition ltb (a b : number) : bool := SFltb a b.
Definition leb (a b : number) : bool := SFleb a b.
Definition geb (a b : number) : bool := SFleb b a.

(** [Number.isFinite] on a number *)
Definition isFinite (x : number) : bool :=
  match x with
  | S754_zero _ | S754_finite _ _ _ => true
  | S754_infinity _ | S754_nan => false
  end.

(** [Math.ceil]: exact, since the ceiling of a binary64 value is one. *)
Definition Math_ceil (x : number) : number :=
  match x with
  | S754_finite s m e =>
      if 0 <=? e then x
      else
        let c := if s then Z.neg m else Z.pos m in
        match - ((- c) / 2 ^ (- e)) with
        | Z0 => S754_zero s
        | q => ofZ q
        end
  | _ => x
  end.

(** [Math.min] of two numbers: NaN if one is, and -0 below +0. *)
Definition Math_min (a b : number) : number :=
  match SFcompare a b with
  | None => NaN
  | Some Lt => a
  | Some Gt => b
  | Some Eq =>
      match a, b with
      | S754_zero sa, S754_zero sb => S754_zero (sa || sb)
      | _, _ => a
      end
  end.

(** Integer-valued numbers, and the integer they denote. *)
Definition isInteger (x : number) : bool :=
  match x with
  | S754_zero _ => true
  | S754_finite _ m e => (0 <=? e) || (Z.pos m mod 2 ^ (- e) =? 0)
  | _ => false
  end.

(** *** StringToNumber (ECMA-262, 7.1.4.1.1), correctly rounded *)

Definition digitVal (base c : N) : option N :=
  let v := (if isDigit c then Some (c - 48)
            else if (97 <=? c) && (c <=? 102) then Some (c - 87)
            else if (65 <=? c) && (c <=? 70) then Some (c - 55)
            else None)%N in
  match v with
  | Some d => if (d <? base)%N then Some d else None
  | None => None
  end.

(** Reads the longest run of digits: its value, its length, the rest. *)
Fixpoint parseDigits (base : N) (s : jsstring) (acc : N) (count : nat)
  : N * nat * jsstring :=
  match s with
  | c :: r =>
      match digitVal base c with
      | Some d => parseDigits base r (acc * base + d)%N (S count)
      | None => (acc, count, s)
      end
  | [] => (acc, count, [])
  end.

(** StrUnsignedDecimalLiteral other than Infinity: mantissa and power
    of ten. *)
Definition parseDecimal (s : jsstring) : option (N * Z) :=
  let '(ip, ni, r1) := parseDigits 10 s 0%N 0%nat in
  let '(m, nf, r2) :=
    match r1 with
    | 46%N :: r => parseDigits 10 r ip 0%nat
    | _ => (ip, 0%nat, r1)
    end in
  if (ni + nf =? 0)%nat then None
  else
    match r2 with
    | [] => Some (m, - Z.of_nat nf)
    | c :: r =>
        if ((c =? 101) || (c =? 69))%N then
          let '(neg, r') :=
            match r with
            | 43%N :: t => (false, t)
            | 45%N :: t => (true, t)
            | _ => (false, r)
            end in
          let '(ex, ne, r3) := parseDigits 10 r' 0%N 0%nat in
          if (ne =? 0)%nat then None
          else match r3 with
               | [] => Some (m, (if neg then - Z.of_N ex else Z.of_N ex)
                                - Z.of_nat nf)
               | _ :: _ => None
               end
        else None
    end.

(** The binary64 value nearest to [n / d], ties to even. *)
Definition roundRatio (s : bool) (n d : positive) : number :=
  let '(q, e, l) := SFdiv_core_binary prec emax (Zpos n) 0 (Zpos d) 0 in
  binary_round_aux prec emax s q e l.

Definition decimalValue (s : bool) (m : N) (e10 : Z) : number :=
  match m with
  | N0 => S754_zero s
  | Npos p =>
      if 0 <=? e10 then binary_round prec emax s (p * Z.to_pos (10 ^ e10)) 0
      else roundRatio s p (Z.to_pos (10 ^ (- e10)))
  end.

Definition parseRadix (base : N) (s : jsstring) : number :=
  match parseDigits base s 0%N 0%nat with
  | (v, S _, []) => ofZ (Z.of_N v)
  | _ => NaN
  end.

Definition parseSigned (s : bool) (t : jsstring) : number :=
  if eqb t (js "Infinity") then S754_infinity s
  else match parseDecimal t with
       | Some (m, e10) => decimalValue s m e10
       | None => NaN
       end.

Definition StringToNumber (str : jsstring) : number :=
  match trim str with
  | [] => zero
  | 48%N :: x :: r =>
      if ((x =? 120) || (x =? 88))%N then parseRadix 16 r
      else if ((x =? 111) || (x =? 79))%N then parseRadix 8 r
      else if ((x =? 98) || (x =? 66))%N then parseRadix 2 r
      else parseSigned false (48%N :: x :: r)
  | 43%N :: t => parseSigned false t
  | 45%N :: t => parseSigned true t
  | t => parseSigned false t
  end.

(** *** JSON values, as [JSON.parse] and [Response.json] build them *)

#[warnings="-register-all"]
Inductive json :=
| JNull
| JBool (b : bool)
| JNumber (x : number)
| JString (s : jsstring)
| JArray (l : list json)
| JObject (members : list (jsstring * json)).

(** The members of an object are listed in source order; a later member
    overrides an earlier one with the same key. *)
Fixpoint lookupMember (k : jsstring) (ms : list (jsstring * json))
  : option json :=
  match ms with
  | [] => None
  | (k', v) :: r =>
      match lookupMember k r with
      | Some w => Some w
      | None => if eqb k k' then Some v else None
      end
  end.

(** [v?.k] for a key that no prototype defines: [undefined] unless [v]
    is an object with that member. *)
Definition getProp (k : string) (v : option json) : option json :=
  match v with
  | Some (JObject ms) => lookupMember (js k) ms
  | _ => None
  end.

(** [Number(v)] on a JSON value. An array is converted through its
    [join]: empty it gives +0, with two elements or more the comma makes
    it NaN, and a single element is converted through its own text,
    which for a number is the number itself (-0 printing as 0). *)
Fixpoint ToNumberJson (v : json) : number :=
  match v with
  | JNull => zero
  | JBool b => if b then ofZ 1 else zero
  | JNumber x => x
  | JString s => StringToNumber s
  | JArray [] => zero
  | JArray [x] =>
      match x with
      | JNull => zero
      | JBool _ => NaN
      | JNumber (S754_zero _) => zero
      | JNumber y => y
      | JString s => StringToNumber s
      | JArray _ => ToNumberJson x
      | JObject _ => NaN
      end
  | JArray (_ :: _ :: _) => NaN
  | JObject _ => NaN
  end.

Definition Number_ (v : option json) : number :=
  match v with
  | None => NaN
  | Some j => ToNumberJson j
  end.

End Num.

(** ** Cost pacing against the Admin API ([seo.worker.js]) *)

Module Throttle.
Import Js Num.

(** The second parameter [{ minAvailable = 100, maxWaitMs = 5000 } = {}]:
    a member left [undefined] takes its default. *)
Record Options := mkOptions {
  minAvailable : option number;
  maxWaitMs : option number
}.

Definition defaults : Options := mkOptions None None.

Definition throttleStatusOf (body : option json) : option json :=
  getProp "throttleStatus" (getProp "cost" (getProp "extensions" body)).

(** The quantity [Math.ceil(sec * 1000)] of the source. *)
Definition waitMsOf (minAvail currentlyAvailable restoreRate : number)
  : number :=
  let deficit := sub minAvail currentlyAvailable in
  let sec := div deficit restoreRate in
  Math_ceil (mul sec (ofZ 1000)).

Definition computeShopifyThrottleWaitMs (body : option json) (o : Options)
  : number :=
  let minAvail := default (ofZ 100) (minAvailable o) in
  let maxWait := default (ofZ 5000) (maxWaitMs o) in
  let throttle := throttleStatusOf body in
  let currentlyAvailable := Number_ (getProp "currentlyAvailable" throttle) in
  let restoreRate := Number_ (getProp "restoreRate" throttle) in
  if negb (isFinite currentlyAvailable) || negb (isFinite restoreRate)
     || leb restoreRate zero
  then zero
  else if geb currentlyAvailable minAvail then zero
  else
    let ms := waitMsOf minAvail currentlyAvailable restoreRate in
    if negb (isFinite ms) || leb ms zero then zero
    else Math_min maxWait ms.

(** The pacing step of [shopifyGraphqlJsonWithRetry] after a successful
    response: how long the engine sleeps before it returns, if at all. *)
Definition pacingSleepMs (body : option json) : option number :=
  let throttleWaitMs := computeShopifyThrottleWaitMs body defaults in
  if ltb zero throttleWaitMs then Some throttleWaitMs else None.

(** The wait the specification words describe: the deficit divided by
    the restore rate, rounded up to whole seconds, at most five seconds. *)
Definition specWaitMs (currentlyAvailable restoreRate : number) : number :=
  if geb currentlyAvailable (ofZ 100) then zero
  else
    let sec := Math_ceil (div (sub (ofZ 100) currentlyAvailable) restoreRate) in
    Math_min (ofZ 5000) (mul sec (ofZ 1000)).

(** A response whose cost extension reports the two given values. *)
Definition costResponse (currentlyAvailable restoreRate : json) : option json :=
  Some (JObject
    [(js "data", JObject []);
     (js "extensions", JObject
        [(js "cost", JObject
           [(js "throttleStatus", JObject
              [(js "maximumAvailable", JNumber (ofZ 2000));
               (js "currentlyAvailable", currentlyAvailable);
               (js "restoreRate", restoreRate)])])])]).

End Throttle.

(** ** Failure classification of the text service ([seo.worker.js]) *)

Module Classifier.
Import Js.

Record Classification := mkClass {
  isTransient : bool;
  userMessage : jsstring
}.

Definition transientStatus : list Z := [408; 409; 429; 500; 502; 503; 504].

(** Text of an integer in a template literal. *)
Definition intToString (z : Z) : jsstring :=
  match z with
  | Zneg p => 45%N :: natToString (Npos p)
  | _ => natToString (Z.to_N z)
  end.

(** A status is truthy when it is present and not 0. *)
Definition truthyStatus (status : option Z) : bool :=
  match status with
  | Some z => negb (z =? 0)
  | None => false
  end.

Definition statusIs (status : option Z) (z : Z) : bool :=
  match status with
  | Some s => s =? z
  | None => false
  end.

(** Is ["tokens"] found before the line ends? The dot of [max.*tokens]
    matches every code unit except a line terminator. *)
Fixpoint tokensOnLine (s : jsstring) : bool :=
  startsWithCI (js "tokens") s ||
  match s with
  | [] => false
  | c :: r => if isLineTerminator c then false else tokensOnLine r
  end.

Fixpoint maxThenTokens (s : jsstring) : bool :=
  (startsWithCI (js "max") s && tokensOnLine (skipn 3 s)) ||
  match s with
  | [] => false
  | _ :: r => maxThenTokens r
  end.

(** [/context length|max.*tokens|too long/i.test(s)] *)
Definition matchesTooLong (s : jsstring) : bool :=
  includesCI (js "context length") s || maxThenTokens s
  || includesCI (js "too long") s.

(** [/aborted/i.test(s)] *)
Definition matchesAborted (s : jsstring) : bool := includesCI (js "aborted") s.

(** [/ECONNRESET|ENOTFOUND|EAI_AGAIN|ETIMEDOUT|network/i.test(s)] *)
Definition matchesNetwork (s : jsstring) : bool :=
  includesCI (js "ECONNRESET") s || includesCI (js "ENOTFOUND") s
  || includesCI (js "EAI_AGAIN") s || includesCI (js "ETIMEDOUT") s
  || includesCI (js "network") s.

(** A status that no rule on statuses matches: absent, or below 400. *)
Definition noFailureStatus (status : option Z) : Prop :=
  match status with
  | Some s => s < 400
  | None => True
  end.

(** The abort test of the classifier: the error is named [AbortError]
    or its message matches [/aborted/i]. *)
Definition isAbortOf (message name : option jsstring) : bool :=
  bool_decide (name = Some (js "AbortError"))
  || matchesAborted (default [] message).

Definition classifyOpenAiFailure
  (status : option Z) (message name : option jsstring) : Classification :=
  let msg := default [] message in
  let isAbort :=
    bool_decide (name = Some (js "AbortError")) || matchesAborted msg in
  let isNetwork := matchesNetwork msg in
  let isTransient :=
    (truthyStatus status
     && bool_decide (default 0 status ∈ transientStatus))
    || isAbort || isNetwork in
  if statusIs status 401 || statusIs status 403 then
    mkClass false (js "OpenAI API key is invalid or missing.")
  else if statusIs status 429 then
    mkClass true (js "OpenAI rate limit reached.")
  else if statusIs status 400 && matchesTooLong msg then
    mkClass false (js "Input is too long for the model.")
  else if truthyStatus status && (400 <=? default 0 status)
          && (default 0 status <? 500) then
    mkClass false
      (js "OpenAI request failed (" ++ intToString (default 0 status)
       ++ js ").")
  else if truthyStatus status && (500 <=? default 0 status) then
    mkClass true
      (js "OpenAI server error (" ++ intToString (default 0 status)
       ++ js ").")
  else if isAbort then mkClass true (js "OpenAI request timed out.")
  else if isNetwork then
    mkClass true (js "Network error while calling OpenAI.")
  else mkClass isTransient (js "OpenAI request failed.").

End Classifier.

(** ** The broker adapter ([queue.server.js]) *)

Module Queue.
Import Js.

Definition QUEUE_NAME : jsstring := js "seo-jobs".
Definition JOB_NAME : jsstring := js "process-seo-job".

(** [String(input || "").trim().replace(/[:]/g, "-")] *)
Definition safeBullId (input : option jsstring) : jsstring :=
  map (fun c => if (c =? 58)%N then 45%N else c) (trim (default [] input)).

(** What [queue.add] receives. *)
Record AddCall := mkAdd {
  add_name : jsstring;
  data_jobId : jsstring;
  data_kind : jsstring;
  opt_jobId : jsstring;
  opt_attempts : Z;
  opt_backoffType : jsstring;
  opt_backoffDelay : Z;
  opt_removeOnComplete : bool;
  opt_removeOnFail : bool
}.

Definition customIdOf (jobId : jsstring) (kind : jsstring) : jsstring :=
  let safeJobId := safeBullId (Some jobId) in
  let safeKind := safeBullId (Some kind) in
  safeKind ++ js "-" ++ safeJobId.

(** [enqueueSeoJob(jobId, kind = "generate")]: the error thrown, or the
    call made on the queue. [redisUrl] is [process.env.REDIS_URL]. *)
Definition enqueueSeoJob (redisUrl : option jsstring)
  (jobId : option jsstring) (kind : option jsstring) : jsstring + AddCall :=
  match default [] redisUrl with
  | [] => inl (js "REDIS_URL is not set. Cannot enqueue jobs.")
  | _ :: _ =>
      let kind := default (js "generate") kind in
      let normalizedJobId := trim (default [] jobId) in
      match normalizedJobId with
      | [] => inl (js "enqueueSeoJob(jobId) missing jobId")
      | _ :: _ =>
          inr (mkAdd JOB_NAME normalizedJobId kind
                 (customIdOf normalizedJobId kind)
                 3 (js "exponential") 2000 true true)
      end
  end.

Record RemoveResult := mkRemove {
  rm_ok : bool;
  rm_removed : bool;
  rm_message : jsstring
}.

(** [removeSeoQueueJob(jobId, kind = "generate")]: the id passed to
    [queue.remove], if the call is reached, and the value returned.
    [removeFails] is the message of the error [queue.remove] throws,
    if it throws. *)
Definition removeSeoQueueJob (redisUrl : option jsstring)
  (removeFails : option jsstring)
  (jobId : option jsstring) (kind : option jsstring)
  : option jsstring * RemoveResult :=
  match default [] redisUrl with
  | [] => (None, mkRemove false false
                   (js "REDIS_URL is not set. Cannot enqueue jobs."))
  | _ :: _ =>
      let kind := default (js "generate") kind in
      let normalizedJobId := trim (default [] jobId) in
      match normalizedJobId with
      | [] => (None, mkRemove false false (js "Missing jobId"))
      | _ :: _ =>
          let customId := customIdOf normalizedJobId kind in
          match removeFails with
          | None => (Some customId, mkRemove true true (js "Removed from queue"))
          | Some m => (Some customId, mkRemove false false m)
          end
      end
  end.

(** A text that does not start with white space. *)
Definition noLeadingSpace (s : jsstring) : Prop :=
  match s with
  | [] => True
  | c :: _ => isWhiteSpace c = false
  end.

(** The sanitizer the specification words describe: colons are removed. *)
Definition stripColons (s : jsstring) : jsstring :=
  filter (fun c => c <> 58%N) s.

End Queue.

(** ** Free-plan monthly usage ([billing.usage.server.js]) *)

Module Billing.
Import Js.

(** A row of [freePlanUsageMonthly], keyed by (shop, month). *)
Record UsageRow := mkRow {
  used : Z;
  createdAt : Z;
  updatedAt : Z
}.

Abbreviation UsageTable := (gmap (jsstring * jsstring) UsageRow).

Record Reservation := mkReservation {
  ok : bool;
  code : jsstring;
  month : jsstring;
  r_used : Z;
  limit : Z;
  remaining : Z
}.

(** The counter of a shop for a month, as [row?.used ?? 0] reads it. *)
Definition usedOf (tbl : UsageTable) (shop monthKey : jsstring) : Z :=
  match tbl !! (shop, monthKey) with
  | Some row => used row
  | None => 0
  end.

(** The body of the serializable transaction, run to its commit. *)
Definition reserveTx (shop monthKey : jsstring) (safeCount lim now : Z)
  (tbl : UsageTable) : Reservation * UsageTable :=
  let tbl1 :=
    match tbl !! (shop, monthKey) with
    | Some row => <[(shop, monthKey) := mkRow (used row) (createdAt row) now]> tbl
    | None => <[(shop, monthKey) := mkRow 0 now now]> tbl
    end in
  let usedNow := usedOf tbl1 shop monthKey in
  let newUsed := usedNow + safeCount in
  if lim <? newUsed then
    (mkReservation false (js "FREE_LIMIT_EXCEEDED") monthKey usedNow lim
       (Z.max 0 (lim - usedNow)), tbl1)
  else
    (mkReservation true (js "OK") monthKey newUsed lim
       (Z.max 0 (lim - newUsed)),
     alter (fun row => mkRow newUsed (createdAt row) now) (shop, monthKey) tbl1).

Definition shouldRetry (msg : jsstring) : bool :=
  includes (js "Serialization") msg
  || includes (js "could not serialize access") msg
  || includes (js "P2034") msg
  || includes (js "deadlock detected") msg
  || includes (js "Transaction") msg
  || includes (js "timeout") msg.

Definition MAX_RETRIES : Z := 3.

(** The retry loop. [fault k] is the message of the error the [k]-th
    transaction throws, [None] when it commits; a transaction that
    throws leaves the table as it was. [fuel] counts the iterations left. *)
Fixpoint reserveLoop (fuel : nat) (attempt : Z) (fault : Z -> option jsstring)
  (shop monthKey : jsstring) (safeCount lim : Z) (now : Z -> Z)
  (tbl : UsageTable) : (jsstring + Reservation) * UsageTable :=
  match fuel with
  | O => (inr (mkReservation false (js "UNKNOWN") monthKey 0 lim lim), tbl)
  | S fuel' =>
      match fault attempt with
      | None =>
          let '(r, tbl') := reserveTx shop monthKey safeCount lim (now attempt) tbl in
          (inr r, tbl')
      | Some msg =>
          if negb (shouldRetry msg) || (attempt =? MAX_RETRIES) then (inl msg, tbl)
          else reserveLoop fuel' (attempt + 1) fault shop monthKey safeCount lim now tbl
      end
  end.

(** [reserveFreeUsageMonthly(shop, count, limit)]. [monthKey] is what
    [monthKeyIstanbul()] returns at the call, [now k] the time of the
    [k]-th transaction; the result is the error thrown or the object
    returned, with the table left behind. *)
Definition reserveFreeUsageMonthly (fault : Z -> option jsstring)
  (monthKey : jsstring) (now : Z -> Z)
  (shop : jsstring) (count : Z) (limit_ : option Z) (tbl : UsageTable)
  : (jsstring + Reservation) * UsageTable :=
  let safeCount := Z.max 0 count in
  let lim := default 10 limit_ in
  if safeCount =? 0 then
    (inr (mkReservation true (js "OK") monthKey 0 lim lim), tbl)
  else
    reserveLoop (Z.to_nat MAX_RETRIES) 1 fault shop monthKey safeCount lim now tbl.

(** The attempt whose transaction commits, if the loop reaches one:
    every earlier attempt failed on a conflict worth a retry. *)
Definition commitAttempt (fault : Z -> option jsstring) : option Z :=
  match fault 1 with
  | None => Some 1
  | Some m1 =>
      if shouldRetry m1 then
        match fault 2 with
        | None => Some 2
        | Some m2 =>
            if shouldRetry m2 then
              match fault 3 with
              | None => Some 3
              | Some _ => None
              end
            else None
        end
      else None
  end.

(** No transaction fails. *)
Definition noFault : Z -> option jsstring := fun _ => None.

(** The outcome the specification words describe, for a counter at
    [used0], a request of [n] and a limit [L]: refusal with code
    "LimitExceeded" and the counter kept, or acceptance with the counter
    and the returned [used] at [used0 + n] and what remains of [L]. *)
Definition meetsSpec (used0 n L : Z)
  (out : (jsstring + Reservation) * UsageTable) (shop monthKey : jsstring)
  : Prop :=
  match fst out with
  | inl _ => False
  | inr r =>
      if L <? used0 + n then
        ok r = false /\ code r = js "LimitExceeded"
        /\ usedOf (snd out) shop monthKey = used0
      else
        ok r = true /\ r_used r = used0 + n /\ remaining r = L - (used0 + n)
        /\ usedOf (snd out) shop monthKey = used0 + n
  end.

End Billing.

(** ** The text-service client: language guard and rewrite pass
    ([seo.worker.js]) *)

Module Generator.
Import Js Num.

(** [v || d] for a nullable string. *)
Definition orElse (v : option jsstring) (d : jsstring) : jsstring :=
  match v with
  | Some (c :: r) => c :: r
  | _ => d
  end.

(** [v || null] for a nullable string: the empty string becomes null. *)
Definition orNull (v : option jsstring) : option jsstring :=
  match v with
  | Some (c :: r) => Some (c :: r)
  | _ => None
  end.

Definition isLowerAZ (c : N) : bool := ((97 <=? c) && (c <=? 122))%N.

Definition sanitizeLanguage (input : option jsstring) : jsstring :=
  let raw := toLowerCase (trim (default [] input)) in
  match raw with
  | a :: b :: _ => if isLowerAZ a && isLowerAZ b then [a; b] else js "tr"
  | _ => js "tr"
  end.

(** The code units of [/[çğıöşüÇĞİÖŞÜ]/]. *)
Definition turkishUnits : list N :=
  [231; 287; 305; 246; 351; 252; 199; 286; 304; 214; 350; 220]%N.

Definition hasTurkishChars (s : jsstring) : bool :=
  existsb (fun c => bool_decide (c ∈ turkishUnits)) s.

Definition tokenScore (tokens : list jsstring) (s : jsstring) : Z :=
  let t := toLowerCase s in
  Z.of_nat (length (filter (fun k => Is_true (includes k t)) tokens)).

Definition englishTokens : list jsstring :=
  [js "the"; js "and"; js "for"; js "with"; js "discover"; js "experience";
   js "perfect"; js "unmatched"; js "slopes"; js "snowboarder"].

Definition englishTokenScore (s : jsstring) : Z := tokenScore englishTokens s.

(** "ve", "ile", "için", "mükemmel", "performans", "dayanıklı", "kış",
    "spor", "şık", "keşfedin" *)
Definition turkishTokens : list jsstring :=
  [js "ve"; js "ile"; js "i" ++ [231%N] ++ js "in";
   js "m" ++ [252%N] ++ js "kemmel"; js "performans";
   js "dayan" ++ [305%N] ++ js "kl" ++ [305%N];
   js "k" ++ [305%N; 351%N]; js "spor"; [351%N; 305%N] ++ js "k";
   js "ke" ++ [351%N] ++ js "fedin"].

Definition turkishTokenScore (s : jsstring) : Z := tokenScore turkishTokens s.

(** [texts.filter(Boolean).join(" ")] *)
Fixpoint joinWith (sep : jsstring) (l : list jsstring) : jsstring :=
  match l with
  | [] => []
  | [x] => x
  | x :: r => x ++ sep ++ joinWith sep r
  end.

Definition nonEmpty (s : jsstring) : bool :=
  match s with
  | [] => false
  | _ :: _ => true
  end.

Definition isLanguageMismatch (lang : jsstring) (texts : list jsstring) : bool :=
  let l := sanitizeLanguage (Some lang) in
  let combined := joinWith (js " ") (List.filter nonEmpty texts) in
  match combined with
  | [] => false
  | _ :: _ =>
      if eqb l (js "tr") then
        let hasTr := hasTurkishChars combined in
        let enScore := englishTokenScore combined in
        let trScore := turkishTokenScore combined in
        negb hasTr && (3 <=? enScore) && (trScore =? 0)
      else if eqb l (js "en") then hasTurkishChars combined
      else false
  end.

(** [Number.parseInt(s, 10)]: the integer read, [None] for NaN. *)
Definition parseInt10 (s : jsstring) : option Z :=
  let t := trimStart s in
  let '(neg, r) :=
    match t with
    | 45%N :: r => (true, r)
    | 43%N :: r => (false, r)
    | _ => (false, t)
    end in
  match parseDigits 10 r 0%N 0%nat with
  | (v, S _, _) => Some (if neg then - Z.of_N v else Z.of_N v)
  | (_, O, _) => None
  end.

(** The members of the settings object that bound the output. A member
    is the text [String(x)] of a truthy setting, [None] when the setting
    is falsy; the other members only feed the prompt. *)
Record Settings := mkSettings {
  titleMaxCharsSetting : option jsstring;
  descriptionMaxCharsSetting : option jsstring;
  altTextMaxCharsSetting : option jsstring;
  maxLength : option jsstring;
  promptSettings : list (jsstring * jsstring)
}.

(** The settings object [{}]. *)
Definition emptySettings : Settings := mkSettings None None None None [].

(** [Math.max(lo, Number.parseInt(String(x || ""), 10) || dflt)] *)
Definition maxCharsOf (lo dflt : Z) (setting : option jsstring) : Z :=
  Z.max lo
    match parseInt10 (default [] setting) with
    | Some 0 | None => dflt
    | Some n => n
    end.

Definition titleMaxCharsOf (s : Settings) : Z :=
  maxCharsOf 20 (if eqb (orElse (maxLength s) (js "standard")) (js "short")
                 then 55 else 70)
    (titleMaxCharsSetting s).

Definition descriptionMaxCharsOf (s : Settings) : Z :=
  maxCharsOf 60 (if eqb (orElse (maxLength s) (js "standard")) (js "short")
                 then 140 else 160)
    (descriptionMaxCharsSetting s).

Definition altMaxCharsOf (s : Settings) : Z :=
  maxCharsOf 40 125 (altTextMaxCharsSetting s).

(** A call of [openAiChatJson]. The source renders a system and a user
    prompt from these arguments; the prompts themselves are not rendered
    here, a call is identified by the function that makes it and by
    what it passes. *)
Inductive ChatCall :=
| SeoPrompt (lang title descriptionText : jsstring) (settings : Settings)
| AltPrompt (lang productTitle productDescriptionText currentAltText : jsstring)
    (settings : Settings)
| RewritePrompt (lang : jsstring) (inputJson : list (jsstring * jsstring))
    (keys : list jsstring) (max_tokens : Z).

(** The hooks [openAiChatJson] fires while it retries. *)
Inductive Telemetry :=
| OnAttempt (attempt : Z)
| OnRetry (attemptNumber waitMs : Z) (reason : jsstring).

(** The object the text service returned, read as the source reads it:
    a member is the text [String(x)] of a truthy value, [None] when the
    member is absent or falsy. *)
Record ChatReply := mkReply {
  r_seoTitle : option jsstring;
  r_seoDescription : option jsstring;
  r_altText : option jsstring
}.

(** What a call of [openAiChatJson] does: the hooks it fired, then the
    message of the error it throws or the object it returns. *)
Record ChatResult := mkChat {
  chat_events : list Telemetry;
  chat_outcome : jsstring + ChatReply
}.

Record SeoOut := mkSeoOut {
  seoTitle : jsstring;
  seoDescription : jsstring
}.

(** A run of a generating function: the calls made on the text service
    in order, the hooks fired, the error thrown or the value returned. *)
Record Run (A : Type) := mkRun {
  calls : list ChatCall;
  events : list Telemetry;
  outcome : jsstring + A
}.
Arguments mkRun {A}.
Arguments calls {A}.
Arguments events {A}.
Arguments outcome {A}.

(** [rewriteJsonToLanguage] *)
Definition rewriteJsonToLanguage (lang : jsstring)
  (inputJson : list (jsstring * jsstring)) (keys : list jsstring)
  (max_tokens : Z) : ChatCall :=
  RewritePrompt (sanitizeLanguage (Some lang)) inputJson keys max_tokens.

Definition generateSeoForProduct (chat : ChatCall -> ChatResult)
  (title descriptionText : jsstring) (language : option jsstring)
  (settings : Settings) : Run SeoOut :=
  let lang := sanitizeLanguage language in
  let titleMaxChars := titleMaxCharsOf settings in
  let descriptionMaxChars := descriptionMaxCharsOf settings in
  let first := SeoPrompt lang title descriptionText settings in
  let r1 := chat first in
  match chat_outcome r1 with
  | inl err => mkRun [first] (chat_events r1) (inl err)
  | inr out =>
      let seoTitle := default [] (r_seoTitle out) in
      let seoDescription := default [] (r_seoDescription out) in
      if isLanguageMismatch lang [seoTitle; seoDescription] then
        let second :=
          rewriteJsonToLanguage lang
            [(js "seoTitle", seoTitle); (js "seoDescription", seoDescription)]
            [js "seoTitle"; js "seoDescription"] 220 in
        let r2 := chat second in
        match chat_outcome r2 with
        | inl err =>
            mkRun [first; second] (chat_events r1 ++ chat_events r2) (inl err)
        | inr rewritten =>
            let seoTitle := orElse (r_seoTitle rewritten) seoTitle in
            let seoDescription := orElse (r_seoDescription rewritten) seoDescription in
            mkRun [first; second] (chat_events r1 ++ chat_events r2)
              (inr (mkSeoOut (slice0 (Z.to_nat titleMaxChars) seoTitle)
                      (slice0 (Z.to_nat descriptionMaxChars) seoDescription)))
        end
      else
        mkRun [first] (chat_events r1)
          (inr (mkSeoOut (slice0 (Z.to_nat titleMaxChars) seoTitle)
                  (slice0 (Z.to_nat descriptionMaxChars) seoDescription)))
  end.

Definition generateAltTextForImage (chat : ChatCall -> ChatResult)
  (productTitle productDescriptionText currentAltText : jsstring)
  (language : option jsstring) (settings : Settings) : Run jsstring :=
  let lang := sanitizeLanguage language in
  let maxChars := altMaxCharsOf settings in
  let first :=
    AltPrompt lang productTitle productDescriptionText currentAltText settings in
  let r1 := chat first in
  match chat_outcome r1 with
  | inl err => mkRun [first] (chat_events r1) (inl err)
  | inr out =>
      let altText := default [] (r_altText out) in
      if isLanguageMismatch lang [altText] then
        let second :=
          rewriteJsonToLanguage lang [(js "altText", altText)] [js "altText"] 120 in
        let r2 := chat second in
        match chat_outcome r2 with
        | inl err =>
            mkRun [first; second] (chat_events r1 ++ chat_events r2) (inl err)
        | inr rewritten =>
            let altText := orElse (r_altText rewritten) altText in
            mkRun [first; second] (chat_events r1 ++ chat_events r2)
              (inr (slice0 (Z.to_nat maxChars) altText))
        end
      else
        mkRun [first] (chat_events r1) (inr (slice0 (Z.to_nat maxChars) altText))
  end.

Definition isRewrite (c : ChatCall) : bool :=
  match c with
  | RewritePrompt _ _ _ _ => true
  | _ => false
  end.

(** How many rewrite passes a run asked for. *)
Definition rewritePasses {A} (r : Run A) : nat :=
  length (List.filter isRewrite (calls r)).

End Generator.

(** ** Writing SEO metafields back to the store ([seo.worker.js]) *)

Module StoreApi.
Import Js Generator.

(** An element of the [metafields] variable of [metafieldsSet]. *)
Record Metafield := mkMetafield {
  ownerId : jsstring;
  namespace : jsstring;
  key : jsstring;
  type_ : jsstring;
  value : jsstring
}.

Definition titleTag (owner v : jsstring) : Metafield :=
  mkMetafield owner (js "global") (js "title_tag")
    (js "single_line_text_field") v.

Definition descriptionTag (owner v : jsstring) : Metafield :=
  mkMetafield owner (js "global") (js "description_tag")
    (js "single_line_text_field") v.

(** What the read query answers about a product: the values of
    [p?.titleTag?.value], [p?.descriptionTag?.value], [p?.seo?.title]
    and [p?.seo?.description], [None] when null or absent. *)
Record ProductSeo := mkProductSeo {
  p_titleTag : option jsstring;
  p_descriptionTag : option jsstring;
  p_seoTitle : option jsstring;
  p_seoDescription : option jsstring
}.

(** The node [fetchArticle] returns, [None] when it returns null. *)
Record ArticleNode := mkArticle {
  a_title : option jsstring;
  a_body : option jsstring;
  a_titleTag : option jsstring;
  a_descriptionTag : option jsstring
}.

(** A request sent through the admin client. *)
Inductive AdminCall :=
| QueryProductSeo (id : jsstring)
| QueryArticle (id : jsstring)
| MetafieldsSet (metafields : list Metafield).

(** The admin client: what each read answers or the error it throws,
    and for a [metafieldsSet] sent through [shopifyGraphqlJsonWithRetry]
    the error thrown once retries are used up or the messages of the
    [userErrors] returned. *)
Record Admin := mkAdmin {
  productSeo : jsstring -> jsstring + ProductSeo;
  article : jsstring -> jsstring + option ArticleNode;
  metafieldsSet : list Metafield -> jsstring + list jsstring
}.

(** A run of a writer: the requests sent in order, and the error thrown
    or the normal return. *)
Record Written := mkWritten {
  sent : list AdminCall;
  result : jsstring + unit
}.

(** The options object [{ metaTitle = true, metaDescription = true }]. *)
Record WriteOptions := mkWriteOptions {
  metaTitle : option bool;
  metaDescription : option bool
}.

(** The entries [updateProductSeo] stages, given the live values read. *)
Definition stageProduct (id : jsstring) (seoTitle seoDescription : option jsstring)
  (o : WriteOptions) (p : ProductSeo) : list Metafield :=
  let metaTitle := default true (metaTitle o) in
  let metaDescription := default true (metaDescription o) in
  let titleVal := trim (default [] seoTitle) in
  let descVal := trim (default [] seoDescription) in
  let titleTagVal := trim (default [] (p_titleTag p)) in
  let descTagVal := trim (default [] (p_descriptionTag p)) in
  let seoTitleVal := trim (default [] (p_seoTitle p)) in
  let seoDescVal := trim (default [] (p_seoDescription p)) in
  let currentTitle := if nonEmpty titleTagVal then titleTagVal else seoTitleVal in
  let currentDesc := if nonEmpty descTagVal then descTagVal else seoDescVal in
  let willWriteTitle := metaTitle && nonEmpty titleVal in
  let willWriteDesc := metaDescription && nonEmpty descVal in
  (if willWriteTitle then [titleTag id titleVal] else [])
  ++ (if willWriteDesc then [descriptionTag id descVal] else [])
  ++ (if willWriteTitle && negb willWriteDesc && metaDescription then
        let existingDescTag := trim (default [] (p_descriptionTag p)) in
        if negb (nonEmpty existingDescTag) && nonEmpty currentDesc
        then [descriptionTag id currentDesc] else []
      else [])
  ++ (if willWriteDesc && negb willWriteTitle && metaTitle then
        let existingTitleTag := trim (default [] (p_titleTag p)) in
        if negb (nonEmpty existingTitleTag) && nonEmpty currentTitle
        then [titleTag id currentTitle] else []
      else []).

Definition updateProductSeo (admin : Admin) (id : jsstring)
  (seoTitle seoDescription : option jsstring) (o : WriteOptions) : Written :=
  match productSeo admin id with
  | inl err => mkWritten [QueryProductSeo id] (inl err)
  | inr p =>
      let metafields := stageProduct id seoTitle seoDescription o p in
      match metafields with
      | [] => mkWritten [QueryProductSeo id] (inr tt)
      | _ :: _ =>
          let log := [QueryProductSeo id; MetafieldsSet metafields] in
          match metafieldsSet admin metafields with
          | inl err => mkWritten log (inl err)
          | inr [] => mkWritten log (inr tt)
          | inr (e :: errs) => mkWritten log (inl (joinWith (js " | ") (e :: errs)))
          end
      end
  end.

Definition articlePrefix : jsstring := js "gid://shopify/Article/".
Definition onlineStoreArticlePrefix : jsstring :=
  js "gid://shopify/OnlineStoreArticle/".

Definition normalizeArticleOwnerId (id : jsstring) : jsstring :=
  match id with
  | [] => []
  | _ :: _ =>
      let s := trim id in
      if startsWith articlePrefix s then s
      else if startsWith onlineStoreArticlePrefix s then
        replaceFirst onlineStoreArticlePrefix articlePrefix s
      else if nonEmpty s && forallb isDigit s then articlePrefix ++ s
      else s
  end.

(** [c.filter((v, i) => c.indexOf(v) === i)] *)
Fixpoint dedupe (seen c : list jsstring) : list jsstring :=
  match c with
  | [] => []
  | v :: r =>
      if bool_decide (v ∈ seen) then dedupe seen r
      else v :: dedupe (v :: seen) r
  end.

Definition ownerIdCandidatesForArticle (articleId : option jsstring)
  : list jsstring :=
  let s := trim (default [] articleId) in
  let c1 := if nonEmpty s then [s] else [] in
  let norm := normalizeArticleOwnerId s in
  let c2 := if nonEmpty norm then [norm] else [] in
  let c3 :=
    if startsWith onlineStoreArticlePrefix s
    then [replaceFirst onlineStoreArticlePrefix articlePrefix s] else [] in
  dedupe [] (c1 ++ c2 ++ c3).

(** The entries staged for one owner id candidate of an article. *)
Definition stageArticle (currentOwnerId : jsstring)
  (seoTitle seoDescription : option jsstring) (o : WriteOptions)
  (liveTitle liveDesc : jsstring) : list Metafield :=
  let metaTitle := default true (metaTitle o) in
  let metaDescription := default true (metaDescription o) in
  let titleVal := trim (default [] seoTitle) in
  let descVal := trim (default [] seoDescription) in
  let willWriteTitle := metaTitle && nonEmpty titleVal in
  let willWriteDesc := metaDescription && nonEmpty descVal in
  (if willWriteTitle then [titleTag currentOwnerId titleVal] else [])
  ++ (if willWriteDesc then [descriptionTag currentOwnerId descVal] else [])
  ++ (if willWriteTitle && negb willWriteDesc && metaDescription then
        if negb (nonEmpty liveDesc) then []
        else [descriptionTag currentOwnerId liveDesc]
      else [])
  ++ (if willWriteDesc && negb willWriteTitle && metaTitle then
        if negb (nonEmpty liveTitle) then []
        else [titleTag currentOwnerId liveTitle]
      else []).

(** [/invalid id/i.test(msg)] *)
Definition matchesInvalidId (msg : jsstring) : bool :=
  includesCI (js "invalid id") msg.

(** The text of a caught error, [String(e?.message || e)]: an error
    with an empty message prints as its name. *)
Definition errorText (message : jsstring) : jsstring :=
  match message with
  | [] => js "Error"
  | _ :: _ => message
  end.

(** The loop of [updateArticleSeoMetafields] over the owner id
    candidates left; [tried] is the whole list, for the final error. *)
Fixpoint writeArticleCandidates (admin : Admin) (tried left : list jsstring)
  (seoTitle seoDescription : option jsstring) (o : WriteOptions)
  (liveTitle liveDesc : jsstring) : Written :=
  match left with
  | [] =>
      mkWritten []
        (inl (js "Invalid id for Article metafields ownerId. Tried: "
              ++ joinWith (js ", ") tried))
  | currentOwnerId :: rest =>
      let metafields :=
        stageArticle currentOwnerId seoTitle seoDescription o liveTitle liveDesc in
      match metafields with
      | [] => mkWritten [] (inr tt)
      | _ :: _ =>
          let next :=
            writeArticleCandidates admin tried rest seoTitle seoDescription o
              liveTitle liveDesc in
          let retry := mkWritten (MetafieldsSet metafields :: sent next) (result next) in
          match metafieldsSet admin metafields with
          | inr [] => mkWritten [MetafieldsSet metafields] (inr tt)
          | inr (e :: errs) =>
              let msg := joinWith (js " | ") (e :: errs) in
              if matchesInvalidId msg then retry
              else mkWritten [MetafieldsSet metafields] (inl msg)
          | inl err =>
              if matchesInvalidId (errorText err) then retry
              else mkWritten [MetafieldsSet metafields] (inl err)
          end
      end
  end.

Definition updateArticleSeoMetafields (admin : Admin) (articleId : jsstring)
  (seoTitle seoDescription : option jsstring) (o : WriteOptions) : Written :=
  let ownerIdCandidates := ownerIdCandidatesForArticle (Some articleId) in
  let live :=
    match article admin articleId with
    | inl _ => None
    | inr node => node
    end in
  let liveTitle := trim (default [] (live ≫= a_titleTag)) in
  let liveDesc := trim (default [] (live ≫= a_descriptionTag)) in
  let w :=
    writeArticleCandidates admin ownerIdCandidates ownerIdCandidates
      seoTitle seoDescription o liveTitle liveDesc in
  mkWritten (QueryArticle articleId :: sent w) (result w).

(** The metafield lists of the write mutations among the requests. *)
Definition mutationsOf (calls : list AdminCall) : list (list Metafield) :=
  flat_map (fun c => match c with
                     | MetafieldsSet ms => [ms]
                     | _ => []
                     end) calls.

End StoreApi.

(** ** The job store ([SeoJob], [SeoJobItem]) *)

(** A row of [seoJob]. A nullable column is an [option]; times are milliseconds since the epoch. *)

Module SeoJob.
Import Js.

Record t := mk {
  id : jsstring;
  shop : option jsstring;
  status : option jsstring;
  phase : option jsstring;
  jobType : option jsstring;
  total : Z;
  okCount : Z;
  failedCount : Z;
  publishOkCount : Z;
  publishFailedCount : Z;
  totalAttempts : Z;
  totalRetryWaitMs : Z;
  language : option jsstring;
  settingsJson : option jsstring;
  metaTitle : bool;
  metaDescription : bool;
  usageReserved : bool;
  usageCount : Z;
  lastError : option jsstring;
  createdAt : Z;
  startedAt : option Z;
  finishedAt : option Z;
  publishStartedAt : option Z;
  publishFinishedAt : option Z;
  lastHeartbeatAt : option Z;
  lockOwner : option jsstring;
  lockExpiresAt : option Z
}.

Definition set_status (v : option jsstring) (r : t) : t :=
  mk (id r) (shop r) v (phase r) (jobType r) (total r) (okCount r)
  (failedCount r) (publishOkCount r) (publishFailedCount r) (totalAttempts r)
  (totalRetryWaitMs r) (language r) (settingsJson r) (metaTitle r)
  (metaDescription r) (usageReserved r) (usageCount r) (lastError r)
  (createdAt r) (startedAt r) (finishedAt r) (publishStartedAt r)
  (publishFinishedAt r) (lastHeartbeatAt r) (lockOwner r) (lockExpiresAt r).

Definition set_phase (v : option jsstring) (r : t) : t :=
  mk (id r) (shop r) (status r) v (jobType r) (total r) (okCount r)
  (failedCount r) (publishOkCount r) (publishFailedCount r) (totalAttempts r)
  (totalRetryWaitMs r) (language r) (settingsJson r) (metaTitle r)
  (metaDescription r) (usageReserved r) (usageCount r) (lastError r)
  (createdAt r) (startedAt r) (finishedAt r) (publishStartedAt r)
  (publishFinishedAt r) (lastHeartbeatAt r) (lockOwner r) (lockExpiresAt r).

Definition set_okCount (v : Z) (r : t) : t :=
  mk (id r) (shop r) (status r) (phase r) (jobType r) (total r) v
  (failedCount r) (publishOkCount r) (publishFailedCount r) (totalAttempts r)
  (totalRetryWaitMs r) (language r) (settingsJson r) (metaTitle r)
  (metaDescription r) (usageReserved r) (usageCount r) (lastError r)
  (createdAt r) (startedAt r) (finishedAt r) (publishStartedAt r)
  (publishFinishedAt r) (lastHeartbeatAt r) (lockOwner r) (lockExpiresAt r).

Definition set_failedCount (v : Z) (r : t) : t :=
  mk (id r) (shop r) (status r) (phase r) (jobType r) (total r) (okCount r) v
  (publishOkCount r) (publishFailedCount r) (totalAttempts r)
  (totalRetryWaitMs r) (language r) (settingsJson r) (metaTitle r)
  (metaDescription r) (usageReserved r) (usageCount r) (lastError r)
  (createdAt r) (startedAt r) (finishedAt r) (publishStartedAt r)
  (publishFinishedAt r) (lastHeartbeatAt r) (lockOwner r) (lockExpiresAt r).

Definition set_totalAttempts (v : Z) (r : t) : t :=
  mk (id r) (shop r) (status r) (phase r) (jobType r) (total r) (okCount r)
  (failedCount r) (publishOkCount r) (publishFailedCount r) v
  (totalRetryWaitMs r) (language r) (settingsJson r) (metaTitle r)
  (metaDescription r) (usageReserved r) (usageCount r) (lastError r)
  (createdAt r) (startedAt r) (finishedAt r) (publishStartedAt r)
  (publishFinishedAt r) (lastHeartbeatAt r) (lockOwner r) (lockExpiresAt r).

Definition set_totalRetryWaitMs (v : Z) (r : t) : t :=
  mk (id r) (shop r) (status r) (phase r) (jobType r) (total r) (okCount r)
  (failedCount r) (publishOkCount r) (publishFailedCount r) (totalAttempts r)
  v (language r) (settingsJson r) (metaTitle r) (metaDescription r)
  (usageReserved r) (usageCount r) (lastError r) (createdAt r) (startedAt r)
  (finishedAt r) (publishStartedAt r) (publishFinishedAt r)
  (lastHeartbeatAt r) (lockOwner r) (lockExpiresAt r).

Definition set_lastError (v : option jsstring) (r : t) : t :=
  mk (id r) (shop r) (status r) (phase r) (jobType r) (total r) (okCount r)
  (failedCount r) (publishOkCount r) (publishFailedCount r) (totalAttempts r)
  (totalRetryWaitMs r) (language r) (settingsJson r) (metaTitle r)
  (metaDescription r) (usageReserved r) (usageCount r) v (createdAt r)
  (startedAt r) (finishedAt r) (publishStartedAt r) (publishFinishedAt r)
  (lastHeartbeatAt r) (lockOwner r) (lockExpiresAt r).

Definition set_startedAt (v : option Z) (r : t) : t :=
  mk (id r) (shop r) (status r) (phase r) (jobType r) (total r) (okCount r)
  (failedCount r) (publishOkCount r) (publishFailedCount r) (totalAttempts r)
  (totalRetryWaitMs r) (language r) (settingsJson r) (metaTitle r)
  (metaDescription r) (usageReserved r) (usageCount r) (lastError r)
  (createdAt r) v (finishedAt r) (publishStartedAt r) (publishFinishedAt r)
  (lastHeartbeatAt r) (lockOwner r) (lockExpiresAt r).

Definition set_finishedAt (v : option Z) (r : t) : t :=
  mk (id r) (shop r) (status r) (phase r) (jobType r) (total r) (okCount r)
  (failedCount r) (publishOkCount r) (publishFailedCount r) (totalAttempts r)
  (totalRetryWaitMs r) (language r) (settingsJson r) (metaTitle r)
  (metaDescription r) (usageReserved r) (usageCount r) (lastError r)
  (createdAt r) (startedAt r) v (publishStartedAt r) (publishFinishedAt r)
  (lastHeartbeatAt r) (lockOwner r) (lockExpiresAt r).

Definition set_publishFinishedAt (v : option Z) (r : t) : t :=
  mk (id r) (shop r) (status r) (phase r) (jobType r) (total r) (okCount r)
  (failedCount r) (publishOkCount r) (publishFailedCount r) (totalAttempts r)
  (totalRetryWaitMs r) (language r) (settingsJson r) (metaTitle r)
  (metaDescription r) (usageReserved r) (usageCount r) (lastError r)
  (createdAt r) (startedAt r) (finishedAt r) (publishStartedAt r) v
  (lastHeartbeatAt r) (lockOwner r) (lockExpiresAt r).

Definition set_lastHeartbeatAt (v : option Z) (r : t) : t :=
  mk (id r) (shop r) (status r) (phase r) (jobType r) (total r) (okCount r)
  (failedCount r) (publishOkCount r) (publishFailedCount r) (totalAttempts r)
  (totalRetryWaitMs r) (language r) (settingsJson r) (metaTitle r)
  (metaDescription r) (usageReserved r) (usageCount r) (lastError r)
  (createdAt r) (startedAt r) (finishedAt r) (publishStartedAt r)
  (publishFinishedAt r) v (lockOwner r) (lockExpiresAt r).

Definition set_lockOwner (v : option jsstring) (r : t) : t :=
  mk (id r) (shop r) (status r) (phase r) (jobType r) (total r) (okCount r)
  (failedCount r) (publishOkCount r) (publishFailedCount r) (totalAttempts r)
  (totalRetryWaitMs r) (language r) (settingsJson r) (metaTitle r)
  (metaDescription r) (usageReserved r) (usageCount r) (lastError r)
  (createdAt r) (startedAt r) (finishedAt r) (publishStartedAt r)
  (publishFinishedAt r) (lastHeartbeatAt r) v (lockExpiresAt r).

Definition set_lockExpiresAt (v : option Z) (r : t) : t :=
  mk (id r) (shop r) (status r) (phase r) (jobType r) (total r) (okCount r)
  (failedCount r) (publishOkCount r) (publishFailedCount r) (totalAttempts r)
  (totalRetryWaitMs r) (language r) (settingsJson r) (metaTitle r)
  (metaDescription r) (usageReserved r) (usageCount r) (lastError r)
  (createdAt r) (startedAt r) (finishedAt r) (publishStartedAt r)
  (publishFinishedAt r) (lastHeartbeatAt r) (lockOwner r) v.

End SeoJob.

(** A row of [seoJobItem]. *)

Module SeoJobItem.
Import Js.

Record t := mk {
  id : jsstring;
  jobId : jsstring;
  targetType : jsstring;
  targetId : option jsstring;
  productId : option jsstring;
  productTitle : option jsstring;
  mediaId : option jsstring;
  imageUrl : option jsstring;
  status : option jsstring;
  startedAt : option Z;
  finishedAt : option Z;
  error : option jsstring;
  genAttempts : Z;
  genRetryWaitMs : Z;
  seoTitle : option jsstring;
  seoDescription : option jsstring;
  publishStatus : option jsstring;
  publishedAt : option Z;
  publishError : option jsstring;
  publishAttempts : Z;
  publishRetryWaitMs : Z
}.

Definition set_status (v : option jsstring) (r : t) : t :=
  mk (id r) (jobId r) (targetType r) (targetId r) (productId r)
  (productTitle r) (mediaId r) (imageUrl r) v (startedAt r) (finishedAt r)
  (error r) (genAttempts r) (genRetryWaitMs r) (seoTitle r)
  (seoDescription r) (publishStatus r) (publishedAt r) (publishError r)
  (publishAttempts r) (publishRetryWaitMs r).

Definition set_startedAt (v : option Z) (r : t) : t :=
  mk (id r) (jobId r) (targetType r) (targetId r) (productId r)
  (productTitle r) (mediaId r) (imageUrl r) (status r) v (finishedAt r)
  (error r) (genAttempts r) (genRetryWaitMs r) (seoTitle r)
  (seoDescription r) (publishStatus r) (publishedAt r) (publishError r)
  (publishAttempts r) (publishRetryWaitMs r).

Definition set_finishedAt (v : option Z) (r : t) : t :=
  mk (id r) (jobId r) (targetType r) (targetId r) (productId r)
  (productTitle r) (mediaId r) (imageUrl r) (status r) (startedAt r) v
  (error r) (genAttempts r) (genRetryWaitMs r) (seoTitle r)
  (seoDescription r) (publishStatus r) (publishedAt r) (publishError r)
  (publishAttempts r) (publishRetryWaitMs r).

Definition set_error (v : option jsstring) (r : t) : t :=
  mk (id r) (jobId r) (targetType r) (targetId r) (productId r)
  (productTitle r) (mediaId r) (imageUrl r) (status r) (startedAt r)
  (finishedAt r) v (genAttempts r) (genRetryWaitMs r) (seoTitle r)
  (seoDescription r) (publishStatus r) (publishedAt r) (publishError r)
  (publishAttempts r) (publishRetryWaitMs r).

Definition set_genAttempts (v : Z) (r : t) : t :=
  mk (id r) (jobId r) (targetType r) (targetId r) (productId r)
  (productTitle r) (mediaId r) (imageUrl r) (status r) (startedAt r)
  (finishedAt r) (error r) v (genRetryWaitMs r) (seoTitle r)
  (seoDescription r) (publishStatus r) (publishedAt r) (publishError r)
  (publishAttempts r) (publishRetryWaitMs r).

Definition set_genRetryWaitMs (v : Z) (r : t) : t :=
  mk (id r) (jobId r) (targetType r) (targetId r) (productId r)
  (productTitle r) (mediaId r) (imageUrl r) (status r) (startedAt r)
  (finishedAt r) (error r) (genAttempts r) v (seoTitle r) (seoDescription r)
  (publishStatus r) (publishedAt r) (publishError r) (publishAttempts r)
  (publishRetryWaitMs r).

Definition set_productTitle (v : option jsstring) (r : t) : t :=
  mk (id r) (jobId r) (targetType r) (targetId r) (productId r) v (mediaId r)
  (imageUrl r) (status r) (startedAt r) (finishedAt r) (error r)
  (genAttempts r) (genRetryWaitMs r) (seoTitle r) (seoDescription r)
  (publishStatus r) (publishedAt r) (publishError r) (publishAttempts r)
  (publishRetryWaitMs r).

Definition set_seoTitle (v : option jsstring) (r : t) : t :=
  mk (id r) (jobId r) (targetType r) (targetId r) (productId r)
  (productTitle r) (mediaId r) (imageUrl r) (status r) (startedAt r)
  (finishedAt r) (error r) (genAttempts r) (genRetryWaitMs r) v
  (seoDescription r) (publishStatus r) (publishedAt r) (publishError r)
  (publishAttempts r) (publishRetryWaitMs r).

Definition set_seoDescription (v : option jsstring) (r : t) : t :=
  mk (id r) (jobId r) (targetType r) (targetId r) (productId r)
  (productTitle r) (mediaId r) (imageUrl r) (status r) (startedAt r)
  (finishedAt r) (error r) (genAttempts r) (genRetryWaitMs r) (seoTitle r) v
  (publishStatus r) (publishedAt r) (publishError r) (publishAttempts r)
  (publishRetryWaitMs r).

Definition set_publishStatus (v : option jsstring) (r : t) : t :=
  mk (id r) (jobId r) (targetType r) (targetId r) (productId r)
  (productTitle r) (mediaId r) (imageUrl r) (status r) (startedAt r)
  (finishedAt r) (error r) (genAttempts r) (genRetryWaitMs r) (seoTitle r)
  (seoDescription r) v (publishedAt r) (publishError r) (publishAttempts r)
  (publishRetryWaitMs r).

Definition set_publishError (v : option jsstring) (r : t) : t :=
  mk (id r) (jobId r) (targetType r) (targetId r) (productId r)
  (productTitle r) (mediaId r) (imageUrl r) (status r) (startedAt r)
  (finishedAt r) (error r) (genAttempts r) (genRetryWaitMs r) (seoTitle r)
  (seoDescription r) (publishStatus r) (publishedAt r) v (publishAttempts r)
  (publishRetryWaitMs r).

End SeoJobItem.

(** ** The worker: generate phase and stuck-job recovery
    ([seo.worker.js]) *)

Module Worker.
Import Js Generator StoreApi.

(** The tables, the per-shop locks of the key-value store (owner and
    expiry time) and the wall clock. *)
Record Store := mkStore {
  jobs : gmap jsstring SeoJob.t;
  items : gmap jsstring SeoJobItem.t;
  shopLocks : gmap jsstring (jsstring * Z);
  clock : Z
}.

(** Process configuration read from the environment. *)
Record Config := mkConfig {
  SHOP_LOCK_TTL_MS : Z;
  STUCK_JOB_MINUTES : N
}.

Definition defaultConfig : Config := mkConfig (15 * 60000) 10.

(** Every row is stored under its primary key. *)
Definition wfStore (w : Store) : Prop :=
  map_Forall (fun k j => SeoJob.id j = k) (jobs w)
  /\ map_Forall (fun k it => SeoJobItem.id it = k) (items w).

(** [prisma.seoJob.update({ where: { id }, data })]; the row addressed
    exists in every run considered. *)
Definition jobUpdate (id : jsstring) (data : SeoJob.t -> SeoJob.t) (w : Store)
  : Store :=
  mkStore (alter data id (jobs w)) (items w) (shopLocks w) (clock w).

(** [prisma.seoJobItem.update({ where: { id }, data })] *)
Definition itemUpdate (id : jsstring) (data : SeoJobItem.t -> SeoJobItem.t)
  (w : Store) : Store :=
  mkStore (jobs w) (alter data id (items w)) (shopLocks w) (clock w).

(** [prisma.seoJobItem.updateMany({ where, data })] *)
Definition itemUpdateMany (where_ : SeoJobItem.t -> bool)
  (data : SeoJobItem.t -> SeoJobItem.t) (w : Store) : Store :=
  mkStore (jobs w)
    ((fun it => if where_ it then data it else it) <$> items w)
    (shopLocks w) (clock w).

(** [prisma.seoJob.updateMany({ where, data })] *)
Definition jobUpdateMany (where_ : SeoJob.t -> bool)
  (data : SeoJob.t -> SeoJob.t) (w : Store) : Store :=
  mkStore ((fun j => if where_ j then data j else j) <$> jobs w)
    (items w) (shopLocks w) (clock w).

(** [await sleep(ms)] *)
Definition sleep (ms : Z) (w : Store) : Store :=
  mkStore (jobs w) (items w) (shopLocks w) (clock w + ms).

(** Order of the code units, for [orderBy: { id: "asc" }]. *)
Fixpoint idLeb (a b : jsstring) : bool :=
  match a, b with
  | [], _ => true
  | _ :: _, [] => false
  | x :: a', y :: b' => (x <? y)%N || ((x =? y)%N && idLeb a' b')
  end.

Definition itemIdLe (a b : SeoJobItem.t) : Prop :=
  Is_true (idLeb (SeoJobItem.id a) (SeoJobItem.id b)).

Definition jobCreatedLe (a b : SeoJob.t) : Prop :=
  SeoJob.createdAt a <= SeoJob.createdAt b.

#[global] Instance itemIdLe_dec a b : Decision (itemIdLe a b).
Proof. unfold itemIdLe. apply _. Defined.

#[global] Instance jobCreatedLe_dec a b : Decision (jobCreatedLe a b).
Proof. unfold jobCreatedLe. apply _. Defined.

(** [prisma.seoJobItem.findMany({ where, orderBy: { id: "asc" } })] *)
Definition itemFindMany (where_ : SeoJobItem.t -> bool) (w : Store)
  : list SeoJobItem.t :=
  merge_sort itemIdLe
    (List.filter where_ (snd <$> map_to_list (items w))).

Definition statusIs (v : option jsstring) (s : string) : bool :=
  bool_decide (v = Some (js s)).

Definition isJobCancelled (jobId : jsstring) (w : Store) : bool :=
  let s := toLowerCase (orElse (jobs w !! trim jobId ≫= SeoJob.status) []) in
  eqb s (js "cancelled") || eqb s (js "canceled").

(** [stripHtml]: tags become a space, runs of white space one space. *)
Fixpoint stripTags (inTag : bool) (s : jsstring) : jsstring :=
  match s with
  | [] => []
  | c :: r =>
      if inTag then
        if (c =? 62)%N then 32%N :: stripTags false r else stripTags true r
      else if (c =? 60)%N && existsb (N.eqb 62) r then stripTags true r
      else c :: stripTags false r
  end.

Fixpoint collapseSpaces (afterSpace : bool) (s : jsstring) : jsstring :=
  match s with
  | [] => []
  | c :: r =>
      if isWhiteSpace c then
        if afterSpace then collapseSpaces true r
        else 32%N :: collapseSpaces true r
      else c :: collapseSpaces false r
  end.

Definition stripHtml (html : option jsstring) : jsstring :=
  trim (collapseSpaces false (stripTags false (default [] html))).

(** *** Locks *)

Definition shopLockKey (shop : option jsstring) : jsstring :=
  js "seo:shop-lock:" ++ toLowerCase (trim (default [] shop)).

(** [redis.get(key)]: the owner, unless the key is missing or expired. *)
Definition redisGet (key : jsstring) (w : Store) : option jsstring :=
  match shopLocks w !! key with
  | Some (owner, expires) => if clock w <? expires then Some owner else None
  | None => None
  end.

Definition refreshShopLock (cfg : Config) (shop : option jsstring)
  (owner : option jsstring) (w : Store) : Store :=
  let key := shopLockKey shop in
  if bool_decide (redisGet key w = owner) then
    mkStore (jobs w) (items w)
      (alter (fun l => (fst l, clock w + SHOP_LOCK_TTL_MS cfg)) key (shopLocks w))
      (clock w)
  else w.

Definition touchLock (cfg : Config) (jobId : jsstring)
  (lockOwner : option jsstring) (ttlMs : Z) (shop : option jsstring)
  (w : Store) : Store :=
  let expires := clock w + ttlMs in
  let w1 :=
    jobUpdateMany
      (fun j => eqb (SeoJob.id j) jobId
                && bool_decide (SeoJob.lockOwner j = lockOwner))
      (fun j => SeoJob.set_lockExpiresAt (Some expires)
                  (SeoJob.set_lastHeartbeatAt (Some (clock w)) j))
      w in
  if nonEmpty (default [] shop) then refreshShopLock cfg shop lockOwner w1
  else w1.

(** *** The generate phase *)

Record Product := mkProduct {
  title : option jsstring;
  descriptionHtml : option jsstring
}.

(** The world around a generate run: what [JSON.parse] makes of the
    stored settings (or the error it throws), the error
    [unauthenticated.admin] throws for a shop if it does, what the two
    reads answer, and the text service. *)
Record Env := mkEnv {
  parseSettings : jsstring -> jsstring + Settings;
  adminError : jsstring -> option jsstring;
  fetchProduct : option jsstring -> jsstring + option Product;
  fetchArticle : jsstring -> jsstring + option ArticleNode;
  chat : ChatCall -> ChatResult
}.

Definition getAdminClientForShop (env : Env) (shop : option jsstring)
  : jsstring + unit :=
  match trim (default [] shop) with
  | [] => inl (js "Missing shop on SeoJob (job.shop is empty).")
  | shopDomain =>
      match adminError env shopDomain with
      | Some err => inl err
      | None => inr tt
      end
  end.

(** What the [try] block of one item produced: the hooks fired on the
    way, and the error caught or the columns to store. *)
Record Draft := mkDraft {
  d_productTitle : option (option jsstring);
  d_seoTitle : option jsstring;
  d_seoDescription : option (option jsstring);
  d_clearError : bool
}.

Record Attempted := mkAttempted {
  hooks : list Telemetry;
  produced : jsstring + Draft
}.

Definition ellipsis : jsstring := [8230%N].

Definition retryingText (attempt : Z) : jsstring :=
  js "Retrying OpenAI request (attempt " ++ Classifier.intToString attempt
  ++ js ")" ++ ellipsis.

Definition transientText (reason : jsstring) (waitMs attemptNumber : Z)
  : jsstring :=
  let sec := Z.max 1 (- ((- waitMs) / 1000)) in
  js "OpenAI transient error (" ++ reason ++ js "). Retrying in "
  ++ Classifier.intToString sec ++ js "s" ++ ellipsis ++ js " (attempt "
  ++ Classifier.intToString (attemptNumber + 1) ++ js ")".

(** The [onAttempt] and [onRetry] hooks of product and image items. *)
Definition narratedHook (jobId itemId : jsstring) (t : Telemetry) (w : Store)
  : Store :=
  match t with
  | OnAttempt attempt =>
      let w1 := itemUpdate itemId
        (fun it => SeoJobItem.set_genAttempts (SeoJobItem.genAttempts it + 1) it) w in
      let w2 := jobUpdate jobId
        (fun j => SeoJob.set_totalAttempts (SeoJob.totalAttempts j + 1) j) w1 in
      if 1 <? attempt then
        jobUpdate jobId (SeoJob.set_lastError (Some (retryingText attempt)))
          (itemUpdate itemId (SeoJobItem.set_error (Some (retryingText attempt))) w2)
      else w2
  | OnRetry attemptNumber waitMs reason =>
      let inc := Z.max 0 waitMs in
      let msg := transientText reason waitMs attemptNumber in
      let w1 := itemUpdate itemId
        (fun it => SeoJobItem.set_genRetryWaitMs (SeoJobItem.genRetryWaitMs it + inc) it) w in
      let w2 := jobUpdate jobId
        (fun j => SeoJob.set_totalRetryWaitMs (SeoJob.totalRetryWaitMs j + inc) j) w1 in
      jobUpdate jobId (SeoJob.set_lastError (Some msg))
        (itemUpdate itemId (SeoJobItem.set_error (Some msg)) w2)
  end.

(** The hooks of blog items. [onRetry] is declared with two positional
    parameters but receives one object, so the increment it computes is
    NaN, its first update is rejected and the error is swallowed by the
    caller: it leaves the store as it is. *)
Definition blogHook (jobId itemId : jsstring) (t : Telemetry) (w : Store)
  : Store :=
  match t with
  | OnAttempt _ =>
      jobUpdate jobId
        (fun j => SeoJob.set_totalAttempts (SeoJob.totalAttempts j + 1) j)
        (itemUpdate itemId
           (fun it => SeoJobItem.set_genAttempts (SeoJobItem.genAttempts it + 1) it) w)
  | OnRetry _ _ _ => w
  end.

(** [a || b] on nullable strings, null when both are falsy strings is
    whatever [b] is. *)
Definition orOpt (a b : option jsstring) : option jsstring :=
  match a with
  | Some (c :: r) => Some (c :: r)
  | _ => b
  end.

(** The [try] block of an image item. *)
Definition attemptImage (env : Env) (language : jsstring) (settings : Settings)
  (item : SeoJobItem.t) : Attempted :=
  match default [] (SeoJobItem.productId item) with
  | [] => mkAttempted [] (inl (js "Missing productId for IMAGE item"))
  | parentId =>
      match fetchProduct env (Some parentId) with
      | inl err => mkAttempted [] (inl err)
      | inr p =>
          let title :=
            orElse (orOpt (p ≫= title) (SeoJobItem.productTitle item)) [] in
          let descText := stripHtml (orOpt (p ≫= descriptionHtml) None) in
          let run :=
            generateAltTextForImage (chat env) title descText
              (orElse (SeoJobItem.seoDescription item) [])
              (Some language) settings in
          match outcome run with
          | inl err => mkAttempted (events run) (inl err)
          | inr altText =>
              mkAttempted (events run)
                (inr (mkDraft
                        (Some (orOpt (Some title) (SeoJobItem.productTitle item)))
                        (orNull (Some altText)) None false))
          end
      end
  end.

(** The [try] block of a blog item. *)
Definition attemptBlog (env : Env) (language : jsstring) (settings : Settings)
  (item : SeoJobItem.t) : Attempted :=
  match orElse (orOpt (SeoJobItem.targetId item) (SeoJobItem.productId item)) [] with
  | [] => mkAttempted [] (inl (js "Missing articleId for BLOG_ARTICLE item"))
  | articleId =>
      match fetchArticle env articleId with
      | inl err => mkAttempted [] (inl err)
      | inr a =>
          let title :=
            orElse (orOpt (a ≫= a_title) (SeoJobItem.productTitle item)) [] in
          let bodyText := stripHtml (orOpt (a ≫= a_body) None) in
          let run :=
            generateSeoForProduct (chat env) title bodyText (Some language) settings in
          match outcome run with
          | inl err => mkAttempted (events run) (inl err)
          | inr out =>
              mkAttempted (events run)
                (inr (mkDraft None (orNull (Some (seoTitle out)))
                        (Some (orNull (Some (seoDescription out)))) true))
          end
      end
  end.

(** The [try] block of a product item. *)
Definition attemptProduct (env : Env) (job : SeoJob.t) (language : jsstring)
  (settings : Settings) (item : SeoJobItem.t) : Attempted :=
  match fetchProduct env (SeoJobItem.productId item) with
  | inl err => mkAttempted [] (inl err)
  | inr p =>
      let title :=
        orElse (orOpt (p ≫= title) (SeoJobItem.productTitle item)) [] in
      let descText := stripHtml (orOpt (p ≫= descriptionHtml) None) in
      let run :=
        generateSeoForProduct (chat env) title descText (Some language) settings in
      match outcome run with
      | inl err => mkAttempted (events run) (inl err)
      | inr out =>
          let seoTitle :=
            if SeoJob.metaTitle job then Some (seoTitle out)
            else SeoJobItem.seoTitle item in
          let seoDescription :=
            if SeoJob.metaDescription job then Some (seoDescription out)
            else SeoJobItem.seoDescription item in
          mkAttempted (events run)
            (inr (mkDraft
                    (Some (orOpt (Some title) (SeoJobItem.productTitle item)))
                    (orNull seoTitle) (Some (orNull seoDescription)) false))
      end
  end.

Definition isImageJobOf (job : SeoJob.t) : bool :=
  eqb (orElse (SeoJob.jobType job) (js "PRODUCT_SEO")) (js "ALT_TEXT_IMAGES").

Definition isBlogJobOf (job : SeoJob.t) : bool :=
  eqb (orElse (SeoJob.jobType job) (js "PRODUCT_SEO")) (js "BLOG_SEO_META").

Definition attemptItem (env : Env) (job : SeoJob.t) (language : jsstring)
  (settings : Settings) (item : SeoJobItem.t) : Attempted :=
  if isImageJobOf job then attemptImage env language settings item
  else if isBlogJobOf job then attemptBlog env language settings item
  else attemptProduct env job language settings item.

(** The [data] of the update that stores a draft. *)
Definition storeDraft (now : Z) (d : Draft) (it : SeoJobItem.t) : SeoJobItem.t :=
  let it1 := SeoJobItem.set_finishedAt (Some now)
               (SeoJobItem.set_status (Some (js "success")) it) in
  let it2 := match d_productTitle d with
             | Some v => SeoJobItem.set_productTitle v it1
             | None => it1
             end in
  let it3 := SeoJobItem.set_seoTitle (d_seoTitle d) it2 in
  let it4 := match d_seoDescription d with
             | Some v => SeoJobItem.set_seoDescription v it3
             | None => it3
             end in
  if d_clearError d then SeoJobItem.set_error None it4 else it4.

(** The body of the loop for one item, once the job is known not to be
    cancelled. *)
Definition generateItem (cfg : Config) (env : Env) (job : SeoJob.t)
  (language : jsstring) (settings : Settings) (item : SeoJobItem.t)
  (w : Store) : Store :=
  let jobId := SeoJob.id job in
  let itemId := SeoJobItem.id item in
  let w1 := touchLock cfg jobId (SeoJob.lockOwner job) (5 * 60000) (SeoJob.shop job) w in
  let w2 := itemUpdate itemId
    (fun it => SeoJobItem.set_error None
                 (SeoJobItem.set_startedAt (Some (clock w1))
                    (SeoJobItem.set_status (Some (js "running")) it))) w1 in
  let a := attemptItem env job language settings item in
  let hook := if isImageJobOf job then narratedHook
              else if isBlogJobOf job then blogHook
              else narratedHook in
  let w3 := fold_left (fun s t => hook jobId itemId t s) (hooks a) w2 in
  let w4 :=
    match produced a with
    | inr d =>
        jobUpdate jobId (fun j => SeoJob.set_okCount (SeoJob.okCount j + 1) j)
          (itemUpdate itemId (storeDraft (clock w3) d) w3)
    | inl err =>
        let text := errorText err in
        jobUpdate jobId
          (fun j => SeoJob.set_lastError (Some text)
                      (SeoJob.set_failedCount (SeoJob.failedCount j + 1) j))
          (itemUpdate itemId
             (fun it => SeoJobItem.set_error (Some text)
                          (SeoJobItem.set_finishedAt (Some (clock w3))
                             (SeoJobItem.set_status (Some (js "failed")) it))) w3)
    end in
  sleep 450 w4.

(** The loop: [true] when it returned early on a cancelled job. *)
Fixpoint generateLoop (cfg : Config) (env : Env) (job : SeoJob.t)
  (language : jsstring) (settings : Settings) (todo : list SeoJobItem.t)
  (w : Store) : bool * Store :=
  match todo with
  | [] => (false, w)
  | item :: rest =>
      if isJobCancelled (SeoJob.id job) w then (true, w)
      else generateLoop cfg env job language settings rest
             (generateItem cfg env job language settings item w)
  end.

Definition generateTargetType (job : SeoJob.t) : jsstring :=
  if isImageJobOf job then js "IMAGE"
  else if isBlogJobOf job then js "BLOG_ARTICLE"
  else js "PRODUCT".

(** The [where] of the items a generate run takes. *)
Definition generateEligible (job : SeoJob.t) (it : SeoJobItem.t) : bool :=
  eqb (SeoJobItem.jobId it) (SeoJob.id job)
  && (statusIs (SeoJobItem.status it) "queued"
      || statusIs (SeoJobItem.status it) "failed")
  && eqb (SeoJobItem.targetType it) (generateTargetType job).

Definition startGenerate (now : Z) (j : SeoJob.t) : SeoJob.t :=
  SeoJob.set_lastError None
    (SeoJob.set_phase (Some (js "generating"))
       (SeoJob.set_lastHeartbeatAt (Some now)
          (SeoJob.set_startedAt (Some now)
             (SeoJob.set_status (Some (js "running")) j)))).

Definition finishGenerate (now : Z) (j : SeoJob.t) : SeoJob.t :=
  SeoJob.set_phase (Some (js "generated"))
    (SeoJob.set_finishedAt (Some now)
       (SeoJob.set_status (Some (js "success")) j)).

(** [processGenerate(job)]: the error thrown or the normal return, and
    the store left behind. *)
(** [job.settingsJson ? JSON.parse(job.settingsJson) : {}] *)
Definition settingsOf (env : Env) (job : SeoJob.t) : jsstring + Settings :=
  match SeoJob.settingsJson job with
  | Some (c :: r) => parseSettings env (c :: r)
  | _ => inr emptySettings
  end.

Definition processGenerate (cfg : Config) (env : Env) (job : SeoJob.t)
  (w : Store) : (jsstring + unit) * Store :=
  match settingsOf env job with
  | inl err => (inl err, w)
  | inr settings =>
      let language := orElse (SeoJob.language job) (js "tr") in
      match getAdminClientForShop env (SeoJob.shop job) with
      | inl err => (inl err, w)
      | inr _ =>
          let w1 := jobUpdate (SeoJob.id job) (startGenerate (clock w)) w in
          let todo := itemFindMany (generateEligible job) w1 in
          let '(cancelled, w2) :=
            generateLoop cfg env job language settings todo w1 in
          if cancelled then (inr tt, w2)
          else if isJobCancelled (SeoJob.id job) w2 then (inr tt, w2)
          else (inr tt, jobUpdate (SeoJob.id job) (finishGenerate (clock w2)) w2)
      end
  end.

(** *** Stuck-job recovery *)

Definition before (t : option Z) (bound : Z) : bool :=
  match t with
  | Some x => x <? bound
  | None => false
  end.

Definition isNull {A} (t : option A) : bool :=
  match t with
  | Some _ => false
  | None => true
  end.

(** The [where] of the stuck-job scan. *)
Definition isStuck (now cutoff : Z) (j : SeoJob.t) : bool :=
  statusIs (SeoJob.status j) "running"
  && before (SeoJob.lockExpiresAt j) now
  && (before (SeoJob.lastHeartbeatAt j) cutoff
      || before (SeoJob.startedAt j) cutoff
      || before (SeoJob.publishStartedAt j) cutoff
      || (isNull (SeoJob.startedAt j) && isNull (SeoJob.publishStartedAt j)
          && isNull (SeoJob.lastHeartbeatAt j))).

(** The scan: at most 25 stuck jobs, oldest first. *)
Definition findStuck (cfg : Config) (now : Z) (w : Store) : list SeoJob.t :=
  let cutoff := now - Z.of_N (STUCK_JOB_MINUTES cfg) * 60000 in
  take 25 (merge_sort jobCreatedLe
             (List.filter (isStuck now cutoff) (snd <$> map_to_list (jobs w)))).

Definition stuckMessage (cfg : Config) : jsstring :=
  js "Recovered stuck job (no heartbeat for >= "
  ++ natToString (STUCK_JOB_MINUTES cfg) ++ js "m)".

Definition isPublishing (job : SeoJob.t) : bool :=
  eqb (orElse (SeoJob.phase job) (js "generating")) (js "publishing").

(** The [data] written on a recovered job. *)
Definition failStuckJob (now : Z) (msg : jsstring) (job : SeoJob.t)
  (j : SeoJob.t) : SeoJob.t :=
  SeoJob.set_lockExpiresAt None
    (SeoJob.set_lockOwner None
       (SeoJob.set_lastError (Some msg)
          (SeoJob.set_publishFinishedAt
             (if isPublishing job then Some now else SeoJob.publishFinishedAt job)
             (SeoJob.set_finishedAt (Some now)
                (SeoJob.set_status (Some (js "failed")) j))))).

(** The items a recovery of [job] rewrites, and what it writes. *)
Definition stuckItem (job : SeoJob.t) (it : SeoJobItem.t) : bool :=
  eqb (SeoJobItem.jobId it) (SeoJob.id job)
  && if isPublishing job then statusIs (SeoJobItem.publishStatus it) "running"
     else statusIs (SeoJobItem.status it) "running".

Definition failStuckItem (now : Z) (msg : jsstring) (job : SeoJob.t)
  (it : SeoJobItem.t) : SeoJobItem.t :=
  if isPublishing job then
    SeoJobItem.set_publishError (Some msg)
      (SeoJobItem.set_publishStatus (Some (js "failed")) it)
  else
    SeoJobItem.set_error (Some msg)
      (SeoJobItem.set_finishedAt (Some now)
         (SeoJobItem.set_status (Some (js "failed")) it)).

(** The body of the recovery loop for one job of the scan. *)
Definition recoverOne (cfg : Config) (now : Z) (job : SeoJob.t) (w : Store)
  : Store :=
  let msg := stuckMessage cfg in
  jobUpdate (SeoJob.id job) (failStuckJob now msg job)
    (itemUpdateMany (stuckItem job) (failStuckItem now msg job) w).

Definition recoverAll (cfg : Config) (now : Z) (stuck : list SeoJob.t)
  (w : Store) : Store :=
  fold_left (fun s job => recoverOne cfg now job s) stuck w.

Definition recoverStuckJobs (cfg : Config) (w : Store) : Store :=
  let now := clock w in
  recoverAll cfg now (findStuck cfg now w) w.

(** What a recovery writes on an item of [job]. *)
Definition recoveredItem (now : Z) (msg : jsstring) (job : SeoJob.t)
  (it : SeoJobItem.t) : SeoJobItem.t :=
  if stuckItem job it then failStuckItem now msg job it else it.

(** *** Relations between the stores of a generate run *)

(** How a job row may change while the items of a run are processed:
    its status and total stay, its two counters do not decrease. *)
Definition rowAdvances (j j' : SeoJob.t) : Prop :=
  SeoJob.status j' = SeoJob.status j /\ SeoJob.total j' = SeoJob.total j
  /\ SeoJob.okCount j <= SeoJob.okCount j'
  /\ SeoJob.failedCount j <= SeoJob.failedCount j'.

(** The same, from one store to a later one: every row is still there
    and has advanced, and no row appeared. *)
Definition jobsAdvance (w w' : Store) : Prop :=
  forall k,
    match jobs w !! k, jobs w' !! k with
    | Some j, Some j' => rowAdvances j j'
    | None, None => True
    | _, _ => False
    end.

(** The items of [w'] are those of [w] except for the row [itemId],
    which is still there if it was. *)
Definition itemsFrame (itemId : jsstring) (w w' : Store) : Prop :=
  (forall k, k <> itemId -> items w' !! k = items w !! k)
  /\ (is_Some (items w !! itemId) -> is_Some (items w' !! itemId)).

(** The reason the specification words give for a recovered job. *)
Definition specStuckReason : jsstring :=
  js "Recovered stuck job (no heartbeat " ++ [8805%N] ++ js " 10m)".

End Worker.

(** ** Sample worlds for the closed examples *)

Module Samples.
Import Js Generator StoreApi Worker.

Definition shopT2 : jsstring := js "t2.myshopify.com".
Definition november : jsstring := js "2026-11".

(** A shop that has used 8 of its items this month. *)
Definition usedEight : Billing.UsageTable :=
  <[(shopT2, november) := Billing.mkRow 8 0 0]> ∅.

Definition usedFive : Billing.UsageTable :=
  <[(shopT2, november) := Billing.mkRow 5 0 0]> ∅.

Definition englishReply : ChatReply :=
  mkReply (Some (js "The perfect board for slopes and snow"))
    (Some (js "Unmatched experience for the slopes")) None.

(** A text service that answers in English whatever it is asked. *)
Definition alwaysEnglish : ChatCall -> ChatResult :=
  fun _ => mkChat [OnAttempt 1] (inr englishReply).

Definition liveTitleOnly : ProductSeo :=
  mkProductSeo None None (Some (js "Live title")) None.

(** A store that reads a product with only a native SEO title and
    accepts every write. *)
Definition acceptingAdmin : Admin :=
  mkAdmin (fun _ => inr liveTitleOnly) (fun _ => inr None) (fun _ => inr []).

Definition productGid : jsstring := js "gid://shopify/Product/1".

(** Job J1 of shop T1 with one product item. [metaTitle] and the
    columns of the item vary from an example to the next. *)
Definition jobJ1 (metaTitle : bool) (status : string) (failedCount : Z)
  : SeoJob.t :=
  SeoJob.mk (js "J1") (Some (js "t1.myshopify.com")) (Some (js status))
    (Some (js "generating")) (Some (js "PRODUCT_SEO"))
    1 0 failedCount 0 0 failedCount 0 (Some (js "en")) None
    metaTitle true true 1 None 1000 (Some 1000) None None None (Some 2000)
    (Some (js "worker-7")) (Some 302000).

Definition itemI1 (status : string) (seoTitle : option jsstring)
  : SeoJobItem.t :=
  SeoJobItem.mk (js "i1") (js "J1") (js "PRODUCT") (Some productGid)
    (Some productGid) (Some (js "Board")) None None (Some (js status))
    (Some 1500) None None 0 0 seoTitle None None None None 0 0.

Definition storeOf (job : SeoJob.t) (item : SeoJobItem.t) (clock : Z) : Store :=
  mkStore {[ SeoJob.id job := job ]} {[ SeoJobItem.id item := item ]} ∅ clock.

(** A world where every read succeeds and the text service returns
    [{"seoTitle":"A","seoDescription":"B"}] at the first attempt. *)
Definition happyEnv : Env :=
  mkEnv (fun _ => inr emptySettings) (fun _ => None)
    (fun _ => inr (Some (mkProduct (Some (js "Board"))
                           (Some (js "<p>A board</p>")))))
    (fun _ => inr None)
    (fun _ => mkChat [OnAttempt 1]
                (inr (mkReply (Some (js "A")) (Some (js "B")) None))).

(** A generate run that was interrupted after its only item failed:
    the item is counted in [failedCount], the phase is still
    [generating]. *)
Definition interruptedJob : SeoJob.t := jobJ1 true "running" 1.
Definition interruptedStore : Store :=
  storeOf interruptedJob (itemI1 "failed" None) 400000.

(** A title-less job ([metaTitle = false]) over an item whose title
    draft was saved earlier. *)
Definition descriptionOnlyJob : SeoJob.t := jobJ1 false "queued" 0.
Definition savedTitleStore : Store :=
  storeOf descriptionOnlyJob (itemI1 "queued" (Some (js "Saved title"))) 400000.
Definition emptyTitleStore : Store :=
  storeOf descriptionOnlyJob (itemI1 "queued" (Some [])) 400000.

(** A job whose worker died ten and a half minutes ago while its item
    was running. *)
Definition stuckJob : SeoJob.t := jobJ1 true "running" 0.
Definition stuckStore : Store :=
  storeOf stuckJob (itemI1 "running" None) (2000 + 630000).

End Samples.
(** ** Shapes of text *)

Module Text.
Import Js.

(** [/<[^>]*>/.test(s)]: some [<] is followed, sooner or later, by a [>]. *)
Fixpoint hasTag (s : jsstring) : bool :=
  match s with
  | [] => false
  | c :: r => ((c =? 60)%N && existsb (N.eqb 62) r) || hasTag r
  end.

(** Every white space of [s] is a single U+0020, [afterSpace] telling
    whether the code unit before [s] was one. *)
Fixpoint singleSpaced (afterSpace : bool) (s : jsstring) : bool :=
  match s with
  | [] => true
  | c :: r =>
      if isWhiteSpace c
      then (c =? 32)%N && negb afterSpace && singleSpaced true r
      else singleSpaced false r
  end.

End Text.

(** ** Failures of the store API ([seo.worker.js]) *)

Module ShopifyClassifier.
Import Js Classifier Generator.

(** [/thrott|rate limit|too many requests|429/.test(s)] *)
Definition matchesThrottle (s : jsstring) : bool :=
  includes (js "thrott") s || includes (js "rate limit") s
  || includes (js "too many requests") s || includes (js "429") s.

(** [/ECONNRESET|ENOTFOUND|EAI_AGAIN|fetch failed|network/i.test(s)] *)
Definition matchesNetwork (s : jsstring) : bool :=
  includesCI (js "ECONNRESET") s || includesCI (js "ENOTFOUND") s
  || includesCI (js "EAI_AGAIN") s || includesCI (js "fetch failed") s
  || includesCI (js "network") s.

(** [graphQLErrors.map((e) => e?.message).filter(Boolean).join(" | ")],
    an error being given by its message, [None] when it has none. *)
Definition gqlMessage (graphQLErrors : list (option jsstring)) : jsstring :=
  joinWith (js " | ")
    (List.filter nonEmpty (map (default []) graphQLErrors)).

Definition classifyShopifyFailure (status : option Z)
  (message : option jsstring) (graphQLErrors : list (option jsstring))
  : Classification :=
  let msg := default [] message in
  let gqlMsg := gqlMessage graphQLErrors in
  if statusIs status 401 || statusIs status 403 then
    mkClass false (js "Shopify Admin API authentication failed.")
  else if statusIs status 429 then
    mkClass true (js "Shopify API rate limit reached.")
  else if truthyStatus status && (500 <=? default 0 status) then
    mkClass true
      (js "Shopify API server error (" ++ intToString (default 0 status)
       ++ js ").")
  else
    let combined := toLowerCase (msg ++ js " " ++ gqlMsg) in
    if matchesThrottle combined then
      mkClass true (js "Shopify API throttled the request.")
    else if truthyStatus status && (400 <=? default 0 status)
            && (default 0 status <? 500) then
      mkClass false
        (js "Shopify API request failed (" ++ intToString (default 0 status)
         ++ js ").")
    else
      let isAbort :=
        includes (js "AbortError") msg
        || includes (js "timeout") (toLowerCase msg) in
      let isNetwork := matchesNetwork msg in
      if isAbort then mkClass true (js "Shopify API request timed out.")
      else if isNetwork then
        mkClass true (js "Network error while calling Shopify.")
      else mkClass true (js "Shopify API request failed.").

End ShopifyClassifier.

(** ** The two locks of the worker ([seo.worker.js]) *)

Module Locks.
Import Js Generator Worker.

(** [redis.set(key, owner, "PX", SHOP_LOCK_TTL_MS, "NX")] and whether it
    answered OK; the configured time to live is positive. *)
Definition acquireShopLock (cfg : Config) (shop : option jsstring)
  (owner : jsstring) (w : Store) : bool * Store :=
  let key := shopLockKey shop in
  match redisGet key w with
  | Some _ => (false, w)
  | None =>
      (true,
       mkStore (jobs w) (items w)
         (<[key := (owner, clock w + SHOP_LOCK_TTL_MS cfg)]> (shopLocks w))
         (clock w))
  end.

(** The script of [releaseShopLock]: delete the key if it holds [owner]. *)
Definition releaseShopLock (shop : option jsstring) (owner : jsstring)
  (w : Store) : Store :=
  let key := shopLockKey shop in
  if bool_decide (redisGet key w = Some owner) then
    mkStore (jobs w) (items w) (delete key (shopLocks w)) (clock w)
  else w.

(** The [OR] of [lockJob]: the lease of a row can be taken by [owner]. *)
Definition leaseFree (now : Z) (owner : jsstring) (j : SeoJob.t) : bool :=
  isNull (SeoJob.lockOwner j) || isNull (SeoJob.lockExpiresAt j)
  || before (SeoJob.lockExpiresAt j) now
  || bool_decide (SeoJob.lockOwner j = Some owner).

(** [lockJob(jobId, lockOwner, ttlMs)]: whether a row was updated, and
    the store. *)
Definition lockJob (jobId owner : jsstring) (ttlMs : Z) (w : Store)
  : bool * Store :=
  let now := clock w in
  let expires := now + ttlMs in
  let where_ j := eqb (SeoJob.id j) jobId && leaseFree now owner j in
  let count := length (List.filter where_ (snd <$> map_to_list (jobs w))) in
  (negb (Nat.eqb count 0),
   jobUpdateMany where_
     (fun j => SeoJob.set_lastHeartbeatAt (Some now)
                 (SeoJob.set_lockExpiresAt (Some expires)
                    (SeoJob.set_lockOwner (Some owner) j)))
     w).

End Locks.

(** ** Reading and resetting the usage counter
    ([billing.usage.server.js]) *)

Module Usage.
Import Js Billing.

Record Usage := mkUsage {
  u_month : jsstring;
  u_used : Z;
  u_limit : Z;
  u_remaining : Z
}.

(** [getFreeUsageMonthly(shop, limit)], [monthKey] being what
    [monthKeyIstanbul()] returns at the call. *)
Definition getFreeUsageMonthly (monthKey shop : jsstring) (limit_ : option Z)
  (tbl : UsageTable) : Usage :=
  let used := usedOf tbl shop monthKey in
  let remaining := Z.max 0 (default 10 limit_ - used) in
  mkUsage monthKey used (default 10 limit_) remaining.

(** [resetFreeUsageMonthly(shop)]: the table after the [deleteMany]. *)
Definition resetFreeUsageMonthly (monthKey shop : jsstring) (tbl : UsageTable)
  : UsageTable :=
  delete (shop, monthKey) tbl.

End Usage.

(** ** Plans and gating ([billing.plans.js], [billing.mock.server.js],
    [billing.gating.server.js]) *)

Module Plans.
Import Js Billing Usage.

(** [BILLING_PLANS.FREE.monthlyProductLimit] *)
Definition monthlyProductLimit : Z := 10.

(** A row of [billingSubscription], keyed by shop. *)
Record Subscription := mkSubscription {
  s_status : jsstring;
  s_plan : jsstring;
  s_createdAt : Z;
  s_updatedAt : Z
}.

Record PlanInfo := mkPlanInfo {
  planKey : jsstring;
  isPro : bool;
  mode : jsstring
}.

(** [getPlanForShop(shop)]; [mockEnabled] is [BILLING_MOCK_ENABLED]. *)
Definition getPlanForShop (mockEnabled : bool)
  (subs : gmap jsstring Subscription) (shop : jsstring) : PlanInfo :=
  if negb mockEnabled then mkPlanInfo (js "FREE") false (js "live")
  else
    let isPro :=
      match subs !! shop with
      | Some sub => Js.eqb (s_status sub) (js "active")
      | None => false
      end in
    mkPlanInfo (if isPro then js "PRO" else js "FREE") isPro (js "mock").

Definition mockDisabled : jsstring :=
  js "Mock billing is disabled. Configure real Shopify Billing for production.".

(** [billingSubscription.upsert({ where: { shop }, update, create })] *)
Definition upsert (shop : jsstring) (update : Subscription -> Subscription)
  (create : Subscription) (subs : gmap jsstring Subscription)
  : gmap jsstring Subscription :=
  match subs !! shop with
  | Some sub => <[shop := update sub]> subs
  | None => <[shop := create]> subs
  end.

(** [activatePro(shop, billingInterval)]: the error thrown or the
    normal return, and the table. *)
Definition activatePro (mockEnabled : bool) (now : Z) (shop : jsstring)
  (billingInterval : jsstring) (subs : gmap jsstring Subscription)
  : (jsstring + unit) * gmap jsstring Subscription :=
  if negb mockEnabled then (inl mockDisabled, subs)
  else match shop with
       | [] => (inl (js "Missing shop"), subs)
       | _ =>
           let plan :=
             if Js.eqb billingInterval (js "annual") then js "Pro Annual"
             else js "Pro Monthly" in
           (inr tt,
            upsert shop
              (fun sub => mkSubscription (js "active") plan (s_createdAt sub) now)
              (mkSubscription (js "active") plan now now) subs)
       end.

(** [cancelPro(shop)] *)
Definition cancelPro (mockEnabled : bool) (now : Z) (shop : jsstring)
  (subs : gmap jsstring Subscription)
  : (jsstring + unit) * gmap jsstring Subscription :=
  if negb mockEnabled then (inl mockDisabled, subs)
  else match shop with
       | [] => (inl (js "Missing shop"), subs)
       | _ =>
           (inr tt,
            upsert shop
              (fun sub => mkSubscription (js "cancelled") (s_plan sub)
                            (s_createdAt sub) now)
              (mkSubscription (js "cancelled") (js "Pro Monthly") now now) subs)
       end.

(** What [reserveIfFreePlan] returns: [free] is the usage read for a
    Pro shop, the reservation otherwise. *)
Record Gate := mkGate {
  g_ok : bool;
  g_code : option jsstring;
  g_planKey : jsstring;
  g_mode : jsstring;
  g_free : Usage + Reservation
}.

(** [reserveIfFreePlan({ shop, productCount })] *)
Definition reserveIfFreePlan (mockEnabled : bool)
  (subs : gmap jsstring Subscription) (fault : Z -> option jsstring)
  (monthKey : jsstring) (now : Z -> Z) (shop : jsstring) (productCount : Z)
  (tbl : UsageTable) : (jsstring + Gate) * UsageTable :=
  let ctx := getPlanForShop mockEnabled subs shop in
  let freeLimit := monthlyProductLimit in
  if isPro ctx then
    (inr (mkGate true None (planKey ctx) (mode ctx)
            (inl (getFreeUsageMonthly monthKey shop (Some freeLimit) tbl))),
     tbl)
  else
    match reserveFreeUsageMonthly fault monthKey now shop productCount
            (Some freeLimit) tbl with
    | (inl err, tbl') => (inl err, tbl')
    | (inr reservation, tbl') =>
        (inr (mkGate (ok reservation) (Some (code reservation))
                (planKey ctx) (mode ctx) (inr reservation)),
         tbl')
    end.

End Plans.

(** ** Refused writes of the article writer *)

Module ArticleWrite.
Import Js Generator StoreApi.

(** The write of [ms] failed with a message that speaks of an invalid
    id, the one failure after which [updateArticleSeoMetafields] goes on
    to the next owner id. *)
Definition rejectedAsInvalid (admin : Admin) (ms : list Metafield) : Prop :=
  match metafieldsSet admin ms with
  | inl err => matchesInvalidId (errorText err) = true
  | inr [] => False
  | inr (e :: errs) => matchesInvalidId (joinWith (js " | ") (e :: errs)) = true
  end.

End ArticleWrite.

(** ** Retrying and cancelling a job ([jobs.server.js]) *)

Module Jobs.
Import Js Classifier Generator Worker Queue.

(** [prisma.seoJobItem.count({ where })] *)
Definition itemCount (where_ : SeoJobItem.t -> bool) (w : Store) : Z :=
  Z.of_nat (length (List.filter where_ (snd <$> map_to_list (items w)))).

(** [prisma.seoJob.findFirst({ where: { id, shop } })] *)
Definition findJob (id shop : jsstring) (w : Store) : option SeoJob.t :=
  match jobs w !! id with
  | Some j => if bool_decide (SeoJob.shop j = Some shop) then Some j else None
  | None => None
  end.

(** [{ jobId, status }] and [{ jobId, publishStatus }] *)
Definition hasStatus (jobId : jsstring) (s : string) (it : SeoJobItem.t) : bool :=
  eqb (SeoJobItem.jobId it) jobId && statusIs (SeoJobItem.status it) s.

Definition hasPublishStatus (jobId : jsstring) (s : string)
  (it : SeoJobItem.t) : bool :=
  eqb (SeoJobItem.jobId it) jobId && statusIs (SeoJobItem.publishStatus it) s.

(** [data: { status: "queued", error: null, startedAt: null,
    finishedAt: null }] *)
Definition requeueItem (it : SeoJobItem.t) : SeoJobItem.t :=
  SeoJobItem.mk (SeoJobItem.id it) (SeoJobItem.jobId it)
    (SeoJobItem.targetType it) (SeoJobItem.targetId it)
    (SeoJobItem.productId it) (SeoJobItem.productTitle it)
    (SeoJobItem.mediaId it) (SeoJobItem.imageUrl it)
    (Some (js "queued")) None None None
    (SeoJobItem.genAttempts it) (SeoJobItem.genRetryWaitMs it)
    (SeoJobItem.seoTitle it) (SeoJobItem.seoDescription it)
    (SeoJobItem.publishStatus it) (SeoJobItem.publishedAt it)
    (SeoJobItem.publishError it) (SeoJobItem.publishAttempts it)
    (SeoJobItem.publishRetryWaitMs it).

(** [data: { publishStatus: "queued", publishError: null,
    publishedAt: null }] *)
Definition requeuePublish (it : SeoJobItem.t) : SeoJobItem.t :=
  SeoJobItem.mk (SeoJobItem.id it) (SeoJobItem.jobId it)
    (SeoJobItem.targetType it) (SeoJobItem.targetId it)
    (SeoJobItem.productId it) (SeoJobItem.productTitle it)
    (SeoJobItem.mediaId it) (SeoJobItem.imageUrl it)
    (SeoJobItem.status it) (SeoJobItem.startedAt it) (SeoJobItem.finishedAt it)
    (SeoJobItem.error it)
    (SeoJobItem.genAttempts it) (SeoJobItem.genRetryWaitMs it)
    (SeoJobItem.seoTitle it) (SeoJobItem.seoDescription it)
    (Some (js "queued")) None None (SeoJobItem.publishAttempts it)
    (SeoJobItem.publishRetryWaitMs it).

(** The [data] of the job update of a generate retry. *)
Definition retryGenerateJob (ok : Z) (j : SeoJob.t) : SeoJob.t :=
  SeoJob.mk (SeoJob.id j) (SeoJob.shop j) (Some (js "queued"))
    (Some (js "generating")) (SeoJob.jobType j) (SeoJob.total j) ok 0
    (SeoJob.publishOkCount j) (SeoJob.publishFailedCount j)
    (SeoJob.totalAttempts j) (SeoJob.totalRetryWaitMs j) (SeoJob.language j)
    (SeoJob.settingsJson j) (SeoJob.metaTitle j) (SeoJob.metaDescription j)
    (SeoJob.usageReserved j) (SeoJob.usageCount j) None (SeoJob.createdAt j)
    None None (SeoJob.publishStartedAt j) (SeoJob.publishFinishedAt j)
    (SeoJob.lastHeartbeatAt j) None None.

(** The [data] of the job update of a publish retry. *)
Definition retryPublishJob (publishOk : Z) (j : SeoJob.t) : SeoJob.t :=
  SeoJob.mk (SeoJob.id j) (SeoJob.shop j) (Some (js "queued"))
    (Some (js "publishing")) (SeoJob.jobType j) (SeoJob.total j)
    (SeoJob.okCount j) (SeoJob.failedCount j) publishOk 0
    (SeoJob.totalAttempts j) (SeoJob.totalRetryWaitMs j) (SeoJob.language j)
    (SeoJob.settingsJson j) (SeoJob.metaTitle j) (SeoJob.metaDescription j)
    (SeoJob.usageReserved j) (SeoJob.usageCount j) None (SeoJob.createdAt j)
    (SeoJob.startedAt j) (SeoJob.finishedAt j) None None
    (SeoJob.lastHeartbeatAt j) None None.

Record RetryResult := mkRetry {
  rr_ok : bool;
  rr_message : jsstring;
  rr_kind : jsstring
}.

(** What a helper leaves: the error thrown or the value returned, the
    store, and the calls made on the queue. *)
Record Done (A : Type) := mkDone {
  returned : jsstring + A;
  store : Store;
  enqueued : list AddCall
}.
Arguments mkDone {A}.
Arguments returned {A}.
Arguments store {A}.
Arguments enqueued {A}.

(** [await enqueueSeoJob(job.id, kind)] followed by the return of
    [message]. *)
Definition enqueueThen (redisUrl : option jsstring) (jobId : jsstring)
  (kind : string) (message : jsstring) (w : Store) : Done RetryResult :=
  match enqueueSeoJob redisUrl (Some jobId) (Some (js kind)) with
  | inl err => mkDone (inl err) w []
  | inr call => mkDone (inr (mkRetry true message (js kind))) w [call]
  end.

(** [retryFailedForJob({ shop, jobId, kind = null })] *)
Definition retryFailedForJob (redisUrl : option jsstring)
  (shop : jsstring) (jobId : option jsstring) (kind : option jsstring)
  (w : Store) : Done RetryResult :=
  match findJob (default [] jobId) shop w with
  | None => mkDone (inl (js "Job not found")) w []
  | Some job =>
      let id := SeoJob.id job in
      let phase := toLowerCase (orElse (SeoJob.phase job) []) in
      let inferredKind :=
        orElse kind
          (if eqb phase (js "publishing") || eqb phase (js "published")
           then js "publish" else js "generate") in
      if eqb inferredKind (js "publish") then
        let failedItems := itemCount (hasPublishStatus id "failed") w in
        if failedItems =? 0 then
          mkDone (inr (mkRetry true (js "No failed publish items to retry.")
                         (js "publish"))) w []
        else
          let w1 := itemUpdateMany (hasPublishStatus id "failed") requeuePublish w in
          let publishOk := itemCount (hasPublishStatus id "success") w1 in
          let w2 := jobUpdate id (retryPublishJob publishOk) w1 in
          enqueueThen redisUrl id "publish"
            (js "Retry started for " ++ intToString failedItems
             ++ js " failed publish item(s).") w2
      else
        let failedItems := itemCount (hasStatus id "failed") w in
        if failedItems =? 0 then
          mkDone (inr (mkRetry true (js "No failed generation items to retry.")
                         (js "generate"))) w []
        else
          let w1 := itemUpdateMany (hasStatus id "failed") requeueItem w in
          let ok := itemCount (hasStatus id "success") w1 in
          let w2 := jobUpdate id (retryGenerateJob ok) w1 in
          enqueueThen redisUrl id "generate"
            (js "Retry started for " ++ intToString failedItems
             ++ js " failed generation item(s).") w2
  end.

Definition cancelMessage : jsstring := js "Cancelled by user".

(** [status: { in: ["queued", "running"] }] on either status column. *)
Definition inFlight (jobId : jsstring)
  (column : SeoJobItem.t -> option jsstring) (it : SeoJobItem.t) : bool :=
  eqb (SeoJobItem.jobId it) jobId
  && (statusIs (column it) "queued" || statusIs (column it) "running").

(** [data: { status: "failed", error: msg, finishedAt: now }] *)
Definition cancelItem (now : Z) (it : SeoJobItem.t) : SeoJobItem.t :=
  SeoJobItem.mk (SeoJobItem.id it) (SeoJobItem.jobId it)
    (SeoJobItem.targetType it) (SeoJobItem.targetId it)
    (SeoJobItem.productId it) (SeoJobItem.productTitle it)
    (SeoJobItem.mediaId it) (SeoJobItem.imageUrl it)
    (Some (js "failed")) (SeoJobItem.startedAt it) (Some now)
    (Some cancelMessage)
    (SeoJobItem.genAttempts it) (SeoJobItem.genRetryWaitMs it)
    (SeoJobItem.seoTitle it) (SeoJobItem.seoDescription it)
    (SeoJobItem.publishStatus it) (SeoJobItem.publishedAt it)
    (SeoJobItem.publishError it) (SeoJobItem.publishAttempts it)
    (SeoJobItem.publishRetryWaitMs it).

(** [data: { publishStatus: "failed", publishError: msg,
    publishedAt: null }] *)
Definition cancelPublish (it : SeoJobItem.t) : SeoJobItem.t :=
  SeoJobItem.mk (SeoJobItem.id it) (SeoJobItem.jobId it)
    (SeoJobItem.targetType it) (SeoJobItem.targetId it)
    (SeoJobItem.productId it) (SeoJobItem.productTitle it)
    (SeoJobItem.mediaId it) (SeoJobItem.imageUrl it)
    (SeoJobItem.status it) (SeoJobItem.startedAt it) (SeoJobItem.finishedAt it)
    (SeoJobItem.error it)
    (SeoJobItem.genAttempts it) (SeoJobItem.genRetryWaitMs it)
    (SeoJobItem.seoTitle it) (SeoJobItem.seoDescription it)
    (Some (js "failed")) None (Some cancelMessage)
    (SeoJobItem.publishAttempts it) (SeoJobItem.publishRetryWaitMs it).

(** The [data] of the job update of a cancellation; [job] is the row
    read at the start. *)
Definition cancelJob (now : Z) (isPublish : bool) (job : SeoJob.t)
  (ok failed pok pfailed : Z) (j : SeoJob.t) : SeoJob.t :=
  SeoJob.mk (SeoJob.id j) (SeoJob.shop j) (Some (js "cancelled"))
    (Some (if isPublish then js "publishing" else js "generating"))
    (SeoJob.jobType j) (SeoJob.total j) ok failed pok pfailed
    (SeoJob.totalAttempts j) (SeoJob.totalRetryWaitMs j) (SeoJob.language j)
    (SeoJob.settingsJson j) (SeoJob.metaTitle j) (SeoJob.metaDescription j)
    (SeoJob.usageReserved j) (SeoJob.usageCount j) (Some cancelMessage)
    (SeoJob.createdAt j) (SeoJob.startedAt j) (Some now)
    (SeoJob.publishStartedAt j)
    (if isPublish then Some now else SeoJob.publishFinishedAt job)
    (SeoJob.lastHeartbeatAt j) None None.

Record CancelResult := mkCancel {
  c_ok : bool;
  c_message : jsstring
}.

(** [cancelJobForShop({ shop, jobId })]: the value returned, the store,
    and the ids passed to [queue.remove]. [removeFails kind] is the
    message of the error the removal for [kind] throws, if it does. *)
Definition cancelJobForShop (redisUrl : option jsstring)
  (removeFails : jsstring -> option jsstring)
  (shop : jsstring) (jobId : option jsstring) (w : Store)
  : CancelResult * Store * list jsstring :=
  let id := trim (default [] jobId) in
  match id with
  | [] => (mkCancel false (js "Missing jobId"), w, [])
  | _ :: _ =>
      match findJob id shop w with
      | None => (mkCancel false (js "Job not found"), w, [])
      | Some job =>
          let now := clock w in
          let phase := toLowerCase (orElse (SeoJob.phase job) (js "generating")) in
          let isPublish :=
            eqb phase (js "publishing") || eqb phase (js "published") in
          let removed :=
            omap (fun kind =>
                    fst (removeSeoQueueJob redisUrl (removeFails kind)
                           (Some id) (Some kind)))
              [js "generate"; js "publish"] in
          let w1 := itemUpdateMany (inFlight id SeoJobItem.status)
                      (cancelItem now) w in
          let w2 := itemUpdateMany (inFlight id SeoJobItem.publishStatus)
                      cancelPublish w1 in
          let ok := itemCount (hasStatus id "success") w2 in
          let failed := itemCount (hasStatus id "failed") w2 in
          let pok := itemCount (hasPublishStatus id "success") w2 in
          let pfailed := itemCount (hasPublishStatus id "failed") w2 in
          (mkCancel true (js "Job cancelled."),
           jobUpdate id (cancelJob now isPublish job ok failed pok pfailed) w2,
           removed)
      end
  end.

End Jobs.


(** ** Counters against rows *)

Module Counters.
Import Js Worker Jobs.

(** A job row keeps its two generate counters. *)
Definition rowKeeps (j j' : SeoJob.t) : Prop :=
  SeoJob.okCount j' = SeoJob.okCount j
  /\ SeoJob.failedCount j' = SeoJob.failedCount j.

(** The same, from one store to a later one. *)
Definition jobsKeep (w w' : Store) : Prop :=
  forall k,
    match jobs w !! k, jobs w' !! k with
    | Some j, Some j' => rowKeeps j j'
    | None, None => True
    | _, _ => False
    end.

(** The item [k] is there and belongs to the job [jobId]. *)
Definition itemOf (jobId k : jsstring) (w : Store) : Prop :=
  exists r, items w !! k = Some r /\ SeoJobItem.jobId r = jobId.

(** The generate counters of the job are the numbers of its items that
    succeeded and that failed. *)
Definition countersMatch (jobId : jsstring) (w : Store) : Prop :=
  exists j,
    jobs w !! jobId = Some j
    /\ SeoJob.okCount j = itemCount (hasStatus jobId "success") w
    /\ SeoJob.failedCount j = itemCount (hasStatus jobId "failed") w.

End Counters.

(** ** Handling one job ([seo.worker.js]) *)

Module Handler.
Import Js Billing Generator Worker Queue Jobs Locks Plans.

(** [data: { total }] *)
Definition setTotal (total : Z) (j : SeoJob.t) : SeoJob.t :=
  SeoJob.mk (SeoJob.id j) (SeoJob.shop j) (SeoJob.status j) (SeoJob.phase j)
    (SeoJob.jobType j) total (SeoJob.okCount j) (SeoJob.failedCount j)
    (SeoJob.publishOkCount j) (SeoJob.publishFailedCount j)
    (SeoJob.totalAttempts j) (SeoJob.totalRetryWaitMs j) (SeoJob.language j)
    (SeoJob.settingsJson j) (SeoJob.metaTitle j) (SeoJob.metaDescription j)
    (SeoJob.usageReserved j) (SeoJob.usageCount j) (SeoJob.lastError j)
    (SeoJob.createdAt j) (SeoJob.startedAt j) (SeoJob.finishedAt j)
    (SeoJob.publishStartedAt j) (SeoJob.publishFinishedAt j)
    (SeoJob.lastHeartbeatAt j) (SeoJob.lockOwner j) (SeoJob.lockExpiresAt j).

Definition enforcedMessage : jsstring :=
  js "Free plan limit exceeded (worker enforcement).".

(** [data: { status: "failed", finishedAt: now, error: msg }] *)
Definition enforceItem (now : Z) (it : SeoJobItem.t) : SeoJobItem.t :=
  SeoJobItem.mk (SeoJobItem.id it) (SeoJobItem.jobId it)
    (SeoJobItem.targetType it) (SeoJobItem.targetId it)
    (SeoJobItem.productId it) (SeoJobItem.productTitle it)
    (SeoJobItem.mediaId it) (SeoJobItem.imageUrl it)
    (Some (js "failed")) (SeoJobItem.startedAt it) (Some now)
    (Some enforcedMessage)
    (SeoJobItem.genAttempts it) (SeoJobItem.genRetryWaitMs it)
    (SeoJobItem.seoTitle it) (SeoJobItem.seoDescription it)
    (SeoJobItem.publishStatus it) (SeoJobItem.publishedAt it)
    (SeoJobItem.publishError it) (SeoJobItem.publishAttempts it)
    (SeoJobItem.publishRetryWaitMs it).

(** [data: { status: "failed", finishedAt: now, lastError: msg,
    phase: "generating", usageReserved: false, usageCount }] *)
Definition enforceJob (now usageCount : Z) (j : SeoJob.t) : SeoJob.t :=
  SeoJob.mk (SeoJob.id j) (SeoJob.shop j) (Some (js "failed"))
    (Some (js "generating"))
    (SeoJob.jobType j) (SeoJob.total j) (SeoJob.okCount j) (SeoJob.failedCount j)
    (SeoJob.publishOkCount j) (SeoJob.publishFailedCount j)
    (SeoJob.totalAttempts j) (SeoJob.totalRetryWaitMs j) (SeoJob.language j)
    (SeoJob.settingsJson j) (SeoJob.metaTitle j) (SeoJob.metaDescription j)
    false usageCount (Some enforcedMessage)
    (SeoJob.createdAt j) (SeoJob.startedAt j) (Some now)
    (SeoJob.publishStartedAt j) (SeoJob.publishFinishedAt j)
    (SeoJob.lastHeartbeatAt j) (SeoJob.lockOwner j) (SeoJob.lockExpiresAt j).

(** [data: { usageReserved: true, usageCount }] *)
Definition markReserved (usageCount : Z) (j : SeoJob.t) : SeoJob.t :=
  SeoJob.mk (SeoJob.id j) (SeoJob.shop j) (SeoJob.status j) (SeoJob.phase j)
    (SeoJob.jobType j) (SeoJob.total j) (SeoJob.okCount j) (SeoJob.failedCount j)
    (SeoJob.publishOkCount j) (SeoJob.publishFailedCount j)
    (SeoJob.totalAttempts j) (SeoJob.totalRetryWaitMs j) (SeoJob.language j)
    (SeoJob.settingsJson j) (SeoJob.metaTitle j) (SeoJob.metaDescription j)
    true usageCount (SeoJob.lastError j)
    (SeoJob.createdAt j) (SeoJob.startedAt j) (SeoJob.finishedAt j)
    (SeoJob.publishStartedAt j) (SeoJob.publishFinishedAt j)
    (SeoJob.lastHeartbeatAt j) (SeoJob.lockOwner j) (SeoJob.lockExpiresAt j).

(** [data: { lockOwner: null, lockExpiresAt: null }] *)
Definition releaseLease (j : SeoJob.t) : SeoJob.t :=
  SeoJob.set_lockExpiresAt None (SeoJob.set_lockOwner None j).

(** The [where] of the release: [{ id, lockOwner }]. *)
Definition leasedBy (jobId owner : jsstring) (j : SeoJob.t) : bool :=
  eqb (SeoJob.id j) jobId && bool_decide (SeoJob.lockOwner j = Some owner).

(** [Number(job.usageCount || job.total || 0)] *)
Definition usageCountOf (job : SeoJob.t) : Z :=
  if SeoJob.usageCount job =? 0 then SeoJob.total job
  else SeoJob.usageCount job.

Section Handle.
Variable cfg : Config.
Variable env : Env.
(** [processPublish(job)], whose body is not part of this development:
    the error thrown or the normal return, and the store. *)
Variable processPublish : SeoJob.t -> Store -> (jsstring + unit) * Store.
(** The billing side: [BILLING_MOCK_ENABLED], the subscriptions, and
    the faults, month and times of the usage transactions. *)
Variable mockEnabled : bool.
Variable subs : gmap jsstring Subscription.
Variable fault : Z -> option jsstring.
Variable monthKey : jsstring.
Variable now : Z -> Z.
(** What [reserveIfFreePlan] answers for a row without shop. *)
Variable reserveNoShop : Z -> UsageTable -> (jsstring + Gate) * UsageTable.

Definition reserveFor (shop : option jsstring) (count : Z) (tbl : UsageTable)
  : (jsstring + Gate) * UsageTable :=
  match shop with
  | Some s => reserveIfFreePlan mockEnabled subs fault monthKey now s count tbl
  | None => reserveNoShop count tbl
  end.

(** The generating branch of [handleJob], after the total was brought
    up to date. *)
Definition handleGenerating (id owner : jsstring) (job : SeoJob.t)
  (w : Store) (tbl : UsageTable) : (jsstring + unit) * Store * UsageTable :=
  let run := SeoJob.set_lockOwner (Some owner) job in
  if negb (SeoJob.usageReserved job) then
    let usageCount := usageCountOf job in
    match reserveFor (SeoJob.shop job) usageCount tbl with
    | (inl err, tbl') => (inl err, w, tbl')
    | (inr reservation, tbl') =>
        if negb (g_ok reservation) then
          let w1 := itemUpdateMany (inFlight id SeoJobItem.status)
                      (enforceItem (clock w)) w in
          (inr tt, jobUpdate id (enforceJob (clock w) usageCount) w1, tbl')
        else
          let w1 := jobUpdate id (markReserved usageCount) w in
          (processGenerate cfg env run w1, tbl')
    end
  else (processGenerate cfg env run w, tbl).

(** The [try] block of [handleJob]. *)
Definition handleLocked (id owner : jsstring) (preloadedJob : option SeoJob.t)
  (w : Store) (tbl : UsageTable) : (jsstring + unit) * Store * UsageTable :=
  let found := match preloadedJob with
               | Some j => Some j
               | None => jobs w !! id
               end in
  match found with
  | None => (inr tt, w, tbl)
  | Some job =>
      let jobStatus := toLowerCase (orElse (SeoJob.status job) []) in
      if eqb jobStatus (js "cancelled") || eqb jobStatus (js "canceled") then
        (inr tt, w, tbl)
      else
        let total := itemCount (fun it => eqb (SeoJobItem.jobId it) id) w in
        let w1 := if SeoJob.total job =? total then w
                  else jobUpdate id (setTotal total) w in
        let phase := orElse (SeoJob.phase job) (js "generating") in
        if eqb phase (js "generating") then
          handleGenerating id owner job w1 tbl
        else if eqb phase (js "publishing") then
          (processPublish (SeoJob.set_lockOwner (Some owner) job) w1, tbl)
        else (inr tt, w1, tbl)
  end.

(** [handleJob(jobId, _kind, lockOwner, preloadedJob)]: the error thrown
    or the normal return, the store and the usage table. *)
Definition handleJob (jobId : option jsstring) (lockOwner : jsstring)
  (preloadedJob : option SeoJob.t) (w : Store) (tbl : UsageTable)
  : (jsstring + unit) * Store * UsageTable :=
  let normalizedJobId := trim (default [] jobId) in
  match normalizedJobId with
  | [] => (inr tt, w, tbl)
  | _ =>
      let '(gotLock, w1) := lockJob normalizedJobId lockOwner (5 * 60000) w in
      if negb gotLock then (inr tt, w1, tbl)
      else
        let '(r, w2, tbl') :=
          handleLocked normalizedJobId lockOwner preloadedJob w1 tbl in
        (r,
         jobUpdateMany (leasedBy normalizedJobId lockOwner) releaseLease w2,
         tbl')
  end.

(** What the processor of the queue does with a queue entry. *)
Inductive Processed :=
  | Returned
  | Delayed (until : Z)
  | Threw (message : jsstring).

(** The processor given to [new Worker]: [jobId] is
    [bullJob.data.jobId], [lockOwner] the [worker-<pid>] of the process,
    [retryDelayMs] is [SHOP_LOCK_RETRY_DELAY_MS] and [moveFails] the
    message of the error [moveToDelayed] throws, if it does. *)
Definition processEntry (retryDelayMs : Z) (moveFails : option jsstring)
  (jobId : option jsstring) (lockOwner : jsstring) (w : Store)
  (tbl : UsageTable) : Processed * Store * UsageTable :=
  match jobId with
  | None | Some [] => (Threw (js "Missing jobId in bull job data"), w, tbl)
  | Some id =>
      match jobs w !! trim id with
      | None => (Returned, w, tbl)
      | Some dbJob =>
          let '(gotShopLock, w1) :=
            acquireShopLock cfg (SeoJob.shop dbJob) lockOwner w in
          if negb gotShopLock then
            match moveFails with
            | None => (Delayed (clock w1 + retryDelayMs), w1, tbl)
            | Some e =>
                (Threw (js "SHOP_LOCK_BUSY: " ++ e), sleep 200 w1, tbl)
            end
          else
            let '(r, w2, tbl') :=
              handleJob (Some id) lockOwner (Some dbJob) w1 tbl in
            (match r with
             | inl err => Threw err
             | inr _ => Returned
             end,
             releaseShopLock (SeoJob.shop dbJob) lockOwner w2, tbl')
      end
  end.

End Handle.

End Handler.

(** Sample runs of the handler. *)
Module HandlerSamples.
Import Js Billing Generator Worker Plans Handler.

(** A publish phase that does nothing, and a billing side with mock
    billing off, no subscription and no failing transaction. *)
Definition idlePublish (job : SeoJob.t) (w : Store) : (jsstring + unit) * Store :=
  (inr tt, w).

Definition noShop (count : Z) (tbl : UsageTable)
  : (jsstring + Gate) * UsageTable :=
  (inl (js "Missing shop"), tbl).

Definition handleSample (jobId : option jsstring) (owner : jsstring)
  (preloadedJob : option SeoJob.t) (w : Store)
  : (jsstring + unit) * Store * UsageTable :=
  handleJob defaultConfig Samples.happyEnv idlePublish false ∅
    (fun _ => None) (js "2026-11") (fun _ => 0) noShop
    jobId owner preloadedJob w ∅.

(** The sample job while its lease is still running. *)
Definition leasedStore : Store :=
  Samples.storeOf Samples.interruptedJob (Samples.itemI1 "failed" None) 300000.

(** The sample job, cancelled. *)
Definition cancelledJob : SeoJob.t := Samples.jobJ1 true "cancelled" 0.
Definition cancelledStore : Store :=
  Samples.storeOf cancelledJob (Samples.itemI1 "queued" None) 400000.

(** A job of eleven products whose usage was not reserved. *)
Definition unreservedJob : SeoJob.t :=
  SeoJob.mk (js "J1") (Some (js "t1.myshopify.com")) (Some (js "queued"))
    (Some (js "generating")) (Some (js "PRODUCT_SEO"))
    11 0 0 0 0 0 0 (Some (js "en")) None
    true true false 11 None 1000 None None None None None None None.
Definition unreservedStore : Store :=
  Samples.storeOf unreservedJob (Samples.itemI1 "queued" None) 400000.

End HandlerSamples.

(** ** The retry loop of the text service ([openAiChatJson]) *)

Module Retry.
Import Js Classifier Generator.

(** [computeBackoffMs(attempt, baseMs)] for an attempt from 1 up, the
    only ones the loops pass; [jitter] is what
    [Math.floor(Math.random() * 250)] gives at the call. *)
Definition computeBackoffMs (attempt baseMs jitter : Z) : Z :=
  let exp := Z.min 3 (attempt - 1) in
  let ms := baseMs * 2 ^ exp + attempt * 500 in
  ms + jitter.

(** How one attempt of the [try] block fails: [fetch] or [resp.json()]
    rejects with an error of that name and message; the response is not
    ok, with its status, the message read from its body and its
    [retry-after] header as a number of seconds (0 when the header is
    absent or not a number); or the content is not JSON. *)
Inductive Failure :=
| Rejected (name message : option jsstring)
| NotOk (status : Z) (bodyMsg : jsstring) (retryAfter : Z)
| NotJson.

(** What one attempt meets: a failure, or a content that parses to a
    reply. *)
Inductive Response :=
| Failed (f : Failure)
| Parsed (reply : ChatReply).

(** The error object the [catch] block receives, by the members it
    reads. *)
Record Thrown := mkThrown {
  t_status : option Z;
  t_message : option jsstring;
  t_name : option jsstring;
  t_isTransient : option bool;
  t_userMessage : option jsstring;
  t_retryAfter : Z
}.

Definition thrownBy (f : Failure) : Thrown :=
  match f with
  | Rejected name message => mkThrown None message name None None 0
  | NotOk status bodyMsg retryAfter =>
      let cls := classifyOpenAiFailure (Some status) (Some bodyMsg) None in
      mkThrown (Some status)
        (Some (userMessage cls
               ++ (if nonEmpty bodyMsg then js " Details: " ++ bodyMsg
                   else [])))
        (Some (js "Error")) (Some (isTransient cls))
        (Some (userMessage cls)) retryAfter
  | NotJson =>
      mkThrown None (Some (js "OpenAI returned non-JSON content."))
        (Some (js "Error")) (Some true)
        (Some (js "OpenAI returned an invalid response.")) 0
  end.

(** [String(e)] of an error, from its name and message. *)
Definition errorToString (name message : option jsstring) : jsstring :=
  let n := match name with
           | Some n => n
           | None => js "Error"
           end in
  match n, default [] message with
  | [], m => m
  | n, [] => n
  | n, m => n ++ js ": " ++ m
  end.

(** The classification made in the [catch] block. *)
Definition classOf (t : Thrown) : Classification :=
  classifyOpenAiFailure (t_status t) (t_message t) (t_name t).

(** [Boolean(e?.isTransient ?? cls.isTransient)] *)
Definition transientOf (t : Thrown) : bool :=
  default (isTransient (classOf t)) (t_isTransient t).

(** [String(e?.userMessage || cls.userMessage || e?.message || e)] *)
Definition finalMessage (t : Thrown) : jsstring :=
  orElse (t_userMessage t)
    (orElse (Some (userMessage (classOf t)))
       (orElse (t_message t) (errorToString (t_name t) (t_message t)))).

(** [String(e?.userMessage || cls.userMessage || e?.message ||
    "transient error")] *)
Definition retryReason (t : Thrown) : jsstring :=
  orElse (t_userMessage t)
    (orElse (Some (userMessage (classOf t)))
       (orElse (t_message t) (js "transient error"))).

(** [e?.retryAfter ? Math.max(e.retryAfter * 1000, 1000)
                  : computeBackoffMs(attempt, baseBackoffMs)] *)
Definition retryWait (attempt baseBackoffMs jitter : Z) (t : Thrown) : Z :=
  if t_retryAfter t =? 0 then computeBackoffMs attempt baseBackoffMs jitter
  else Z.max (t_retryAfter t * 1000) 1000.

Section Loop.
(** [OPENAI_MAX_ATTEMPTS] and [OPENAI_BACKOFF_BASE_MS] as whole numbers
    (3 and 1000 when unset), what the attempts meet and the jitter of
    each wait. *)
Variable maxAttempts : Z.
Variable baseBackoffMs : Z.
Variable respond : Z -> Response.
Variable jitter : Z -> Z.

(** The [for] loop from [attempt] on, with as many rounds left as
    [fuel]: the hooks fired and the outcome, and the waits slept. *)
Fixpoint chatLoop (fuel : nat) (attempt : Z) (lastErr : option jsstring)
  : ChatResult * list Z :=
  match fuel with
  | O =>
      (mkChat []
         (inl (match lastErr with
               | Some m => m
               | None => js "OpenAI request failed."
               end)),
       [])
  | S fuel' =>
      match respond attempt with
      | Parsed reply => (mkChat [OnAttempt attempt] (inr reply), [])
      | Failed f =>
          let t := thrownBy f in
          if negb (transientOf t) then
            (mkChat [OnAttempt attempt] (inl (finalMessage t)), [])
          else if maxAttempts <=? attempt then
            (mkChat [OnAttempt attempt] (inl (finalMessage t)), [])
          else
            let waitMs := retryWait attempt baseBackoffMs (jitter attempt) t in
            let '(rest, sleeps) :=
              chatLoop fuel' (attempt + 1) (Some (default [] (t_message t))) in
            (mkChat (OnAttempt attempt
                     :: OnRetry attempt waitMs (retryReason t)
                     :: chat_events rest)
               (chat_outcome rest),
             waitMs :: sleeps)
      end
  end.

(** [openAiChatJson({ sys, user, max_tokens, onAttempt, onRetry })];
    [key] is [process.env.OPENAI_API_KEY]. *)
Definition openAiChatJson (key : option jsstring) : ChatResult * list Z :=
  match key with
  | Some (_ :: _) => chatLoop (Z.to_nat maxAttempts) 1 None
  | _ => (mkChat [] (inl (js "OPENAI_API_KEY is not set on the server.")), [])
  end.

(** Whether the attempt is followed by another one when attempts are
    left: it failed, and the failure counts as transient. *)
Definition retried (attempt : Z) : bool :=
  match respond attempt with
  | Failed f => transientOf (thrownBy f)
  | Parsed _ => false
  end.

(** What the last attempt gives. *)
Definition settled (attempt : Z) : jsstring + ChatReply :=
  match respond attempt with
  | Parsed reply => inr reply
  | Failed f => inl (finalMessage (thrownBy f))
  end.

(** The wait after a failed attempt, and the hooks of an attempt that
    is retried. *)
Definition waitAfter (attempt : Z) : list Z :=
  match respond attempt with
  | Failed f => [retryWait attempt baseBackoffMs (jitter attempt) (thrownBy f)]
  | Parsed _ => []
  end.

Definition retriedHooks (attempt : Z) : list Telemetry :=
  match respond attempt with
  | Failed f =>
      [OnAttempt attempt;
       OnRetry attempt
         (retryWait attempt baseBackoffMs (jitter attempt) (thrownBy f))
         (retryReason (thrownBy f))]
  | Parsed _ => [OnAttempt attempt]
  end.

End Loop.

(** The attempts announced by the hooks, and the waits they announce. *)
Definition attemptsOf (events : list Telemetry) : list Z :=
  omap (fun t => match t with
                 | OnAttempt attempt => Some attempt
                 | OnRetry _ _ _ => None
                 end) events.

Definition waitsOf (events : list Telemetry) : list Z :=
  omap (fun t => match t with
                 | OnAttempt _ => None
                 | OnRetry _ waitMs _ => Some waitMs
                 end) events.

End Retry.

(** A sample job in its publish phase whose only item failed to
    publish. *)
Module JobSamples.
Import Js Worker.

Definition publishingJob : SeoJob.t :=
  SeoJob.set_phase (Some (js "publishing")) (Samples.jobJ1 true "failed" 0).

Definition unpublishedItem : SeoJobItem.t :=
  SeoJobItem.set_publishStatus (Some (js "failed"))
    (Samples.itemI1 "success" (Some (js "A"))).

Definition unpublishedStore : Store :=
  Samples.storeOf publishingJob unpublishedItem 400000.

End JobSamples.

(** * Properties *)

(** ** Binary64 comparison and rounding facts *)

Module NumFacts.
Import Js Num.

Lemma SFcompare_antisym (a b : number) :
  SFcompare b a = option_map CompOpp (SFcompare a b).
Proof.
  destruct a as [sa|sa| |sa ma ea], b as [sb|sb| |sb mb eb]; simpl;
    try reflexivity;
    try (destruct sa; reflexivity); try (destruct sb; reflexivity);
    try (destruct sa, sb; reflexivity).
  pose proof (Pos.compare_cont_antisym ma mb Eq) as Hm.
  change (CompOpp (PosDef.Pos.compare_cont Eq ma mb)
          = PosDef.Pos.compare_cont Eq mb ma) in Hm.
  destruct sa, sb; simpl; try reflexivity.
  - rewrite (Z.compare_antisym ea eb).
    destruct (ea ?= eb) eqn:E; simpl; try reflexivity.
    rewrite <- Hm. reflexivity.
  - rewrite (Z.compare_antisym ea eb).
    destruct (ea ?= eb) eqn:E; simpl; try reflexivity.
    rewrite <- Hm. reflexivity.
Qed.

Lemma SFcompare_refl (a : number) : a <> NaN -> SFcompare a a = Some Eq.
Proof.
  destruct a as [s|s| |s m e]; simpl; intros H; try reflexivity.
  - destruct s; reflexivity.
  - exfalso. apply H. reflexivity.
  - rewrite Z.compare_refl.
    change (PosDef.Pos.compare_cont Eq m m) with (Pos.compare_cont Eq m m).
    rewrite Pos.compare_cont_refl. destruct s; reflexivity.
Qed.

Lemma digits2_iter_xO (p k : positive) :
  Z.pos (digits2_pos (Pos.iter xO p k)) = Z.pos (digits2_pos p) + Z.pos k.
Proof.
  revert p. induction k using Pos.peano_ind; intros p.
  - simpl. lia.
  - rewrite Pos.iter_succ. simpl. rewrite Pos2Z.inj_succ, IHk. lia.
Qed.

Lemma iter_xO_mul (p k : positive) :
  Z.pos (Pos.iter xO p k) = Z.pos p * 2 ^ Z.pos k.
Proof.
  revert p. induction k using Pos.peano_ind; intros p.
  - simpl. lia.
  - rewrite Pos.iter_succ. rewrite Pos2Z.inj_xO, IHk.
    rewrite Pos2Z.inj_succ, Z.pow_succ_r by lia. lia.
Qed.

Lemma shr_exponent mrs e n : e <= snd (shr mrs e n).
Proof. destruct n; simpl; lia. Qed.

Lemma shr_fexp_exact (m e : Z) :
  fexp prec emax (Zdigits2 m + e) - e = 0 ->
  shr_fexp prec emax m e loc_Exact = (Build_shr_record m false false, e).
Proof. unfold shr_fexp. intros ->. reflexivity. Qed.

Lemma binary_round_aux_canonical (s : bool) (m : positive) (e : Z) :
  fexp prec emax (Z.pos (digits2_pos m) + e) = e ->
  binary_round_aux prec emax s (Z.pos m) e loc_Exact
  = if e <=? emax - prec then S754_finite s m e else S754_infinity s.
Proof.
  intros H. unfold binary_round_aux.
  rewrite shr_fexp_exact by (simpl Zdigits2; lia).
  cbn [shr_m loc_of_shr_record round_nearest_even].
  rewrite shr_fexp_exact by (simpl Zdigits2; lia).
  reflexivity.
Qed.

Lemma binary_round_integer (s : bool) (p : positive) :
  isFinite (binary_round prec emax s p 0) = true ->
  isInteger (binary_round prec emax s p 0) = true.
Proof.
  unfold binary_round, shl_align.
  set (d := Z.pos (digits2_pos p)).
  assert (Hf : fexp prec emax (d + 0) = Z.max (d - 53) (-1074)).
  { unfold fexp, emin, prec, emax. lia. }
  rewrite Hf.
  destruct (Z.max (d - 53) (-1074) - 0) as [|k|k] eqn:Hk.
  - (* 53 digits: already canonical *)
    rewrite binary_round_aux_canonical
      by (fold d; unfold fexp, emin, prec, emax; lia).
    reflexivity.
  - (* more than 53 digits: the exponent becomes positive *)
    unfold binary_round_aux.
    destruct (shr_fexp prec emax (Z.pos p) 0 loc_Exact) as [mrs' e'] eqn:H1.
    assert (He' : 1 <= e').
    { unfold shr_fexp in H1. simpl Zdigits2 in H1. fold d in H1.
      rewrite Hf in H1.
      replace (Z.max (d - 53) (-1074) - 0) with (Z.pos k) in H1 by lia.
      simpl in H1. inversion H1. lia. }
    destruct (shr_fexp prec emax
                (round_nearest_even (shr_m mrs') (loc_of_shr_record mrs'))
                e' loc_Exact) as [mrs'' e''] eqn:H2.
    assert (He'' : e' <= e'').
    { unfold shr_fexp in H2.
      match type of H2 with
      | shr ?r ?e ?n = _ => pose proof (shr_exponent r e n) as Hs
      end.
      rewrite H2 in Hs. exact Hs. }
    destruct (shr_m mrs''); simpl; try (intros; reflexivity || discriminate).
    destruct (e'' <=? emax - prec); simpl; try discriminate.
    intros _. destruct (0 <=? e'') eqn:E; [reflexivity|].
    apply Z.leb_gt in E. lia.
  - (* fewer than 53 digits: the mantissa is shifted left *)
    assert (Hd : d + Z.pos k = 53) by lia.
    rewrite binary_round_aux_canonical
      by (rewrite digits2_iter_xO; fold d; unfold fexp, emin, prec, emax; lia).
    destruct (Z.max (d - 53) (-1074) <=? emax - prec); simpl; try discriminate.
    intros _.
    replace (Z.max (d - 53) (-1074)) with (Z.neg k) by lia.
    simpl Z.opp. rewrite iter_xO_mul, Z.mod_mul by lia.
    rewrite Z.eqb_refl. apply orb_true_r.
Qed.

Lemma ofZ_integer (z : Z) : isFinite (ofZ z) = true -> isInteger (ofZ z) = true.
Proof.
  unfold ofZ, binary_normalize. destruct z; [reflexivity | |];
    apply binary_round_integer.
Qed.

Lemma Math_ceil_integer (x : number) :
  isFinite (Math_ceil x) = true -> isInteger (Math_ceil x) = true.
Proof.
  destruct x as [s|s| |s m e]; simpl; try (intros; reflexivity || discriminate).
  destruct (0 <=? e) eqn:E.
  - intros _. simpl. rewrite E. reflexivity.
  - destruct (- (- (if s then Z.neg m else Z.pos m) / 2 ^ (- e)));
      [reflexivity | apply binary_round_integer | apply binary_round_integer].
Qed.

Lemma leb_refl (a : number) : a <> NaN -> leb a a = true.
Proof. intros H. unfold leb, SFleb. rewrite SFcompare_refl by exact H. reflexivity. Qed.

Lemma leb_not_NaN (a b : number) : leb a b = true -> a <> NaN /\ b <> NaN.
Proof.
  unfold leb, SFleb, NaN.
  destruct a, b; simpl; try discriminate; intros _; split; discriminate.
Qed.

Lemma leb_zero_of_not_leb (ms : number) :
  isFinite ms = true -> leb ms zero = false -> leb zero ms = true.
Proof.
  destruct ms as [s|s| |s m e]; simpl; try discriminate.
  destruct s; [discriminate | reflexivity].
Qed.

Lemma leb_zero_not_ltb (a : number) : leb zero a = true -> ltb a zero = false.
Proof.
  destruct a as [s|s| |s m e]; simpl; try discriminate; try reflexivity;
    destruct s; simpl; try discriminate; reflexivity.
Qed.

Lemma gt_leb (a b : number) : SFcompare a b = Some Gt -> leb b a = true.
Proof.
  intros H. unfold leb, SFleb. rewrite SFcompare_antisym, H. reflexivity.
Qed.

(** [Math.min] of a bound and a value, both at least 0 and integer. *)
Lemma Math_min_bounded (bound ms : number) :
  isInteger bound = true -> leb zero bound = true ->
  isInteger ms = true -> leb zero ms = true ->
  isInteger (Math_min bound ms) = true
  /\ leb zero (Math_min bound ms) = true
  /\ leb (Math_min bound ms) bound = true.
Proof.
  intros Ib Pb Im Pm.
  destruct (leb_not_NaN _ _ Pb) as [_ Nb].
  destruct (leb_not_NaN _ _ Pm) as [_ Nm].
  unfold Math_min. destruct (SFcompare bound ms) as [[| |]|] eqn:C.
  - assert (R := leb_refl bound Nb).
    destruct bound as [sb|sb| |sb mb eb], ms as [sm|sm| |sm mm em];
      repeat split; assumption || reflexivity.
  - repeat split; try assumption. apply leb_refl, Nb.
  - repeat split; try assumption. apply gt_leb, C.
  - exfalso. destruct bound, ms; simpl in C; try discriminate;
      (apply Nb; reflexivity) || (apply Nm; reflexivity).
Qed.

End NumFacts.

(** ** Cost pacing *)

Module ThrottleFacts.
Import Js Num Throttle NumFacts.

Lemma wait_zero_facts (maxWait : number) :
  isInteger maxWait = true -> leb zero maxWait = true ->
  isInteger zero = true /\ leb zero zero = true /\ leb zero maxWait = true
  /\ zero <> NaN /\ ltb zero zero = false.
Proof. intros _ H. repeat split; try reflexivity; try exact H. discriminate. Qed.

(** Whatever the response, the wait is an integer between 0 and the
    cap. *)
Lemma throttle_wait_bounds (body : option json) (o : Options) :
  let maxWait := default (ofZ 5000) (maxWaitMs o) in
  let r := computeShopifyThrottleWaitMs body o in
  isInteger maxWait = true -> leb zero maxWait = true ->
  isInteger r = true /\ leb zero r = true /\ leb r maxWait = true
  /\ r <> NaN /\ ltb r zero = false.
Proof.
  intros maxWait r Imax Pmax. subst r. unfold computeShopifyThrottleWaitMs.
  fold maxWait.
  set (throttle := throttleStatusOf body).
  set (cA := Number_ (getProp "currentlyAvailable" throttle)).
  set (rate := Number_ (getProp "restoreRate" throttle)).
  destruct (negb (isFinite cA) || negb (isFinite rate) || leb rate zero);
    [apply wait_zero_facts; assumption |].
  destruct (geb cA (default (ofZ 100) (minAvailable o)));
    [apply wait_zero_facts; assumption |].
  set (ms := waitMsOf (default (ofZ 100) (minAvailable o)) cA rate).
  destruct (isFinite ms) eqn:Fms; simpl;
    [| apply wait_zero_facts; assumption].
  destruct (leb ms zero) eqn:Lms;
    [apply wait_zero_facts; assumption |].
  assert (Pms := leb_zero_of_not_leb ms Fms Lms).
  assert (Ims : isInteger ms = true) by (apply Math_ceil_integer, Fms).
  destruct (Math_min_bounded maxWait ms Imax Pmax Ims Pms) as (A & B & C).
  repeat split; try assumption.
  - apply (leb_not_NaN _ _ B).
  - apply leb_zero_not_ltb, B.
Qed.

(** C10. The throttle wait is total and never an invalid sleep: it is 0
    when [extensions.cost.throttleStatus] is absent or null, when the
    number read for [currentlyAvailable] or [restoreRate] is not finite,
    and when [restoreRate <= 0]; and for every response it is an
    integer between 0 and [maxWaitMs] (5000 by default, any integer
    that is not negative otherwise), hence neither NaN nor negative. *)
Theorem throttle_wait_total_and_bounded (body : option json) (o : Options) :
  let maxWait := default (ofZ 5000) (maxWaitMs o) in
  let throttle := throttleStatusOf body in
  let currentlyAvailable := Number_ (getProp "currentlyAvailable" throttle) in
  let restoreRate := Number_ (getProp "restoreRate" throttle) in
  let r := computeShopifyThrottleWaitMs body o in
  isInteger maxWait = true -> leb zero maxWait = true ->
  (throttle = None \/ throttle = Some JNull -> r = zero)
  /\ (isFinite currentlyAvailable = false \/ isFinite restoreRate = false
      \/ leb restoreRate zero = true -> r = zero)
  /\ isInteger r = true /\ leb zero r = true /\ leb r maxWait = true
  /\ r <> NaN /\ ltb r zero = false.
Proof.
  intros maxWait throttle cA rate r Imax Pmax.
  assert (Guard : isFinite cA = false \/ isFinite rate = false
                  \/ leb rate zero = true -> r = zero).
  { intros H. subst r. unfold computeShopifyThrottleWaitMs.
    fold throttle. fold cA. fold rate.
    destruct H as [H | [H | H]]; rewrite H; simpl;
      rewrite ?orb_true_r; reflexivity. }
  split.
  { intros H. apply Guard. left. subst cA.
    destruct H as [H | H]; rewrite H; reflexivity. }
  split; [exact Guard |].
  exact (throttle_wait_bounds body o Imax Pmax).
Qed.

(** C3, as amended. The wait is 0 whenever [currentlyAvailable >=
    minAvailable] (100); otherwise, for finite values and a positive
    [restoreRate], it is the ceiling taken on milliseconds,
    [Math.ceil((minAvailable - currentlyAvailable) / restoreRate * 1000)]
    in binary64 arithmetic, capped at 5000 ms, and 0 when that is not a
    positive finite number; it always lies between 0 and 5000 ms; and
    for [currentlyAvailable = 50], [restoreRate = 50] the engine sleeps
    1000 ms, which is at least 1000 ms and at most 5000 ms. *)
Theorem throttle_wait_formula (body : option json) :
  let throttle := throttleStatusOf body in
  let currentlyAvailable := Number_ (getProp "currentlyAvailable" throttle) in
  let restoreRate := Number_ (getProp "restoreRate" throttle) in
  let r := computeShopifyThrottleWaitMs body defaults in
  let ms :=
    Math_ceil (mul (div (sub (ofZ 100) currentlyAvailable) restoreRate)
                 (ofZ 1000)) in
  let sample := costResponse (JNumber (ofZ 50)) (JNumber (ofZ 50)) in
  (geb currentlyAvailable (ofZ 100) = true -> r = zero)
  /\ (geb currentlyAvailable (ofZ 100) = false ->
      isFinite currentlyAvailable = true -> isFinite restoreRate = true ->
      leb restoreRate zero = false ->
      r = if isFinite ms && negb (leb ms zero)
          then Math_min (ofZ 5000) ms else zero)
  /\ leb zero r = true /\ leb r (ofZ 5000) = true
  /\ pacingSleepMs sample = Some (ofZ 1000)
  /\ leb (ofZ 1000) (ofZ 1000) = true /\ leb (ofZ 1000) (ofZ 5000) = true.
Proof.
  intros throttle cA rate r ms sample.
  split; [| split].
  - intros H. subst r. unfold computeShopifyThrottleWaitMs.
    fold throttle. fold cA. fold rate.
    change (default (ofZ 100) (minAvailable defaults)) with (ofZ 100).
    rewrite H.
    destruct (negb (isFinite cA) || negb (isFinite rate) || leb rate zero);
      reflexivity.
  - intros G Fc Fr Lr. subst r. unfold computeShopifyThrottleWaitMs.
    fold throttle. fold cA. fold rate.
    change (default (ofZ 100) (minAvailable defaults)) with (ofZ 100).
    change (default (ofZ 5000) (maxWaitMs defaults)) with (ofZ 5000).
    rewrite Fc, Fr, Lr, G. cbn [negb orb]. unfold waitMsOf. fold ms.
    destruct (isFinite ms); cbn [negb orb andb]; [| reflexivity].
    destruct (leb ms zero); reflexivity.
  - destruct (throttle_wait_bounds body defaults eq_refl eq_refl)
      as (_ & A & B & _).
    repeat split; try assumption; reflexivity.
Qed.

(** On whole numbers of cost points the binary64 computation agrees
    with the exact ceiling of [1000 * deficit / restoreRate]: checked
    for every deficit from 1 to 100 at the restore rates 50, 100, 200,
    500, 1000 and 2000. *)
Lemma waitMs_exact_on_whole_points :
  forallb (fun d =>
    forallb (fun rate =>
      bool_decide (SFcompare
                     (waitMsOf (ofZ 100) (ofZ (100 - Z.of_nat d)) (ofZ rate))
                     (ofZ (- ((- (1000 * Z.of_nat d)) / rate)))
                   = Some Eq))
      [50; 100; 200; 500; 1000; 2000]) (seq 1 100) = true.
Proof. vm_compute. reflexivity. Qed.

(** C3, counterexample. With 50 points available and 100 restored per
    second the source waits 500 ms, where the ceiling of the deficit
    over the rate in whole seconds is one second. *)
Lemma throttle_wait_not_whole_seconds :
  computeShopifyThrottleWaitMs
    (costResponse (JNumber (ofZ 50)) (JNumber (ofZ 100))) defaults = ofZ 500
  /\ specWaitMs (ofZ 50) (ofZ 100) = ofZ 1000
  /\ ofZ 500 <> ofZ 1000.
Proof. vm_compute. repeat split; discriminate. Qed.

(** The theorem at the response (50, 50) with the default options. *)
Lemma throttle_wait_total_and_bounded_witness :
  isInteger (ofZ 5000) = true /\ leb zero (ofZ 5000) = true
  /\ leb (computeShopifyThrottleWaitMs
            (costResponse (JNumber (ofZ 50)) (JNumber (ofZ 50))) defaults)
         (ofZ 5000) = true.
Proof.
  split; [reflexivity | split; [reflexivity |]].
  apply (throttle_wait_total_and_bounded
           (costResponse (JNumber (ofZ 50)) (JNumber (ofZ 50))) defaults);
    reflexivity.
Defined.

End ThrottleFacts.

(** ** Failure classification *)

Module ClassifierFacts.
Import Js Classifier.

Lemma classify_below_400 (status : option Z) (message name : option jsstring) :
  noFailureStatus status ->
  classifyOpenAiFailure status message name
  = if isAbortOf message name then mkClass true (js "OpenAI request timed out.")
    else if matchesNetwork (default [] message)
         then mkClass true (js "Network error while calling OpenAI.")
         else classifyOpenAiFailure status message name.
Proof.
  intros H. unfold classifyOpenAiFailure, isAbortOf.
  destruct status as [s|]; simpl in H |- *.
  - repeat match goal with
           | |- context [s =? ?k] =>
               let E := fresh in destruct (Z.eqb_spec s k) as [E|E]; [lia|]
           end.
    simpl.
    destruct (Z.leb_spec 400 s); [lia|]. destruct (Z.leb_spec 500 s); [lia|].
    rewrite !andb_false_r. simpl.
    destruct (bool_decide (name = Some (js "AbortError"))
              || matchesAborted (default [] message)); [reflexivity|].
    destruct (matchesNetwork (default [] message)); reflexivity.
  - destruct (bool_decide (name = Some (js "AbortError"))
              || matchesAborted (default [] message)); [reflexivity|].
    destruct (matchesNetwork (default [] message)); reflexivity.
Qed.

(** C4, as amended. The classifier of text-service failures maps, the
    first match winning: 401 and 403 to permanent with the message
    "OpenAI API key is invalid or missing."; 429 to transient; 400 with
    a message matching [/context length|max.*tokens|too long/i] to
    permanent with "Input is too long for the model."; every other
    status from 400 to 499 to permanent; 500 and above to transient;
    and, when no status from 400 up is present, an abort (the name
    [AbortError] or a message matching [/aborted/i]) and a network
    error (ECONNRESET, ENOTFOUND, EAI_AGAIN, ETIMEDOUT, "network") to
    transient. *)
Theorem classify_openai_failure_rules
  (status : option Z) (message name : option jsstring) :
  let c := classifyOpenAiFailure status message name in
  let msg := default [] message in
  (status = Some 401 \/ status = Some 403 ->
   c = mkClass false (js "OpenAI API key is invalid or missing."))
  /\ (status = Some 429 -> c = mkClass true (js "OpenAI rate limit reached."))
  /\ (status = Some 400 -> matchesTooLong msg = true ->
      c = mkClass false (js "Input is too long for the model."))
  /\ (forall s, status = Some s -> 400 <= s < 500 ->
      s <> 401 -> s <> 403 -> s <> 429 ->
      (s = 400 -> matchesTooLong msg = false) ->
      c = mkClass false (js "OpenAI request failed (" ++ intToString s ++ js ")."))
  /\ (forall s, status = Some s -> 500 <= s ->
      c = mkClass true (js "OpenAI server error (" ++ intToString s ++ js ")."))
  /\ (noFailureStatus status -> isAbortOf message name = true ->
      c = mkClass true (js "OpenAI request timed out."))
  /\ (noFailureStatus status -> isAbortOf message name = false ->
      matchesNetwork msg = true ->
      c = mkClass true (js "Network error while calling OpenAI.")).
Proof.
  intros c msg. subst c.
  repeat split.
  - intros [-> | ->]; reflexivity.
  - intros ->. reflexivity.
  - intros -> H. unfold classifyOpenAiFailure. fold msg. rewrite H. reflexivity.
  - intros s -> Hs N1 N3 N9 Hlong. unfold classifyOpenAiFailure. fold msg.
    unfold statusIs, truthyStatus. simpl default.
    destruct (Z.eqb_spec s 401); [lia|]. destruct (Z.eqb_spec s 403); [lia|].
    destruct (Z.eqb_spec s 429); [lia|]. simpl.
    assert (E : (s =? 400) && matchesTooLong msg = false).
    { destruct (Z.eqb_spec s 400) as [e|e]; [rewrite (Hlong e)|]; reflexivity. }
    rewrite E.
    destruct (Z.eqb_spec s 0); [lia|]. destruct (Z.leb_spec 400 s); [|lia].
    destruct (Z.ltb_spec s 500); [|lia]. reflexivity.
  - intros s -> Hs. unfold classifyOpenAiFailure. fold msg.
    unfold statusIs, truthyStatus. simpl default.
    destruct (Z.eqb_spec s 401); [lia|]. destruct (Z.eqb_spec s 403); [lia|].
    destruct (Z.eqb_spec s 429); [lia|]. destruct (Z.eqb_spec s 400); [lia|].
    destruct (Z.eqb_spec s 0); [lia|]. destruct (Z.leb_spec 400 s); [|lia].
    destruct (Z.ltb_spec s 500); [lia|]. destruct (Z.leb_spec 500 s); [|lia].
    reflexivity.
  - intros H A. rewrite classify_below_400 by exact H. rewrite A. reflexivity.
  - intros H A Nw. rewrite classify_below_400 by exact H. fold msg.
    rewrite A, Nw. reflexivity.
Qed.

(** C4, counterexample. For a 401 the message is not "authentication
    failed", and for an oversized 400 it is not "input too long". *)
Lemma classify_messages_differ :
  userMessage (classifyOpenAiFailure (Some 401) None None)
    <> js "authentication failed"
  /\ userMessage (classifyOpenAiFailure (Some 400)
                    (Some (js "maximum context length is 4097 tokens")) None)
    <> js "input too long".
Proof. vm_compute. split; discriminate. Qed.

End ClassifierFacts.

(** ** The broker adapter *)

Module QueueFacts.
Import Js Queue.

Lemma trimStart_noLeadingSpace (s : jsstring) : noLeadingSpace (trimStart s).
Proof.
  induction s as [|c r IH]; simpl; [exact I|].
  destruct (isWhiteSpace c) eqn:E; [exact IH | exact E].
Qed.

Lemma trimStart_id (s : jsstring) : noLeadingSpace s -> trimStart s = s.
Proof. destruct s as [|c r]; simpl; [reflexivity|]. intros ->. reflexivity. Qed.

Lemma trimStart_snoc (s : jsstring) (c : N) :
  isWhiteSpace c = false -> trimStart (s ++ [c]) = trimStart s ++ [c].
Proof.
  intros H. induction s as [|x r IH]; simpl.
  - rewrite H. reflexivity.
  - destruct (isWhiteSpace x); [exact IH | reflexivity].
Qed.

Lemma trimEnd_noLeadingSpace (s : jsstring) :
  noLeadingSpace s -> noLeadingSpace (trimEnd s).
Proof.
  destruct s as [|c r]; [intros _; exact I|]. simpl. intros H.
  unfold trimEnd. simpl rev. rewrite trimStart_snoc by exact H.
  rewrite rev_app_distr. simpl. exact H.
Qed.

Lemma trimEnd_idem (s : jsstring) : trimEnd (trimEnd s) = trimEnd s.
Proof.
  unfold trimEnd. rewrite rev_involutive.
  rewrite (trimStart_id (trimStart (rev s))) by apply trimStart_noLeadingSpace.
  reflexivity.
Qed.

Lemma trim_idem (s : jsstring) : trim (trim s) = trim s.
Proof.
  unfold trim.
  rewrite (trimStart_id (trimEnd (trimStart s)))
    by (apply trimEnd_noLeadingSpace, trimStart_noLeadingSpace).
  apply trimEnd_idem.
Qed.

Lemma safeBullId_no_colon (input : option jsstring) : 58%N ∉ safeBullId input.
Proof.
  unfold safeBullId. intros H. apply list_elem_of_fmap in H.
  destruct H as (c & E & _).
  destruct (N.eqb_spec c 58); [discriminate | congruence].
Qed.

Lemma safeBullId_trim (s : jsstring) :
  safeBullId (Some (trim s)) = safeBullId (Some s).
Proof. unfold safeBullId. simpl. rewrite trim_idem. reflexivity. Qed.

(** C8, as amended. For a [jobId] that is not blank (and a broker
    address set), the external id used when enqueueing is
    [safeBullId(kind) + "-" + safeBullId(jobId)], where [safeBullId]
    trims its input and replaces every colon by a hyphen; the id
    contains no colon, and removal recomputes the same id. *)
Theorem enqueue_external_id
  (redisUrl jobId kind : option jsstring) (removeFails : option jsstring) :
  default [] redisUrl <> [] -> trim (default [] jobId) <> [] ->
  exists call,
    enqueueSeoJob redisUrl jobId kind = inr call
    /\ opt_jobId call
       = safeBullId (Some (default (js "generate") kind)) ++ js "-"
         ++ safeBullId jobId
    /\ (forall input,
          safeBullId input
          = map (fun c => if (c =? 58)%N then 45%N else c) (trim (default [] input)))
    /\ (58%N ∉ opt_jobId call)
    /\ fst (removeSeoQueueJob redisUrl removeFails jobId kind)
       = Some (opt_jobId call).
Proof.
  intros Hurl Hid. unfold enqueueSeoJob, removeSeoQueueJob.
  destruct (default [] redisUrl) as [|u url]; [congruence|].
  destruct (trim (default [] jobId)) as [|c r] eqn:E; [congruence|].
  eexists. split; [reflexivity|]. simpl opt_jobId.
  assert (Id : customIdOf (c :: r) (default (js "generate") kind)
               = safeBullId (Some (default (js "generate") kind)) ++ js "-"
                 ++ safeBullId jobId).
  { unfold customIdOf. rewrite <- E, safeBullId_trim.
    destruct jobId; reflexivity. }
  split; [exact Id|]. split; [reflexivity|]. split.
  - rewrite Id. intros H.
    apply elem_of_app in H as [H|H]; [exact (safeBullId_no_colon _ H)|].
    apply elem_of_app in H as [H|H]; [|exact (safeBullId_no_colon _ H)].
    apply list_elem_of_singleton in H. discriminate.
  - destruct removeFails; reflexivity.
Qed.

(** The theorem at the job id [" a:b "] with the default kind. *)
Lemma enqueue_external_id_witness :
  exists call,
    enqueueSeoJob (Some (js "redis://broker")) (Some (js " a:b ")) None
    = inr call
    /\ opt_jobId call = js "generate-a-b".
Proof.
  destruct (enqueue_external_id (Some (js "redis://broker"))
              (Some (js " a:b ")) None None) as (call & E & Id & _).
  - vm_compute. discriminate.
  - vm_compute. discriminate.
  - exists call. split; [exact E|]. rewrite Id. reflexivity.
Defined.

(** C8, counterexample. With the colon of ["a:b"] stripped the id would
    be ["generate-ab"]; the id enqueued is ["generate-a-b"]. *)
Lemma external_id_replaces_colons :
  enqueueSeoJob (Some (js "redis://broker")) (Some (js "a:b"))
    (Some (js "generate"))
  = inr (mkAdd JOB_NAME (js "a:b") (js "generate") (js "generate-a-b")
           3 (js "exponential") 2000 true true)
  /\ (stripColons (js "generate") ++ js "-" ++ stripColons (js "a:b"))
     = js "generate-ab"
  /\ js "generate-a-b" <> js "generate-ab".
Proof. vm_compute. repeat split; discriminate. Qed.

End QueueFacts.

(** ** Free-plan usage reservation *)

Module BillingFacts.
Import Js Billing Samples.

Lemma usedOf_insert (tbl : UsageTable) (shop monthKey : jsstring) (row : UsageRow) :
  usedOf (<[(shop, monthKey) := row]> tbl) shop monthKey = used row.
Proof. unfold usedOf. rewrite lookup_insert_eq. reflexivity. Qed.

(** The transaction on a request of at least one item. *)
Lemma reserveTx_outcome (shop monthKey : jsstring) (n lim now : Z)
  (tbl : UsageTable) :
  let used0 := usedOf tbl shop monthKey in
  let out := reserveTx shop monthKey n lim now tbl in
  (if lim <? used0 + n
   then fst out = mkReservation false (js "FREE_LIMIT_EXCEEDED") monthKey
                    used0 lim (Z.max 0 (lim - used0))
        /\ usedOf (snd out) shop monthKey = used0
   else fst out = mkReservation true (js "OK") monthKey (used0 + n) lim
                    (lim - (used0 + n))
        /\ usedOf (snd out) shop monthKey = used0 + n)
  /\ (forall key, key <> (shop, monthKey) -> snd out !! key = tbl !! key).
Proof.
  intros used0 out. subst out. unfold reserveTx.
  set (tbl1 := match tbl !! (shop, monthKey) with
               | Some row => <[(shop, monthKey) := mkRow (used row) (createdAt row) now]> tbl
               | None => <[(shop, monthKey) := mkRow 0 now now]> tbl
               end).
  assert (U1 : usedOf tbl1 shop monthKey = used0).
  { subst tbl1 used0. unfold usedOf at 2.
    destruct (tbl !! (shop, monthKey)); rewrite usedOf_insert; reflexivity. }
  assert (F1 : forall key, key <> (shop, monthKey) -> tbl1 !! key = tbl !! key).
  { intros key Hk. subst tbl1.
    destruct (tbl !! (shop, monthKey)); apply lookup_insert_ne; congruence. }
  rewrite U1.
  destruct (lim <? used0 + n) eqn:E; simpl.
  - repeat split; assumption.
  - apply Z.ltb_ge in E. repeat split.
    + f_equal. lia.
    + unfold usedOf. rewrite lookup_alter_eq.
      unfold usedOf in U1. subst tbl1.
      destruct (tbl !! (shop, monthKey));
        rewrite lookup_insert_eq; reflexivity.
    + intros key Hk. rewrite lookup_alter_ne by congruence. apply F1, Hk.
Qed.

(** The retry loop returns what the committing transaction returns, and
    throws with the table untouched when none commits. *)
Lemma reserveLoop_outcome (fault : Z -> option jsstring)
  (shop monthKey : jsstring) (n lim : Z) (now : Z -> Z) (tbl : UsageTable) :
  match commitAttempt fault with
  | Some k =>
      reserveLoop 3 1 fault shop monthKey n lim now tbl
      = (inr (fst (reserveTx shop monthKey n lim (now k) tbl)),
         snd (reserveTx shop monthKey n lim (now k) tbl))
  | None =>
      exists msg,
        reserveLoop 3 1 fault shop monthKey n lim now tbl = (inl msg, tbl)
  end.
Proof.
  unfold commitAttempt, reserveLoop, MAX_RETRIES.
  change (1 + 1 + 1) with 3. change (1 + 1) with 2.
  change (1 =? 3) with false. change (2 =? 3) with false.
  change (3 =? 3) with true.
  destruct (fault 1) as [m1|];
    [| destruct (reserveTx shop monthKey n lim (now 1) tbl); reflexivity].
  destruct (shouldRetry m1); cbn [negb orb]; [| eexists; reflexivity].
  destruct (fault 2) as [m2|];
    [| destruct (reserveTx shop monthKey n lim (now 2) tbl); reflexivity].
  destruct (shouldRetry m2); cbn [negb orb]; [| eexists; reflexivity].
  destruct (fault 3) as [m3|];
    [| destruct (reserveTx shop monthKey n lim (now 3) tbl); reflexivity].
  rewrite orb_true_r. eexists; reflexivity.
Qed.

(** C2, as amended. A request of [n >= 1] items against the limit [L]
    (10 when none is given), with the shop's counter for the month at
    [used]: when the transaction commits (at once, or after one or two
    conflicts worth a retry), if [used + n > L] the call returns
    [ok = false] with code "FREE_LIMIT_EXCEEDED", [used] and
    [remaining = max(0, L - used)], and the counter stays at [used];
    otherwise the counter becomes [used + n] and the call returns
    [ok = true] with code "OK", [used + n] and
    [remaining = L - (used + n)]; no other counter changes. When no
    transaction commits the call throws and the table is unchanged.
    A request of [n <= 0] items returns [ok = true] with [used = 0] and
    [remaining = L] without reading or writing the table. *)
Theorem reserve_free_usage
  (fault : Z -> option jsstring) (monthKey : jsstring) (now : Z -> Z)
  (shop : jsstring) (count : Z) (limit_ : option Z) (tbl : UsageTable) :
  let L := default 10 limit_ in
  let used0 := usedOf tbl shop monthKey in
  let out := reserveFreeUsageMonthly fault monthKey now shop count limit_ tbl in
  (count <= 0 ->
   out = (inr (mkReservation true (js "OK") monthKey 0 L L), tbl))
  /\ (0 < count ->
      match commitAttempt fault with
      | Some k =>
          (if L <? used0 + count
           then fst out = inr (mkReservation false (js "FREE_LIMIT_EXCEEDED")
                                 monthKey used0 L (Z.max 0 (L - used0)))
                /\ usedOf (snd out) shop monthKey = used0
           else fst out = inr (mkReservation true (js "OK") monthKey
                                 (used0 + count) L (L - (used0 + count)))
                /\ usedOf (snd out) shop monthKey = used0 + count)
          /\ (forall key, key <> (shop, monthKey) -> snd out !! key = tbl !! key)
      | None => (exists msg, fst out = inl msg) /\ snd out = tbl
      end).
Proof.
  intros L used0 out. subst out. unfold reserveFreeUsageMonthly. fold L.
  split.
  - intros H. replace (Z.max 0 count) with 0 by lia. reflexivity.
  - intros H. replace (Z.max 0 count) with count by lia.
    destruct (Z.eqb_spec count 0); [lia|].
    change (Z.to_nat MAX_RETRIES) with 3%nat.
    pose proof (reserveLoop_outcome fault shop monthKey count L now tbl) as Loop.
    destruct (commitAttempt fault) as [k|].
    + rewrite Loop. cbn [fst snd].
      pose proof (reserveTx_outcome shop monthKey count L (now k) tbl) as P.
      fold used0 in P. cbv zeta in P. destruct P as [P Q]. split; [|exact Q].
      destruct (L <? used0 + count); destruct P as [P1 P2];
        (split; [f_equal; exact P1 | exact P2]).
    + destruct Loop as [msg ->]. split; [eexists; reflexivity | reflexivity].
Qed.

(** The theorem on the free-plan scenario: 8 used, 5 requested, limit
    10; the counter remains 8. *)
Lemma reserve_free_usage_witness :
  0 < 5
  /\ fst (reserveFreeUsageMonthly noFault november (fun _ => 0) shopT2 5
            (Some 10) usedEight)
     = inr (mkReservation false (js "FREE_LIMIT_EXCEEDED") november 8 10 2)
  /\ usedOf (snd (reserveFreeUsageMonthly noFault november (fun _ => 0) shopT2 5
                    (Some 10) usedEight)) shopT2 november = 8.
Proof.
  split; [lia|].
  pose proof (proj2 (reserve_free_usage noFault november (fun _ => 0) shopT2 5
                       (Some 10) usedEight) ltac:(lia)) as H.
  simpl commitAttempt in H.
  change (usedOf usedEight shopT2 november) with 8 in H.
  simpl in H. destruct H as [[H1 H2] _]. split; [exact H1 | exact H2].
Defined.

(** C2, counterexample. The refusal code is "FREE_LIMIT_EXCEEDED", not
    "LimitExceeded" (8 used, 5 requested, limit 10); and a request of
    no item with 5 used out of 10 returns [used = 0] and
    [remaining = 10], where the counter is 5 and 5 remain. *)
Lemma reserve_differs_from_spec :
  ~ meetsSpec 8 5 10
      (reserveFreeUsageMonthly noFault november (fun _ => 0) shopT2 5
         (Some 10) usedEight) shopT2 november
  /\ ~ meetsSpec 5 0 10
         (reserveFreeUsageMonthly noFault november (fun _ => 0) shopT2 0
            (Some 10) usedFive)
         shopT2 november.
Proof.
  split; vm_compute; intros H.
  - destruct H as (_ & H & _). discriminate.
  - destruct H as (_ & H & _). discriminate.
Qed.

End BillingFacts.

(** ** Language guard and rewrite pass *)

Module GeneratorFacts.
Import Js Generator Samples.

(** A run asks for at most one rewrite and makes at most two calls. *)
Lemma at_most_one_rewrite (chat : ChatCall -> ChatResult)
  (title descriptionText : jsstring) (language : option jsstring)
  (settings : Settings) :
  let run := generateSeoForProduct chat title descriptionText language settings in
  (rewritePasses run <= 1)%nat /\ (length (calls run) <= 2)%nat.
Proof.
  unfold generateSeoForProduct, rewritePasses.
  destruct (chat_outcome (chat _)) as [err|out]; simpl; [lia|].
  destruct (isLanguageMismatch _ _); simpl; [|lia].
  destruct (chat_outcome (chat _)); simpl; lia.
Qed.

(** C7. In every generation of a product or blog item the text service
    is first asked for the two fields. When that call fails nothing
    else is asked. When the heuristic flags its output, exactly one
    rewrite pass follows, asking to rewrite the two values into the
    target language, and what the rewrite returns is accepted as it is
    (each value falling back to the first output when the rewrite
    leaves it empty), whether or not the heuristic would flag it again:
    no third call is made. When the heuristic does not flag the first
    output, no rewrite call is made. *)
Theorem language_rewrite_exactly_once (chat : ChatCall -> ChatResult)
  (title descriptionText : jsstring) (language : option jsstring)
  (settings : Settings) :
  let run := generateSeoForProduct chat title descriptionText language settings in
  let lang := sanitizeLanguage language in
  let first := SeoPrompt lang title descriptionText settings in
  let cut (t d : jsstring) :=
    mkSeoOut (slice0 (Z.to_nat (titleMaxCharsOf settings)) t)
      (slice0 (Z.to_nat (descriptionMaxCharsOf settings)) d) in
  match chat_outcome (chat first) with
  | inl err => calls run = [first] /\ outcome run = inl err
  | inr out =>
      let t := default [] (r_seoTitle out) in
      let d := default [] (r_seoDescription out) in
      if isLanguageMismatch lang [t; d] then
        let second :=
          RewritePrompt (sanitizeLanguage (Some lang))
            [(js "seoTitle", t); (js "seoDescription", d)]
            [js "seoTitle"; js "seoDescription"] 220 in
        calls run = [first; second] /\ rewritePasses run = 1%nat
        /\ match chat_outcome (chat second) with
           | inl err => outcome run = inl err
           | inr rewritten =>
               let t' := orElse (r_seoTitle rewritten) t in
               let d' := orElse (r_seoDescription rewritten) d in
               outcome run = inr (cut t' d') /\ length (calls run) = 2%nat
           end
      else
        calls run = [first] /\ rewritePasses run = 0%nat
        /\ outcome run = inr (cut t d)
  end.
Proof.
  cbv zeta. unfold generateSeoForProduct, rewritePasses.
  destruct (chat_outcome (chat (SeoPrompt _ _ _ _))) as [err|out];
    [split; reflexivity|].
  destruct (isLanguageMismatch _ _); [|repeat split; reflexivity].
  unfold rewriteJsonToLanguage.
  destruct (chat_outcome (chat (RewritePrompt _ _ _ _))) as [err|rewritten];
    repeat split; reflexivity.
Qed.

(** The theorem on a service that keeps answering in English to a
    Turkish job: the rewrite is asked once and its output, which the
    heuristic would flag again, is what the run returns. *)
Lemma language_rewrite_exactly_once_witness :
  let run := generateSeoForProduct alwaysEnglish (js "Board") (js "")
               (Some (js "tr")) emptySettings in
  rewritePasses run = 1%nat /\ length (calls run) = 2%nat
  /\ outcome run
     = inr (mkSeoOut (js "The perfect board for slopes and snow")
              (js "Unmatched experience for the slopes"))
  /\ isLanguageMismatch (js "tr")
       [js "The perfect board for slopes and snow";
        js "Unmatched experience for the slopes"] = true.
Proof.
  pose proof (language_rewrite_exactly_once alwaysEnglish (js "Board") (js "")
                (Some (js "tr")) emptySettings) as H.
  vm_compute in H. destruct H as (_ & H1 & H2 & H3).
  intros run.
  split; [exact H1 | split; [exact H3 | split; [exact H2 |]]].
  vm_compute. reflexivity.
Defined.

End GeneratorFacts.

(** ** Writing metafields *)

Module StoreApiFacts.
Import Js Generator StoreApi Samples.

Lemma nonEmpty_true (s : jsstring) : nonEmpty s = true -> s <> [].
Proof. destruct s; [discriminate | intros _; discriminate]. Qed.

(** Where an entry staged for a product comes from. *)
Lemma stageProduct_entries (id : jsstring) (seoTitle seoDescription : option jsstring)
  (o : WriteOptions) (p : ProductSeo) (m : Metafield) :
  m ∈ stageProduct id seoTitle seoDescription o p ->
  ownerId m = id /\ value m <> []
  /\ ((key m = js "title_tag" /\ default true (metaTitle o) = true
       /\ (value m = trim (default [] seoTitle)
           \/ (trim (default [] seoTitle) = []
               /\ trim (default [] (p_titleTag p)) = []
               /\ value m = trim (default [] (p_seoTitle p)))))
      \/ (key m = js "description_tag" /\ default true (metaDescription o) = true
          /\ (value m = trim (default [] seoDescription)
              \/ (trim (default [] seoDescription) = []
                  /\ trim (default [] (p_descriptionTag p)) = []
                  /\ value m = trim (default [] (p_seoDescription p)))))).
Proof.
  unfold stageProduct.
  destruct (default true (metaTitle o)) eqn:MT;
    destruct (default true (metaDescription o)) eqn:MD;
    destruct (trim (default [] seoTitle)) as [|tc tr] eqn:T;
    destruct (trim (default [] seoDescription)) as [|dc dr] eqn:D;
    destruct (trim (default [] (p_titleTag p))) as [|a b] eqn:TT;
    destruct (trim (default [] (p_descriptionTag p))) as [|a' b'] eqn:DT;
    destruct (trim (default [] (p_seoTitle p))) as [|a'' b''] eqn:ST;
    destruct (trim (default [] (p_seoDescription p))) as [|a3 b3] eqn:SD;
    cbn; intros H;
    repeat (apply elem_of_cons in H as [-> | H]);
    try (apply elem_of_nil in H; contradiction);
    cbn; (split; [reflexivity | split; [discriminate|]]); tauto.
Qed.

(** Where an entry staged for an article comes from. *)
Lemma stageArticle_entries (owner : jsstring) (seoTitle seoDescription : option jsstring)
  (o : WriteOptions) (liveTitle liveDesc : jsstring) (m : Metafield) :
  m ∈ stageArticle owner seoTitle seoDescription o liveTitle liveDesc ->
  ownerId m = owner /\ value m <> []
  /\ ((key m = js "title_tag" /\ default true (metaTitle o) = true
       /\ (value m = trim (default [] seoTitle)
           \/ (trim (default [] seoTitle) = [] /\ value m = liveTitle)))
      \/ (key m = js "description_tag" /\ default true (metaDescription o) = true
          /\ (value m = trim (default [] seoDescription)
              \/ (trim (default [] seoDescription) = [] /\ value m = liveDesc)))).
Proof.
  unfold stageArticle.
  destruct (default true (metaTitle o)) eqn:MT;
    destruct (default true (metaDescription o)) eqn:MD;
    destruct (trim (default [] seoTitle)) as [|tc tr] eqn:T;
    destruct (trim (default [] seoDescription)) as [|dc dr] eqn:D;
    destruct liveTitle as [|a b]; destruct liveDesc as [|a' b'];
    cbn; intros H;
    repeat (apply elem_of_cons in H as [-> | H]);
    try (apply elem_of_nil in H; contradiction);
    cbn; (split; [reflexivity | split; [discriminate|]]); tauto.
Qed.

(** The mutations of the candidate loop all carry what was staged for
    their owner id, and something was staged. *)
Lemma writeArticleCandidates_mutations (admin : Admin) (tried left : list jsstring)
  (seoTitle seoDescription : option jsstring) (o : WriteOptions)
  (liveTitle liveDesc : jsstring) (ms : list Metafield) :
  ms ∈ mutationsOf (sent (writeArticleCandidates admin tried left seoTitle
                            seoDescription o liveTitle liveDesc)) ->
  ms <> []
  /\ exists owner, owner ∈ left
     /\ ms = stageArticle owner seoTitle seoDescription o liveTitle liveDesc.
Proof.
  induction left as [|owner rest IH]; simpl.
  - intros H. apply elem_of_nil in H. contradiction.
  - destruct (stageArticle owner seoTitle seoDescription o liveTitle liveDesc)
      as [|m0 more] eqn:S; [intros H; apply elem_of_nil in H; contradiction|].
    assert (Here : forall l, ms ∈ mutationsOf (MetafieldsSet (m0 :: more) :: l) ->
                   ms = m0 :: more \/ ms ∈ mutationsOf l).
    { intros l H. simpl in H. apply elem_of_cons in H. exact H. }
    assert (Done : ms = m0 :: more ->
                   ms <> [] /\ exists owner', owner' ∈ owner :: rest
                   /\ ms = stageArticle owner' seoTitle seoDescription o liveTitle liveDesc).
    { intros ->. split; [discriminate|]. exists owner.
      split; [apply elem_of_cons; left; reflexivity | symmetry; exact S]. }
    assert (Later : ms ∈ mutationsOf (sent (writeArticleCandidates admin tried rest
                      seoTitle seoDescription o liveTitle liveDesc)) ->
                   ms <> [] /\ exists owner', owner' ∈ owner :: rest
                   /\ ms = stageArticle owner' seoTitle seoDescription o liveTitle liveDesc).
    { intros H. destruct (IH H) as (A & owner' & B & C). split; [exact A|].
      exists owner'. split; [apply elem_of_cons; right; exact B | exact C]. }
    destruct (metafieldsSet admin (m0 :: more)) as [err|[|e errs]]; simpl sent.
    + destruct (matchesInvalidId (errorText err)); simpl sent; intros H;
        apply Here in H as [H|H]; auto.
      apply elem_of_nil in H. contradiction.
    + intros H. apply Here in H as [H|H]; auto.
      apply elem_of_nil in H. contradiction.
    + destruct (matchesInvalidId _); simpl sent; intros H;
        apply Here in H as [H|H]; auto.
      apply elem_of_nil in H. contradiction.
Qed.



End StoreApiFacts.

(** ** The job store *)

Module WorkerFacts.
Import Js Generator StoreApi Worker Samples.

(** Reads the columns of rows written with the setters. *)
Ltac fields :=
  cbv [
    SeoJob.id SeoJob.shop SeoJob.status SeoJob.phase SeoJob.jobType
    SeoJob.total SeoJob.okCount SeoJob.failedCount SeoJob.publishOkCount
    SeoJob.publishFailedCount SeoJob.totalAttempts SeoJob.totalRetryWaitMs
    SeoJob.language SeoJob.settingsJson SeoJob.metaTitle
    SeoJob.metaDescription SeoJob.usageReserved SeoJob.usageCount
    SeoJob.lastError SeoJob.createdAt SeoJob.startedAt SeoJob.finishedAt
    SeoJob.publishStartedAt SeoJob.publishFinishedAt SeoJob.lastHeartbeatAt
    SeoJob.lockOwner SeoJob.lockExpiresAt SeoJob.set_status SeoJob.set_phase
    SeoJob.set_okCount SeoJob.set_failedCount SeoJob.set_totalAttempts
    SeoJob.set_totalRetryWaitMs SeoJob.set_lastError SeoJob.set_startedAt
    SeoJob.set_finishedAt SeoJob.set_publishFinishedAt
    SeoJob.set_lastHeartbeatAt SeoJob.set_lockOwner SeoJob.set_lockExpiresAt
    SeoJobItem.id SeoJobItem.jobId SeoJobItem.targetType SeoJobItem.targetId
    SeoJobItem.productId SeoJobItem.productTitle SeoJobItem.mediaId
    SeoJobItem.imageUrl SeoJobItem.status SeoJobItem.startedAt
    SeoJobItem.finishedAt SeoJobItem.error SeoJobItem.genAttempts
    SeoJobItem.genRetryWaitMs SeoJobItem.seoTitle SeoJobItem.seoDescription
    SeoJobItem.publishStatus SeoJobItem.publishedAt SeoJobItem.publishError
    SeoJobItem.publishAttempts SeoJobItem.publishRetryWaitMs
    SeoJobItem.set_status SeoJobItem.set_startedAt SeoJobItem.set_finishedAt
    SeoJobItem.set_error SeoJobItem.set_genAttempts
    SeoJobItem.set_genRetryWaitMs SeoJobItem.set_productTitle
    SeoJobItem.set_seoTitle SeoJobItem.set_seoDescription
    SeoJobItem.set_publishStatus SeoJobItem.set_publishError
  ].

Ltac fields_in H :=
  cbv [
    SeoJob.id SeoJob.shop SeoJob.status SeoJob.phase SeoJob.jobType
    SeoJob.total SeoJob.okCount SeoJob.failedCount SeoJob.publishOkCount
    SeoJob.publishFailedCount SeoJob.totalAttempts SeoJob.totalRetryWaitMs
    SeoJob.language SeoJob.settingsJson SeoJob.metaTitle
    SeoJob.metaDescription SeoJob.usageReserved SeoJob.usageCount
    SeoJob.lastError SeoJob.createdAt SeoJob.startedAt SeoJob.finishedAt
    SeoJob.publishStartedAt SeoJob.publishFinishedAt SeoJob.lastHeartbeatAt
    SeoJob.lockOwner SeoJob.lockExpiresAt SeoJob.set_status SeoJob.set_phase
    SeoJob.set_okCount SeoJob.set_failedCount SeoJob.set_totalAttempts
    SeoJob.set_totalRetryWaitMs SeoJob.set_lastError SeoJob.set_startedAt
    SeoJob.set_finishedAt SeoJob.set_publishFinishedAt
    SeoJob.set_lastHeartbeatAt SeoJob.set_lockOwner SeoJob.set_lockExpiresAt
    SeoJobItem.id SeoJobItem.jobId SeoJobItem.targetType SeoJobItem.targetId
    SeoJobItem.productId SeoJobItem.productTitle SeoJobItem.mediaId
    SeoJobItem.imageUrl SeoJobItem.status SeoJobItem.startedAt
    SeoJobItem.finishedAt SeoJobItem.error SeoJobItem.genAttempts
    SeoJobItem.genRetryWaitMs SeoJobItem.seoTitle SeoJobItem.seoDescription
    SeoJobItem.publishStatus SeoJobItem.publishedAt SeoJobItem.publishError
    SeoJobItem.publishAttempts SeoJobItem.publishRetryWaitMs
    SeoJobItem.set_status SeoJobItem.set_startedAt SeoJobItem.set_finishedAt
    SeoJobItem.set_error SeoJobItem.set_genAttempts
    SeoJobItem.set_genRetryWaitMs SeoJobItem.set_productTitle
    SeoJobItem.set_seoTitle SeoJobItem.set_seoDescription
    SeoJobItem.set_publishStatus SeoJobItem.set_publishError
  ] in H.

(** A sample store is well formed: checked by computation. *)
Ltac wf_by_computation :=
  split; refine (bool_decide_unpack _ _); vm_compute; exact I.

Lemma lookup_job_id (w : Store) (k : jsstring) (j : SeoJob.t) :
  wfStore w -> jobs w !! k = Some j -> SeoJob.id j = k.
Proof. intros [H _] E. exact (H k j E). Qed.

Lemma lookup_item_id (w : Store) (k : jsstring) (it : SeoJobItem.t) :
  wfStore w -> items w !! k = Some it -> SeoJobItem.id it = k.
Proof. intros [_ H] E. exact (H k it E). Qed.

(** What a scan of a table returns are rows of the table. *)
Lemma elem_of_scan_all {A} (R : relation A) (D : forall x y, Decision (R x y))
  (p : A -> bool) (m : gmap jsstring A) (x : A) :
  x ∈ merge_sort R (List.filter p (snd <$> map_to_list m)) <->
  p x = true /\ exists k, m !! k = Some x.
Proof.
  rewrite merge_sort_Permutation, list_elem_of_In, filter_In.
  rewrite <- list_elem_of_In, list_elem_of_fmap. split.
  - intros [([k v] & -> & Hm) P]. split; [exact P|].
    exists k. apply elem_of_map_to_list. exact Hm.
  - intros [P [k Hm]]. split; [|exact P].
    exists (k, x). split; [reflexivity|]. apply elem_of_map_to_list. exact Hm.
Qed.

Lemma elem_of_scan {A} (R : relation A) (D : forall x y, Decision (R x y))
  (p : A -> bool) (m : gmap jsstring A) (n : nat) (x : A) :
  x ∈ take n (merge_sort R (List.filter p (snd <$> map_to_list m))) ->
  p x = true /\ exists k, m !! k = Some x.
Proof.
  intros Hx. apply elem_of_take in Hx as (i & Hx & _).
  apply list_elem_of_lookup_2 in Hx.
  apply (elem_of_scan_all R D p m x), Hx.
Qed.

(** *** Stuck-job recovery *)

Section Recovery.
Variable cfg : Config.
Variable now : Z.

Let msg := stuckMessage cfg.

Lemma findStuck_elem (w : Store) (job : SeoJob.t) :
  wfStore w -> job ∈ findStuck cfg now w ->
  jobs w !! SeoJob.id job = Some job.
Proof.
  intros W H. unfold findStuck in H.
  apply elem_of_scan in H as (_ & k & H).
  rewrite (lookup_job_id w k job W H). exact H.
Qed.

Lemma findStuck_same_id (w : Store) (job x : SeoJob.t) :
  wfStore w -> job ∈ findStuck cfg now w -> x ∈ findStuck cfg now w ->
  SeoJob.id x = SeoJob.id job -> x = job.
Proof.
  intros W Hj Hx E.
  apply (findStuck_elem w _ W) in Hj. apply (findStuck_elem w _ W) in Hx.
  rewrite E in Hx. congruence.
Qed.

Lemma recoverOne_jobs (job : SeoJob.t) (w : Store) (k : jsstring) :
  jobs (recoverOne cfg now job w) !! k
  = if decide (SeoJob.id job = k)
    then failStuckJob now msg job <$> jobs w !! k
    else jobs w !! k.
Proof.
  unfold recoverOne, jobUpdate, itemUpdateMany. simpl.
  destruct (decide (SeoJob.id job = k)) as [->|N].
  - apply lookup_alter_eq.
  - apply lookup_alter_ne, N.
Qed.

Lemma recoverOne_items (job : SeoJob.t) (w : Store) (k : jsstring) :
  items (recoverOne cfg now job w) !! k
  = recoveredItem now msg job <$> items w !! k.
Proof. unfold recoverOne, jobUpdate, itemUpdateMany. simpl. apply lookup_fmap. Qed.

Lemma failStuckJob_idem (job j : SeoJob.t) :
  failStuckJob now msg job (failStuckJob now msg job j) = failStuckJob now msg job j.
Proof. destruct j. unfold failStuckJob. fields. reflexivity. Qed.

Lemma recoveredItem_jobId (job : SeoJob.t) (it : SeoJobItem.t) :
  SeoJobItem.jobId (recoveredItem now msg job it) = SeoJobItem.jobId it.
Proof.
  unfold recoveredItem, failStuckItem.
  destruct (stuckItem job it); [|reflexivity].
  destruct (isPublishing job); destruct it; fields; reflexivity.
Qed.

Lemma not_stuck_once_failed (job : SeoJob.t) (it : SeoJobItem.t) :
  stuckItem job (failStuckItem now msg job it) = false.
Proof.
  unfold stuckItem, failStuckItem.
  destruct (isPublishing job); destruct it; fields;
    change (statusIs (Some (js "failed")) "running") with false;
    apply andb_false_r.
Qed.

Lemma recoveredItem_idem (job : SeoJob.t) (it : SeoJobItem.t) :
  recoveredItem now msg job (recoveredItem now msg job it)
  = recoveredItem now msg job it.
Proof.
  unfold recoveredItem. destruct (stuckItem job it) eqn:S.
  - rewrite not_stuck_once_failed. reflexivity.
  - rewrite S. reflexivity.
Qed.

Lemma recoveredItem_other (job x : SeoJob.t) (it : SeoJobItem.t) :
  SeoJobItem.jobId it = SeoJob.id job -> SeoJob.id x <> SeoJob.id job ->
  recoveredItem now msg x it = it.
Proof.
  intros E N. unfold recoveredItem, stuckItem, eqb.
  rewrite E, bool_decide_eq_false_2 by congruence. reflexivity.
Qed.

(** Once a job of the scan is recovered, the rest of the loop leaves its
    row and its items as they are. *)
Lemma recoverAll_job_stable (job : SeoJob.t) (stuck : list SeoJob.t)
  (w : Store) (r : option SeoJob.t) :
  (forall x, x ∈ stuck -> SeoJob.id x = SeoJob.id job -> x = job) ->
  jobs w !! SeoJob.id job = failStuckJob now msg job <$> r ->
  jobs (recoverAll cfg now stuck w) !! SeoJob.id job
  = failStuckJob now msg job <$> r.
Proof.
  revert w. induction stuck as [|x rest IH]; intros w Same E; [exact E|].
  simpl. apply IH.
  - intros y Hy. apply Same. apply elem_of_cons. right. exact Hy.
  - rewrite recoverOne_jobs. destruct (decide (SeoJob.id x = SeoJob.id job)) as [Ex|_];
      [|exact E].
    rewrite (Same x (ltac:(apply elem_of_cons; left; reflexivity)) Ex), E.
    destruct r as [j|]; [|reflexivity].
    change (Some (failStuckJob now msg job (failStuckJob now msg job j))
            = Some (failStuckJob now msg job j)).
    rewrite failStuckJob_idem. reflexivity.
Qed.

Lemma recoverAll_job (job : SeoJob.t) (stuck : list SeoJob.t) (w : Store) :
  (forall x, x ∈ stuck -> SeoJob.id x = SeoJob.id job -> x = job) ->
  job ∈ stuck ->
  jobs (recoverAll cfg now stuck w) !! SeoJob.id job
  = failStuckJob now msg job <$> jobs w !! SeoJob.id job.
Proof.
  revert w. induction stuck as [|x rest IH]; intros w Same In.
  - apply elem_of_nil in In. contradiction.
  - assert (Same' : forall y, y ∈ rest -> SeoJob.id y = SeoJob.id job -> y = job).
    { intros y Hy. apply Same. apply elem_of_cons. right. exact Hy. }
    simpl. destruct (decide (SeoJob.id x = SeoJob.id job)) as [Ex|Nx].
    + apply recoverAll_job_stable; [exact Same'|].
      rewrite recoverOne_jobs, decide_True by exact Ex.
      rewrite (Same x (ltac:(apply elem_of_cons; left; reflexivity)) Ex).
      reflexivity.
    + apply elem_of_cons in In as [->|In]; [contradiction|].
      rewrite (IH _ Same' In), recoverOne_jobs, decide_False by exact Nx.
      reflexivity.
Qed.

Lemma recoverAll_item_stable (job : SeoJob.t) (stuck : list SeoJob.t)
  (w : Store) (k : jsstring) (it : SeoJobItem.t) :
  (forall x, x ∈ stuck -> SeoJob.id x = SeoJob.id job -> x = job) ->
  SeoJobItem.jobId it = SeoJob.id job ->
  items w !! k = Some (recoveredItem now msg job it) ->
  items (recoverAll cfg now stuck w) !! k = Some (recoveredItem now msg job it).
Proof.
  revert w. induction stuck as [|x rest IH]; intros w Same J E; [exact E|].
  simpl. apply IH; [| exact J |].
  - intros y Hy. apply Same. apply elem_of_cons. right. exact Hy.
  - rewrite recoverOne_items, E.
    change (Some (recoveredItem now msg x (recoveredItem now msg job it))
            = Some (recoveredItem now msg job it)).
    destruct (decide (SeoJob.id x = SeoJob.id job)) as [Ex|Nx].
    + rewrite (Same x (ltac:(apply elem_of_cons; left; reflexivity)) Ex).
      rewrite recoveredItem_idem. reflexivity.
    + rewrite (recoveredItem_other job x); [reflexivity | | exact Nx].
      rewrite recoveredItem_jobId. exact J.
Qed.

Lemma recoverAll_item (job : SeoJob.t) (stuck : list SeoJob.t) (w : Store)
  (k : jsstring) (it : SeoJobItem.t) :
  (forall x, x ∈ stuck -> SeoJob.id x = SeoJob.id job -> x = job) ->
  job ∈ stuck ->
  SeoJobItem.jobId it = SeoJob.id job ->
  items w !! k = Some it ->
  items (recoverAll cfg now stuck w) !! k = Some (recoveredItem now msg job it).
Proof.
  revert w. induction stuck as [|x rest IH]; intros w Same In J E.
  - apply elem_of_nil in In. contradiction.
  - assert (Same' : forall y, y ∈ rest -> SeoJob.id y = SeoJob.id job -> y = job).
    { intros y Hy. apply Same. apply elem_of_cons. right. exact Hy. }
    simpl. destruct (decide (SeoJob.id x = SeoJob.id job)) as [Ex|Nx].
    + apply recoverAll_item_stable; [exact Same' | exact J |].
      rewrite recoverOne_items, E.
      rewrite (Same x (ltac:(apply elem_of_cons; left; reflexivity)) Ex).
      reflexivity.
    + apply elem_of_cons in In as [->|In]; [contradiction|].
      apply (IH _ Same' In J).
      rewrite recoverOne_items, E.
      change (Some (recoveredItem now msg x it) = Some it).
      rewrite (recoveredItem_other job x); [reflexivity | exact J | exact Nx].
Qed.

End Recovery.

(** C5, as amended. For every job the stuck-job scan selects, recovery
    marks the items of the job that are running in its current phase as
    failed with the reason "Recovered stuck job (no heartbeat for >=
    Nm)", N being the configured number of minutes (10 by default):
    while publishing it writes only [publishStatus] and [publishError]
    of the items whose [publishStatus] is running, otherwise only
    [status], [finishedAt] and [error] of the items whose [status] is
    running, and it leaves every other item of the job as it is. It
    sets the job to failed with [finishedAt] at the time of the scan in
    every phase and [publishFinishedAt] at that time too while
    publishing, [lastError] to the reason, and [lockOwner] and
    [lockExpiresAt] to null. *)
Theorem recover_stuck_jobs (cfg : Config) (w : Store) (job : SeoJob.t) :
  wfStore w -> job ∈ findStuck cfg (clock w) w ->
  let now := clock w in
  let msg := stuckMessage cfg in
  let w' := recoverStuckJobs cfg w in
  (exists j',
     jobs w' !! SeoJob.id job = Some j'
     /\ j' = failStuckJob now msg job job
     /\ SeoJob.status j' = Some (js "failed")
     /\ SeoJob.finishedAt j' = Some now
     /\ SeoJob.publishFinishedAt j'
        = (if isPublishing job then Some now else SeoJob.publishFinishedAt job)
     /\ SeoJob.lastError j' = Some msg
     /\ SeoJob.lockOwner j' = None /\ SeoJob.lockExpiresAt j' = None)
  /\ (forall k it,
        items w !! k = Some it -> SeoJobItem.jobId it = SeoJob.id job ->
        items w' !! k = Some (recoveredItem now msg job it))
  /\ (forall it,
        SeoJobItem.jobId it = SeoJob.id job ->
        let it' := recoveredItem now msg job it in
        if isPublishing job then
          it' = (if statusIs (SeoJobItem.publishStatus it) "running"
                 then SeoJobItem.set_publishError (Some msg)
                        (SeoJobItem.set_publishStatus (Some (js "failed")) it)
                 else it)
          /\ SeoJobItem.status it' = SeoJobItem.status it
          /\ SeoJobItem.finishedAt it' = SeoJobItem.finishedAt it
          /\ SeoJobItem.error it' = SeoJobItem.error it
        else
          it' = (if statusIs (SeoJobItem.status it) "running"
                 then SeoJobItem.set_error (Some msg)
                        (SeoJobItem.set_finishedAt (Some now)
                           (SeoJobItem.set_status (Some (js "failed")) it))
                 else it)
          /\ SeoJobItem.publishStatus it' = SeoJobItem.publishStatus it
          /\ SeoJobItem.publishError it' = SeoJobItem.publishError it
          /\ SeoJobItem.publishedAt it' = SeoJobItem.publishedAt it)
  /\ stuckMessage defaultConfig
     = js "Recovered stuck job (no heartbeat for >= 10m)".
Proof.
  intros W In now msg w'.
  assert (Same : forall x, x ∈ findStuck cfg now w ->
                 SeoJob.id x = SeoJob.id job -> x = job).
  { intros x Hx. apply (findStuck_same_id cfg now w job x W In Hx). }
  split; [|split; [|split]].
  - exists (failStuckJob now msg job job). split.
    + subst w'. unfold recoverStuckJobs. fold now.
      rewrite (recoverAll_job cfg now job _ w Same In).
      rewrite (findStuck_elem cfg now w job W In). reflexivity.
    + unfold failStuckJob. destruct job. fields. repeat split; reflexivity.
  - intros k it E J. subst w'. unfold recoverStuckJobs. fold now.
    apply (recoverAll_item cfg now job _ w k it Same In J E).
  - intros it J it'. subst it'. unfold recoveredItem, stuckItem, failStuckItem, eqb.
    rewrite J, bool_decide_eq_true_2 by reflexivity. cbn [andb].
    destruct (isPublishing job).
    + destruct (statusIs (SeoJobItem.publishStatus it) "running");
        destruct it; fields; repeat split; reflexivity.
    + destruct (statusIs (SeoJobItem.status it) "running");
        destruct it; fields; repeat split; reflexivity.
  - vm_compute. reflexivity.
Qed.

Lemma stuckStore_wf : wfStore stuckStore.
Proof. wf_by_computation. Qed.

Lemma stuckJob_found : findStuck defaultConfig (clock stuckStore) stuckStore = [stuckJob].
Proof. vm_compute. reflexivity. Qed.

(** The theorem on the job whose worker died during generate: its
    running item and the job are failed with the reason, the lease is
    cleared. *)
Lemma recover_stuck_jobs_witness :
  wfStore stuckStore
  /\ stuckJob ∈ findStuck defaultConfig (clock stuckStore) stuckStore
  /\ (jobs (recoverStuckJobs defaultConfig stuckStore) !! js "J1"
      ≫= SeoJob.lastError)
     = Some (js "Recovered stuck job (no heartbeat for >= 10m)")
  /\ SeoJobItem.status <$> items (recoverStuckJobs defaultConfig stuckStore) !! js "i1"
     = Some (Some (js "failed")).
Proof.
  assert (In : stuckJob ∈ findStuck defaultConfig (clock stuckStore) stuckStore)
    by (rewrite stuckJob_found; apply elem_of_cons; left; reflexivity).
  destruct (recover_stuck_jobs defaultConfig stuckStore stuckJob stuckStore_wf In)
    as ((j' & E & -> & _) & Items & _).
  split; [exact stuckStore_wf|]. split; [exact In|]. split.
  - change (SeoJob.id stuckJob) with (js "J1") in E. rewrite E.
    vm_compute. reflexivity.
  - rewrite (Items (js "i1") (itemI1 "running" None) eq_refl eq_refl).
    vm_compute. reflexivity.
Defined.

(** C5, counterexample. After the recovery of the sample job the reason
    stored on the job and on its item is not the text "Recovered stuck
    job (no heartbeat ≥ 10m)". *)
Lemma recovery_reason_differs :
  (jobs (recoverStuckJobs defaultConfig stuckStore) !! js "J1" ≫= SeoJob.lastError)
  = Some (js "Recovered stuck job (no heartbeat for >= 10m)")
  /\ (items (recoverStuckJobs defaultConfig stuckStore) !! js "i1" ≫= SeoJobItem.error)
     = Some (js "Recovered stuck job (no heartbeat for >= 10m)")
  /\ js "Recovered stuck job (no heartbeat for >= 10m)" <> specStuckReason.
Proof. vm_compute. repeat split; discriminate. Qed.

(** *** The generate phase *)

Lemma rowAdvances_refl (j : SeoJob.t) : rowAdvances j j.
Proof. unfold rowAdvances. repeat split; lia. Qed.

Lemma rowAdvances_trans (a b c : SeoJob.t) :
  rowAdvances a b -> rowAdvances b c -> rowAdvances a c.
Proof.
  unfold rowAdvances. intros (A1 & A2 & A3 & A4) (B1 & B2 & B3 & B4).
  repeat split; try congruence; lia.
Qed.

Lemma jobsAdvance_refl (w : Store) : jobsAdvance w w.
Proof. intros k. destruct (jobs w !! k); [apply rowAdvances_refl | exact I]. Qed.

Lemma jobsAdvance_trans (a b c : Store) :
  jobsAdvance a b -> jobsAdvance b c -> jobsAdvance a c.
Proof.
  intros A B k. specialize (A k). specialize (B k).
  destruct (jobs a !! k), (jobs b !! k), (jobs c !! k); try contradiction;
    [eapply rowAdvances_trans; eassumption | exact I].
Qed.

Lemma itemsFrame_refl (itemId : jsstring) (w : Store) : itemsFrame itemId w w.
Proof. split; [reflexivity | trivial]. Qed.

Lemma itemsFrame_trans (itemId : jsstring) (a b c : Store) :
  itemsFrame itemId a b -> itemsFrame itemId b c -> itemsFrame itemId a c.
Proof.
  intros [A1 A2] [B1 B2]. split.
  - intros k N. rewrite (B1 k N). apply A1, N.
  - intros S. apply B2, A2, S.
Qed.

Lemma jobUpdate_advances (id : jsstring) (f : SeoJob.t -> SeoJob.t) (w : Store) :
  (forall j, rowAdvances j (f j)) -> jobsAdvance w (jobUpdate id f w).
Proof.
  intros F k. unfold jobUpdate. cbn [jobs].
  destruct (decide (id = k)) as [->|N].
  - rewrite lookup_alter_eq. destruct (jobs w !! k); [apply F | exact I].
  - rewrite lookup_alter_ne by exact N.
    destruct (jobs w !! k); [apply rowAdvances_refl | exact I].
Qed.

Lemma jobUpdateMany_advances (c : SeoJob.t -> bool) (f : SeoJob.t -> SeoJob.t)
  (w : Store) :
  (forall j, rowAdvances j (f j)) -> jobsAdvance w (jobUpdateMany c f w).
Proof.
  intros F k. unfold jobUpdateMany. cbn [jobs]. rewrite lookup_fmap.
  destruct (jobs w !! k) as [j|]; [|exact I]. cbn [fmap option_fmap option_map].
  destruct (c j); [apply F | apply rowAdvances_refl].
Qed.

Lemma jobUpdate_items (id : jsstring) (f : SeoJob.t -> SeoJob.t) (w : Store) :
  items (jobUpdate id f w) = items w.
Proof. reflexivity. Qed.

Lemma itemUpdate_jobs (id : jsstring) (f : SeoJobItem.t -> SeoJobItem.t) (w : Store) :
  jobs (itemUpdate id f w) = jobs w.
Proof. reflexivity. Qed.

Lemma itemUpdate_frame (id : jsstring) (f : SeoJobItem.t -> SeoJobItem.t) (w : Store) :
  itemsFrame id w (itemUpdate id f w).
Proof.
  unfold itemUpdate. split; cbn [items].
  - intros k N. apply lookup_alter_ne. congruence.
  - intros [r E]. rewrite lookup_alter_eq, E. eexists. reflexivity.
Qed.

Lemma same_items_frame (itemId : jsstring) (w w' : Store) :
  items w' = items w -> itemsFrame itemId w w'.
Proof. intros E. unfold itemsFrame. rewrite E. split; [reflexivity | trivial]. Qed.

Lemma same_jobs_advance (w w' : Store) : jobs w' = jobs w -> jobsAdvance w w'.
Proof.
  intros E k. rewrite E. destruct (jobs w !! k); [apply rowAdvances_refl | exact I].
Qed.

(** Setters that keep the status, the total and the counters, or raise
    a counter. *)
Ltac row_advances :=
  let j := fresh "j" in
  intros j; destruct j; unfold rowAdvances; fields; repeat split; lia.

Lemma touchLock_advances (cfg : Config) (jobId : jsstring)
  (owner : option jsstring) (ttl : Z) (shop : option jsstring) (w : Store) :
  jobsAdvance w (touchLock cfg jobId owner ttl shop w)
  /\ items (touchLock cfg jobId owner ttl shop w) = items w.
Proof.
  unfold touchLock.
  set (w1 := jobUpdateMany _ _ w).
  assert (A : jobsAdvance w w1) by (apply jobUpdateMany_advances; row_advances).
  destruct (nonEmpty (default [] shop)); [|split; [exact A | reflexivity]].
  unfold refreshShopLock.
  destruct (bool_decide _); [|split; [exact A | reflexivity]].
  split; [|reflexivity]. exact A.
Qed.

Section Generate.
Variable cfg : Config.
Variable env : Env.
Variable job : SeoJob.t.
Variable language : jsstring.
Variable settings : Settings.

Let jobId := SeoJob.id job.

Lemma narratedHook_effect (itemId : jsstring) (t : Telemetry) (w : Store) :
  jobsAdvance w (narratedHook jobId itemId t w)
  /\ itemsFrame itemId w (narratedHook jobId itemId t w).
Proof.
  destruct t as [attempt | attemptNumber waitMs reason]; unfold narratedHook.
  - set (w1 := itemUpdate itemId _ w).
    set (w2 := jobUpdate jobId _ w1).
    assert (A2 : jobsAdvance w w2).
    { apply (jobsAdvance_trans _ w1); [apply same_jobs_advance; reflexivity|].
      apply jobUpdate_advances. row_advances. }
    assert (F2 : itemsFrame itemId w w2).
    { apply (itemsFrame_trans _ _ w1); [apply itemUpdate_frame|].
      apply same_items_frame. reflexivity. }
    destruct (1 <? attempt); [|split; assumption]. split.
    + apply (jobsAdvance_trans _ w2); [exact A2|].
      apply (jobsAdvance_trans _ (itemUpdate itemId (SeoJobItem.set_error (Some (retryingText attempt))) w2));
        [apply same_jobs_advance; reflexivity|].
      apply jobUpdate_advances. row_advances.
    + apply (itemsFrame_trans _ _ w2); [exact F2|].
      apply (itemsFrame_trans _ _ (itemUpdate itemId (SeoJobItem.set_error (Some (retryingText attempt))) w2));
        [apply itemUpdate_frame | apply same_items_frame; reflexivity].
  - set (w1 := itemUpdate itemId _ w).
    set (w2 := jobUpdate jobId _ w1).
    set (w3 := itemUpdate itemId _ w2).
    split.
    + apply (jobsAdvance_trans _ w1); [apply same_jobs_advance; reflexivity|].
      apply (jobsAdvance_trans _ w2); [apply jobUpdate_advances; row_advances|].
      apply (jobsAdvance_trans _ w3); [apply same_jobs_advance; reflexivity|].
      apply jobUpdate_advances. row_advances.
    + apply (itemsFrame_trans _ _ w1); [apply itemUpdate_frame|].
      apply (itemsFrame_trans _ _ w2); [apply same_items_frame; reflexivity|].
      apply (itemsFrame_trans _ _ w3); [apply itemUpdate_frame|].
      apply same_items_frame. reflexivity.
Qed.

Lemma blogHook_effect (itemId : jsstring) (t : Telemetry) (w : Store) :
  jobsAdvance w (blogHook jobId itemId t w)
  /\ itemsFrame itemId w (blogHook jobId itemId t w).
Proof.
  destruct t as [attempt | attemptNumber waitMs reason]; unfold blogHook.
  - set (w1 := itemUpdate itemId _ w). split.
    + apply (jobsAdvance_trans _ w1); [apply same_jobs_advance; reflexivity|].
      apply jobUpdate_advances. row_advances.
    + apply (itemsFrame_trans _ _ w1); [apply itemUpdate_frame|].
      apply same_items_frame. reflexivity.
  - split; [apply jobsAdvance_refl | apply itemsFrame_refl].
Qed.

Lemma hooks_effect (hook : jsstring -> jsstring -> Telemetry -> Store -> Store)
  (itemId : jsstring) (ts : list Telemetry) (w : Store) :
  (forall t s, jobsAdvance s (hook jobId itemId t s)
               /\ itemsFrame itemId s (hook jobId itemId t s)) ->
  jobsAdvance w (fold_left (fun s t => hook jobId itemId t s) ts w)
  /\ itemsFrame itemId w (fold_left (fun s t => hook jobId itemId t s) ts w).
Proof.
  intros H. revert w. induction ts as [|t rest IH]; intros w; simpl.
  - split; [apply jobsAdvance_refl | apply itemsFrame_refl].
  - destruct (H t w) as [A F]. destruct (IH (hook jobId itemId t w)) as [A' F'].
    split; [eapply jobsAdvance_trans | eapply itemsFrame_trans]; eassumption.
Qed.

(** One item: the job rows advance and the other items are untouched. *)
Lemma generateItem_effect (item : SeoJobItem.t) (w : Store) :
  jobsAdvance w (generateItem cfg env job language settings item w)
  /\ itemsFrame (SeoJobItem.id item) w
       (generateItem cfg env job language settings item w).
Proof.
  unfold generateItem. fold jobId.
  set (itemId := SeoJobItem.id item).
  set (w1 := touchLock cfg jobId _ _ _ w).
  set (w2 := itemUpdate itemId _ w1).
  set (hook := if isImageJobOf job then narratedHook
               else if isBlogJobOf job then blogHook else narratedHook).
  set (a := attemptItem env job language settings item).
  set (w3 := fold_left _ (hooks a) w2).
  destruct (touchLock_advances cfg jobId (SeoJob.lockOwner job) (5 * 60000)
              (SeoJob.shop job) w) as [A1 I1]. fold w1 in A1, I1.
  assert (H3 : jobsAdvance w2 w3 /\ itemsFrame itemId w2 w3).
  { subst w3. apply hooks_effect. intros t s. subst hook.
    destruct (isImageJobOf job); [apply narratedHook_effect|].
    destruct (isBlogJobOf job); [apply blogHook_effect | apply narratedHook_effect]. }
  destruct H3 as [A3 F3].
  assert (A03 : jobsAdvance w w3).
  { apply (jobsAdvance_trans _ w1); [exact A1|].
    apply (jobsAdvance_trans _ w2); [apply same_jobs_advance; reflexivity | exact A3]. }
  assert (F03 : itemsFrame itemId w w3).
  { apply (itemsFrame_trans _ _ w1); [apply same_items_frame; exact I1|].
    apply (itemsFrame_trans _ _ w2); [apply itemUpdate_frame | exact F3]. }
  destruct (produced a) as [err|d].
  - set (w4 := itemUpdate itemId _ w3). split.
    + apply (jobsAdvance_trans _ w3); [exact A03|].
      apply (jobsAdvance_trans _ w4); [apply same_jobs_advance; reflexivity|].
      apply (jobsAdvance_trans _ (jobUpdate jobId
               (fun j => SeoJob.set_lastError (Some (errorText err))
                           (SeoJob.set_failedCount (SeoJob.failedCount j + 1) j)) w4));
        [apply jobUpdate_advances; row_advances|].
      apply same_jobs_advance. reflexivity.
    + apply (itemsFrame_trans _ _ w3); [exact F03|].
      apply (itemsFrame_trans _ _ w4); [apply itemUpdate_frame|].
      apply same_items_frame. reflexivity.
  - set (w4 := itemUpdate itemId _ w3). split.
    + apply (jobsAdvance_trans _ w3); [exact A03|].
      apply (jobsAdvance_trans _ w4); [apply same_jobs_advance; reflexivity|].
      apply (jobsAdvance_trans _ (jobUpdate jobId
               (fun j => SeoJob.set_okCount (SeoJob.okCount j + 1) j) w4));
        [apply jobUpdate_advances; row_advances|].
      apply same_jobs_advance. reflexivity.
    + apply (itemsFrame_trans _ _ w3); [exact F03|].
      apply (itemsFrame_trans _ _ w4); [apply itemUpdate_frame|].
      apply same_items_frame. reflexivity.
Qed.

(** The row of a successfully generated item holds the draft. *)
Lemma generateItem_stores_draft (item : SeoJobItem.t) (w : Store) (d : Draft) :
  produced (attemptItem env job language settings item) = inr d ->
  is_Some (items w !! SeoJobItem.id item) ->
  exists now r,
    items (generateItem cfg env job language settings item w) !! SeoJobItem.id item
    = Some (storeDraft now d r).
Proof.
  intros P S. unfold generateItem. fold jobId.
  set (itemId := SeoJobItem.id item) in *.
  set (w1 := touchLock cfg jobId _ _ _ w).
  set (w2 := itemUpdate itemId _ w1).
  set (hook := if isImageJobOf job then narratedHook
               else if isBlogJobOf job then blogHook else narratedHook).
  set (w3 := fold_left _ (hooks (attemptItem env job language settings item)) w2).
  assert (S3 : is_Some (items w3 !! itemId)).
  { assert (F3 : itemsFrame itemId w2 w3).
    { subst w3. apply hooks_effect. intros t s. subst hook.
      destruct (isImageJobOf job); [apply narratedHook_effect|].
      destruct (isBlogJobOf job); [apply blogHook_effect | apply narratedHook_effect]. }
    apply F3. apply (itemUpdate_frame itemId _ w1).
    destruct (touchLock_advances cfg jobId (SeoJob.lockOwner job) (5 * 60000)
                (SeoJob.shop job) w) as [_ I1].
    fold w1 in I1. rewrite I1. exact S. }
  rewrite P. destruct S3 as [r E]. exists (clock w3), r.
  unfold sleep, jobUpdate, itemUpdate. cbn [items].
  rewrite lookup_alter_eq, E. reflexivity.
Qed.

Lemma storeDraft_columns (now : Z) (d : Draft) (r : SeoJobItem.t) :
  SeoJobItem.status (storeDraft now d r) = Some (js "success")
  /\ SeoJobItem.seoTitle (storeDraft now d r) = d_seoTitle d
  /\ (forall v, d_seoDescription d = Some v ->
      SeoJobItem.seoDescription (storeDraft now d r) = v).
Proof.
  destruct r, d as [pt st sd ce]. unfold storeDraft.
  destruct pt, sd, ce; fields; cbn [d_productTitle d_seoTitle d_seoDescription d_clearError];
    fields; repeat split; intros; congruence.
Qed.

Lemma isJobCancelled_advance (w w' : Store) :
  jobsAdvance w w' -> isJobCancelled jobId w' = isJobCancelled jobId w.
Proof.
  intros A. unfold isJobCancelled. specialize (A (trim jobId)).
  destruct (jobs w !! trim jobId) as [j|], (jobs w' !! trim jobId) as [j'|];
    try contradiction; [|reflexivity].
  destruct A as (E & _). cbn [mbind option_bind]. rewrite E. reflexivity.
Qed.

(** A run that starts on a job that is not cancelled goes through all
    its items. *)
Lemma generateLoop_effect (todo : list SeoJobItem.t) (w : Store) :
  isJobCancelled jobId w = false ->
  fst (generateLoop cfg env job language settings todo w) = false
  /\ jobsAdvance w (snd (generateLoop cfg env job language settings todo w))
  /\ forall k, (forall x, x ∈ todo -> SeoJobItem.id x <> k) ->
       items (snd (generateLoop cfg env job language settings todo w)) !! k
       = items w !! k.
Proof.
  revert w. induction todo as [|x rest IH]; intros w C; simpl.
  - split; [reflexivity|]. split; [apply jobsAdvance_refl | reflexivity].
  - fold jobId. rewrite C.
    destruct (generateItem_effect x w) as [A F].
    destruct (IH (generateItem cfg env job language settings x w)) as (I1 & I2 & I3).
    { rewrite (isJobCancelled_advance _ _ A). exact C. }
    split; [exact I1|]. split; [eapply jobsAdvance_trans; eassumption|].
    intros k N. rewrite I3.
    + apply F. intros E. apply (N x); [apply elem_of_cons; left; reflexivity | congruence].
    + intros y Hy. apply N. apply elem_of_cons. right. exact Hy.
Qed.

Lemma generateLoop_keeps_draft (it : SeoJobItem.t) (d : Draft)
  (todo : list SeoJobItem.t) (w : Store) :
  produced (attemptItem env job language settings it) = inr d ->
  (forall x, x ∈ todo -> SeoJobItem.id x = SeoJobItem.id it -> x = it) ->
  isJobCancelled jobId w = false ->
  (exists now r, items w !! SeoJobItem.id it = Some (storeDraft now d r)) ->
  exists now r,
    items (snd (generateLoop cfg env job language settings todo w)) !! SeoJobItem.id it
    = Some (storeDraft now d r).
Proof.
  intros P. revert w. induction todo as [|x rest IH]; intros w Same C E; [exact E|].
  simpl. fold jobId. rewrite C.
  destruct (generateItem_effect x w) as [A F].
  apply IH.
  - intros y Hy. apply Same. apply elem_of_cons. right. exact Hy.
  - rewrite (isJobCancelled_advance _ _ A). exact C.
  - destruct (decide (SeoJobItem.id x = SeoJobItem.id it)) as [Ex|Nx].
    + rewrite (Same x (ltac:(apply elem_of_cons; left; reflexivity)) Ex).
      apply generateItem_stores_draft; [exact P|].
      destruct E as (now & r & E). rewrite E. eexists. reflexivity.
    + destruct F as [F _]. rewrite (F (SeoJobItem.id it)) by congruence. exact E.
Qed.

Lemma generateLoop_stores_draft (it : SeoJobItem.t) (d : Draft)
  (todo : list SeoJobItem.t) (w : Store) :
  produced (attemptItem env job language settings it) = inr d ->
  (forall x, x ∈ todo -> SeoJobItem.id x = SeoJobItem.id it -> x = it) ->
  it ∈ todo ->
  isJobCancelled jobId w = false ->
  is_Some (items w !! SeoJobItem.id it) ->
  exists now r,
    items (snd (generateLoop cfg env job language settings todo w)) !! SeoJobItem.id it
    = Some (storeDraft now d r).
Proof.
  intros P. revert w. induction todo as [|x rest IH]; intros w Same In C S.
  - apply elem_of_nil in In. contradiction.
  - assert (Same' : forall y, y ∈ rest -> SeoJobItem.id y = SeoJobItem.id it -> y = it).
    { intros y Hy. apply Same. apply elem_of_cons. right. exact Hy. }
    simpl. fold jobId. rewrite C.
    destruct (generateItem_effect x w) as [A F].
    assert (C' : isJobCancelled jobId (generateItem cfg env job language settings x w) = false)
      by (rewrite (isJobCancelled_advance _ _ A); exact C).
    destruct (decide (SeoJobItem.id x = SeoJobItem.id it)) as [Ex|Nx].
    + apply (generateLoop_keeps_draft it d rest _ P Same' C').
      rewrite (Same x (ltac:(apply elem_of_cons; left; reflexivity)) Ex).
      apply generateItem_stores_draft; assumption.
    + apply elem_of_cons in In as [->|In]; [contradiction|].
      apply (IH _ Same' In C').
      destruct F as [F _]. rewrite (F (SeoJobItem.id it)) by congruence. exact S.
Qed.

End Generate.

Lemma startGenerate_not_cancelled (job : SeoJob.t) (now : Z) (w : Store) :
  trim (SeoJob.id job) = SeoJob.id job ->
  isJobCancelled (SeoJob.id job)
    (jobUpdate (SeoJob.id job) (startGenerate now) w) = false.
Proof.
  intros T. unfold isJobCancelled, jobUpdate. cbn [jobs].
  rewrite T, lookup_alter_eq.
  destruct (jobs w !! SeoJob.id job) as [j|]; [|vm_compute; reflexivity].
  destruct j. unfold startGenerate. cbn [fmap option_fmap option_map mbind option_bind].
  fields. vm_compute. reflexivity.
Qed.

(** The items of the store when [processGenerate] returns are those its
    loop left. *)
Lemma processGenerate_items (cfg : Config) (env : Env) (job : SeoJob.t)
  (w : Store) (settings : Settings) :
  settingsOf env job = inr settings ->
  getAdminClientForShop env (SeoJob.shop job) = inr tt ->
  items (snd (processGenerate cfg env job w))
  = items (snd (generateLoop cfg env job (orElse (SeoJob.language job) (js "tr"))
                  settings
                  (itemFindMany (generateEligible job)
                     (jobUpdate (SeoJob.id job) (startGenerate (clock w)) w))
                  (jobUpdate (SeoJob.id job) (startGenerate (clock w)) w))).
Proof.
  intros St Ad. unfold processGenerate. rewrite St, Ad. cbv zeta.
  destruct (generateLoop _ _ _ _ _ _ _) as [cancelled w2].
  destruct cancelled; [reflexivity|].
  destruct (isJobCancelled (SeoJob.id job) w2); reflexivity.
Qed.

Lemma orNull_keeps (v : option jsstring) : v <> Some [] -> orNull v = v.
Proof.
  destruct v as [[|c r]|]; [intros N; exfalso; apply N | | ]; reflexivity.
Qed.

(** C9, as amended. A successful generate of an item of a product-SEO
    job (the row of the job being in the store) stores, for each of the
    two fields, [v || null], where [v] is the Generator's output if the
    job is configured to produce the field and the value the item had
    before the run otherwise. So with [metaTitle = false] (respectively
    [metaDescription = false]) the stored [seoTitle] (respectively
    [seoDescription]) keeps its value before the run unless that value
    was the empty string, which becomes null. *)
Theorem generate_keeps_unconfigured_fields (cfg : Config) (env : Env)
  (job : SeoJob.t) (w : Store) (it : SeoJobItem.t) (settings : Settings)
  (p : option Product) (out : SeoOut) :
  wfStore w ->
  is_Some (jobs w !! SeoJob.id job) ->
  trim (SeoJob.id job) = SeoJob.id job ->
  isImageJobOf job = false ->
  isBlogJobOf job = false ->
  items w !! SeoJobItem.id it = Some it ->
  generateEligible job it = true ->
  settingsOf env job = inr settings ->
  getAdminClientForShop env (SeoJob.shop job) = inr tt ->
  fetchProduct env (SeoJobItem.productId it) = inr p ->
  outcome (generateSeoForProduct (chat env)
             (orElse (orOpt (p ≫= title) (SeoJobItem.productTitle it)) [])
             (stripHtml (orOpt (p ≫= descriptionHtml) None))
             (Some (orElse (SeoJob.language job) (js "tr"))) settings) = inr out ->
  exists it',
    items (snd (processGenerate cfg env job w)) !! SeoJobItem.id it = Some it'
    /\ SeoJobItem.status it' = Some (js "success")
    /\ SeoJobItem.seoTitle it'
       = orNull (if SeoJob.metaTitle job then Some (seoTitle out)
                 else SeoJobItem.seoTitle it)
    /\ SeoJobItem.seoDescription it'
       = orNull (if SeoJob.metaDescription job then Some (seoDescription out)
                 else SeoJobItem.seoDescription it)
    /\ (SeoJob.metaTitle job = false -> SeoJobItem.seoTitle it <> Some [] ->
        SeoJobItem.seoTitle it' = SeoJobItem.seoTitle it)
    /\ (SeoJob.metaDescription job = false ->
        SeoJobItem.seoDescription it <> Some [] ->
        SeoJobItem.seoDescription it' = SeoJobItem.seoDescription it).
Proof.
  intros WF _ T NI NB L El St Ad Fp Out.
  set (language := orElse (SeoJob.language job) (js "tr")) in *.
  set (w1 := jobUpdate (SeoJob.id job) (startGenerate (clock w)) w).
  set (todo := itemFindMany (generateEligible job) w1).
  assert (P : exists pt,
    produced (attemptItem env job language settings it)
    = inr (mkDraft pt
             (orNull (if SeoJob.metaTitle job then Some (seoTitle out)
                      else SeoJobItem.seoTitle it))
             (Some (orNull (if SeoJob.metaDescription job
                            then Some (seoDescription out)
                            else SeoJobItem.seoDescription it))) false)).
  { eexists. unfold attemptItem. rewrite NI, NB. unfold attemptProduct.
    rewrite Fp. cbv zeta. rewrite Out. reflexivity. }
  destruct P as [pt P].
  assert (Scan : forall x, x ∈ todo ->
            generateEligible job x = true /\ exists k, items w !! k = Some x).
  { intros x Hx. apply (elem_of_scan_all itemIdLe _) in Hx. exact Hx. }
  destruct (generateLoop_stores_draft cfg env job language settings it _ todo w1 P)
    as (now & r & E).
  - intros x Hx Ex. destruct (Scan x Hx) as [_ [k Hk]].
    pose proof (lookup_item_id w k x WF Hk) as Hid.
    rewrite <- Hid, Ex, L in Hk. congruence.
  - apply (elem_of_scan_all itemIdLe _). split; [exact El|].
    exists (SeoJobItem.id it). exact L.
  - apply startGenerate_not_cancelled, T.
  - change (items w1) with (items w). rewrite L. eexists. reflexivity.
  - exists (storeDraft now
             (mkDraft pt
                (orNull (if SeoJob.metaTitle job then Some (seoTitle out)
                         else SeoJobItem.seoTitle it))
                (Some (orNull (if SeoJob.metaDescription job
                               then Some (seoDescription out)
                               else SeoJobItem.seoDescription it))) false) r).
    destruct (storeDraft_columns now
             (mkDraft pt
                (orNull (if SeoJob.metaTitle job then Some (seoTitle out)
                         else SeoJobItem.seoTitle it))
                (Some (orNull (if SeoJob.metaDescription job
                               then Some (seoDescription out)
                               else SeoJobItem.seoDescription it))) false) r)
      as (C1 & C2 & C3).
    specialize (C3 _ eq_refl). cbn [d_seoTitle] in C2.
    split; [rewrite (processGenerate_items cfg env job w settings St Ad); exact E|].
    split; [exact C1|]. split; [exact C2|]. split; [exact C3|]. split.
    + intros M N. rewrite C2, M. apply orNull_keeps, N.
    + intros M N. rewrite C3, M. apply orNull_keeps, N.
Qed.

Lemma savedTitleStore_wf : wfStore Samples.savedTitleStore.
Proof. wf_by_computation. Qed.

(** The theorem at the title-less job of the samples: the saved title
    stays, the description is the generated one. *)
Lemma generate_keeps_unconfigured_fields_witness :
  exists it',
    items (snd (processGenerate defaultConfig Samples.happyEnv
                  Samples.descriptionOnlyJob Samples.savedTitleStore))
      !! js "i1" = Some it'
    /\ SeoJobItem.status it' = Some (js "success")
    /\ SeoJobItem.seoTitle it' = Some (js "Saved title")
    /\ SeoJobItem.seoDescription it' = Some (js "B").
Proof.
  destruct (generate_keeps_unconfigured_fields defaultConfig Samples.happyEnv
              Samples.descriptionOnlyJob Samples.savedTitleStore
              (Samples.itemI1 "queued" (Some (js "Saved title")))
              emptySettings
              (Some (mkProduct (Some (js "Board")) (Some (js "<p>A board</p>"))))
              (mkSeoOut (js "A") (js "B")))
    as (it' & L & S & T & D & _);
    [exact savedTitleStore_wf | vm_compute; eexists; reflexivity
    | reflexivity | reflexivity | reflexivity
    | reflexivity | reflexivity | reflexivity | reflexivity | reflexivity
    | vm_compute; reflexivity |].
  exists it'. split; [exact L|]. split; [exact S|]. split; [exact T|]. exact D.
Defined.

(** C9 as stated fails: an item whose stored title is the empty string
    (a draft saved with an empty title) is processed by a job with
    [metaTitle = false]; the run succeeds and the stored title is null
    afterwards, not the empty string it was. *)
Lemma generate_nulls_empty_title :
  let w := Samples.emptyTitleStore in
  let w' := snd (processGenerate defaultConfig Samples.happyEnv
                   Samples.descriptionOnlyJob w) in
  SeoJob.metaTitle Samples.descriptionOnlyJob = false
  /\ (items w !! js "i1" ≫= SeoJobItem.seoTitle) = Some []
  /\ (items w' !! js "i1" ≫= SeoJobItem.status) = Some (js "success")
  /\ (items w' !! js "i1" ≫= SeoJobItem.seoTitle) = None.
Proof. vm_compute. repeat split; reflexivity. Qed.

(** C1: a generate run over an item that an interrupted run has already
    counted as failed counts it again: [okCount + failedCount] is 2 with
    [total = 1] when the run returns. *)
Lemma generate_rerun_exceeds_total :
  let counters (j : SeoJob.t) :=
    (SeoJob.total j, SeoJob.okCount j, SeoJob.failedCount j) in
  let w := Samples.interruptedStore in
  let w' := snd (processGenerate defaultConfig Samples.happyEnv
                   Samples.interruptedJob w) in
  generateEligible Samples.interruptedJob (Samples.itemI1 "failed" None) = true
  /\ counters <$> jobs w !! js "J1" = Some (1, 0, 1)
  /\ counters <$> jobs w' !! js "J1" = Some (1, 1, 1)
  /\ (SeoJob.status <$> jobs w' !! js "J1") = Some (Some (js "success")).
Proof. vm_compute. repeat split; reflexivity. Qed.

Lemma finishGenerate_counters (now : Z) (j : SeoJob.t) :
  SeoJob.total (finishGenerate now j) = SeoJob.total j
  /\ SeoJob.okCount (finishGenerate now j) = SeoJob.okCount j
  /\ SeoJob.failedCount (finishGenerate now j) = SeoJob.failedCount j.
Proof. destruct j. unfold finishGenerate. fields. repeat split. Qed.

(** Within one generate run the counters of every job only rise, and
    the totals stay. *)
Lemma generate_counters_only_rise (cfg : Config) (env : Env) (job : SeoJob.t)
  (w : Store) (k : jsstring) (j : SeoJob.t) :
  trim (SeoJob.id job) = SeoJob.id job ->
  jobs w !! k = Some j ->
  exists j', jobs (snd (processGenerate cfg env job w)) !! k = Some j'
    /\ SeoJob.total j' = SeoJob.total j
    /\ SeoJob.okCount j <= SeoJob.okCount j'
    /\ SeoJob.failedCount j <= SeoJob.failedCount j'.
Proof.
  intros T L. unfold processGenerate.
  destruct (settingsOf env job) as [err|settings];
    [exists j; cbn [snd]; repeat split; [exact L | lia | lia]|].
  destruct (getAdminClientForShop env (SeoJob.shop job)) as [err|u];
    [exists j; cbn [snd]; repeat split; [exact L | lia | lia]|].
  cbv zeta.
  set (language := orElse (SeoJob.language job) (js "tr")).
  set (w1 := jobUpdate (SeoJob.id job) (startGenerate (clock w)) w).
  set (todo := itemFindMany (generateEligible job) w1).
  destruct (generateLoop_effect cfg env job language settings todo w1
              (startGenerate_not_cancelled job (clock w) w T)) as (_ & A & _).
  assert (L1 : exists j1, jobs w1 !! k = Some j1
            /\ SeoJob.total j1 = SeoJob.total j
            /\ SeoJob.okCount j1 = SeoJob.okCount j
            /\ SeoJob.failedCount j1 = SeoJob.failedCount j).
  { unfold w1, jobUpdate. cbn [jobs].
    destruct (decide (SeoJob.id job = k)) as [->|N].
    - rewrite lookup_alter_eq, L. eexists. split; [reflexivity|].
      destruct j. unfold startGenerate. fields. repeat split.
    - rewrite lookup_alter_ne by exact N. exists j. repeat split. exact L. }
  destruct L1 as (j1 & L1 & T1 & O1 & F1).
  specialize (A k). rewrite L1 in A.
  destruct (generateLoop cfg env job language settings todo w1) as [cancelled w2].
  cbn [snd] in A.
  destruct (jobs w2 !! k) as [j2|] eqn:L2; [|contradiction].
  destruct A as (_ & T2 & O2 & F2).
  assert (Keep : exists j', jobs w2 !! k = Some j'
            /\ SeoJob.total j' = SeoJob.total j
            /\ SeoJob.okCount j <= SeoJob.okCount j'
            /\ SeoJob.failedCount j <= SeoJob.failedCount j').
  { exists j2. split; [exact L2|]. split; [congruence|]. split; lia. }
  destruct cancelled; [exact Keep|].
  destruct (isJobCancelled (SeoJob.id job) w2); [exact Keep|].
  cbn [snd]. unfold jobUpdate. cbn [jobs].
  destruct (decide (SeoJob.id job = k)) as [->|N].
  - rewrite lookup_alter_eq, L2. eexists. split; [reflexivity|].
    destruct (finishGenerate_counters (clock w2) j2) as (T3 & O3 & F3).
    split; [congruence|]. split; lia.
  - rewrite lookup_alter_ne by exact N. exact Keep.
Qed.

End WorkerFacts.
(** ** Language codes and the mismatch heuristic *)

Module LanguageFacts.
Import Js Generator.

(** Decides one comparison of a code unit known to lie in a range. *)
Ltac decide_unit :=
  repeat match goal with
         | |- context [(?x <=? ?y)%N] =>
             destruct (N.leb_spec x y); try lia
         | |- context [(?x =? ?y)%N] =>
             destruct (N.eqb_spec x y); try lia
         end.

Lemma lowerAZ_range (c : N) : isLowerAZ c = true -> (97 <= c <= 122)%N.
Proof.
  unfold isLowerAZ. intros H. apply andb_prop in H as [A B].
  apply N.leb_le in A, B. lia.
Qed.

Lemma lowerAZ_not_space (c : N) : isLowerAZ c = true -> isWhiteSpace c = false.
Proof.
  intros H. apply lowerAZ_range in H. unfold isWhiteSpace.
  decide_unit; try reflexivity.
Qed.

Lemma lowerAZ_lowerUnit (c : N) : isLowerAZ c = true -> lowerUnit c = [c].
Proof.
  intros H. apply lowerAZ_range in H. unfold lowerUnit.
  decide_unit; try reflexivity.
Qed.

Lemma sanitizeLanguage_cases (input : option jsstring) :
  exists a b, sanitizeLanguage input = [a; b]
              /\ isLowerAZ a = true /\ isLowerAZ b = true.
Proof.
  unfold sanitizeLanguage.
  destruct (toLowerCase (trim (default [] input))) as [|a [|b r]];
    try (exists 116%N, 114%N; repeat split; reflexivity).
  destruct (isLowerAZ a) eqn:A, (isLowerAZ b) eqn:B;
    try (exists 116%N, 114%N; repeat split; reflexivity).
  exists a, b. repeat split; assumption.
Qed.

(** [sanitizeLanguage] always returns a code of two letters a-z, and
    leaves such a code as it is. *)
Theorem sanitizeLanguage_code (input : option jsstring) :
  let c := sanitizeLanguage input in
  length c = 2%nat
  /\ Forall (fun u => isLowerAZ u = true) c
  /\ sanitizeLanguage (Some c) = c.
Proof.
  destruct (sanitizeLanguage_cases input) as (a & b & E & A & B).
  cbv zeta. rewrite E. split; [reflexivity|]. split.
  - repeat constructor; assumption.
  - unfold sanitizeLanguage. change (default [] (Some [a; b])) with [a; b].
    assert (T : trim [a; b] = [a; b]).
    { unfold trim, trimEnd. cbn [trimStart].
      rewrite (lowerAZ_not_space a A). cbn [rev app trimStart].
      rewrite (lowerAZ_not_space b B). reflexivity. }
    rewrite T. unfold toLowerCase. cbn [flat_map].
    rewrite (lowerAZ_lowerUnit a A), (lowerAZ_lowerUnit b B). cbn [app].
    rewrite A, B. reflexivity.
Qed.

Lemma hasTurkishChars_app (a b : jsstring) :
  hasTurkishChars (a ++ b) = hasTurkishChars a || hasTurkishChars b.
Proof. unfold hasTurkishChars. apply existsb_app. Qed.

Lemma hasTurkishChars_join (texts : list jsstring) :
  hasTurkishChars (joinWith (js " ") texts) = existsb hasTurkishChars texts.
Proof.
  induction texts as [|x [|y r] IH].
  - reflexivity.
  - cbn [joinWith existsb]. rewrite orb_false_r. reflexivity.
  - change (joinWith (js " ") (x :: y :: r))
      with (x ++ js " " ++ joinWith (js " ") (y :: r)).
    rewrite !hasTurkishChars_app, IH. cbn [existsb].
    change (hasTurkishChars (js " ")) with false. reflexivity.
Qed.

Lemma existsb_filter_nonEmpty (texts : list jsstring) :
  existsb hasTurkishChars (List.filter nonEmpty texts)
  = existsb hasTurkishChars texts.
Proof.
  induction texts as [|x r IH]; [reflexivity|]. cbn [List.filter existsb].
  destruct x as [|c x']; cbn [nonEmpty]; [exact IH|].
  cbn [existsb]. rewrite IH. reflexivity.
Qed.

Lemma filter_nonEmpty_nil (texts : list jsstring) :
  Forall (fun t => t = []) texts -> List.filter nonEmpty texts = [].
Proof. induction 1 as [|x r -> _ IH]; [reflexivity | exact IH]. Qed.

(** The mismatch heuristic only ever flags a Turkish or an English
    target, never flags when every text is empty, and a Turkish letter
    in one of the texts decides it: never flagged for a Turkish target,
    always flagged for an English one. *)
Theorem language_mismatch_by_letters (lang : jsstring) (texts : list jsstring) :
  let l := sanitizeLanguage (Some lang) in
  (l <> js "tr" -> l <> js "en" -> isLanguageMismatch lang texts = false)
  /\ (Forall (fun t => t = []) texts -> isLanguageMismatch lang texts = false)
  /\ (existsb hasTurkishChars texts = true ->
      (l = js "tr" -> isLanguageMismatch lang texts = false)
      /\ (l = js "en" -> isLanguageMismatch lang texts = true)).
Proof.
  cbv zeta. unfold isLanguageMismatch.
  set (l := sanitizeLanguage (Some lang)).
  set (combined := joinWith (js " ") (List.filter nonEmpty texts)).
  assert (T : hasTurkishChars combined = existsb hasTurkishChars texts).
  { unfold combined. rewrite hasTurkishChars_join. apply existsb_filter_nonEmpty. }
  split; [|split].
  - intros Ntr Nen. destruct combined; [reflexivity|].
    unfold eqb. rewrite !bool_decide_eq_false_2 by assumption. reflexivity.
  - intros E. assert (C : combined = []).
    { unfold combined. rewrite (filter_nonEmpty_nil texts E). reflexivity. }
    rewrite C. reflexivity.
  - intros H. rewrite <- T in H. split; intros E.
    + destruct combined as [|c r] eqn:C; [reflexivity|].
      unfold eqb. rewrite bool_decide_eq_true_2 by exact E.
      rewrite H. reflexivity.
    + destruct combined as [|c r] eqn:C; [discriminate H|].
      unfold eqb. rewrite bool_decide_eq_false_2
        by (rewrite E; discriminate).
      rewrite bool_decide_eq_true_2 by exact E. exact H.
Qed.

End LanguageFacts.

(** ** [stripHtml] *)

Module HtmlFacts.
Import Js Worker Text.

Lemma gt_not_space : isWhiteSpace 62 = false.
Proof. reflexivity. Qed.

Lemma space_not_bracket (c : N) :
  isWhiteSpace c = true -> (c =? 60)%N = false /\ (c =? 62)%N = false.
Proof.
  intros H. split.
  - destruct (N.eqb_spec c 60) as [->|]; [discriminate H | reflexivity].
  - destruct (N.eqb_spec c 62) as [->|]; [discriminate H | reflexivity].
Qed.

(** No step of [stripHtml] brings in a [>]. *)
Lemma stripTags_gt (inTag : bool) (s : jsstring) :
  existsb (N.eqb 62) (stripTags inTag s) = true -> existsb (N.eqb 62) s = true.
Proof.
  revert inTag. induction s as [|c r IH]; intros inTag; simpl; [trivial|].
  destruct inTag.
  - destruct (N.eqb_spec c 62) as [->|N]; simpl.
    + intros _. reflexivity.
    + intros H. rewrite (IH true H). apply orb_true_r.
  - destruct ((c =? 60)%N && existsb (N.eqb 62) r) eqn:E.
    + intros H. rewrite (IH true H). apply orb_true_r.
    + simpl. intros H. apply orb_prop in H as [H|H].
      * rewrite H. reflexivity.
      * rewrite (IH false H). apply orb_true_r.
Qed.

Lemma collapseSpaces_gt (afterSpace : bool) (s : jsstring) :
  existsb (N.eqb 62) (collapseSpaces afterSpace s) = true ->
  existsb (N.eqb 62) s = true.
Proof.
  revert afterSpace. induction s as [|c r IH]; intros b; simpl; [trivial|].
  destruct (isWhiteSpace c) eqn:W.
  - destruct b; simpl; intros H.
    + rewrite (IH true H). apply orb_true_r.
    + rewrite (IH true H). apply orb_true_r.
  - simpl. intros H. apply orb_prop in H as [H|H].
    + rewrite H. reflexivity.
    + rewrite (IH false H). apply orb_true_r.
Qed.

Lemma stripTags_no_tag (inTag : bool) (s : jsstring) :
  hasTag (stripTags inTag s) = false.
Proof.
  revert inTag. induction s as [|c r IH]; intros inTag; simpl; [reflexivity|].
  destruct inTag.
  - destruct (c =? 62)%N; [simpl|]; apply IH.
  - destruct ((c =? 60)%N && existsb (N.eqb 62) r) eqn:E; [apply IH|].
    simpl. rewrite IH, orb_false_r.
    destruct (c =? 60)%N; [|reflexivity]. simpl in E |- *.
    destruct (existsb (N.eqb 62) (stripTags false r)) eqn:G; [|reflexivity].
    rewrite (stripTags_gt false r G) in E. discriminate E.
Qed.

Lemma collapseSpaces_no_tag (afterSpace : bool) (s : jsstring) :
  hasTag s = false -> hasTag (collapseSpaces afterSpace s) = false.
Proof.
  revert afterSpace. induction s as [|c r IH]; intros b; simpl; [trivial|].
  intros H. apply orb_false_elim in H as [H1 H2].
  destruct (isWhiteSpace c) eqn:W.
  - destruct b; [apply IH, H2|]. simpl. apply IH, H2.
  - simpl. rewrite (IH false H2), orb_false_r.
    destruct (c =? 60)%N; [|reflexivity]. simpl in H1 |- *.
    destruct (existsb (N.eqb 62) (collapseSpaces false r)) eqn:G; [|reflexivity].
    rewrite (collapseSpaces_gt false r G) in H1. discriminate H1.
Qed.

(** What [trimStart] and [trimEnd] keep of a text. *)
Lemma trimStart_suffix (s : jsstring) : exists p, s = p ++ trimStart s.
Proof.
  induction s as [|c r [p IH]]; [exists []; reflexivity|]. simpl.
  destruct (isWhiteSpace c).
  - exists (c :: p). simpl. rewrite <- IH. reflexivity.
  - exists []. reflexivity.
Qed.

Lemma trimEnd_prefix (s : jsstring) : exists q, s = trimEnd s ++ q.
Proof.
  unfold trimEnd. destruct (trimStart_suffix (rev s)) as [p E].
  exists (rev p). rewrite <- rev_app_distr, <- E, rev_involutive. reflexivity.
Qed.

Lemma hasTag_suffix (p s : jsstring) : hasTag (p ++ s) = false -> hasTag s = false.
Proof.
  induction p as [|c r IH]; simpl; [trivial|].
  intros H. apply orb_false_elim in H as [_ H]. apply IH, H.
Qed.

Lemma hasTag_prefix (s q : jsstring) : hasTag (s ++ q) = false -> hasTag s = false.
Proof.
  induction s as [|c r IH]; simpl; [reflexivity|].
  intros H. apply orb_false_elim in H as [H1 H2].
  rewrite (IH H2), orb_false_r.
  destruct (c =? 60)%N; [|reflexivity]. simpl in H1 |- *.
  rewrite existsb_app in H1. apply orb_false_elim in H1 as [H1 _]. exact H1.
Qed.

Lemma trim_no_tag (s : jsstring) : hasTag s = false -> hasTag (trim s) = false.
Proof.
  intros H. unfold trim.
  destruct (trimStart_suffix s) as [p Ep].
  destruct (trimEnd_prefix (trimStart s)) as [q Eq].
  apply (hasTag_prefix _ q). rewrite <- Eq.
  apply (hasTag_suffix p). rewrite <- Ep. exact H.
Qed.

Lemma collapseSpaces_single (afterSpace : bool) (s : jsstring) :
  singleSpaced afterSpace (collapseSpaces afterSpace s) = true.
Proof.
  revert afterSpace. induction s as [|c r IH]; intros b; simpl; [reflexivity|].
  destruct (isWhiteSpace c) eqn:W.
  - destruct b; [apply IH|]. simpl. apply IH.
  - simpl. rewrite W. apply IH.
Qed.

Lemma singleSpaced_trimStart (a b : bool) (s : jsstring) :
  singleSpaced a s = true -> singleSpaced b (trimStart s) = true.
Proof.
  revert a. induction s as [|c r IH]; intros a; simpl; [trivial|].
  destruct (isWhiteSpace c) eqn:W.
  - intros H. apply andb_prop in H as [_ H]. apply (IH true), H.
  - simpl. rewrite W. trivial.
Qed.

Lemma singleSpaced_prefix (a : bool) (s q : jsstring) :
  singleSpaced a (s ++ q) = true -> singleSpaced a s = true.
Proof.
  revert a. induction s as [|c r IH]; intros a; simpl; [reflexivity|].
  destruct (isWhiteSpace c).
  - intros H. apply andb_prop in H as [H1 H2]. rewrite H1, (IH true H2). reflexivity.
  - apply IH.
Qed.

Lemma trim_single (a : bool) (s : jsstring) :
  singleSpaced a s = true -> singleSpaced false (trim s) = true.
Proof.
  intros H. unfold trim.
  destruct (trimEnd_prefix (trimStart s)) as [q Eq].
  apply (singleSpaced_prefix false _ q). rewrite <- Eq.
  apply (singleSpaced_trimStart a), H.
Qed.

(** Texts the two replacements leave as they are. *)
Lemma stripTags_id (s : jsstring) : hasTag s = false -> stripTags false s = s.
Proof.
  induction s as [|c r IH]; simpl; [reflexivity|].
  intros H. apply orb_false_elim in H as [H1 H2].
  rewrite H1, (IH H2). reflexivity.
Qed.

Lemma collapseSpaces_id (afterSpace : bool) (s : jsstring) :
  singleSpaced afterSpace s = true -> collapseSpaces afterSpace s = s.
Proof.
  revert afterSpace. induction s as [|c r IH]; intros b; simpl; [reflexivity|].
  destruct (isWhiteSpace c).
  - intros H. apply andb_prop in H as [H1 H2]. apply andb_prop in H1 as [E B].
    apply N.eqb_eq in E. subst c. destruct b; [discriminate B|].
    rewrite (IH true H2). reflexivity.
  - intros H. rewrite (IH false H). reflexivity.
Qed.

(** What [stripHtml] returns holds no tag (no [<] with a [>] after it),
    its white space is single U+0020 between other code units, and it
    has no white space at either end; a text of that shape is returned
    as it is, so stripping twice is stripping once. *)
Theorem stripHtml_normalises (html : option jsstring) :
  let t := stripHtml html in
  hasTag t = false /\ singleSpaced false t = true /\ trim t = t
  /\ (forall s, hasTag s = false -> singleSpaced false s = true -> trim s = s ->
       stripHtml (Some s) = s)
  /\ stripHtml (Some t) = t.
Proof.
  cbv zeta.
  assert (Fix : forall s, hasTag s = false -> singleSpaced false s = true ->
                          trim s = s -> stripHtml (Some s) = s).
  { intros s H1 H2 H3. unfold stripHtml.
    change (default [] (Some s)) with s.
    rewrite (stripTags_id s H1), (collapseSpaces_id false s H2). exact H3. }
  assert (H1 : hasTag (stripHtml html) = false)
    by apply trim_no_tag, collapseSpaces_no_tag, stripTags_no_tag.
  assert (H2 : singleSpaced false (stripHtml html) = true)
    by apply (trim_single false), collapseSpaces_single.
  assert (H3 : trim (stripHtml html) = stripHtml html)
    by apply QueueFacts.trim_idem.
  split; [exact H1|]. split; [exact H2|]. split; [exact H3|].
  split; [exact Fix|]. apply Fix; assumption.
Qed.

End HtmlFacts.

(** ** Which failures are retried *)

Module RetryClassFacts.
Import Js Classifier.

Ltac status_cases s :=
  repeat match goal with
         | |- context [(s =? ?k)] => destruct (Z.eqb_spec s k); try lia
         | |- context [(?k <=? s)] => destruct (Z.leb_spec k s); try lia
         | |- context [(s <? ?k)] => destruct (Z.ltb_spec s k); try lia
         end.

(** A failure of the text service is permanent exactly when its status
    is a 4xx other than 429, or when it has no status from 400 up and
    is neither an abort nor a network error. So 408 and 409, although
    listed among the transient statuses, are permanent, and the list
    decides nothing. *)
Theorem openai_permanent_iff (status : option Z) (message name : option jsstring) :
  isTransient (classifyOpenAiFailure status message name) = false
  <-> (exists s, status = Some s /\ 400 <= s < 500 /\ s <> 429)
      \/ (noFailureStatus status /\ isAbortOf message name = false
          /\ matchesNetwork (default [] message) = false).
Proof.
  unfold classifyOpenAiFailure, isAbortOf, noFailureStatus.
  set (abort := bool_decide (name = Some (js "AbortError"))
                || matchesAborted (default [] message)).
  set (net := matchesNetwork (default [] message)).
  set (long := matchesTooLong (default [] message)).
  destruct status as [s|].
  - change (default 0 (Some s)) with s. cbn [statusIs truthyStatus].
    assert (Listed : s < 400 ->
              negb (s =? 0) && bool_decide (s ∈ transientStatus) = false).
    { intros L. rewrite bool_decide_eq_false_2; [apply andb_false_r|].
      unfold transientStatus. rewrite !elem_of_cons, elem_of_nil. lia. }
    assert (Perm : 400 <= s < 500 -> s <> 429 ->
              exists t, Some s = Some t /\ 400 <= t < 500 /\ t <> 429).
    { intros R N. exists s. repeat split; lia. }
    destruct (Z.lt_ge_cases s 400) as [L|G].
    + rewrite (Listed L).
      status_cases s; cbn [orb andb negb];
        destruct abort, net; cbn [isTransient orb];
        (split; [first [discriminate | intros _; right; repeat split; lia]
                | first [reflexivity
                        | intros [(t & E & R & _) | (_ & A & B)];
                          [injection E as <-; lia | discriminate]]]).
    + assert (Z0 : (s =? 0) = false) by (apply Z.eqb_neq; lia).
      rewrite Z0. cbn [negb andb].
      destruct (Z.lt_ge_cases s 500) as [L5|G5].
      * assert (Perm' : s <> 429 ->
                  false = false <->
                  (exists t, Some s = Some t /\ 400 <= t < 500 /\ t <> 429)
                  \/ s < 400 /\ abort = false /\ net = false).
        { intros N. split; [intros _; left; apply Perm; lia | reflexivity]. }
        status_cases s; cbn [orb andb isTransient];
          try (apply Perm'; lia);
          try (destruct long; cbn [isTransient]; apply Perm'; lia);
          (split; [discriminate|]);
          intros [(t & E & R & N) | (L & _)]; [injection E as <-|]; lia.
      * status_cases s; cbn [orb andb isTransient];
          (split; [discriminate|]);
          intros [(t & E & R & N) | (L & _)]; [injection E as <-|]; lia.
  - cbn [statusIs truthyStatus orb andb].
    destruct abort, net; cbn [isTransient orb];
      (split; [first [discriminate | intros _; right; repeat split]
              | first [reflexivity
                      | intros [(t & E & _) | (_ & A & B)]; discriminate]]).
Qed.

(** A failure of the store API is permanent exactly when its status is
    401 or 403, or another 4xx except 429 whose texts do not speak of
    throttling; every failure without a 4xx status is retried. *)
Theorem shopify_permanent_iff (status : option Z) (message : option jsstring)
  (graphQLErrors : list (option jsstring)) :
  let texts :=
    toLowerCase (default [] message ++ js " "
                 ++ ShopifyClassifier.gqlMessage graphQLErrors) in
  isTransient
    (ShopifyClassifier.classifyShopifyFailure status message graphQLErrors)
  = false
  <-> exists s, status = Some s /\ 400 <= s < 500 /\ s <> 429
        /\ (s = 401 \/ s = 403
            \/ ShopifyClassifier.matchesThrottle texts = false).
Proof.
  cbv zeta. unfold ShopifyClassifier.classifyShopifyFailure.
  set (texts := toLowerCase (default [] message ++ js " "
                             ++ ShopifyClassifier.gqlMessage graphQLErrors)).
  set (abort := includes (js "AbortError") (default [] message)
                || includes (js "timeout") (toLowerCase (default [] message))).
  set (net := ShopifyClassifier.matchesNetwork (default [] message)).
  destruct status as [s|].
  - change (default 0 (Some s)) with s. cbn [statusIs truthyStatus].
    status_cases s; cbn [orb andb negb isTransient];
      try (split; [discriminate|];
           intros (t & E & R & N & _); injection E as <-; lia);
      try (split; [intros _; exists s; repeat split; lia | reflexivity]);
      destruct (ShopifyClassifier.matchesThrottle texts) eqn:T;
      cbn [isTransient];
      try (split; [discriminate|];
           intros (t & E & R & N & [?|[?|?]]); injection E as <-;
           first [lia | discriminate]);
      try (split; [intros _; exists s; repeat split; try lia;
                   right; right; reflexivity | reflexivity]);
      destruct abort, net; cbn [isTransient];
      (split; [discriminate|];
       intros (t & E & R & N & _); injection E as <-; lia).
  - cbn [statusIs truthyStatus orb andb].
    destruct (ShopifyClassifier.matchesThrottle texts);
      [|destruct abort, net]; cbn [isTransient];
      (split; [discriminate | intros (t & E & _); discriminate E]).
Qed.

End RetryClassFacts.

(** ** Mutual exclusion of the locks *)

Module LockFacts.
Import Js Generator Worker Locks WorkerFacts.

Lemma redisGet_sleep (key : jsstring) (d : Z) (w : Store) :
  redisGet key (sleep d w)
  = match shopLocks w !! key with
    | Some (owner, expires) => if clock w + d <? expires then Some owner else None
    | None => None
    end.
Proof. reflexivity. Qed.

(** While a worker holds the lock of a shop, another worker can neither
    take it, nor extend it, nor free it. *)
Lemma shop_lock_held (cfg : Config) (shop : option jsstring)
  (a b : jsstring) (w : Store) :
  redisGet (shopLockKey shop) w = Some a -> a <> b ->
  acquireShopLock cfg shop b w = (false, w)
  /\ releaseShopLock shop b w = w
  /\ refreshShopLock cfg shop (Some b) w = w.
Proof.
  intros H N. unfold acquireShopLock, releaseShopLock, refreshShopLock.
  rewrite H. rewrite !bool_decide_eq_false_2 by congruence.
  repeat split.
Qed.

(** The shop lock is exclusive. Once a worker has acquired the lock of a
    shop, and until the time to live has run out, every attempt of
    another worker to acquire, refresh or release it leaves the store as
    it is; the other worker acquires it once the holder has released it
    or the time to live has run out. *)
Theorem shop_lock_exclusive (cfg : Config) (shop : option jsstring)
  (a b : jsstring) (w : Store) :
  a <> b -> 0 < SHOP_LOCK_TTL_MS cfg ->
  fst (acquireShopLock cfg shop a w) = true ->
  let w1 := snd (acquireShopLock cfg shop a w) in
  (forall d, 0 <= d < SHOP_LOCK_TTL_MS cfg ->
     let w2 := sleep d w1 in
     acquireShopLock cfg shop b w2 = (false, w2)
     /\ releaseShopLock shop b w2 = w2
     /\ refreshShopLock cfg shop (Some b) w2 = w2)
  /\ fst (acquireShopLock cfg shop b (releaseShopLock shop a w1)) = true
  /\ (forall d, SHOP_LOCK_TTL_MS cfg <= d ->
        fst (acquireShopLock cfg shop b (sleep d w1)) = true).
Proof.
  intros N T G. cbv zeta.
  set (key := shopLockKey shop).
  set (w1 := mkStore (jobs w) (items w)
               (<[key := (a, clock w + SHOP_LOCK_TTL_MS cfg)]> (shopLocks w))
               (clock w)).
  assert (E : acquireShopLock cfg shop a w = (true, w1)).
  { unfold acquireShopLock in G |- *. fold key in G |- *.
    destruct (redisGet key w); [discriminate G | reflexivity]. }
  rewrite E. cbn [snd]. clear G E.
  assert (Held : forall d, 0 <= d < SHOP_LOCK_TTL_MS cfg ->
                   redisGet key (sleep d w1) = Some a).
  { intros d R. rewrite redisGet_sleep. unfold w1. cbn [shopLocks clock].
    rewrite lookup_insert_eq.
    destruct (Z.ltb_spec (clock w + d) (clock w + SHOP_LOCK_TTL_MS cfg));
      [reflexivity | lia]. }
  split; [|split].
  - intros d R. apply (shop_lock_held cfg shop a b); [apply Held, R | exact N].
  - unfold releaseShopLock. fold key.
    assert (H0 : redisGet key w1 = Some a).
    { rewrite <- (Held 0) by lia. unfold sleep, redisGet. cbn [shopLocks clock].
      rewrite Z.add_0_r. reflexivity. }
    rewrite H0, bool_decide_eq_true_2 by reflexivity.
    unfold acquireShopLock, redisGet. fold key. cbn [shopLocks].
    rewrite lookup_delete_eq. reflexivity.
  - intros d R. unfold acquireShopLock. fold key. rewrite redisGet_sleep.
    unfold w1. cbn [shopLocks clock]. rewrite lookup_insert_eq.
    destruct (Z.ltb_spec (clock w + d) (clock w + SHOP_LOCK_TTL_MS cfg));
      [lia | reflexivity].
Qed.

(** The theorem on an empty key-value store with the default time to
    live: worker B is refused five minutes after worker A got the lock. *)
Lemma shop_lock_exclusive_witness :
  let w := mkStore ∅ ∅ ∅ 1000 in
  let w1 := snd (acquireShopLock defaultConfig (Some (js "t1.myshopify.com"))
                   (js "worker-7") w) in
  fst (acquireShopLock defaultConfig (Some (js "T1.myshopify.com "))
         (js "worker-8") (sleep 300000 w1)) = false.
Proof.
  cbv zeta.
  destruct (shop_lock_exclusive defaultConfig (Some (js "t1.myshopify.com"))
              (js "worker-7") (js "worker-8") (mkStore ∅ ∅ ∅ 1000))
    as (H & _); [discriminate | reflexivity | reflexivity |].
  destruct (H 300000) as (E & _); [split; [lia | reflexivity]|].
  cbv zeta in E.
  change (shopLockKey (Some (js "T1.myshopify.com ")))
    with (shopLockKey (Some (js "t1.myshopify.com"))) in *.
  exact (f_equal fst E).
Defined.

(** *** The lease of a job *)

Lemma elem_of_rows {A} (p : A -> bool) (m : gmap jsstring A) (x : A) :
  x ∈ List.filter p (snd <$> map_to_list m) <->
  p x = true /\ exists k, m !! k = Some x.
Proof.
  rewrite list_elem_of_In, filter_In, <- list_elem_of_In, list_elem_of_fmap.
  split.
  - intros [([k v] & -> & Hm) P]. split; [exact P|].
    exists k. apply elem_of_map_to_list. exact Hm.
  - intros [P [k Hm]]. split; [|exact P].
    exists (k, x). split; [reflexivity|]. apply elem_of_map_to_list. exact Hm.
Qed.

Lemma jobUpdateMany_none (c : SeoJob.t -> bool) (f : SeoJob.t -> SeoJob.t)
  (w : Store) :
  (forall k x, jobs w !! k = Some x -> c x = false) -> jobUpdateMany c f w = w.
Proof.
  intros H. destruct w as [jobs0 items0 locks0 clock0]. unfold jobUpdateMany.
  cbn [jobs items shopLocks clock] in *.
  replace ((fun j => if c j then f j else j) <$> jobs0) with jobs0; [reflexivity|].
  apply map_eq. intros k. rewrite lookup_fmap.
  destruct (jobs0 !! k) as [x|] eqn:E; [|reflexivity].
  cbn [fmap option_fmap option_map]. rewrite (H k x E). reflexivity.
Qed.

Lemma lease_columns (now expires : Z) (owner : jsstring) (j : SeoJob.t) :
  let j1 := SeoJob.set_lastHeartbeatAt (Some now)
              (SeoJob.set_lockExpiresAt (Some expires)
                 (SeoJob.set_lockOwner (Some owner) j)) in
  SeoJob.id j1 = SeoJob.id j /\ SeoJob.lockOwner j1 = Some owner
  /\ SeoJob.lockExpiresAt j1 = Some expires
  /\ SeoJob.lastHeartbeatAt j1 = Some now.
Proof. destruct j. cbv zeta. fields. repeat split. Qed.

(** Whether [lockJob] gets the lease of a stored job, and what it
    leaves when it does not. *)
Lemma lockJob_outcome (jobId owner : jsstring) (ttlMs : Z) (w : Store)
  (j : SeoJob.t) :
  wfStore w -> jobs w !! jobId = Some j ->
  fst (lockJob jobId owner ttlMs w) = leaseFree (clock w) owner j
  /\ (leaseFree (clock w) owner j = false ->
      snd (lockJob jobId owner ttlMs w) = w)
  /\ (leaseFree (clock w) owner j = true ->
      jobs (snd (lockJob jobId owner ttlMs w)) !! jobId
      = Some (SeoJob.set_lastHeartbeatAt (Some (clock w))
                (SeoJob.set_lockExpiresAt (Some (clock w + ttlMs))
                   (SeoJob.set_lockOwner (Some owner) j)))).
Proof.
  intros WF L. unfold lockJob. cbn [fst snd].
  set (where_ := fun x => eqb (SeoJob.id x) jobId && leaseFree (clock w) owner x).
  assert (Id : SeoJob.id j = jobId) by exact (lookup_job_id w jobId j WF L).
  assert (Wj : where_ j = leaseFree (clock w) owner j).
  { unfold where_, eqb. rewrite bool_decide_eq_true_2 by exact Id. reflexivity. }
  assert (Only : forall k x, jobs w !! k = Some x -> where_ x = true -> x = j).
  { intros k x E H. unfold where_ in H. apply andb_prop in H as [H _].
    apply bool_decide_eq_true_1 in H.
    pose proof (lookup_job_id w k x WF E) as Ik.
    rewrite <- Ik, H, L in E. congruence. }
  split; [|split].
  - destruct (leaseFree (clock w) owner j) eqn:F.
    + destruct (List.filter where_ (snd <$> map_to_list (jobs w))) as [|y l] eqn:El;
        [|reflexivity].
      assert (In : j ∈ List.filter where_ (snd <$> map_to_list (jobs w))).
      { apply elem_of_rows. split; [rewrite Wj; reflexivity | exists jobId; exact L]. }
      rewrite El in In. apply elem_of_nil in In. contradiction.
    + destruct (List.filter where_ (snd <$> map_to_list (jobs w))) as [|y l] eqn:El;
        [reflexivity|].
      assert (In : y ∈ List.filter where_ (snd <$> map_to_list (jobs w))).
      { rewrite El. apply elem_of_cons. left. reflexivity. }
      apply elem_of_rows in In as [P [k E]].
      rewrite (Only k y E P), Wj in P. discriminate P.
  - intros F. apply jobUpdateMany_none. intros k x E.
    destruct (where_ x) eqn:P; [|reflexivity].
    rewrite (Only k x E P), Wj in P. congruence.
  - intros F. unfold jobUpdateMany. cbn [jobs]. rewrite lookup_fmap, L.
    cbn [fmap option_fmap option_map]. rewrite Wj, F. reflexivity.
Qed.

(** The lease of a job is exclusive. Once a worker has taken it, another
    worker is refused, the store staying as it is, until the lease has
    run out; the holder may take it again at any time; a job that is
    not stored gives no lease. *)
Theorem job_lease_exclusive (jobId a b : jsstring) (ttlMs : Z) (w : Store)
  (j : SeoJob.t) :
  wfStore w -> jobs w !! jobId = Some j -> a <> b -> 0 <= ttlMs ->
  fst (lockJob jobId a ttlMs w) = true ->
  let w1 := snd (lockJob jobId a ttlMs w) in
  (forall d, 0 <= d <= ttlMs ->
     lockJob jobId b ttlMs (sleep d w1) = (false, sleep d w1))
  /\ (forall d, fst (lockJob jobId a ttlMs (sleep d w1)) = true)
  /\ (forall d, ttlMs < d -> fst (lockJob jobId b ttlMs (sleep d w1)) = true)
  /\ (forall other, jobs w !! other = None ->
        lockJob other b ttlMs w = (false, w)).
Proof.
  intros WF L N T G. cbv zeta.
  destruct (lockJob_outcome jobId a ttlMs w j WF L) as (O1 & _ & O3).
  rewrite G in O1. specialize (O3 (eq_sym O1)).
  set (w1 := snd (lockJob jobId a ttlMs w)) in *.
  set (j1 := SeoJob.set_lastHeartbeatAt (Some (clock w))
               (SeoJob.set_lockExpiresAt (Some (clock w + ttlMs))
                  (SeoJob.set_lockOwner (Some a) j))) in *.
  destruct (lease_columns (clock w) (clock w + ttlMs) a j) as (C0 & C1 & C2 & _).
  fold j1 in C0, C1, C2.
  assert (WF1 : forall d, wfStore (sleep d w1)).
  { intros d. destruct WF as [WJ WI]. split; [|exact WI].
    unfold w1, lockJob, sleep, jobUpdateMany. cbn [snd jobs].
    intros k x E. rewrite lookup_fmap in E.
    destruct (jobs w !! k) as [y|] eqn:Ey; [|discriminate E].
    cbn [fmap option_fmap option_map] in E. injection E as <-.
    pose proof (WJ k y Ey) as Iy. cbn beta in Iy.
    match goal with |- context [if ?c then _ else _] => destruct c end;
      [|exact Iy].
    destruct (lease_columns (clock w) (clock w + ttlMs) a y) as (Cy & _).
    cbv zeta in Cy. cbn beta. rewrite Cy. exact Iy. }
  assert (Free : forall d o,
            leaseFree (clock (sleep d w1)) o j1
            = ((clock w + ttlMs <? clock w + d) || bool_decide (Some a = Some o))).
  { intros d o. unfold leaseFree. rewrite C1, C2. reflexivity. }
  split; [|split; [|split]].
  - intros d R.
    destruct (lockJob_outcome jobId b ttlMs (sleep d w1) j1 (WF1 d) O3)
      as (P1 & P2 & _).
    assert (F : leaseFree (clock (sleep d w1)) b j1 = false).
    { rewrite Free, bool_decide_eq_false_2 by congruence.
      destruct (Z.ltb_spec (clock w + ttlMs) (clock w + d)); [lia | reflexivity]. }
    rewrite (surjective_pairing (lockJob jobId b ttlMs (sleep d w1))).
    rewrite P1, (P2 F), F. reflexivity.
  - intros d.
    destruct (lockJob_outcome jobId a ttlMs (sleep d w1) j1 (WF1 d) O3)
      as (P1 & _).
    rewrite P1, Free, bool_decide_eq_true_2 by reflexivity. apply orb_true_r.
  - intros d R.
    destruct (lockJob_outcome jobId b ttlMs (sleep d w1) j1 (WF1 d) O3)
      as (P1 & _).
    rewrite P1, Free.
    destruct (Z.ltb_spec (clock w + ttlMs) (clock w + d)); [reflexivity | lia].
  - intros other Miss. unfold lockJob.
    set (where_ := fun x => eqb (SeoJob.id x) other && leaseFree (clock w) b x).
    assert (No : forall k x, jobs w !! k = Some x -> where_ x = false).
    { intros k x E. unfold where_, eqb.
      rewrite bool_decide_eq_false_2; [reflexivity|].
      intros I. rewrite <- (lookup_job_id w k x WF E) in E.
      rewrite I, Miss in E. discriminate E. }
    rewrite (jobUpdateMany_none where_ _ w No).
    destruct (List.filter where_ (snd <$> map_to_list (jobs w))) as [|y l] eqn:El;
      [reflexivity|].
    assert (In : y ∈ List.filter where_ (snd <$> map_to_list (jobs w))).
    { rewrite El. apply elem_of_cons. left. reflexivity. }
    apply elem_of_rows in In as [P [k E]]. rewrite (No k y E) in P. discriminate P.
Qed.

Lemma job_lease_exclusive_witness :
  let w0 := mkStore {[ js "J1" := Samples.stuckJob ]} ∅ ∅ 400000 in
  let w1 := snd (lockJob (js "J1") (js "worker-8") 300000 w0) in
  fst (lockJob (js "J1") (js "worker-8") 300000 w0) = true
  /\ fst (lockJob (js "J1") (js "worker-9") 300000 (sleep 300000 w1)) = false
  /\ fst (lockJob (js "J1") (js "worker-9") 300000 (sleep 300001 w1)) = true.
Proof.
  cbv zeta.
  assert (G : fst (lockJob (js "J1") (js "worker-8") 300000
                     (mkStore {[ js "J1" := Samples.stuckJob ]} ∅ ∅ 400000))
              = true) by (vm_compute; reflexivity).
  destruct (job_lease_exclusive (js "J1") (js "worker-8") (js "worker-9") 300000
              (mkStore {[ js "J1" := Samples.stuckJob ]} ∅ ∅ 400000)
              Samples.stuckJob)
    as (H1 & _ & H3 & _);
    [wf_by_computation | reflexivity | discriminate | lia | exact G |].
  split; [exact G|]. split.
  - rewrite (H1 300000) by lia. reflexivity.
  - apply H3. lia.
Defined.

End LockFacts.

(** ** The usage counter and the plans *)

Module UsageFacts.
Import Js Billing Usage BillingFacts.

(** Whatever is asked and whatever fails, a reservation never lowers the
    counter of the shop and never raises it above the limit (or above
    what it was, if that was more); and for a request of at least one
    item, what [getFreeUsageMonthly] reads afterwards is what the
    reservation returned. *)
Theorem usage_counter_bounds (fault : Z -> option jsstring)
  (monthKey : jsstring) (now : Z -> Z) (shop : jsstring) (count : Z)
  (limit_ : option Z) (tbl : UsageTable) :
  let L := default 10 limit_ in
  let used0 := usedOf tbl shop monthKey in
  let out := reserveFreeUsageMonthly fault monthKey now shop count limit_ tbl in
  used0 <= usedOf (snd out) shop monthKey <= Z.max used0 L
  /\ (forall r, fst out = inr r -> 0 < count ->
      getFreeUsageMonthly monthKey shop limit_ (snd out)
      = mkUsage monthKey (r_used r) L (remaining r)).
Proof.
  cbv zeta. unfold reserveFreeUsageMonthly.
  destruct (Z.eqb_spec (Z.max 0 count) 0) as [E|E].
  - cbn [fst snd]. split; [lia|]. intros r _ P. lia.
  - change (Z.to_nat MAX_RETRIES) with 3%nat.
    pose proof (reserveLoop_outcome fault shop monthKey (Z.max 0 count)
                  (default 10 limit_) now tbl) as Loop.
    destruct (commitAttempt fault) as [k|].
    + rewrite Loop. cbn [fst snd].
      destruct (reserveTx_outcome shop monthKey (Z.max 0 count)
                  (default 10 limit_) (now k) tbl) as [Tx _].
      cbv zeta in Tx.
      destruct (default 10 limit_ <? usedOf tbl shop monthKey + Z.max 0 count)
        eqn:Over; destruct Tx as [R U].
      * split; [rewrite U; lia|]. intros r Er _. injection Er as <-.
        unfold getFreeUsageMonthly. rewrite U, R. reflexivity.
      * apply Z.ltb_ge in Over. split; [rewrite U; lia|].
        intros r Er _. injection Er as <-.
        unfold getFreeUsageMonthly. rewrite U, R. cbn [r_used remaining].
        f_equal. lia.
    + destruct Loop as [msg Loop]. rewrite Loop. cbn [fst snd].
      split; [lia|]. intros r Er. discriminate Er.
Qed.

(** A reset removes the counter of the shop for the month and nothing
    else: its usage then reads 0, and a request within the limit is
    accepted as for a shop that never used the service. *)
Theorem usage_reset (monthKey shop : jsstring) (limit_ : option Z)
  (tbl : UsageTable) :
  let L := default 10 limit_ in
  let tbl' := resetFreeUsageMonthly monthKey shop tbl in
  getFreeUsageMonthly monthKey shop limit_ tbl' = mkUsage monthKey 0 L (Z.max 0 L)
  /\ (forall key, key <> (shop, monthKey) -> tbl' !! key = tbl !! key)
  /\ (forall now count, 0 < count <= L ->
      fst (reserveFreeUsageMonthly noFault monthKey now shop count limit_ tbl')
      = inr (mkReservation true (js "OK") monthKey count L (L - count))).
Proof.
  cbv zeta. unfold resetFreeUsageMonthly.
  assert (U : usedOf (delete (shop, monthKey) tbl) shop monthKey = 0).
  { unfold usedOf. rewrite lookup_delete_eq. reflexivity. }
  split; [|split].
  - unfold getFreeUsageMonthly. rewrite U, Z.sub_0_r. reflexivity.
  - intros key N. apply lookup_delete_ne. congruence.
  - intros now count R. unfold reserveFreeUsageMonthly.
    destruct (Z.eqb_spec (Z.max 0 count) 0) as [E|E]; [lia|].
    change (Z.to_nat MAX_RETRIES) with 3%nat.
    pose proof (reserveLoop_outcome noFault shop monthKey (Z.max 0 count)
                  (default 10 limit_) now (delete (shop, monthKey) tbl)) as Loop.
    change (commitAttempt noFault) with (Some 1) in Loop. rewrite Loop.
    cbn [fst].
    destruct (reserveTx_outcome shop monthKey (Z.max 0 count)
                (default 10 limit_) (now 1) (delete (shop, monthKey) tbl))
      as [Tx _].
    cbv zeta in Tx. rewrite U in Tx.
    destruct (Z.ltb_spec (default 10 limit_) (0 + Z.max 0 count)); [lia|].
    destruct Tx as [Rv _]. rewrite Rv. f_equal.
    rewrite Z.max_r by lia. reflexivity.
Qed.

Lemma usage_reset_witness :
  fst (reserveFreeUsageMonthly noFault Samples.november (fun _ => 0)
         Samples.shopT2 10 None
         (resetFreeUsageMonthly Samples.november Samples.shopT2
            Samples.usedEight))
  = inr (mkReservation true (js "OK") Samples.november 10 10 0).
Proof.
  destruct (usage_reset Samples.november Samples.shopT2 None Samples.usedEight)
    as (_ & _ & H).
  exact (H (fun _ => 0) 10 ltac:(cbn; lia)).
Defined.

End UsageFacts.

Module PlanFacts.
Import Js Billing Usage Plans BillingFacts.

Lemma plan_of_row (subs : gmap jsstring Subscription) (shop : jsstring)
  (sub : Subscription) :
  subs !! shop = Some sub ->
  getPlanForShop true subs shop
  = if Js.eqb (s_status sub) (js "active")
    then mkPlanInfo (js "PRO") true (js "mock")
    else mkPlanInfo (js "FREE") false (js "mock").
Proof.
  intros E. unfold getPlanForShop. cbn [negb]. rewrite E.
  destruct (Js.eqb (s_status sub) (js "active")); reflexivity.
Qed.

Lemma upsert_lookup (shop : jsstring) (update : Subscription -> Subscription)
  (create : Subscription) (subs : gmap jsstring Subscription) :
  upsert shop update create subs !! shop
  = Some (match subs !! shop with Some sub => update sub | None => create end)
  /\ forall other, other <> shop ->
       upsert shop update create subs !! other = subs !! other.
Proof.
  unfold upsert. destruct (subs !! shop); split;
    try apply lookup_insert_eq; intros other N; apply lookup_insert_ne; congruence.
Qed.

(** With mock billing enabled, a shop is on the Pro plan once
    [activatePro] has returned and on the free plan again once
    [cancelPro] has, the plans of the other shops staying as they are;
    with mock billing disabled every shop is on the free plan and both
    calls throw and change nothing. *)
Theorem plan_round_trip (now later : Z) (shop interval : jsstring)
  (subs : gmap jsstring Subscription) :
  shop <> [] ->
  let s1 := snd (activatePro true now shop interval subs) in
  let s2 := snd (cancelPro true later shop s1) in
  getPlanForShop true s1 shop = mkPlanInfo (js "PRO") true (js "mock")
  /\ getPlanForShop true s2 shop = mkPlanInfo (js "FREE") false (js "mock")
  /\ (forall other, other <> shop ->
        getPlanForShop true s1 other = getPlanForShop true subs other
        /\ getPlanForShop true s2 other = getPlanForShop true subs other)
  /\ getPlanForShop false subs shop = mkPlanInfo (js "FREE") false (js "live")
  /\ activatePro false now shop interval subs = (inl mockDisabled, subs)
  /\ cancelPro false now shop subs = (inl mockDisabled, subs).
Proof.
  intros N. cbv zeta. unfold activatePro, cancelPro. cbn [negb].
  destruct shop as [|c r]; [contradiction|]. cbn [snd].
  set (shop := c :: r) in *.
  set (plan := if Js.eqb interval (js "annual") then js "Pro Annual"
               else js "Pro Monthly").
  set (s1 := upsert shop _ _ subs).
  set (s2 := upsert shop _ _ s1).
  destruct (upsert_lookup shop
              (fun sub => mkSubscription (js "active") plan (s_createdAt sub) now)
              (mkSubscription (js "active") plan now now) subs) as [A1 A2].
  fold s1 in A1, A2.
  destruct (upsert_lookup shop
              (fun sub => mkSubscription (js "cancelled") (s_plan sub)
                            (s_createdAt sub) later)
              (mkSubscription (js "cancelled") (js "Pro Monthly") later later) s1)
    as [B1 B2].
  fold s2 in B1, B2.
  split; [|split; [|split; [|repeat split]]].
  - rewrite (plan_of_row s1 shop _ A1).
    replace (s_status (match subs !! shop with
                       | Some sub =>
                           mkSubscription (js "active") plan (s_createdAt sub) now
                       | None => mkSubscription (js "active") plan now now
                       end)) with (js "active")
      by (destruct (subs !! shop); reflexivity).
    reflexivity.
  - rewrite (plan_of_row s2 shop _ B1). rewrite A1. reflexivity.
  - intros other No. unfold getPlanForShop. cbn [negb].
    rewrite (B2 other No), (A2 other No). split; reflexivity.
Qed.

Lemma plan_round_trip_witness :
  getPlanForShop true
    (snd (activatePro true 5 Samples.shopT2 (js "annual") ∅)) Samples.shopT2
  = mkPlanInfo (js "PRO") true (js "mock").
Proof.
  destruct (plan_round_trip 5 6 Samples.shopT2 (js "annual") ∅) as (H & _);
    [discriminate|].
  exact H.
Defined.

(** Gating: a Pro shop is always let through and its counter is not
    touched, whatever it has used; any other shop, and every shop when
    mock billing is disabled, is let through a request of [n >= 1]
    items exactly when its counter plus [n] stays within the free limit
    of 10, and the counter then moves to that sum, staying as it was on
    refusal. *)
Theorem gate_by_plan (mockEnabled : bool) (subs : gmap jsstring Subscription)
  (fault : Z -> option jsstring) (monthKey : jsstring) (now : Z -> Z)
  (shop : jsstring) (productCount : Z) (tbl : UsageTable) :
  let out := reserveIfFreePlan mockEnabled subs fault monthKey now shop
               productCount tbl in
  let pro := isPro (getPlanForShop mockEnabled subs shop) in
  let used0 := usedOf tbl shop monthKey in
  (pro = true -> snd out = tbl /\ exists g, fst out = inr g /\ g_ok g = true)
  /\ (pro = false -> 0 < productCount -> is_Some (commitAttempt fault) ->
      exists g, fst out = inr g
        /\ g_ok g = (used0 + productCount <=? 10)
        /\ usedOf (snd out) shop monthKey
           = if g_ok g then used0 + productCount else used0)
  /\ (mockEnabled = false -> pro = false).
Proof.
  cbv zeta. unfold reserveIfFreePlan. change monthlyProductLimit with 10.
  split; [|split].
  - intros P. rewrite P. cbn [fst snd]. split; [reflexivity|].
    eexists. split; reflexivity.
  - intros P C [k K]. rewrite P. unfold reserveFreeUsageMonthly.
    destruct (Z.eqb_spec (Z.max 0 productCount) 0) as [E|E]; [lia|].
    change (Z.to_nat MAX_RETRIES) with 3%nat.
    change (default 10 (Some 10)) with 10.
    replace (Z.max 0 productCount) with productCount by lia.
    pose proof (reserveLoop_outcome fault shop monthKey productCount
                  10 now tbl) as Loop.
    rewrite K in Loop. rewrite Loop. cbn [fst snd].
    destruct (reserveTx_outcome shop monthKey productCount 10
                (now k) tbl) as [Tx _].
    cbv zeta in Tx.
    eexists. split; [reflexivity|]. cbn [g_ok].
    destruct (Z.ltb_spec 10 (usedOf tbl shop monthKey + productCount)) as [O|O];
      destruct Tx as [R U]; rewrite R, U;
      cbn [ok];
      destruct (Z.leb_spec (usedOf tbl shop monthKey + productCount) 10);
      try lia; split; reflexivity.
  - intros ->. reflexivity.
Qed.

Lemma gate_by_plan_witness :
  exists g,
    fst (reserveIfFreePlan false ∅ noFault Samples.november (fun _ => 0)
           Samples.shopT2 5 Samples.usedEight) = inr g
    /\ g_ok g = false.
Proof.
  destruct (gate_by_plan false ∅ noFault Samples.november (fun _ => 0)
              Samples.shopT2 5 Samples.usedEight) as (_ & H & _).
  destruct H as (g & E & O & _);
    [reflexivity | lia | eexists; reflexivity |].
  exists g. split; [exact E | exact O].
Defined.

End PlanFacts.

(** ** Bounds on what the generators return *)

Module BoundFacts.
Import Js Generator.

Lemma slice0_length (n : Z) (s : jsstring) :
  0 <= n -> Z.of_nat (length (slice0 (Z.to_nat n) s)) <= n.
Proof.
  intros H. unfold slice0. rewrite length_firstn. lia.
Qed.

Lemma maxCharsOf_bounds (lo dflt : Z) (setting : option jsstring) :
  lo <= maxCharsOf lo dflt setting
  /\ (parseInt10 (default [] setting) = None -> maxCharsOf lo dflt setting = Z.max lo dflt).
Proof.
  unfold maxCharsOf. split; [lia|]. intros ->. reflexivity.
Qed.

(** What [generateSeoForProduct] returns is never longer than the limits
    it computes from the settings, which are at least 20 and 60 code
    units and, without settings, 70 and 160; what
    [generateAltTextForImage] returns is never longer than its limit,
    at least 40 and 125 without settings. *)
Theorem generated_lengths_bounded (chat : ChatCall -> ChatResult)
  (title descriptionText currentAltText : jsstring)
  (language : option jsstring) (settings : Settings) :
  (forall out,
     outcome (generateSeoForProduct chat title descriptionText language settings)
     = inr out ->
     Z.of_nat (length (seoTitle out)) <= titleMaxCharsOf settings
     /\ Z.of_nat (length (seoDescription out)) <= descriptionMaxCharsOf settings)
  /\ (forall alt,
        outcome (generateAltTextForImage chat title descriptionText
                   currentAltText language settings) = inr alt ->
        Z.of_nat (length alt) <= altMaxCharsOf settings)
  /\ 20 <= titleMaxCharsOf settings /\ 60 <= descriptionMaxCharsOf settings
  /\ 40 <= altMaxCharsOf settings
  /\ titleMaxCharsOf emptySettings = 70
  /\ descriptionMaxCharsOf emptySettings = 160
  /\ altMaxCharsOf emptySettings = 125.
Proof.
  assert (T : 20 <= titleMaxCharsOf settings) by apply maxCharsOf_bounds.
  assert (D : 60 <= descriptionMaxCharsOf settings) by apply maxCharsOf_bounds.
  assert (A : 40 <= altMaxCharsOf settings) by apply maxCharsOf_bounds.
  split; [|split; [|repeat split; try assumption; reflexivity]].
  - intros out. unfold generateSeoForProduct. cbv zeta.
    destruct (chat_outcome (chat (SeoPrompt _ _ _ _))) as [err|r1];
      [discriminate|].
    destruct (isLanguageMismatch _ _);
      [destruct (chat_outcome (chat (rewriteJsonToLanguage _ _ _ _)))
         as [err|r2]; [discriminate|]|];
      cbn [outcome]; intros E; injection E as <-; cbn [seoTitle seoDescription];
      split; apply slice0_length; lia.
  - intros alt. unfold generateAltTextForImage. cbv zeta.
    destruct (chat_outcome (chat (AltPrompt _ _ _ _ _))) as [err|r1];
      [discriminate|].
    destruct (isLanguageMismatch _ _);
      [destruct (chat_outcome (chat (rewriteJsonToLanguage _ _ _ _)))
         as [err|r2]; [discriminate|]|];
      cbn [outcome]; intros E; injection E as <-;
      apply slice0_length; lia.
Qed.

End BoundFacts.

(** ** Owner ids of an article *)

Module ArticleIdFacts.
Import Js Generator StoreApi ArticleWrite.

(** Deduplication of the three candidates the source collects. *)
Lemma dedupe_three (s n : jsstring) (c3 : list jsstring) :
  c3 = [] \/ c3 = [n] \/ (n = s /\ exists m, c3 = [m]) ->
  dedupe [] ([s; n] ++ c3) = [s]
  \/ exists other, dedupe [] ([s; n] ++ c3) = [s; other]
                   /\ other ∈ n :: c3 /\ other <> s.
Proof.
  intros H. cbn [app dedupe].
  rewrite bool_decide_eq_false_2 by apply not_elem_of_nil.
  destruct (decide (n = s)) as [->|N].
  - rewrite bool_decide_eq_true_2 by (apply elem_of_cons; left; reflexivity).
    destruct H as [->|[->|[_ [m ->]]]]; cbn [dedupe].
    + left. reflexivity.
    + rewrite bool_decide_eq_true_2 by (apply elem_of_cons; left; reflexivity).
      left. reflexivity.
    + destruct (decide (m = s)) as [->|Nm].
      * rewrite bool_decide_eq_true_2 by (apply elem_of_cons; left; reflexivity).
        left. reflexivity.
      * rewrite bool_decide_eq_false_2 by (rewrite list_elem_of_singleton; exact Nm).
        right. exists m. split; [reflexivity|]. split; [|exact Nm].
        apply elem_of_cons. right. apply elem_of_cons. left. reflexivity.
  - rewrite bool_decide_eq_false_2 by (rewrite list_elem_of_singleton; exact N).
    right. exists n.
    destruct H as [->|[->|[E _]]]; [| |contradiction]; cbn [dedupe].
    + split; [reflexivity|]. split; [apply elem_of_cons; left; reflexivity | exact N].
    + rewrite bool_decide_eq_true_2 by (apply elem_of_cons; left; reflexivity).
      split; [reflexivity|]. split; [apply elem_of_cons; left; reflexivity | exact N].
Qed.

Lemma startsWith_app (p s : jsstring) : startsWith p (p ++ s) = true.
Proof.
  induction p as [|c p IH]; [reflexivity|]. simpl. rewrite N.eqb_refl. exact IH.
Qed.

Lemma startsWith_split (p s : jsstring) :
  startsWith p s = true -> s = p ++ skipn (length p) s.
Proof.
  revert s. induction p as [|c p IH]; intros s; [reflexivity|].
  destruct s as [|d s]; simpl; [discriminate|].
  intros H. apply andb_prop in H as [E H]. apply N.eqb_eq in E. subst d.
  rewrite <- (IH s H). reflexivity.
Qed.

Lemma normalize_trimmed (s : jsstring) :
  s <> [] -> trim s = s ->
  normalizeArticleOwnerId s
  = if startsWith articlePrefix s then s
    else if startsWith onlineStoreArticlePrefix s
         then replaceFirst onlineStoreArticlePrefix articlePrefix s
         else if forallb isDigit s then articlePrefix ++ s else s.
Proof.
  intros N T. unfold normalizeArticleOwnerId.
  destruct s as [|c r]; [congruence|]. rewrite T. reflexivity.
Qed.

Lemma owner_candidates_shape (articleId : option jsstring) :
  let s := trim (default [] articleId) in
  let c := ownerIdCandidatesForArticle articleId in
  NoDup c /\ ([] ∉ c) /\ (length c <= 2)%nat
  /\ (s = [] -> c = [])
  /\ (s <> [] ->
      c = [s] \/ exists other, c = [s; other]
                 /\ startsWith articlePrefix other = true).
Proof.
  cbv zeta. unfold ownerIdCandidatesForArticle.
  set (s := trim (default [] articleId)).
  set (norm := normalizeArticleOwnerId s).
  set (replaced := replaceFirst onlineStoreArticlePrefix articlePrefix s).
  set (c3 := if startsWith onlineStoreArticlePrefix s then [replaced] else []).
  assert (Trim : trim s = s) by apply QueueFacts.trim_idem.
  destruct (nonEmpty s) eqn:NE.
  2:{ assert (Es : s = []) by (destruct s; [reflexivity | discriminate NE]).
      assert (En : norm = []) by (unfold norm; rewrite Es; reflexivity).
      assert (E3 : c3 = []) by (unfold c3; rewrite Es; reflexivity).
      rewrite En, E3. cbn [nonEmpty app dedupe].
      split; [constructor|]. split; [apply not_elem_of_nil|].
      split; [simpl; lia|]. split; [reflexivity | congruence]. }
  assert (Ns : s <> []) by (intros E; rewrite E in NE; discriminate NE).
  assert (Replaced : startsWith onlineStoreArticlePrefix s = true ->
            startsWith articlePrefix replaced = true).
  { intros H. unfold replaced. destruct s as [|c r]; [discriminate H|].
    unfold replaceFirst. rewrite H. apply startsWith_app. }
  assert (Norm : norm = if startsWith articlePrefix s then s
                        else if startsWith onlineStoreArticlePrefix s then replaced
                             else if forallb isDigit s then articlePrefix ++ s
                                  else s).
  { apply normalize_trimmed; assumption. }
  assert (Art : forall o, o ∈ norm :: c3 -> o <> s ->
                  startsWith articlePrefix o = true).
  { intros o Ho No. apply elem_of_cons in Ho as [->|Ho].
    - rewrite Norm in No |- *.
      destruct (startsWith articlePrefix s); [congruence|].
      destruct (startsWith onlineStoreArticlePrefix s) eqn:PO;
        [apply Replaced; reflexivity|].
      destruct (forallb isDigit s); [apply startsWith_app | congruence].
    - unfold c3 in Ho. destruct (startsWith onlineStoreArticlePrefix s) eqn:PO;
        [|apply elem_of_nil in Ho; contradiction].
      apply list_elem_of_singleton in Ho. subst o. apply Replaced. reflexivity. }
  assert (Shape : c3 = [] \/ c3 = [norm] \/ (norm = s /\ exists m, c3 = [m])).
  { unfold c3. rewrite Norm.
    destruct (startsWith onlineStoreArticlePrefix s); [|left; reflexivity].
    destruct (startsWith articlePrefix s).
    - right. right. split; [reflexivity | eexists; reflexivity].
    - right. left. reflexivity. }
  assert (NN : nonEmpty norm = true).
  { destruct (decide (norm = s)) as [->|D]; [exact NE|].
    assert (P : startsWith articlePrefix norm = true)
      by (apply Art; [apply elem_of_cons; left; reflexivity | exact D]).
    destruct norm; [discriminate P | reflexivity]. }
  rewrite NN. change ([s] ++ [norm] ++ c3) with ([s; norm] ++ c3).
  destruct (dedupe_three s norm c3 Shape) as [E | (other & E & In & No)];
    rewrite E.
  - split; [apply NoDup_singleton|].
    split; [rewrite list_elem_of_singleton; congruence|].
    split; [simpl; lia|]. split; [congruence|]. intros _. left. reflexivity.
  - pose proof (Art other In No) as P.
    split.
    { apply NoDup_cons. split; [rewrite list_elem_of_singleton; congruence|].
      apply NoDup_singleton. }
    split.
    { rewrite !elem_of_cons, elem_of_nil. intros [H|[H|[]]]; [congruence|].
      rewrite <- H in P. discriminate P. }
    split; [simpl; lia|]. split; [congruence|]. intros _. right.
    exists other. split; [reflexivity | exact P].
Qed.

(** The owner ids tried for an article: none for a blank id; otherwise
    the trimmed id first, then at most one other, which is an
    [Article] gid (of a numeric id, or in place of an
    [OnlineStoreArticle] gid); never an empty id and never twice the
    same. *)
Theorem article_owner_candidates (articleId : option jsstring) :
  let s := trim (default [] articleId) in
  let c := ownerIdCandidatesForArticle articleId in
  NoDup c /\ ([] ∉ c) /\ (length c <= 2)%nat
  /\ (s = [] -> c = [])
  /\ (s <> [] ->
      c = [s] \/ (exists other, c = [s; other]
                  /\ startsWith articlePrefix other = true)).
Proof. exact (owner_candidates_shape articleId). Qed.

(** Whether something is staged does not depend on the owner id. *)
Lemma stageArticle_empty (o1 o2 : jsstring)
  (seoTitle seoDescription : option jsstring) (o : WriteOptions)
  (liveTitle liveDesc : jsstring) :
  stageArticle o1 seoTitle seoDescription o liveTitle liveDesc = [] ->
  stageArticle o2 seoTitle seoDescription o liveTitle liveDesc = [].
Proof.
  unfold stageArticle. cbv zeta.
  repeat match goal with
         | |- context [if ?b then _ else _] => destruct b
         end; cbn [app]; intros H; try discriminate H; reflexivity.
Qed.

Section ArticleWriter.
Variable admin : Admin.
Variables seoTitle seoDescription : option jsstring.
Variable o : WriteOptions.
Variables liveTitle liveDesc : jsstring.

Let stage (owner : jsstring) : list Metafield :=
  stageArticle owner seoTitle seoDescription o liveTitle liveDesc.

Lemma candidates_protocol (tried left : list jsstring) :
  let w := writeArticleCandidates admin tried left seoTitle seoDescription o
             liveTitle liveDesc in
  exists n,
    (n <= length left)%nat
    /\ sent w = map (fun owner => MetafieldsSet (stage owner)) (take n left)
    /\ (forall i owner, (S i < n)%nat -> left !! i = Some owner ->
        rejectedAsInvalid admin (stage owner))
    /\ (result w = inr tt ->
        (n = 0%nat /\ forall owner, stage owner = [])
        \/ ((0 < n)%nat
            /\ exists owner, left !! (n - 1)%nat = Some owner
                             /\ metafieldsSet admin (stage owner) = inr [])).
Proof.
  cbv zeta. induction left as [|owner rest IH].
  - exists 0%nat. cbn. repeat split; [lia | intros; lia | discriminate].
  - cbn [writeArticleCandidates]. fold (stage owner).
    destruct (stage owner) as [|m0 more] eqn:St.
    { exists 0%nat. cbn. repeat split; [lia | intros; lia |].
      intros _. left. split; [reflexivity|]. intros other.
      apply (stageArticle_empty owner other), St. }
    destruct IH as (n & Ln & Sn & Rn & Okn).
    assert (Retry : rejectedAsInvalid admin (m0 :: more) ->
      exists n0,
        (n0 <= length (owner :: rest))%nat
        /\ MetafieldsSet (m0 :: more)
             :: sent (writeArticleCandidates admin tried rest seoTitle
                        seoDescription o liveTitle liveDesc)
           = map (fun owner => MetafieldsSet (stage owner)) (take n0 (owner :: rest))
        /\ (forall i owner0, (S i < n0)%nat -> (owner :: rest) !! i = Some owner0 ->
            rejectedAsInvalid admin (stage owner0))
        /\ (result (writeArticleCandidates admin tried rest seoTitle
                      seoDescription o liveTitle liveDesc) = inr tt ->
            (n0 = 0%nat /\ forall owner, stage owner = [])
            \/ ((0 < n0)%nat
                /\ exists owner0, (owner :: rest) !! (n0 - 1)%nat = Some owner0
                                  /\ metafieldsSet admin (stage owner0) = inr []))).
    { intros Rej. exists (S n). split; [simpl; lia|]. split.
      - cbn [take map]. rewrite Sn, St. reflexivity.
      - split.
        + intros i owner0 Li E. destruct i as [|i]; cbn in E.
          * injection E as <-. rewrite St. exact Rej.
          * apply (Rn i); [lia | exact E].
        + intros Ok. destruct (Okn Ok) as [[_ All] | (Pos & owner0 & E & A)].
          * rewrite All in St. discriminate St.
          * right. split; [lia|]. exists owner0. split; [|exact A].
            destruct n as [|n]; [lia|].
            replace (S (S n) - 1)%nat with (S n) by lia.
            replace (S n - 1)%nat with n in E by lia. exact E. }
    assert (Once : forall r : jsstring + unit,
      exists n0,
        (n0 <= length (owner :: rest))%nat
        /\ [MetafieldsSet (m0 :: more)]
           = map (fun owner => MetafieldsSet (stage owner)) (take n0 (owner :: rest))
        /\ (forall i owner0, (S i < n0)%nat -> (owner :: rest) !! i = Some owner0 ->
            rejectedAsInvalid admin (stage owner0))
        /\ (r = inr tt -> metafieldsSet admin (m0 :: more) = inr [] ->
            (n0 = 0%nat /\ forall owner, stage owner = [])
            \/ ((0 < n0)%nat
                /\ exists owner0, (owner :: rest) !! (n0 - 1)%nat = Some owner0
                                  /\ metafieldsSet admin (stage owner0) = inr []))).
    { intros r. exists 1%nat. split; [simpl; lia|]. split.
      - cbn [take map]. rewrite St. reflexivity.
      - split; [intros; lia|]. intros _ A. right. split; [lia|]. exists owner.
        split; [reflexivity | rewrite St; exact A]. }
    unfold rejectedAsInvalid in Retry.
    destruct (metafieldsSet admin (m0 :: more)) as [err|[|e errs]] eqn:M.
    + destruct (matchesInvalidId (errorText err)) eqn:I.
      * cbn [sent result]. apply Retry. reflexivity.
      * destruct (Once (@inl jsstring unit err)) as (n0 & A & B & C & _).
        exists n0. cbn [sent result]. repeat split; try assumption. discriminate.
    + destruct (Once (@inr jsstring unit tt)) as (n0 & A & B & C & D).
      exists n0. cbn [sent result]. repeat split; try assumption.
      intros _. apply D; reflexivity.
    + destruct (matchesInvalidId (joinWith (js " | ") (e :: errs))) eqn:I.
      * cbn [sent result]. apply Retry. reflexivity.
      * destruct (Once (@inl jsstring unit (joinWith (js " | ") (e :: errs))))
          as (n0 & A & B & C & _).
        exists n0. cbn [sent result]. repeat split; try assumption. discriminate.
Qed.

End ArticleWriter.


End ArticleIdFacts.

(** ** External ids of the broker *)

Module QueueIdFacts.
Import Js Queue.

Lemma safeBullId_plain (j : jsstring) :
  58%N ∉ j -> trim j = j -> safeBullId (Some j) = j.
Proof.
  intros C T. unfold safeBullId. change (default [] (Some j)) with j. rewrite T.
  clear T. induction j as [|c r IH]; [reflexivity|]. cbn [map].
  rewrite not_elem_of_cons in C. destruct C as [Nc Nr].
  destruct (N.eqb_spec c 58) as [->|_]; [congruence|]. rewrite (IH Nr). reflexivity.
Qed.

(** Job ids that hold no colon and no white space at their ends, as the
    ids [newJobId] makes, never share an external id: the ids enqueued
    for two such jobs, each for the generate or the publish kind, are
    equal only for the same job and the same kind. Without that
    proviso they can: ["a:b"] and ["a-b"] get one external id. *)
Theorem external_ids_distinct (redisUrl : option jsstring)
  (j1 j2 k1 k2 : jsstring) (c1 c2 : AddCall) :
  58%N ∉ j1 -> trim j1 = j1 -> 58%N ∉ j2 -> trim j2 = j2 ->
  k1 = js "generate" \/ k1 = js "publish" ->
  k2 = js "generate" \/ k2 = js "publish" ->
  enqueueSeoJob redisUrl (Some j1) (Some k1) = inr c1 ->
  enqueueSeoJob redisUrl (Some j2) (Some k2) = inr c2 ->
  opt_jobId c1 = opt_jobId c2 ->
  (j1 = j2 /\ k1 = k2)
  /\ customIdOf (js "a:b") (js "generate") = customIdOf (js "a-b") (js "generate").
Proof.
  intros C1 T1 C2 T2 K1 K2 E1 E2 Same. split; [|reflexivity].
  unfold enqueueSeoJob in E1, E2.
  destruct (default [] redisUrl); [discriminate E1|].
  change (default [] (Some j1)) with j1 in E1.
  change (default [] (Some j2)) with j2 in E2.
  change (default (js "generate") (Some k1)) with k1 in E1.
  change (default (js "generate") (Some k2)) with k2 in E2.
  rewrite T1 in E1. rewrite T2 in E2.
  destruct j1 as [|a1 r1]; [discriminate E1|].
  destruct j2 as [|a2 r2]; [discriminate E2|].
  injection E1 as <-. injection E2 as <-. cbn [opt_jobId] in Same.
  unfold customIdOf in Same.
  rewrite (safeBullId_plain _ C1 T1), (safeBullId_plain _ C2 T2) in Same.
  destruct K1 as [-> | ->], K2 as [-> | ->];
    change (safeBullId (Some (js "generate"))) with (js "generate") in Same;
    change (safeBullId (Some (js "publish"))) with (js "publish") in Same;
    try discriminate Same.
  - apply app_inv_head in Same. apply app_inv_head in Same. split; congruence.
  - apply app_inv_head in Same. apply app_inv_head in Same. split; congruence.
Qed.

(** The theorem at a job id as [newJobId] makes them, enqueued twice
    for the publish kind. *)
Lemma external_ids_distinct_witness :
  (js "1700_ab12" = js "1700_ab12" /\ js "publish" = js "publish")
  /\ customIdOf (js "a:b") (js "generate") = customIdOf (js "a-b") (js "generate").
Proof.
  assert (C : 58%N ∉ js "1700_ab12").
  { vm_compute. intros H.
    repeat (apply elem_of_cons in H as [H|H]; [discriminate H|]).
    apply elem_of_nil in H. exact H. }
  exact (external_ids_distinct (Some (js "redis://broker"))
           (js "1700_ab12") (js "1700_ab12") (js "publish") (js "publish")
           (mkAdd JOB_NAME (js "1700_ab12") (js "publish")
              (js "publish-1700_ab12") 3 (js "exponential") 2000 true true)
           (mkAdd JOB_NAME (js "1700_ab12") (js "publish")
              (js "publish-1700_ab12") 3 (js "exponential") 2000 true true)
           C eq_refl C eq_refl (or_intror eq_refl) (or_intror eq_refl)
           eq_refl eq_refl eq_refl).
Defined.

End QueueIdFacts.

(** ** What stuck-job recovery leaves alone *)

Module RecoveryFacts.
Import Js Generator Worker WorkerFacts.

Lemma failStuckJob_columns (now : Z) (msg : jsstring) (job j : SeoJob.t) :
  SeoJob.id (failStuckJob now msg job j) = SeoJob.id j
  /\ SeoJob.status (failStuckJob now msg job j) = Some (js "failed").
Proof. destruct j. unfold failStuckJob. fields. split; reflexivity. Qed.

Lemma recoveredItem_foreign (now : Z) (msg : jsstring) (x : SeoJob.t)
  (it : SeoJobItem.t) :
  SeoJob.id x <> SeoJobItem.jobId it -> recoveredItem now msg x it = it.
Proof.
  intros N. unfold recoveredItem, stuckItem, eqb.
  rewrite bool_decide_eq_false_2 by congruence. reflexivity.
Qed.

(** The loop over the jobs of a scan: rows of other jobs, items of other
    jobs, the locks and the clock stay, and no row comes or goes. *)
Lemma recoverAll_frame (cfg : Config) (now : Z) (stuck : list SeoJob.t)
  (w : Store) :
  let w' := recoverAll cfg now stuck w in
  (forall k, (forall x, x ∈ stuck -> SeoJob.id x <> k) ->
     jobs w' !! k = jobs w !! k)
  /\ (forall k y, jobs w !! k = Some y ->
        exists x, jobs w' !! k = Some x /\ SeoJob.id x = SeoJob.id y)
  /\ (forall k, jobs w !! k = None -> jobs w' !! k = None)
  /\ (forall k it, items w !! k = Some it ->
        (forall x, x ∈ stuck -> SeoJob.id x <> SeoJobItem.jobId it) ->
        items w' !! k = Some it)
  /\ (forall k, is_Some (items w !! k) -> is_Some (items w' !! k))
  /\ (forall k, items w !! k = None -> items w' !! k = None)
  /\ shopLocks w' = shopLocks w /\ clock w' = clock w.
Proof.
  cbv zeta. revert w. induction stuck as [|job rest IH]; intros w.
  - cbn. repeat split; try tauto. intros k y E. exists y. split; [exact E | reflexivity].
  - cbn [recoverAll fold_left].
    change (fold_left (fun s j => recoverOne cfg now j s) rest
              (recoverOne cfg now job w))
      with (recoverAll cfg now rest (recoverOne cfg now job w)).
    destruct (IH (recoverOne cfg now job w))
      as (J1 & J2 & J3 & I1 & I2 & I3 & L & C).
    assert (Tail : forall (P : SeoJob.t -> Prop),
              (forall x, x ∈ job :: rest -> P x) -> forall x, x ∈ rest -> P x).
    { intros P H x Hx. apply H. apply elem_of_cons. right. exact Hx. }
    assert (Head : forall (P : SeoJob.t -> Prop),
              (forall x, x ∈ job :: rest -> P x) -> P job).
    { intros P H. apply H. apply elem_of_cons. left. reflexivity. }
    split; [|split; [|split; [|split; [|split; [|split; [|split]]]]]].
    + intros k H. rewrite (J1 k (Tail _ H)), recoverOne_jobs.
      destruct (decide (SeoJob.id job = k)) as [E|_]; [|reflexivity].
      exfalso. exact (Head _ H E).
    + intros k y E.
      assert (E1 : exists y1, jobs (recoverOne cfg now job w) !! k = Some y1
                              /\ SeoJob.id y1 = SeoJob.id y).
      { rewrite recoverOne_jobs, E.
        destruct (decide (SeoJob.id job = k)); eexists; (split; [reflexivity|]);
          [apply failStuckJob_columns | reflexivity]. }
      destruct E1 as (y1 & E1 & I1y). destruct (J2 k y1 E1) as (x & Ex & Ix).
      exists x. split; [exact Ex | congruence].
    + intros k E. apply J3. rewrite recoverOne_jobs, E.
      destruct (decide (SeoJob.id job = k)); reflexivity.
    + intros k it E H. apply I1; [|exact (Tail _ H)].
      rewrite recoverOne_items, E. cbn [fmap option_fmap option_map].
      rewrite (recoveredItem_foreign _ _ _ _ (Head _ H)). reflexivity.
    + intros k [it E]. apply I2. rewrite recoverOne_items, E. eexists. reflexivity.
    + intros k E. apply I3. rewrite recoverOne_items, E. reflexivity.
    + rewrite L. reflexivity.
    + rewrite C. reflexivity.
Qed.

Lemma findStuck_facts (cfg : Config) (now : Z) (w : Store) (x : SeoJob.t) :
  x ∈ findStuck cfg now w ->
  SeoJob.status x = Some (js "running")
  /\ (exists e, SeoJob.lockExpiresAt x = Some e /\ e < now)
  /\ exists k, jobs w !! k = Some x.
Proof.
  intros H. unfold findStuck in H. apply elem_of_scan in H as [P K].
  unfold isStuck in P. apply andb_prop in P as [P _]. apply andb_prop in P as [S E].
  split; [exact (bool_decide_eq_true_1 _ S)|]. split; [|exact K].
  unfold before in E. destruct (SeoJob.lockExpiresAt x) as [e|]; [|discriminate E].
  exists e. split; [reflexivity | apply Z.ltb_lt, E].
Qed.

(** Recovery touches nothing but the jobs its scan selected and their
    items: every other job row and every item of another job is as
    before, no row is added or removed, the shop locks and the clock
    stay; and a scan selects at most 25 jobs, all of them running with
    an expired lease. *)
Theorem recovery_frame (cfg : Config) (w : Store) :
  let stuck := findStuck cfg (clock w) w in
  let w' := recoverStuckJobs cfg w in
  (forall k, (forall x, x ∈ stuck -> SeoJob.id x <> k) ->
     jobs w' !! k = jobs w !! k)
  /\ (forall k, jobs w !! k = None <-> jobs w' !! k = None)
  /\ (forall k it, items w !! k = Some it ->
        (forall x, x ∈ stuck -> SeoJob.id x <> SeoJobItem.jobId it) ->
        items w' !! k = Some it)
  /\ (forall k, items w !! k = None <-> items w' !! k = None)
  /\ shopLocks w' = shopLocks w /\ clock w' = clock w
  /\ (length stuck <= 25)%nat
  /\ (forall x, x ∈ stuck ->
        SeoJob.status x = Some (js "running")
        /\ exists e, SeoJob.lockExpiresAt x = Some e /\ e < clock w).
Proof.
  cbv zeta. unfold recoverStuckJobs.
  destruct (recoverAll_frame cfg (clock w) (findStuck cfg (clock w) w) w)
    as (J1 & J2 & J3 & I1 & I2 & I3 & L & C).
  split; [exact J1|]. split.
  { intros k. split; [apply J3|]. intros E.
    destruct (jobs w !! k) as [y|] eqn:Ey; [|reflexivity].
    destruct (J2 k y Ey) as (x & Ex & _). congruence. }
  split; [exact I1|]. split.
  { intros k. split; [apply I3|]. intros E.
    destruct (items w !! k) as [y|] eqn:Ey; [|reflexivity].
    destruct (I2 k) as (x & Ex); [rewrite Ey; eexists; reflexivity | congruence]. }
  split; [exact L|]. split; [exact C|]. split.
  { unfold findStuck. rewrite length_take. lia. }
  intros x Hx. destruct (findStuck_facts cfg (clock w) w x Hx) as (S & E & _).
  split; assumption.
Qed.

(** A recovered job is not selected again: whatever the configuration
    and however much later, no scan of the store that recovery left
    selects a job with the id of a job it recovered. *)
Theorem recovery_not_repeated (cfg : Config) (w : Store) (job : SeoJob.t) :
  wfStore w -> job ∈ findStuck cfg (clock w) w ->
  forall (cfg' : Config) (d : Z) (x : SeoJob.t),
    x ∈ findStuck cfg' (clock w + d) (sleep d (recoverStuckJobs cfg w)) ->
    SeoJob.id x <> SeoJob.id job.
Proof.
  intros WF Hj cfg' d x Hx I.
  destruct (findStuck_facts _ _ _ x Hx) as (Run & _ & k & Ek).
  change (jobs (sleep d (recoverStuckJobs cfg w)) !! k = Some x)
    with (jobs (recoverStuckJobs cfg w) !! k = Some x) in Ek.
  unfold recoverStuckJobs in Ek.
  pose proof (findStuck_elem cfg (clock w) w job WF Hj) as Ej.
  assert (Dom : exists y, jobs w !! k = Some y).
  { destruct (jobs w !! k) as [y|] eqn:Ey; [eexists; reflexivity|].
    destruct (recoverAll_frame cfg (clock w) (findStuck cfg (clock w) w) w)
      as (_ & _ & J3 & _).
    rewrite (J3 k Ey) in Ek. discriminate Ek. }
  destruct Dom as (y & Ey).
  destruct (recoverAll_frame cfg (clock w) (findStuck cfg (clock w) w) w)
    as (_ & J2 & _).
  destruct (J2 k y Ey) as (x' & Ex' & Ix'). rewrite Ek in Ex'. injection Ex' as <-.
  pose proof (lookup_job_id w k y WF Ey) as Ik.
  assert (K : k = SeoJob.id job) by congruence. rewrite K in Ek.
  rewrite (recoverAll_job cfg (clock w) job (findStuck cfg (clock w) w) w) in Ek.
  - rewrite Ej in Ek. cbn [fmap option_fmap option_map] in Ek. injection Ek as <-.
    destruct (failStuckJob_columns (clock w) (stuckMessage cfg) job job) as [_ F].
    rewrite F in Run. discriminate Run.
  - intros z Hz Iz. exact (findStuck_same_id cfg (clock w) w job z WF Hj Hz Iz).
  - exact Hj.
Qed.

(** The theorem on the sample store: had the job been selected again a
    minute later, its id would differ from its own. *)
Lemma recovery_not_repeated_witness :
  Samples.stuckJob
    ∉ findStuck defaultConfig (clock Samples.stuckStore + 60000)
        (sleep 60000 (recoverStuckJobs defaultConfig Samples.stuckStore)).
Proof.
  intros Hx.
  assert (Found : Samples.stuckJob
                    ∈ findStuck defaultConfig (clock Samples.stuckStore)
                        Samples.stuckStore).
  { rewrite stuckJob_found. apply elem_of_cons. left. reflexivity. }
  exact (recovery_not_repeated defaultConfig Samples.stuckStore
           Samples.stuckJob stuckStore_wf Found defaultConfig 60000
           Samples.stuckJob Hx eq_refl).
Defined.

End RecoveryFacts.

(** ** Retrying and cancelling: the counters are made to match the items *)

Module JobFacts.
Import Js Classifier Generator Worker Queue Jobs WorkerFacts.

Lemma filter_fmap_length {A} (p : A -> bool) (f : A -> A) (l : list A) :
  length (List.filter p (f <$> l)) = length (List.filter (fun x => p (f x)) l).
Proof.
  induction l as [|x r IH]; [reflexivity|]. cbn [fmap list_fmap List.filter].
  destruct (p (f x)); cbn [length]; rewrite IH; reflexivity.
Qed.

Lemma filter_ext_length {A} (p q : A -> bool) (l : list A) :
  (forall x, x ∈ l -> p x = q x) ->
  length (List.filter p l) = length (List.filter q l).
Proof.
  induction l as [|x r IH]; intros H; [reflexivity|]. cbn [List.filter].
  rewrite (H x) by (apply elem_of_cons; left; reflexivity).
  assert (IH' : length (List.filter p r) = length (List.filter q r)).
  { apply IH. intros y Hy. apply H. apply elem_of_cons. right. exact Hy. }
  destruct (q x); cbn [length]; rewrite IH'; reflexivity.
Qed.

Lemma elem_of_rows_of {A} (m : gmap jsstring A) (x : A) :
  x ∈ (snd <$> map_to_list m) <-> exists k, m !! k = Some x.
Proof.
  rewrite list_elem_of_fmap. split.
  - intros ([k v] & -> & H). exists k. apply elem_of_map_to_list. exact H.
  - intros [k H]. exists (k, x). split; [reflexivity|].
    apply elem_of_map_to_list. exact H.
Qed.

(** Counting after an [updateMany] is counting what the update makes of
    each row. *)
Lemma itemCount_updateMany (p c : SeoJobItem.t -> bool)
  (f : SeoJobItem.t -> SeoJobItem.t) (w : Store) :
  itemCount p (itemUpdateMany c f w)
  = itemCount (fun it => p (if c it then f it else it)) w.
Proof.
  unfold itemCount, itemUpdateMany. cbn [items]. f_equal.
  rewrite map_to_list_fmap, <- list_fmap_compose.
  rewrite <- (filter_fmap_length p (fun it => if c it then f it else it)).
  rewrite <- list_fmap_compose. reflexivity.
Qed.

Lemma itemCount_ext (p q : SeoJobItem.t -> bool) (w : Store) :
  (forall k it, items w !! k = Some it -> p it = q it) ->
  itemCount p w = itemCount q w.
Proof.
  intros H. unfold itemCount. f_equal. apply filter_ext_length.
  intros x Hx. apply elem_of_rows_of in Hx as [k E]. exact (H k x E).
Qed.

Lemma itemCount_none (p : SeoJobItem.t -> bool) (w : Store) :
  (forall k it, items w !! k = Some it -> p it = false) -> itemCount p w = 0.
Proof.
  intros H. rewrite (itemCount_ext p (fun _ => false) w H). unfold itemCount.
  induction (snd <$> map_to_list (items w)) as [|x r IH]; [reflexivity | exact IH].
Qed.

Lemma itemCount_sum (p q : SeoJobItem.t -> bool) (w : Store) :
  (forall it, p it = true -> q it = false) ->
  itemCount (fun it => p it || q it) w = itemCount p w + itemCount q w.
Proof.
  intros D. unfold itemCount.
  induction (snd <$> map_to_list (items w)) as [|x r IH]; [reflexivity|].
  cbn [List.filter]. destruct (p x) eqn:P.
  - rewrite (D x P). cbn [orb length]. lia.
  - cbn [orb]. destruct (q x); cbn [length]; lia.
Qed.

Lemma itemCount_le (p q : SeoJobItem.t -> bool) (w : Store) :
  (forall it, p it = true -> q it = true) -> 0 <= itemCount p w <= itemCount q w.
Proof.
  intros I. unfold itemCount.
  induction (snd <$> map_to_list (items w)) as [|x r IH]; [simpl; lia|].
  cbn [List.filter]. destruct (p x) eqn:P.
  - rewrite (I x P). cbn [length]. lia.
  - destruct (q x); cbn [length]; lia.
Qed.

Lemma statusIs_distinct (v : option jsstring) (a b : string) :
  js a <> js b -> statusIs v a = true -> statusIs v b = false.
Proof.
  unfold statusIs. intros N H. apply bool_decide_eq_true_1 in H.
  apply bool_decide_eq_false_2. congruence.
Qed.

Lemma findJob_row (id shop : jsstring) (w : Store) (job : SeoJob.t) :
  wfStore w -> findJob id shop w = Some job ->
  jobs w !! id = Some job /\ SeoJob.id job = id /\ SeoJob.shop job = Some shop.
Proof.
  intros WF. unfold findJob. destruct (jobs w !! id) as [j|] eqn:E; [|discriminate].
  destruct (bool_decide (SeoJob.shop j = Some shop)) eqn:B; [|discriminate].
  intros H. injection H as <-. split; [reflexivity|].
  split; [exact (lookup_job_id w id j WF E) | exact (bool_decide_eq_true_1 _ B)].
Qed.

(** What a retry of the generate phase does to the store. *)
Lemma retryFailed_generate_effect (redisUrl : option jsstring)
  (shop : jsstring) (jobId kind : option jsstring) (w : Store) (job : SeoJob.t) :
  wfStore w ->
  findJob (default [] jobId) shop w = Some job ->
  orElse kind
    (if eqb (toLowerCase (orElse (SeoJob.phase job) [])) (js "publishing")
        || eqb (toLowerCase (orElse (SeoJob.phase job) [])) (js "published")
     then js "publish" else js "generate") <> js "publish" ->
  let id := SeoJob.id job in
  let d := retryFailedForJob redisUrl shop jobId kind w in
  let w' := store d in
  (itemCount (hasStatus id "failed") w = 0 -> w' = w /\ enqueued d = [])
  /\ (itemCount (hasStatus id "failed") w <> 0 ->
      itemCount (hasStatus id "failed") w' = 0
      /\ itemCount (hasStatus id "success") w'
         = itemCount (hasStatus id "success") w
      /\ (forall k,
            items w' !! k
            = (fun it => if hasStatus id "failed" it then requeueItem it else it)
                <$> items w !! k)
      /\ jobs w' !! id
         = Some (retryGenerateJob (itemCount (hasStatus id "success") w) job)
      /\ (forall k, k <> id -> jobs w' !! k = jobs w !! k)
      /\ match enqueueSeoJob redisUrl (Some id) (Some (js "generate")) with
         | inl err => returned d = inl err /\ enqueued d = []
         | inr call => enqueued d = [call] /\ exists r, returned d = inr r
         end).
Proof.
  intros WF F K. cbv zeta.
  destruct (findJob_row _ _ _ _ WF F) as (Row & Id & _).
  unfold retryFailedForJob. rewrite F. cbv zeta.
  apply (bool_decide_eq_false_2 _) in K. fold (eqb (orElse kind
    (if eqb (toLowerCase (orElse (SeoJob.phase job) [])) (js "publishing")
        || eqb (toLowerCase (orElse (SeoJob.phase job) [])) (js "published")
     then js "publish" else js "generate")) (js "publish")) in K.
  rewrite K.
  set (id := SeoJob.id job).
  destruct (Z.eqb_spec (itemCount (hasStatus id "failed") w) 0) as [Z0|NZ].
  { split; [intros _; split; reflexivity | intros N; contradiction]. }
  split; [intros E; contradiction|]. intros _.
  set (w1 := itemUpdateMany (hasStatus id "failed") requeueItem w).
  assert (Succ : itemCount (hasStatus id "success") w1
                 = itemCount (hasStatus id "success") w).
  { unfold w1. rewrite itemCount_updateMany. apply itemCount_ext.
    intros k it _. destruct (hasStatus id "failed" it) eqn:Fl; [|reflexivity].
    unfold hasStatus in Fl |- *. apply andb_prop in Fl as [J S].
    cbn [requeueItem SeoJobItem.jobId SeoJobItem.status]. rewrite J.
    rewrite (statusIs_distinct _ "failed" "success" ltac:(discriminate) S).
    reflexivity. }
  assert (Stores : store (enqueueThen redisUrl id "generate"
                     (js "Retry started for "
                      ++ intToString (itemCount (hasStatus id "failed") w)
                      ++ js " failed generation item(s).")
                     (jobUpdate id
                        (retryGenerateJob (itemCount (hasStatus id "success") w1))
                        w1))
                   = jobUpdate id
                       (retryGenerateJob (itemCount (hasStatus id "success") w1))
                       w1).
  { unfold enqueueThen. destruct (enqueueSeoJob _ _ _); reflexivity. }
  rewrite Stores. rewrite Succ.
  split; [|split; [|split; [|split; [|split]]]].
  - change (itemCount (hasStatus id "failed")
              (jobUpdate id (retryGenerateJob (itemCount (hasStatus id "success") w)) w1))
      with (itemCount (hasStatus id "failed") w1).
    unfold w1. rewrite itemCount_updateMany. apply itemCount_none.
    intros k it _. destruct (hasStatus id "failed" it) eqn:Fl; [|exact Fl].
    unfold hasStatus. cbn [requeueItem SeoJobItem.jobId SeoJobItem.status].
    apply andb_false_r.
  - exact Succ.
  - intros k. unfold jobUpdate, w1, itemUpdateMany. cbn [items].
    rewrite lookup_fmap. reflexivity.
  - unfold jobUpdate. cbn [jobs]. rewrite lookup_alter_eq.
    change (jobs w1) with (jobs w). unfold id. rewrite Id, Row. reflexivity.
  - intros k N. unfold jobUpdate. cbn [jobs]. rewrite lookup_alter_ne by congruence.
    reflexivity.
  - unfold enqueueThen. destruct (enqueueSeoJob _ _ _); cbn [returned enqueued].
    + split; reflexivity.
    + split; [reflexivity | eexists; reflexivity].
Qed.

(** A retry of the generate phase: the failed items of the job are
    queued again and nothing else is touched; the job goes back to
    queued in the generating phase with [okCount] the number of its
    successful items, [failedCount] 0 and no lease; the job is enqueued
    once for the generate kind. Without failed items nothing changes
    and nothing is enqueued. *)
Theorem retry_generate_normalises (redisUrl : option jsstring)
  (shop : jsstring) (jobId kind : option jsstring) (w : Store) (job : SeoJob.t) :
  wfStore w ->
  findJob (default [] jobId) shop w = Some job ->
  orElse kind
    (if eqb (toLowerCase (orElse (SeoJob.phase job) [])) (js "publishing")
        || eqb (toLowerCase (orElse (SeoJob.phase job) [])) (js "published")
     then js "publish" else js "generate") <> js "publish" ->
  let id := SeoJob.id job in
  let d := retryFailedForJob redisUrl shop jobId kind w in
  let w' := store d in
  (itemCount (hasStatus id "failed") w = 0 -> w' = w /\ enqueued d = [])
  /\ (itemCount (hasStatus id "failed") w <> 0 ->
      itemCount (hasStatus id "failed") w' = 0
      /\ itemCount (hasStatus id "success") w'
         = itemCount (hasStatus id "success") w
      /\ (forall k,
            items w' !! k
            = (fun it => if hasStatus id "failed" it then requeueItem it else it)
                <$> items w !! k)
      /\ jobs w' !! id
         = Some (retryGenerateJob (itemCount (hasStatus id "success") w) job)
      /\ (forall k, k <> id -> jobs w' !! k = jobs w !! k)
      /\ match enqueueSeoJob redisUrl (Some id) (Some (js "generate")) with
         | inl err => returned d = inl err /\ enqueued d = []
         | inr call => enqueued d = [call] /\ exists r, returned d = inr r
         end).
Proof. exact (retryFailed_generate_effect redisUrl shop jobId kind w job). Qed.


(** The theorem on the sample job whose only item failed: the job row
    after the retry has both generate counters at 0. *)
Lemma retry_generate_normalises_witness :
  jobs (store (retryFailedForJob (Some (js "redis://queue"))
                 (js "t1.myshopify.com") (Some (js "J1")) None
                 Samples.interruptedStore)) !! js "J1"
  = Some (retryGenerateJob 0 Samples.interruptedJob).
Proof.
  destruct (retry_generate_normalises (Some (js "redis://queue"))
              (js "t1.myshopify.com") (Some (js "J1")) None
              Samples.interruptedStore Samples.interruptedJob)
    as [_ H];
    [wf_by_computation | vm_compute; reflexivity | vm_compute; discriminate |].
  destruct H as (_ & _ & _ & R & _); [vm_compute; discriminate|].
  exact R.
Defined.

(** A retry of the publish phase: the items of the job that failed to
    publish are queued for publishing again and nothing else is touched,
    in particular no generate status; the job goes back to queued in the
    publishing phase with [publishOkCount] the number of its published
    items, [publishFailedCount] 0 and no lease, its generate counters
    staying as they are; the job is enqueued once for the publish kind.
    Without an item that failed to publish nothing changes and nothing
    is enqueued. *)
Theorem retry_publish_normalises (redisUrl : option jsstring)
  (shop : jsstring) (jobId kind : option jsstring) (w : Store) (job : SeoJob.t) :
  wfStore w ->
  findJob (default [] jobId) shop w = Some job ->
  orElse kind
    (if eqb (toLowerCase (orElse (SeoJob.phase job) [])) (js "publishing")
        || eqb (toLowerCase (orElse (SeoJob.phase job) [])) (js "published")
     then js "publish" else js "generate") = js "publish" ->
  let id := SeoJob.id job in
  let d := retryFailedForJob redisUrl shop jobId kind w in
  let w' := store d in
  (itemCount (hasPublishStatus id "failed") w = 0 ->
   w' = w /\ enqueued d = [])
  /\ (itemCount (hasPublishStatus id "failed") w <> 0 ->
      itemCount (hasPublishStatus id "failed") w' = 0
      /\ itemCount (hasPublishStatus id "success") w'
         = itemCount (hasPublishStatus id "success") w
      /\ (forall s, itemCount (hasStatus id s) w' = itemCount (hasStatus id s) w)
      /\ (forall k,
            items w' !! k
            = (fun it => if hasPublishStatus id "failed" it
                         then requeuePublish it else it)
                <$> items w !! k)
      /\ jobs w' !! id
         = Some (retryPublishJob
                   (itemCount (hasPublishStatus id "success") w) job)
      /\ (forall k, k <> id -> jobs w' !! k = jobs w !! k)
      /\ match enqueueSeoJob redisUrl (Some id) (Some (js "publish")) with
         | inl err => returned d = inl err /\ enqueued d = []
         | inr call => enqueued d = [call] /\ exists r, returned d = inr r
         end).
Proof.
  intros WF F K. cbv zeta.
  destruct (findJob_row _ _ _ _ WF F) as (Row & Id & _).
  unfold retryFailedForJob. rewrite F. cbv zeta. rewrite K.
  change (eqb (js "publish") (js "publish")) with true. cbv iota.
  set (id := SeoJob.id job).
  destruct (Z.eqb_spec (itemCount (hasPublishStatus id "failed") w) 0) as [Z0|NZ].
  { split; [intros _; split; reflexivity | intros N; contradiction]. }
  split; [intros E; contradiction|]. intros _.
  set (w1 := itemUpdateMany (hasPublishStatus id "failed") requeuePublish w).
  assert (Succ : itemCount (hasPublishStatus id "success") w1
                 = itemCount (hasPublishStatus id "success") w).
  { unfold w1. rewrite itemCount_updateMany. apply itemCount_ext.
    intros k it _. destruct (hasPublishStatus id "failed" it) eqn:Fl; [|reflexivity].
    unfold hasPublishStatus in Fl |- *. apply andb_prop in Fl as [J S].
    cbn [requeuePublish SeoJobItem.jobId SeoJobItem.publishStatus]. rewrite J.
    rewrite (statusIs_distinct _ "failed" "success" ltac:(discriminate) S).
    reflexivity. }
  assert (Stores : forall m,
            store (enqueueThen redisUrl id "publish" m
                     (jobUpdate id
                        (retryPublishJob
                           (itemCount (hasPublishStatus id "success") w1))
                        w1))
            = jobUpdate id
                (retryPublishJob (itemCount (hasPublishStatus id "success") w1))
                w1).
  { intros m. unfold enqueueThen. destruct (enqueueSeoJob _ _ _); reflexivity. }
  rewrite Stores. rewrite Succ.
  split; [|split; [|split; [|split; [|split; [|split]]]]].
  - change (itemCount (hasPublishStatus id "failed")
              (jobUpdate id
                 (retryPublishJob (itemCount (hasPublishStatus id "success") w))
                 w1))
      with (itemCount (hasPublishStatus id "failed") w1).
    unfold w1. rewrite itemCount_updateMany. apply itemCount_none.
    intros k it _. destruct (hasPublishStatus id "failed" it) eqn:Fl; [|exact Fl].
    unfold hasPublishStatus.
    cbn [requeuePublish SeoJobItem.jobId SeoJobItem.publishStatus].
    apply andb_false_r.
  - exact Succ.
  - intros s.
    change (itemCount (hasStatus id s)
              (jobUpdate id
                 (retryPublishJob (itemCount (hasPublishStatus id "success") w))
                 w1))
      with (itemCount (hasStatus id s) w1).
    unfold w1. rewrite itemCount_updateMany. apply itemCount_ext.
    intros k it _. destruct (hasPublishStatus id "failed" it); reflexivity.
  - intros k. unfold jobUpdate, w1, itemUpdateMany. cbn [items].
    rewrite lookup_fmap. reflexivity.
  - unfold jobUpdate. cbn [jobs]. rewrite lookup_alter_eq.
    change (jobs w1) with (jobs w). unfold id. rewrite Id, Row. reflexivity.
  - intros k N. unfold jobUpdate. cbn [jobs]. rewrite lookup_alter_ne by congruence.
    reflexivity.
  - unfold enqueueThen. destruct (enqueueSeoJob _ _ _); cbn [returned enqueued].
    + split; reflexivity.
    + split; [reflexivity | eexists; reflexivity].
Qed.

(** The theorem on the sample job whose only item failed to publish:
    after the retry the job is queued for publishing with both publish
    counters at 0. *)
Lemma retry_publish_normalises_witness :
  jobs (store (retryFailedForJob (Some (js "redis://queue"))
                 (js "t1.myshopify.com") (Some (js "J1")) None
                 JobSamples.unpublishedStore)) !! js "J1"
  = Some (retryPublishJob 0 JobSamples.publishingJob).
Proof.
  destruct (retry_publish_normalises (Some (js "redis://queue"))
              (js "t1.myshopify.com") (Some (js "J1")) None
              JobSamples.unpublishedStore JobSamples.publishingJob)
    as [_ H];
    [wf_by_computation | vm_compute; reflexivity | vm_compute; reflexivity |].
  destruct H as (_ & _ & _ & _ & R & _); [vm_compute; discriminate|].
  exact R.
Defined.

Lemma inFlight_cancelled (id : jsstring) (now : Z) (it : SeoJobItem.t) :
  inFlight id SeoJobItem.status
    (if inFlight id SeoJobItem.status it then cancelItem now it else it) = false
  /\ inFlight id SeoJobItem.publishStatus
       (if inFlight id SeoJobItem.publishStatus it then cancelPublish it else it)
     = false.
Proof.
  split.
  - destruct (inFlight id SeoJobItem.status it) eqn:F; [|exact F].
    unfold inFlight. cbn [cancelItem SeoJobItem.jobId SeoJobItem.status].
    apply andb_false_r.
  - destruct (inFlight id SeoJobItem.publishStatus it) eqn:F; [|exact F].
    unfold inFlight. cbn [cancelPublish SeoJobItem.jobId SeoJobItem.publishStatus].
    apply andb_false_r.
Qed.

(** A cancellation: the job is marked cancelled, so that the worker
    sees it as cancelled, with no lease and with its four counters
    equal to the numbers of its items that succeeded and failed in each
    phase; none of its items is left queued or running in either
    phase; items of other jobs are not touched; both queue entries are
    asked to be removed. A blank id or a job of another shop changes
    nothing. *)
Theorem cancel_normalises (redisUrl : option jsstring)
  (removeFails : jsstring -> option jsstring)
  (shop : jsstring) (jobId : option jsstring) (w : Store) :
  wfStore w ->
  let id := trim (default [] jobId) in
  let out := cancelJobForShop redisUrl removeFails shop jobId w in
  let w' := snd (fst out) in
  (id = [] \/ findJob id shop w = None ->
   c_ok (fst (fst out)) = false /\ w' = w /\ snd out = [])
  /\ (forall job, id <> [] -> findJob id shop w = Some job ->
      c_ok (fst (fst out)) = true
      /\ isJobCancelled id w' = true
      /\ itemCount (inFlight id SeoJobItem.status) w' = 0
      /\ itemCount (inFlight id SeoJobItem.publishStatus) w' = 0
      /\ (exists j',
            jobs w' !! id = Some j'
            /\ SeoJob.status j' = Some (js "cancelled")
            /\ SeoJob.okCount j' = itemCount (hasStatus id "success") w'
            /\ SeoJob.failedCount j' = itemCount (hasStatus id "failed") w'
            /\ SeoJob.publishOkCount j'
               = itemCount (hasPublishStatus id "success") w'
            /\ SeoJob.publishFailedCount j'
               = itemCount (hasPublishStatus id "failed") w'
            /\ SeoJob.lockOwner j' = None /\ SeoJob.lockExpiresAt j' = None)
      /\ (forall k it, items w !! k = Some it -> SeoJobItem.jobId it <> id ->
            items w' !! k = Some it)
      /\ (redisUrl <> None -> redisUrl <> Some [] ->
          snd out = [customIdOf id (js "generate"); customIdOf id (js "publish")])).
Proof.
  intros WF. cbv zeta. unfold cancelJobForShop.
  set (id := trim (default [] jobId)).
  split.
  - intros [E|E].
    + rewrite E. repeat split.
    + destruct id as [|c r] eqn:Ei; [repeat split|]. rewrite E. repeat split.
  - intros job N F. destruct id as [|c r] eqn:Ei; [contradiction|].
    rewrite <- Ei in *. rewrite F. cbv zeta. cbn [fst snd].
    destruct (findJob_row _ _ _ _ WF F) as (Row & Id & _).
    set (w1 := itemUpdateMany (inFlight id SeoJobItem.status)
                 (cancelItem (clock w)) w).
    set (w2 := itemUpdateMany (inFlight id SeoJobItem.publishStatus)
                 cancelPublish w1).
    set (data := cancelJob (clock w) _ job _ _ _ _).
    assert (Trim : trim id = id) by apply QueueFacts.trim_idem.
    split; [reflexivity|]. split.
    { unfold isJobCancelled, jobUpdate. cbn [jobs]. rewrite Trim, lookup_alter_eq.
      change (jobs w2) with (jobs w). rewrite Row.
      cbn [fmap option_fmap option_map mbind option_bind].
      unfold data. cbn [cancelJob SeoJob.status]. vm_compute. reflexivity. }
    split.
    { change (itemCount (inFlight id SeoJobItem.status) (jobUpdate id data w2))
        with (itemCount (inFlight id SeoJobItem.status) w2).
      unfold w2. rewrite itemCount_updateMany. unfold w1.
      rewrite itemCount_updateMany. apply itemCount_none. intros k it _.
      destruct (inFlight_cancelled id (clock w) it) as [A _].
      set (it1 := if inFlight id SeoJobItem.status it
                  then cancelItem (clock w) it else it) in *.
      destruct (inFlight id SeoJobItem.publishStatus it1); [|exact A].
      unfold inFlight in A |- *.
      cbn [cancelPublish SeoJobItem.jobId SeoJobItem.status]. exact A. }
    split.
    { change (itemCount (inFlight id SeoJobItem.publishStatus)
                (jobUpdate id data w2))
        with (itemCount (inFlight id SeoJobItem.publishStatus) w2).
      unfold w2. rewrite itemCount_updateMany. apply itemCount_none.
      intros k it _. exact (proj2 (inFlight_cancelled id 0 it)). }
    split.
    { exists (data job). unfold jobUpdate. cbn [jobs]. rewrite lookup_alter_eq.
      change (jobs w2) with (jobs w). rewrite Row.
      split; [reflexivity|]. unfold data. cbn [cancelJob SeoJob.status
        SeoJob.okCount SeoJob.failedCount SeoJob.publishOkCount
        SeoJob.publishFailedCount SeoJob.lockOwner SeoJob.lockExpiresAt].
      repeat split. }
    split.
    { intros k it E Nj. unfold jobUpdate, w2, w1, itemUpdateMany. cbn [items].
      rewrite !lookup_fmap, E. cbn [fmap option_fmap option_map].
      assert (A : inFlight id SeoJobItem.status it = false).
      { unfold inFlight, eqb. rewrite bool_decide_eq_false_2 by exact Nj.
        reflexivity. }
      assert (B : inFlight id SeoJobItem.publishStatus it = false).
      { unfold inFlight, eqb. rewrite bool_decide_eq_false_2 by exact Nj.
        reflexivity. }
      rewrite A, B. reflexivity. }
    intros U1 U2. unfold removeSeoQueueJob.
    destruct redisUrl as [[|u0 u]|];
      [exfalso; apply U2; reflexivity | | exfalso; apply U1; reflexivity].
    change (default [] (Some (u0 :: u))) with (u0 :: u).
    change (default [] (Some id)) with id. rewrite Trim.
    destruct id as [|c0 r0] eqn:Ej; [congruence|]. rewrite <- Ej.
    cbn [omap list_omap].
    destruct (removeFails (js "generate")), (removeFails (js "publish"));
      reflexivity.
Qed.

(** The theorem on the same sample job: after the cancellation the
    worker sees the job as cancelled. *)
Lemma cancel_normalises_witness :
  isJobCancelled (js "J1")
    (snd (fst (cancelJobForShop (Some (js "redis://queue")) (fun _ => None)
                 (js "t1.myshopify.com") (Some (js "J1"))
                 Samples.interruptedStore))) = true.
Proof.
  destruct (cancel_normalises (Some (js "redis://queue")) (fun _ => None)
              (js "t1.myshopify.com") (Some (js "J1"))
              Samples.interruptedStore) as [_ H]; [wf_by_computation|].
  destruct (H Samples.interruptedJob) as (_ & C & _);
    [vm_compute; discriminate | vm_compute; reflexivity |].
  exact C.
Defined.

End JobFacts.


(** ** The generate counters against the item rows *)

Module CounterFacts.
Import Js Classifier Generator Worker Queue Jobs Counters WorkerFacts JobFacts.

Lemma rowKeeps_refl (j : SeoJob.t) : rowKeeps j j.
Proof. split; reflexivity. Qed.

Lemma rowKeeps_trans (a b c : SeoJob.t) :
  rowKeeps a b -> rowKeeps b c -> rowKeeps a c.
Proof. intros [A1 A2] [B1 B2]. split; congruence. Qed.

Lemma jobsKeep_refl (w : Store) : jobsKeep w w.
Proof. intros k. destruct (jobs w !! k); [apply rowKeeps_refl | exact I]. Qed.

Lemma jobsKeep_trans (a b c : Store) :
  jobsKeep a b -> jobsKeep b c -> jobsKeep a c.
Proof.
  intros A B k. specialize (A k). specialize (B k).
  destruct (jobs a !! k), (jobs b !! k), (jobs c !! k); try contradiction;
    [eapply rowKeeps_trans; eassumption | exact I].
Qed.

Lemma same_jobs_keep (w w' : Store) : jobs w' = jobs w -> jobsKeep w w'.
Proof.
  intros E k. rewrite E. destruct (jobs w !! k); [apply rowKeeps_refl | exact I].
Qed.

Lemma jobUpdate_keeps (id : jsstring) (f : SeoJob.t -> SeoJob.t) (w : Store) :
  (forall j, rowKeeps j (f j)) -> jobsKeep w (jobUpdate id f w).
Proof.
  intros F k. unfold jobUpdate. cbn [jobs].
  destruct (decide (id = k)) as [->|N].
  - rewrite lookup_alter_eq. destruct (jobs w !! k); [apply F | exact I].
  - rewrite lookup_alter_ne by exact N.
    destruct (jobs w !! k); [apply rowKeeps_refl | exact I].
Qed.

Lemma jobUpdateMany_keeps (c : SeoJob.t -> bool) (f : SeoJob.t -> SeoJob.t)
  (w : Store) :
  (forall j, rowKeeps j (f j)) -> jobsKeep w (jobUpdateMany c f w).
Proof.
  intros F k. unfold jobUpdateMany. cbn [jobs]. rewrite lookup_fmap.
  destruct (jobs w !! k) as [j|]; [|exact I]. cbn [fmap option_fmap option_map].
  destruct (c j); [apply F | apply rowKeeps_refl].
Qed.

(** Setters that leave both counters alone. *)
Ltac row_keeps :=
  let j := fresh "j" in
  intros j; destruct j; unfold rowKeeps; fields; split; reflexivity.

Lemma touchLock_keeps (cfg : Config) (jobId : jsstring)
  (owner : option jsstring) (ttl : Z) (shop : option jsstring) (w : Store) :
  jobsKeep w (touchLock cfg jobId owner ttl shop w).
Proof.
  unfold touchLock.
  set (w1 := jobUpdateMany _ _ w).
  assert (A : jobsKeep w w1) by (apply jobUpdateMany_keeps; row_keeps).
  destruct (nonEmpty (default [] shop)); [|exact A].
  unfold refreshShopLock.
  destruct (bool_decide _); exact A.
Qed.

Lemma narratedHook_keeps (jobId itemId : jsstring) (t : Telemetry) (w : Store) :
  jobsKeep w (narratedHook jobId itemId t w).
Proof.
  destruct t as [attempt | attemptNumber waitMs reason]; unfold narratedHook.
  - set (w1 := itemUpdate itemId _ w).
    set (w2 := jobUpdate jobId _ w1).
    assert (A2 : jobsKeep w w2).
    { apply (jobsKeep_trans _ w1); [apply same_jobs_keep; reflexivity|].
      apply jobUpdate_keeps. row_keeps. }
    destruct (1 <? attempt); [|exact A2].
    apply (jobsKeep_trans _ w2); [exact A2|].
    apply (jobsKeep_trans _ (itemUpdate itemId
             (SeoJobItem.set_error (Some (retryingText attempt))) w2));
      [apply same_jobs_keep; reflexivity|].
    apply jobUpdate_keeps. row_keeps.
  - set (w1 := itemUpdate itemId _ w).
    set (w2 := jobUpdate jobId _ w1).
    set (w3 := itemUpdate itemId _ w2).
    apply (jobsKeep_trans _ w1); [apply same_jobs_keep; reflexivity|].
    apply (jobsKeep_trans _ w2); [apply jobUpdate_keeps; row_keeps|].
    apply (jobsKeep_trans _ w3); [apply same_jobs_keep; reflexivity|].
    apply jobUpdate_keeps. row_keeps.
Qed.

Lemma blogHook_keeps (jobId itemId : jsstring) (t : Telemetry) (w : Store) :
  jobsKeep w (blogHook jobId itemId t w).
Proof.
  destruct t as [attempt | attemptNumber waitMs reason]; unfold blogHook.
  - set (w1 := itemUpdate itemId _ w).
    apply (jobsKeep_trans _ w1); [apply same_jobs_keep; reflexivity|].
    apply jobUpdate_keeps. row_keeps.
  - apply jobsKeep_refl.
Qed.

Lemma hooks_keep (hook : jsstring -> jsstring -> Telemetry -> Store -> Store)
  (jobId itemId : jsstring) (ts : list Telemetry) (w : Store) :
  (forall t s, jobsKeep s (hook jobId itemId t s)) ->
  jobsKeep w (fold_left (fun s t => hook jobId itemId t s) ts w).
Proof.
  intros H. revert w. induction ts as [|t rest IH]; intros w; simpl.
  - apply jobsKeep_refl.
  - eapply jobsKeep_trans; [apply H | apply IH].
Qed.

(** The item rows: who owns a row is never rewritten. *)
Lemma itemUpdate_itemOf (J k k' : jsstring)
  (f : SeoJobItem.t -> SeoJobItem.t) (w : Store) :
  (forall r, SeoJobItem.jobId (f r) = SeoJobItem.jobId r) ->
  itemOf J k w -> itemOf J k (itemUpdate k' f w).
Proof.
  intros F (r & E & O). unfold itemOf, itemUpdate. cbn [items].
  destruct (decide (k' = k)) as [->|N].
  - rewrite lookup_alter_eq, E. exists (f r). split; [reflexivity|].
    rewrite F. exact O.
  - rewrite lookup_alter_ne by exact N. exists r. split; assumption.
Qed.

Lemma same_items_itemOf (J k : jsstring) (w w' : Store) :
  items w' = items w -> itemOf J k w -> itemOf J k w'.
Proof. intros E. unfold itemOf. rewrite E. trivial. Qed.

Ltac item_keeps :=
  let r := fresh "r" in intros r; destruct r; fields; reflexivity.

Lemma narratedHook_itemOf (J k jobId itemId : jsstring) (t : Telemetry)
  (w : Store) :
  itemOf J k w -> itemOf J k (narratedHook jobId itemId t w).
Proof.
  intros O. destruct t as [attempt | attemptNumber waitMs reason];
    unfold narratedHook.
  - set (w1 := itemUpdate itemId _ w).
    set (w2 := jobUpdate jobId _ w1).
    assert (O2 : itemOf J k w2).
    { apply (same_items_itemOf _ _ w1); [reflexivity|].
      apply itemUpdate_itemOf; [item_keeps | exact O]. }
    destruct (1 <? attempt); [|exact O2].
    eapply same_items_itemOf; [apply jobUpdate_items|].
    apply itemUpdate_itemOf; [item_keeps | exact O2].
  - set (w1 := itemUpdate itemId _ w).
    set (w2 := jobUpdate jobId _ w1).
    eapply same_items_itemOf; [apply jobUpdate_items|].
    apply itemUpdate_itemOf; [item_keeps|].
    apply (same_items_itemOf _ _ w1); [reflexivity|].
    apply itemUpdate_itemOf; [item_keeps | exact O].
Qed.

Lemma blogHook_itemOf (J k jobId itemId : jsstring) (t : Telemetry)
  (w : Store) :
  itemOf J k w -> itemOf J k (blogHook jobId itemId t w).
Proof.
  intros O. destruct t as [attempt | attemptNumber waitMs reason];
    unfold blogHook; [|exact O].
  eapply same_items_itemOf; [apply jobUpdate_items|].
  apply itemUpdate_itemOf; [item_keeps | exact O].
Qed.

Lemma hooks_itemOf (hook : jsstring -> jsstring -> Telemetry -> Store -> Store)
  (J k jobId itemId : jsstring) (ts : list Telemetry) (w : Store) :
  (forall t s, itemOf J k s -> itemOf J k (hook jobId itemId t s)) ->
  itemOf J k w ->
  itemOf J k (fold_left (fun s t => hook jobId itemId t s) ts w).
Proof.
  intros H. revert w. induction ts as [|t rest IH]; intros w O; simpl.
  - exact O.
  - apply IH, H, O.
Qed.

Lemma storeDraft_row (now : Z) (d : Draft) (r : SeoJobItem.t) :
  SeoJobItem.jobId (storeDraft now d r) = SeoJobItem.jobId r
  /\ SeoJobItem.status (storeDraft now d r) = Some (js "success").
Proof.
  destruct r, d as [pt st sd ce]. unfold storeDraft.
  cbn [d_productTitle d_seoTitle d_seoDescription d_clearError].
  destruct pt, sd, ce; fields; split; reflexivity.
Qed.

(** *** Counting rows when one row changes *)

Lemma filter_perm_length {A} (p : A -> bool) (l l' : list A) :
  l ≡ₚ l' -> length (List.filter p l) = length (List.filter p l').
Proof.
  induction 1 as [|x l l' _ IH|x y l|l l' l'' _ IH1 _ IH2].
  - reflexivity.
  - cbn [List.filter]. destruct (p x); cbn [length]; rewrite IH; reflexivity.
  - cbn [List.filter]. destruct (p x), (p y); reflexivity.
  - rewrite IH1. exact IH2.
Qed.

Lemma itemCount_same (p : SeoJobItem.t -> bool) (w w' : Store) :
  items w' = items w -> itemCount p w' = itemCount p w.
Proof. intros E. unfold itemCount. rewrite E. reflexivity. Qed.

Lemma itemCount_change (p : SeoJobItem.t -> bool) (w w' : Store)
  (k : jsstring) (old new : SeoJobItem.t) :
  items w !! k = Some old ->
  items w' !! k = Some new ->
  (forall k', k' <> k -> items w' !! k' = items w !! k') ->
  itemCount p w' + (if p old then 1 else 0)
  = itemCount p w + (if p new then 1 else 0).
Proof.
  intros Eo En Fr.
  set (m := delete k (items w)).
  assert (A : items w = <[k:=old]> m).
  { symmetry. apply insert_delete_id. exact Eo. }
  assert (B : items w' = <[k:=new]> m).
  { apply map_eq. intros i. destruct (decide (i = k)) as [->|N].
    - rewrite lookup_insert_eq. exact En.
    - rewrite lookup_insert_ne by congruence. subst m.
      rewrite lookup_delete_ne by congruence. apply Fr, N. }
  assert (C : forall x,
             length (List.filter p (snd <$> map_to_list (<[k:=x]> m)))
             = length (List.filter p (x :: (snd <$> map_to_list m)))).
  { intros x. apply filter_perm_length.
    rewrite (map_to_list_insert m k x) by apply lookup_delete_eq.
    reflexivity. }
  unfold itemCount. rewrite B, A, !C. cbn [List.filter].
  destruct (p old), (p new); cbn [length]; lia.
Qed.

Lemma itemCount_zero (p : SeoJobItem.t -> bool) (w : Store) (k : jsstring)
  (it : SeoJobItem.t) :
  itemCount p w = 0 -> items w !! k = Some it -> p it = false.
Proof.
  unfold itemCount. intros Z0 E.
  assert (H : it ∈ (snd <$> map_to_list (items w))).
  { apply elem_of_rows_of. exists k. exact E. }
  destruct (p it) eqn:P; [|reflexivity]. exfalso.
  assert (I : In it (List.filter p (snd <$> map_to_list (items w)))).
  { apply filter_In. split; [apply list_elem_of_In; exact H | exact P]. }
  destruct (List.filter p (snd <$> map_to_list (items w)));
    [contradiction | discriminate].
Qed.

(** *** The rows a scan returns have distinct ids *)

Lemma NoDup_fmap_filter {A B} (f : A -> B) (p : A -> bool) (l : list A) :
  NoDup (f <$> l) -> NoDup (f <$> List.filter p l).
Proof.
  induction l as [|x r IH]; intros N; [exact N|].
  cbn [fmap list_fmap] in N. apply NoDup_cons in N as [Nx Nr].
  cbn [List.filter]. destruct (p x); [|apply IH, Nr].
  cbn [fmap list_fmap]. apply NoDup_cons. split; [|apply IH, Nr].
  intros H. apply Nx. apply list_elem_of_fmap in H as (y & E & Hy).
  apply list_elem_of_fmap. exists y. split; [exact E|].
  apply list_elem_of_In. apply list_elem_of_In in Hy.
  apply filter_In in Hy. apply Hy.
Qed.

Lemma scan_ids_distinct (p : SeoJobItem.t -> bool) (w : Store) :
  map_Forall (fun k it => SeoJobItem.id it = k) (items w) ->
  NoDup (SeoJobItem.id <$> itemFindMany p w).
Proof.
  intros WF. unfold itemFindMany.
  rewrite (merge_sort_Permutation itemIdLe).
  apply NoDup_fmap_filter.
  assert (E : SeoJobItem.id <$> (snd <$> map_to_list (items w))
              = fst <$> map_to_list (items w)).
  { rewrite <- list_fmap_compose. apply list_fmap_ext.
    intros i [k v] H. apply list_elem_of_lookup_2 in H.
    apply elem_of_map_to_list in H. exact (WF k v H). }
  rewrite E. apply NoDup_fst_map_to_list.
Qed.

Section Item.
Variable cfg : Config.
Variable env : Env.
Variable job : SeoJob.t.
Variable language : jsstring.
Variable settings : Settings.

Let jobId := SeoJob.id job.

(** One item: exactly one of the two counters of the job rises by one,
    and the row of the item ends in the matching status. *)
Lemma generateItem_exact (item : SeoJobItem.t) (w : Store) (j : SeoJob.t)
  (J : jsstring) :
  jobs w !! jobId = Some j ->
  itemOf J (SeoJobItem.id item) w ->
  exists j' r',
    jobs (generateItem cfg env job language settings item w) !! jobId = Some j'
    /\ items (generateItem cfg env job language settings item w)
         !! SeoJobItem.id item = Some r'
    /\ SeoJobItem.jobId r' = J
    /\ match produced (attemptItem env job language settings item) with
       | inr _ =>
           SeoJob.okCount j' = SeoJob.okCount j + 1
           /\ SeoJob.failedCount j' = SeoJob.failedCount j
           /\ SeoJobItem.status r' = Some (js "success")
       | inl _ =>
           SeoJob.okCount j' = SeoJob.okCount j
           /\ SeoJob.failedCount j' = SeoJob.failedCount j + 1
           /\ SeoJobItem.status r' = Some (js "failed")
       end.
Proof.
  intros Ej O. unfold generateItem. fold jobId.
  set (itemId := SeoJobItem.id item) in *.
  set (w1 := touchLock cfg jobId _ _ _ w).
  set (w2 := itemUpdate itemId _ w1).
  set (hook := if isImageJobOf job then narratedHook
               else if isBlogJobOf job then blogHook else narratedHook).
  set (a := attemptItem env job language settings item).
  set (w3 := fold_left _ (hooks a) w2).
  assert (K3 : jobsKeep w w3).
  { apply (jobsKeep_trans _ w1); [apply touchLock_keeps|].
    apply (jobsKeep_trans _ w2); [apply same_jobs_keep; reflexivity|].
    subst w3. apply hooks_keep. intros t s. subst hook.
    destruct (isImageJobOf job); [apply narratedHook_keeps|].
    destruct (isBlogJobOf job); [apply blogHook_keeps | apply narratedHook_keeps]. }
  assert (O3 : itemOf J itemId w3).
  { subst w3. apply hooks_itemOf.
    - intros t s. subst hook.
      destruct (isImageJobOf job); [apply narratedHook_itemOf|].
      destruct (isBlogJobOf job); [apply blogHook_itemOf | apply narratedHook_itemOf].
    - apply itemUpdate_itemOf; [item_keeps|].
      apply (same_items_itemOf _ _ w); [|exact O].
      apply (touchLock_advances cfg jobId (SeoJob.lockOwner job) (5 * 60000)
               (SeoJob.shop job) w). }
  specialize (K3 jobId). rewrite Ej in K3.
  destruct (jobs w3 !! jobId) as [j3|] eqn:E3; [|contradiction].
  destruct K3 as [Kok Kfail]. destruct O3 as (r3 & Er & Or).
  destruct (produced a) as [err|d];
    unfold sleep, jobUpdate, itemUpdate; cbn [jobs items];
    rewrite !lookup_alter_eq, E3, Er; cbn [fmap option_fmap option_map];
    eexists; eexists; (split; [reflexivity|]); (split; [reflexivity|]).
  - rewrite <- Kok, <- Kfail, <- Or. clear. destruct j3, r3. fields.
    repeat split.
  - destruct (storeDraft_row (clock w3) d r3) as [S1 S2].
    rewrite S1, S2, <- Kok, <- Kfail, <- Or. clear. destruct j3. fields.
    repeat split.
Qed.

Lemma eqb_same (a : jsstring) : eqb a a = true.
Proof. unfold eqb. apply bool_decide_eq_true_2. reflexivity. Qed.

(** One queued item of the job: counters that matched the rows match
    them afterwards, and the job has as many items as before. *)
Lemma generateItem_matched (item : SeoJobItem.t) (w : Store)
  (r : SeoJobItem.t) :
  countersMatch jobId w ->
  items w !! SeoJobItem.id item = Some r ->
  SeoJobItem.jobId r = jobId ->
  SeoJobItem.status r = Some (js "queued") ->
  countersMatch jobId (generateItem cfg env job language settings item w)
  /\ itemCount (fun it => eqb (SeoJobItem.jobId it) jobId)
       (generateItem cfg env job language settings item w)
     = itemCount (fun it => eqb (SeoJobItem.jobId it) jobId) w.
Proof.
  intros (j & Ej & Ok & Fail) Er Or Sr.
  destruct (generateItem_exact item w j jobId Ej) as (j' & r' & Ej' & Er' & Or' & M).
  { exists r. split; assumption. }
  destruct (generateItem_effect cfg env job language settings item w)
    as [_ [Fr _]].
  set (w' := generateItem cfg env job language settings item w) in *.
  pose proof (itemCount_change (hasStatus jobId "success") w w' _ r r' Er Er' Fr) as Cs.
  pose proof (itemCount_change (hasStatus jobId "failed") w w' _ r r' Er Er' Fr) as Cf.
  pose proof (itemCount_change (fun it => eqb (SeoJobItem.jobId it) jobId)
                w w' _ r r' Er Er' Fr) as Cn.
  cbv beta in Cn. rewrite Or, Or', eqb_same in Cn.
  unfold hasStatus in Cs, Cf. rewrite Or, Or', Sr, eqb_same in Cs, Cf.
  cbn [andb] in Cs, Cf.
  change (statusIs (Some (js "queued")) "success") with false in Cs.
  change (statusIs (Some (js "queued")) "failed") with false in Cf.
  split; [|lia]. exists j'. split; [exact Ej'|].
  fold (hasStatus jobId "success") in Cs. fold (hasStatus jobId "failed") in Cf.
  destruct (produced (attemptItem env job language settings item));
    destruct M as (M1 & M2 & M3); rewrite M3 in Cs, Cf.
  - change (statusIs (Some (js "failed")) "success") with false in Cs.
    change (statusIs (Some (js "failed")) "failed") with true in Cf.
    cbv iota in Cs, Cf. split; lia.
  - change (statusIs (Some (js "success")) "success") with true in Cs.
    change (statusIs (Some (js "success")) "failed") with false in Cf.
    cbv iota in Cs, Cf. split; lia.
Qed.

(** The loop over distinct queued items of the job. *)
Lemma generateLoop_matched (todo : list SeoJobItem.t) (w : Store) :
  NoDup (SeoJobItem.id <$> todo) ->
  (forall x, x ∈ todo ->
     exists r, items w !! SeoJobItem.id x = Some r
               /\ SeoJobItem.jobId r = jobId
               /\ SeoJobItem.status r = Some (js "queued")) ->
  countersMatch jobId w ->
  countersMatch jobId (snd (generateLoop cfg env job language settings todo w))
  /\ itemCount (fun it => eqb (SeoJobItem.jobId it) jobId)
       (snd (generateLoop cfg env job language settings todo w))
     = itemCount (fun it => eqb (SeoJobItem.jobId it) jobId) w.
Proof.
  revert w. induction todo as [|x rest IH]; intros w ND Q M; simpl.
  - split; [exact M | reflexivity].
  - fold jobId. destruct (isJobCancelled jobId w); [split; [exact M | reflexivity]|].
    cbn [fmap list_fmap] in ND. apply NoDup_cons in ND as [Nx Nr].
    destruct (Q x) as (r & Er & Or & Sr); [apply elem_of_cons; left; reflexivity|].
    destruct (generateItem_matched x w r M Er Or Sr) as [M1 C1].
    destruct (generateItem_effect cfg env job language settings x w)
      as [_ [Fr _]].
    destruct (IH (generateItem cfg env job language settings x w) Nr) as [M2 C2].
    + intros y Hy. destruct (Q y) as (ry & Ey & Oy & Sy);
        [apply elem_of_cons; right; exact Hy|].
      exists ry. split; [|split; assumption].
      rewrite Fr; [exact Ey|]. intros E. apply Nx. rewrite <- E.
      apply list_elem_of_fmap. exists y. split; [reflexivity | exact Hy].
    + exact M1.
    + split; [exact M2 | rewrite C2; exact C1].
Qed.

End Item.

Lemma jobUpdate_matched (id : jsstring) (f : SeoJob.t -> SeoJob.t) (w : Store) :
  (forall j, rowKeeps j (f j)) ->
  countersMatch id w -> countersMatch id (jobUpdate id f w).
Proof.
  intros F (j & E & Ok & Fail). exists (f j). destruct (F j) as [F1 F2].
  unfold jobUpdate at 1. cbn [jobs]. rewrite lookup_alter_eq, E.
  split; [reflexivity|]. rewrite F1, F2.
  rewrite !(itemCount_same _ w (jobUpdate id f w)) by reflexivity.
  split; assumption.
Qed.

(** Counters that match are bounded by the number of items of the job. *)
Lemma matched_bounded (id : jsstring) (w : Store) (j : SeoJob.t) :
  SeoJob.okCount j = itemCount (hasStatus id "success") w ->
  SeoJob.failedCount j = itemCount (hasStatus id "failed") w ->
  SeoJob.okCount j + SeoJob.failedCount j
  <= itemCount (fun it => eqb (SeoJobItem.jobId it) id) w.
Proof.
  intros -> ->.
  rewrite <- (itemCount_sum (hasStatus id "success") (hasStatus id "failed")).
  - apply itemCount_le. intros it H. unfold hasStatus in H.
    destruct (eqb (SeoJobItem.jobId it) id); [reflexivity|]. exact H.
  - intros it H. unfold hasStatus in H |- *. apply andb_prop in H as [_ H].
    rewrite (statusIs_distinct _ "success" "failed" ltac:(discriminate) H).
    apply andb_false_r.
Qed.

(** A generate run on a job whose counters match its items and that has
    no failed item. *)
Lemma processGenerate_matched (cfg : Config) (env : Env) (job : SeoJob.t)
  (w : Store) :
  wfStore w ->
  countersMatch (SeoJob.id job) w ->
  itemCount (hasStatus (SeoJob.id job) "failed") w = 0 ->
  countersMatch (SeoJob.id job) (snd (processGenerate cfg env job w))
  /\ itemCount (fun it => eqb (SeoJobItem.jobId it) (SeoJob.id job))
       (snd (processGenerate cfg env job w))
     = itemCount (fun it => eqb (SeoJobItem.jobId it) (SeoJob.id job)) w.
Proof.
  intros WF M NoFailed. unfold processGenerate.
  destruct (settingsOf env job) as [err|settings]; [split; [exact M | reflexivity]|].
  destruct (getAdminClientForShop env (SeoJob.shop job)) as [err|u];
    [split; [exact M | reflexivity]|].
  cbv zeta.
  set (id := SeoJob.id job) in *.
  set (w1 := jobUpdate id (startGenerate (clock w)) w).
  set (language := orElse (SeoJob.language job) (js "tr")).
  assert (M1 : countersMatch id w1).
  { apply jobUpdate_matched; [|exact M].
    intros j. destruct j. unfold rowKeeps, startGenerate. fields.
    split; reflexivity. }
  destruct (generateLoop_matched cfg env job language settings
              (itemFindMany (generateEligible job) w1) w1) as [M2 C2].
  - apply scan_ids_distinct. exact (proj2 WF).
  - intros x Hx. unfold itemFindMany in Hx.
    apply (elem_of_scan_all itemIdLe _ (generateEligible job) (items w1) x) in Hx
      as [El [k E]].
    change (items w1) with (items w) in E.
    pose proof (lookup_item_id w k x WF E) as Ik. subst k.
    exists x. split; [exact E|].
    unfold generateEligible in El. fold id in El.
    apply andb_prop in El as [El _]. apply andb_prop in El as [Ej Es].
    unfold eqb in Ej. apply bool_decide_eq_true_1 in Ej.
    split; [exact Ej|].
    pose proof (itemCount_zero _ w _ x NoFailed E) as Nf.
    unfold hasStatus in Nf. rewrite Ej, eqb_same in Nf. cbn [andb] in Nf.
    rewrite Nf, orb_false_r in Es. unfold statusIs in Es.
    exact (bool_decide_eq_true_1 _ Es).
  - exact M1.
  - fold id in M2, C2.
    destruct (generateLoop cfg env job language settings
                (itemFindMany (generateEligible job) w1) w1) as [cancelled w2].
    cbn [snd] in M2, C2 |- *.
    rewrite (itemCount_same _ w w1) in C2 by reflexivity.
    destruct cancelled; [split; assumption|].
    destruct (isJobCancelled id w2); [split; assumption|]. cbn [snd].
    split.
    + apply jobUpdate_matched; [|exact M2].
      intros j. destruct (finishGenerate_counters (clock w2) j) as (_ & F1 & F2).
      split; assumption.
    + rewrite (itemCount_same _ w2) by reflexivity. exact C2.
Qed.

(** A generate run that starts with the counters of the job equal to
    the numbers of its succeeded and failed items, and with no failed
    item, ends with them equal again, whatever happens to each item: so
    [okCount + failedCount] stays within the number of items of the
    job. *)
Theorem generate_counters_match (cfg : Config) (env : Env) (job : SeoJob.t)
  (w : Store) (j : SeoJob.t) :
  wfStore w ->
  jobs w !! SeoJob.id job = Some j ->
  SeoJob.okCount j = itemCount (hasStatus (SeoJob.id job) "success") w ->
  SeoJob.failedCount j = 0 ->
  itemCount (hasStatus (SeoJob.id job) "failed") w = 0 ->
  let id := SeoJob.id job in
  let w' := snd (processGenerate cfg env job w) in
  exists j',
    jobs w' !! id = Some j'
    /\ SeoJob.okCount j' = itemCount (hasStatus id "success") w'
    /\ SeoJob.failedCount j' = itemCount (hasStatus id "failed") w'
    /\ SeoJob.okCount j' + SeoJob.failedCount j'
       <= itemCount (fun it => eqb (SeoJobItem.jobId it) id) w.
Proof.
  intros WF E Ok Fail NoFailed. cbv zeta.
  destruct (processGenerate_matched cfg env job w WF) as [(j' & E' & Ok' & Fail') C];
    [exists j; rewrite NoFailed; repeat split; assumption | exact NoFailed |].
  exists j'. split; [exact E'|]. split; [exact Ok'|]. split; [exact Fail'|].
  rewrite <- C. apply matched_bounded; assumption.
Qed.

(** The theorem on the sample job with one queued item. *)
Lemma generate_counters_match_witness :
  exists j',
    jobs (snd (processGenerate defaultConfig Samples.happyEnv
                 Samples.descriptionOnlyJob Samples.savedTitleStore))
      !! js "J1" = Some j'
    /\ SeoJob.okCount j' + SeoJob.failedCount j'
       <= itemCount (fun it => eqb (SeoJobItem.jobId it) (js "J1"))
            Samples.savedTitleStore.
Proof.
  destruct (generate_counters_match defaultConfig Samples.happyEnv
              Samples.descriptionOnlyJob Samples.savedTitleStore
              Samples.descriptionOnlyJob)
    as (j' & E & _ & _ & B);
    [wf_by_computation | reflexivity | vm_compute; reflexivity | reflexivity
    | vm_compute; reflexivity |].
  exists j'. split; [exact E | exact B].
Defined.

Lemma itemCount_fmap (p : SeoJobItem.t -> bool)
  (f : SeoJobItem.t -> SeoJobItem.t) (w w' : Store) :
  (forall k, items w' !! k = f <$> items w !! k) ->
  itemCount p w' = itemCount (fun it => p (f it)) w.
Proof.
  intros H.
  assert (E : items w' = f <$> items w).
  { apply map_eq. intros k. rewrite lookup_fmap. apply H. }
  unfold itemCount. rewrite E. f_equal.
  rewrite map_to_list_fmap, <- list_fmap_compose.
  rewrite <- (filter_fmap_length p f), <- list_fmap_compose. reflexivity.
Qed.

(** Retry, then generate: once the failed items of a job were queued
    again by a retry, the generate run that follows ends with the
    counters of the job equal to the numbers of its succeeded and
    failed items, and their sum within the number of its items. *)
Theorem retry_then_generate_bounded (cfg : Config) (env : Env)
  (redisUrl : option jsstring) (shop : jsstring) (jobId kind : option jsstring)
  (w : Store) (job run : SeoJob.t) :
  wfStore w ->
  findJob (default [] jobId) shop w = Some job ->
  orElse kind
    (if eqb (toLowerCase (orElse (SeoJob.phase job) [])) (js "publishing")
        || eqb (toLowerCase (orElse (SeoJob.phase job) [])) (js "published")
     then js "publish" else js "generate") <> js "publish" ->
  itemCount (hasStatus (SeoJob.id job) "failed") w <> 0 ->
  SeoJob.id run = SeoJob.id job ->
  let id := SeoJob.id job in
  let w1 := store (retryFailedForJob redisUrl shop jobId kind w) in
  let w2 := snd (processGenerate cfg env run w1) in
  exists j',
    jobs w2 !! id = Some j'
    /\ SeoJob.okCount j' = itemCount (hasStatus id "success") w2
    /\ SeoJob.failedCount j' = itemCount (hasStatus id "failed") w2
    /\ SeoJob.okCount j' + SeoJob.failedCount j'
       <= itemCount (fun it => eqb (SeoJobItem.jobId it) id) w.
Proof.
  intros WF F K NZ Run. cbv zeta.
  destruct (retryFailed_generate_effect redisUrl shop jobId kind w job WF F K)
    as [_ H].
  destruct (H NZ) as (NoFailed & Succ & Items & Row & Others & _). clear H.
  set (id := SeoJob.id job) in *.
  set (w1 := store (retryFailedForJob redisUrl shop jobId kind w)) in *.
  destruct (findJob_row _ _ _ _ WF F) as (Row0 & Id & _).
  assert (WF1 : wfStore w1).
  { split.
    - intros k j E. destruct (decide (k = id)) as [->|N].
      + rewrite Row in E. injection E as <-. reflexivity.
      + rewrite (Others k N) in E. exact (lookup_job_id w k j WF E).
    - intros k it E. rewrite Items in E.
      destruct (items w !! k) as [it0|] eqn:E0; [|discriminate].
      injection E as <-. rewrite <- (lookup_item_id w k it0 WF E0).
      destruct (hasStatus id "failed" it0); reflexivity. }
  assert (Same : itemCount (fun it => eqb (SeoJobItem.jobId it) id) w1
                 = itemCount (fun it => eqb (SeoJobItem.jobId it) id) w).
  { rewrite (itemCount_fmap _ _ w w1 Items). apply itemCount_ext.
    intros k it _. destruct (hasStatus id "failed" it); reflexivity. }
  rewrite <- Run in *.
  destruct (processGenerate_matched cfg env run w1 WF1)
    as [(j' & E' & Ok' & Fail') C].
  - exists (retryGenerateJob (itemCount (hasStatus (SeoJob.id run) "success") w) job).
    split; [exact Row|]. rewrite Succ, NoFailed. split; reflexivity.
  - exact NoFailed.
  - exists j'. split; [exact E'|]. split; [exact Ok'|]. split; [exact Fail'|].
    rewrite <- Same, <- C. apply matched_bounded; assumption.
Qed.

(** The theorem on the sample job whose only item failed. *)
Lemma retry_then_generate_bounded_witness :
  exists j',
    jobs (snd (processGenerate defaultConfig Samples.happyEnv
                 Samples.interruptedJob
                 (store (retryFailedForJob (Some (js "redis://queue"))
                           (js "t1.myshopify.com") (Some (js "J1")) None
                           Samples.interruptedStore))))
      !! js "J1" = Some j'
    /\ SeoJob.okCount j' + SeoJob.failedCount j'
       <= itemCount (fun it => eqb (SeoJobItem.jobId it) (js "J1"))
            Samples.interruptedStore.
Proof.
  destruct (retry_then_generate_bounded defaultConfig Samples.happyEnv
              (Some (js "redis://queue")) (js "t1.myshopify.com")
              (Some (js "J1")) None Samples.interruptedStore
              Samples.interruptedJob Samples.interruptedJob)
    as (j' & E & _ & _ & B);
    [wf_by_computation | vm_compute; reflexivity | vm_compute; discriminate
    | vm_compute; discriminate | reflexivity |].
  exists j'. split; [exact E | exact B].
Defined.

End CounterFacts.

(** ** Handling one job: leases, cancellation, the free plan, progress *)

Module HandlerFacts.
Import Js Billing Generator Worker Queue Jobs Locks Plans Counters Handler.
Import WorkerFacts LockFacts JobFacts CounterFacts.

Lemma leaseFree_held (now e : Z) (owner other : jsstring) (j : SeoJob.t) :
  SeoJob.lockOwner j = Some other -> other <> owner ->
  SeoJob.lockExpiresAt j = Some e -> now <= e ->
  leaseFree now owner j = false.
Proof.
  intros O N E T. unfold leaseFree. rewrite O, E. cbn [isNull before orb].
  rewrite (proj2 (Z.ltb_ge e now) T). cbn [orb].
  apply bool_decide_eq_false_2. congruence.
Qed.

Lemma releaseLease_columns (j : SeoJob.t) :
  SeoJob.id (releaseLease j) = SeoJob.id j
  /\ SeoJob.lockOwner (releaseLease j) = None
  /\ SeoJob.lockExpiresAt (releaseLease j) = None
  /\ SeoJob.status (releaseLease j) = SeoJob.status j
  /\ SeoJob.total (releaseLease j) = SeoJob.total j
  /\ SeoJob.okCount (releaseLease j) = SeoJob.okCount j
  /\ SeoJob.failedCount (releaseLease j) = SeoJob.failedCount j.
Proof. destruct j. unfold releaseLease. fields. repeat split. Qed.

(** After the release no row of the job is leased by the owner. *)
Lemma release_frees (id owner : jsstring) (w : Store) (k : jsstring)
  (j : SeoJob.t) :
  jobs (jobUpdateMany (leasedBy id owner) releaseLease w) !! k = Some j ->
  SeoJob.id j = id -> SeoJob.lockOwner j <> Some owner.
Proof.
  unfold jobUpdateMany. cbn [jobs]. rewrite lookup_fmap.
  destruct (jobs w !! k) as [x|]; [|discriminate].
  cbn [fmap option_fmap option_map]. intros E I. injection E as <-.
  destruct (leasedBy id owner x) eqn:L.
  - destruct (releaseLease_columns x) as (_ & O & _). rewrite O. discriminate.
  - unfold leasedBy in L. unfold eqb in L.
    rewrite (bool_decide_eq_true_2 _ I) in L. cbn [andb] in L.
    exact (bool_decide_eq_false_1 _ L).
Qed.

(** A [lockJob] that found no row leaves every row of the job leased by
    someone else. *)
Lemma lockJob_refused (id owner : jsstring) (ttlMs : Z) (w : Store)
  (k : jsstring) (j : SeoJob.t) :
  fst (lockJob id owner ttlMs w) = false ->
  jobs (snd (lockJob id owner ttlMs w)) !! k = Some j ->
  SeoJob.id j = id -> SeoJob.lockOwner j <> Some owner.
Proof.
  unfold lockJob. cbn [fst snd].
  set (where_ := fun x => eqb (SeoJob.id x) id && leaseFree (clock w) owner x).
  intros C E I.
  destruct (List.filter where_ (snd <$> map_to_list (jobs w))) as [|y l] eqn:El;
    [|discriminate C].
  unfold jobUpdateMany in E. cbn [jobs] in E. rewrite lookup_fmap in E.
  destruct (jobs w !! k) as [x|] eqn:Ex; [|discriminate].
  cbn [fmap option_fmap option_map] in E.
  assert (W : where_ x = false).
  { destruct (where_ x) eqn:P; [|reflexivity]. exfalso.
    assert (In : x ∈ List.filter where_ (snd <$> map_to_list (jobs w))).
    { apply elem_of_rows. split; [exact P | exists k; exact Ex]. }
    rewrite El in In. apply elem_of_nil in In. exact In. }
  rewrite W in E. injection E as <-. unfold where_, eqb in W.
  rewrite (bool_decide_eq_true_2 _ I) in W. cbn [andb] in W.
  unfold leaseFree in W. apply orb_false_elim in W as [_ W].
  exact (bool_decide_eq_false_1 _ W).
Qed.

(** An id that names no job gives no lease and changes nothing. *)
Lemma lockJob_unknown (id owner : jsstring) (ttlMs : Z) (w : Store) :
  wfStore w -> jobs w !! id = None -> lockJob id owner ttlMs w = (false, w).
Proof.
  intros WF E. unfold lockJob.
  set (where_ := fun x => eqb (SeoJob.id x) id && leaseFree (clock w) owner x).
  assert (No : forall k x, jobs w !! k = Some x -> where_ x = false).
  { intros k x Ex. unfold where_, eqb.
    rewrite bool_decide_eq_false_2; [reflexivity|].
    intros I. rewrite (lookup_job_id w k x WF Ex) in I. subst k. congruence. }
  rewrite (jobUpdateMany_none _ _ w No).
  destruct (List.filter where_ (snd <$> map_to_list (jobs w))) as [|y l] eqn:El;
    [reflexivity|].
  assert (In : y ∈ List.filter where_ (snd <$> map_to_list (jobs w))).
  { rewrite El. apply elem_of_cons. left. reflexivity. }
  apply elem_of_rows in In as [P [k Ey]]. rewrite (No k y Ey) in P.
  discriminate P.
Qed.

(** The row a successful [lockJob] leaves. *)
Lemma lockJob_taken (id owner : jsstring) (ttlMs : Z) (w : Store)
  (j : SeoJob.t) :
  wfStore w -> jobs w !! id = Some j -> leaseFree (clock w) owner j = true ->
  lockJob id owner ttlMs w
  = (true,
     mkStore
       (<[id := SeoJob.set_lastHeartbeatAt (Some (clock w))
                  (SeoJob.set_lockExpiresAt (Some (clock w + ttlMs))
                     (SeoJob.set_lockOwner (Some owner) j))]> (jobs w))
       (items w) (shopLocks w) (clock w)).
Proof.
  intros WF E F.
  destruct (lockJob_outcome id owner ttlMs w j WF E) as (G & _ & _).
  rewrite F in G.
  rewrite (surjective_pairing (lockJob id owner ttlMs w)), G. f_equal.
  unfold lockJob. cbn [snd]. unfold jobUpdateMany. f_equal.
  apply map_eq. intros k. rewrite lookup_fmap.
  destruct (decide (k = id)) as [->|N].
  - rewrite lookup_insert_eq, E. cbn [fmap option_fmap option_map].
    unfold eqb. rewrite (bool_decide_eq_true_2 _ (lookup_job_id w id j WF E)).
    cbn [andb]. rewrite F. reflexivity.
  - rewrite lookup_insert_ne by congruence.
    destruct (jobs w !! k) as [x|] eqn:Ex; [|reflexivity].
    cbn [fmap option_fmap option_map]. unfold eqb.
    rewrite bool_decide_eq_false_2; [reflexivity|].
    rewrite (lookup_job_id w k x WF Ex). exact N.
Qed.

Lemma wf_insert_job (w : Store) (k : jsstring) (j : SeoJob.t) :
  wfStore w -> SeoJob.id j = k ->
  wfStore (mkStore (<[k := j]> (jobs w)) (items w) (shopLocks w) (clock w)).
Proof.
  intros [WJ WI] I. split; [|exact WI]. cbn [jobs].
  apply map_Forall_insert_2; assumption.
Qed.

(** What the release at the end does to a row. *)
Lemma release_row (id owner : jsstring) (w : Store) (k : jsstring) :
  jobs (jobUpdateMany (leasedBy id owner) releaseLease w) !! k
  = (fun x => if leasedBy id owner x then releaseLease x else x)
      <$> jobs w !! k.
Proof. unfold jobUpdateMany. cbn [jobs]. apply lookup_fmap. Qed.

Lemma release_other (id owner : jsstring) (w : Store) (k : jsstring) :
  wfStore w -> k <> id ->
  jobs (jobUpdateMany (leasedBy id owner) releaseLease w) !! k = jobs w !! k.
Proof.
  intros WF N. rewrite release_row.
  destruct (jobs w !! k) as [x|] eqn:E; [|reflexivity].
  cbn [fmap option_fmap option_map]. unfold leasedBy, eqb.
  rewrite bool_decide_eq_false_2; [reflexivity|].
  rewrite (lookup_job_id w k x WF E). exact N.
Qed.

Lemma released_heartbeat (now expires : Z) (owner : jsstring) (j : SeoJob.t) :
  releaseLease
    (SeoJob.set_lastHeartbeatAt (Some now)
       (SeoJob.set_lockExpiresAt (Some expires)
          (SeoJob.set_lockOwner (Some owner) j)))
  = releaseLease (SeoJob.set_lastHeartbeatAt (Some now) j).
Proof. destruct j. unfold releaseLease. fields. reflexivity. Qed.

Lemma leasedBy_taken (id owner : jsstring) (now expires : Z) (j : SeoJob.t) :
  SeoJob.id j = id ->
  leasedBy id owner
    (SeoJob.set_lastHeartbeatAt (Some now)
       (SeoJob.set_lockExpiresAt (Some expires)
          (SeoJob.set_lockOwner (Some owner) j))) = true.
Proof.
  intros I. destruct (lease_columns now expires owner j) as (C0 & C1 & _).
  cbv zeta in C0, C1. unfold leasedBy. rewrite C0, C1, I, eqb_same.
  cbn [andb]. apply bool_decide_eq_true_2. reflexivity.
Qed.

Lemma jobUpdate_insert (id : jsstring) (f : SeoJob.t -> SeoJob.t)
  (j : SeoJob.t) (m : gmap jsstring SeoJob.t) (i : gmap jsstring SeoJobItem.t)
  (l : gmap jsstring (jsstring * Z)) (c : Z) :
  jobUpdate id f (mkStore (<[id := j]> m) i l c)
  = mkStore (<[id := f j]> m) i l c.
Proof.
  unfold jobUpdate. cbn [jobs items shopLocks clock]. f_equal.
  apply map_eq. intros k. destruct (decide (k = id)) as [->|N].
  - rewrite lookup_alter_eq, !lookup_insert_eq. reflexivity.
  - rewrite lookup_alter_ne by congruence.
    rewrite !lookup_insert_ne by congruence. reflexivity.
Qed.

Lemma lease_keeps (now expires : Z) (owner : jsstring) (j : SeoJob.t) :
  let j1 := SeoJob.set_lastHeartbeatAt (Some now)
              (SeoJob.set_lockExpiresAt (Some expires)
                 (SeoJob.set_lockOwner (Some owner) j)) in
  SeoJob.id j1 = SeoJob.id j /\ SeoJob.shop j1 = SeoJob.shop j
  /\ SeoJob.usageReserved j1 = SeoJob.usageReserved j
  /\ usageCountOf j1 = usageCountOf j
  /\ SeoJob.total j1 = SeoJob.total j
  /\ SeoJob.okCount j1 = SeoJob.okCount j
  /\ SeoJob.failedCount j1 = SeoJob.failedCount j
  /\ SeoJob.lockOwner j1 = Some owner.
Proof. destruct j. cbv zeta. unfold usageCountOf. fields. repeat split. Qed.

Lemma setTotal_columns (n : Z) (j : SeoJob.t) :
  SeoJob.id (setTotal n j) = SeoJob.id j /\ SeoJob.total (setTotal n j) = n
  /\ SeoJob.okCount (setTotal n j) = SeoJob.okCount j
  /\ SeoJob.failedCount (setTotal n j) = SeoJob.failedCount j
  /\ SeoJob.lockOwner (setTotal n j) = SeoJob.lockOwner j.
Proof. destruct j. unfold setTotal. fields. repeat split. Qed.

Lemma markReserved_columns (n : Z) (j : SeoJob.t) :
  SeoJob.id (markReserved n j) = SeoJob.id j
  /\ SeoJob.total (markReserved n j) = SeoJob.total j
  /\ SeoJob.okCount (markReserved n j) = SeoJob.okCount j
  /\ SeoJob.failedCount (markReserved n j) = SeoJob.failedCount j.
Proof. destruct j. unfold markReserved. fields. repeat split. Qed.

(** The row of the job when the generating branch starts. *)
Lemma total_row (now expires n : Z) (owner : jsstring) (j : SeoJob.t) :
  let j1 := SeoJob.set_lastHeartbeatAt (Some now)
              (SeoJob.set_lockExpiresAt (Some expires)
                 (SeoJob.set_lockOwner (Some owner) j)) in
  let j2 := if SeoJob.total j =? n then j1 else setTotal n j1 in
  SeoJob.id j2 = SeoJob.id j /\ SeoJob.total j2 = n
  /\ SeoJob.okCount j2 = SeoJob.okCount j
  /\ SeoJob.failedCount j2 = SeoJob.failedCount j
  /\ SeoJob.lockOwner j2 = Some owner.
Proof.
  cbv zeta.
  destruct (lease_keeps now expires owner j) as (A & _ & _ & _ & B & C & D & L).
  cbv zeta in A, B, C, D, L.
  destruct (Z.eqb_spec (SeoJob.total j) n) as [T|T].
  - rewrite A, B, C, D, L. repeat split. exact T.
  - destruct (setTotal_columns n
                (SeoJob.set_lastHeartbeatAt (Some now)
                   (SeoJob.set_lockExpiresAt (Some expires)
                      (SeoJob.set_lockOwner (Some owner) j))))
      as (A' & B' & C' & D' & L').
    rewrite A', B', C', D', L', A, C, D, L. repeat split.
Qed.

(** A generate run followed by the release, from a store where the
    total and the counters of the job agree with its items. *)
Lemma generate_then_release (cfg : Config) (env : Env) (id owner : jsstring)
  (run : SeoJob.t) (w : Store) (j : SeoJob.t) :
  wfStore w -> trim id = id -> SeoJob.id run = id ->
  jobs w !! id = Some j ->
  SeoJob.total j = itemCount (fun it => eqb (SeoJobItem.jobId it) id) w ->
  SeoJob.okCount j = itemCount (hasStatus id "success") w ->
  SeoJob.failedCount j = 0 ->
  itemCount (hasStatus id "failed") w = 0 ->
  let w' := jobUpdateMany (leasedBy id owner) releaseLease
              (snd (processGenerate cfg env run w)) in
  exists j',
    jobs w' !! id = Some j'
    /\ SeoJob.total j' = itemCount (fun it => eqb (SeoJobItem.jobId it) id) w'
    /\ SeoJob.okCount j' = itemCount (hasStatus id "success") w'
    /\ SeoJob.failedCount j' = itemCount (hasStatus id "failed") w'
    /\ SeoJob.okCount j' + SeoJob.failedCount j' <= SeoJob.total j'.
Proof.
  intros WF T R E Tot Ok Fail NoFailed. cbv zeta. subst id.
  destruct (processGenerate_matched cfg env run w WF)
    as [(j' & E' & Ok' & Fail') C];
    [exists j; rewrite NoFailed; repeat split; assumption | exact NoFailed |].
  destruct (generate_counters_only_rise cfg env run w (SeoJob.id run) j T E)
    as (j'' & E'' & Tot'' & _).
  rewrite E' in E''. injection E'' as <-.
  set (w4 := snd (processGenerate cfg env run w)) in *.
  set (w5 := jobUpdateMany (leasedBy (SeoJob.id run) owner) releaseLease w4).
  assert (I5 : forall p, itemCount p w5 = itemCount p w4)
    by (intros p; apply itemCount_same; reflexivity).
  pose proof (matched_bounded (SeoJob.id run) w4 j' Ok' Fail') as B.
  exists (if leasedBy (SeoJob.id run) owner j' then releaseLease j' else j').
  split; [unfold w5; rewrite release_row, E'; reflexivity|].
  rewrite !I5.
  assert (K : forall x : SeoJob.t,
            SeoJob.total (if leasedBy (SeoJob.id run) owner j'
                          then releaseLease j' else j') = SeoJob.total j'
            /\ SeoJob.okCount (if leasedBy (SeoJob.id run) owner j'
                               then releaseLease j' else j') = SeoJob.okCount j'
            /\ SeoJob.failedCount (if leasedBy (SeoJob.id run) owner j'
                                   then releaseLease j' else j')
               = SeoJob.failedCount j').
  { intros _. destruct (leasedBy (SeoJob.id run) owner j'); [|repeat split].
    destruct (releaseLease_columns j') as (_ & _ & _ & _ & A1 & A2 & A3).
    repeat split; assumption. }
  destruct (K j') as (K1 & K2 & K3). rewrite K1, K2, K3.
  rewrite Tot'', Tot, <- C. repeat split; first [assumption | lia].
Qed.

Lemma enforced_columns (now usageCount : Z) (j : SeoJob.t) :
  let j' := releaseLease (enforceJob now usageCount j) in
  SeoJob.id j' = SeoJob.id j
  /\ SeoJob.status j' = Some (js "failed")
  /\ SeoJob.lastError j' = Some enforcedMessage
  /\ SeoJob.usageReserved j' = false
  /\ SeoJob.okCount j' = SeoJob.okCount j
  /\ SeoJob.failedCount j' = SeoJob.failedCount j
  /\ SeoJob.total j' = SeoJob.total j
  /\ SeoJob.lockOwner j' = None
  /\ SeoJob.lockOwner (enforceJob now usageCount j) = SeoJob.lockOwner j
  /\ SeoJob.id (enforceJob now usageCount j) = SeoJob.id j.
Proof.
  destruct j. cbv zeta. unfold releaseLease, enforceJob. fields. repeat split.
Qed.

Lemma inFlight_enforced (id : jsstring) (now : Z) (it : SeoJobItem.t) :
  inFlight id SeoJobItem.status
    (if inFlight id SeoJobItem.status it then enforceItem now it else it)
  = false.
Proof.
  destruct (inFlight id SeoJobItem.status it) eqn:F; [|exact F].
  unfold inFlight. cbn [enforceItem SeoJobItem.jobId SeoJobItem.status].
  change (statusIs (Some (js "failed")) "queued") with false.
  change (statusIs (Some (js "failed")) "running") with false.
  apply andb_false_r.
Qed.

Section Handle.
Variable cfg : Config.
Variable env : Env.
Variable processPublish : SeoJob.t -> Store -> (jsstring + unit) * Store.
Variable mockEnabled : bool.
Variable subs : gmap jsstring Subscription.
Variable fault : Z -> option jsstring.
Variable monthKey : jsstring.
Variable now : Z -> Z.
Variable reserveNoShop : Z -> UsageTable -> (jsstring + Gate) * UsageTable.

Local Abbreviation handle :=
  (handleJob cfg env processPublish mockEnabled subs fault monthKey now
     reserveNoShop).
Local Abbreviation generating :=
  (handleGenerating cfg env mockEnabled subs fault monthKey now reserveNoShop).
Local Abbreviation locked :=
  (handleLocked cfg env processPublish mockEnabled subs fault monthKey now
     reserveNoShop).

(** The lease discipline of [handleJob]. A job leased by another worker
    whose lease has not run out is skipped without any change, as is an
    id that names no job or is blank; and whatever [handleJob] does
    otherwise, returning or throwing, it never leaves the job leased by
    its own worker. *)
Theorem handle_lease_discipline (jobId : option jsstring) (owner : jsstring)
  (preloadedJob : option SeoJob.t) (w : Store) (tbl : UsageTable) :
  wfStore w ->
  let id := trim (default [] jobId) in
  let out := handle jobId owner preloadedJob w tbl in
  (id = [] \/ jobs w !! id = None -> out = (inr tt, w, tbl))
  /\ (forall j other e,
        jobs w !! id = Some j -> id <> [] ->
        SeoJob.lockOwner j = Some other -> other <> owner ->
        SeoJob.lockExpiresAt j = Some e -> clock w <= e ->
        out = (inr tt, w, tbl))
  /\ (id <> [] ->
      forall k j', jobs (snd (fst out)) !! k = Some j' -> SeoJob.id j' = id ->
        SeoJob.lockOwner j' <> Some owner).
Proof.
  intros WF. cbv zeta. unfold handleJob.
  set (id := trim (default [] jobId)).
  split; [|split].
  - intros [E|E]; [rewrite E; reflexivity|].
    destruct id as [|c r] eqn:Ei; [reflexivity|]. rewrite <- Ei in *.
    rewrite (lockJob_unknown id owner (5 * 60000) w WF E). reflexivity.
  - intros j other e E N O D X T.
    destruct id as [|c r] eqn:Ei; [contradiction|]. rewrite <- Ei in *.
    destruct (lockJob_outcome id owner (5 * 60000) w j WF E) as (G & S & _).
    rewrite (leaseFree_held _ e owner other j O D X T) in G, S.
    specialize (S eq_refl).
    destruct (lockJob id owner (5 * 60000) w) as [got w1].
    cbn [fst snd] in G, S. subst got w1. reflexivity.
  - intros N k j' E I.
    destruct id as [|c r] eqn:Ei; [contradiction|]. rewrite <- Ei in *.
    destruct (lockJob id owner (5 * 60000) w) as [got w1] eqn:L.
    destruct got; cbn [negb] in E.
    + destruct (locked id owner preloadedJob w1 tbl) as [[r0 w2] tbl'].
      cbn [fst snd] in E. exact (release_frees id owner w2 k j' E I).
    + cbn [fst snd] in E.
      apply (lockJob_refused id owner (5 * 60000) w k j');
        [rewrite L; reflexivity | rewrite L; exact E | exact I].
Qed.


(** The way of a job in the generating phase through [handleJob], down
    to its generating branch: [job] is the row the branch works from,
    [j2] the row of the store at that point. *)
Lemma handle_generating_path (jobId : option jsstring) (owner : jsstring)
  (preloadedJob : option SeoJob.t) (w : Store) (tbl : UsageTable)
  (j : SeoJob.t) :
  wfStore w ->
  trim (default [] jobId) <> [] ->
  jobs w !! trim (default [] jobId) = Some j ->
  leaseFree (clock w) owner j = true ->
  preloadedJob = None \/ preloadedJob = Some j ->
  isJobCancelled (trim (default [] jobId)) w = false ->
  orElse (SeoJob.phase j) (js "generating") = js "generating" ->
  let id := trim (default [] jobId) in
  let j1 := SeoJob.set_lastHeartbeatAt (Some (clock w))
              (SeoJob.set_lockExpiresAt (Some (clock w + 5 * 60000))
                 (SeoJob.set_lockOwner (Some owner) j)) in
  let n := itemCount (fun it => eqb (SeoJobItem.jobId it) id) w in
  let j2 := if SeoJob.total j =? n then j1 else setTotal n j1 in
  exists job,
    (job = j \/ job = j1)
    /\ handle jobId owner preloadedJob w tbl
       = (let '(r, w2, tbl') :=
            generating id owner job
              (mkStore (<[id := j2]> (jobs w)) (items w) (shopLocks w) (clock w))
              tbl in
          (r, jobUpdateMany (leasedBy id owner) releaseLease w2, tbl')).
Proof.
  intros WF N E F P C Ph. cbv zeta. unfold handleJob.
  set (id := trim (default [] jobId)) in *.
  destruct id as [|c r] eqn:Ei; [contradiction|]. rewrite <- Ei in *.
  rewrite (lockJob_taken id owner (5 * 60000) w j WF E F). cbn [negb].
  set (j1 := SeoJob.set_lastHeartbeatAt (Some (clock w))
               (SeoJob.set_lockExpiresAt (Some (clock w + 5 * 60000))
                  (SeoJob.set_lockOwner (Some owner) j))).
  set (w1 := mkStore (<[id := j1]> (jobs w)) (items w) (shopLocks w) (clock w)).
  set (n := itemCount (fun it => eqb (SeoJobItem.jobId it) id) w).
  assert (S1 : SeoJob.status j1 = SeoJob.status j
               /\ SeoJob.phase j1 = SeoJob.phase j
               /\ SeoJob.total j1 = SeoJob.total j).
  { unfold j1. clear. destruct j. fields. repeat split. }
  destruct S1 as (S1 & P1 & T1).
  assert (Cj : eqb (toLowerCase (orElse (SeoJob.status j) [])) (js "cancelled")
               || eqb (toLowerCase (orElse (SeoJob.status j) [])) (js "canceled")
               = false).
  { assert (T : trim id = id) by (unfold id; apply QueueFacts.trim_idem).
    unfold isJobCancelled in C. rewrite T, E in C. exact C. }
  assert (W1 : (if SeoJob.total j =? n then w1 else jobUpdate id (setTotal n) w1)
               = mkStore (<[id := if SeoJob.total j =? n then j1
                                   else setTotal n j1]> (jobs w))
                   (items w) (shopLocks w) (clock w)).
  { destruct (SeoJob.total j =? n); [reflexivity|]. apply jobUpdate_insert. }
  destruct P as [-> | ->].
  - exists j1. split; [right; reflexivity|]. unfold handleLocked.
    unfold w1 at 1. cbn [jobs]. rewrite lookup_insert_eq, S1, P1, T1, Cj, Ph.
    change (itemCount (fun it => eqb (SeoJobItem.jobId it) id) w1) with n.
    rewrite W1, eqb_same. reflexivity.
  - exists j. split; [left; reflexivity|]. unfold handleLocked.
    rewrite Cj, Ph.
    change (itemCount (fun it => eqb (SeoJobItem.jobId it) id) w1) with n.
    rewrite W1, eqb_same. reflexivity.
Qed.

(** Progress stays within the total. When [handleJob] runs the generate
    phase of a job whose counters agree with its items and that has no
    failed item (its usage being reserved already, or the reservation
    being granted), the job ends with [total] the number of its items
    and [okCount] and [failedCount] the numbers of its succeeded and
    failed items: [okCount + failedCount <= total]. *)
Theorem handle_generate_within_total (jobId : option jsstring)
  (owner : jsstring) (preloadedJob : option SeoJob.t) (w : Store)
  (tbl : UsageTable) (j : SeoJob.t) :
  wfStore w ->
  trim (default [] jobId) <> [] ->
  jobs w !! trim (default [] jobId) = Some j ->
  leaseFree (clock w) owner j = true ->
  preloadedJob = None \/ preloadedJob = Some j ->
  isJobCancelled (trim (default [] jobId)) w = false ->
  orElse (SeoJob.phase j) (js "generating") = js "generating" ->
  SeoJob.usageReserved j = true
  \/ (exists g, fst (reserveFor mockEnabled subs fault monthKey now reserveNoShop
                       (SeoJob.shop j) (usageCountOf j) tbl) = inr g
                /\ g_ok g = true) ->
  SeoJob.okCount j
  = itemCount (hasStatus (trim (default [] jobId)) "success") w ->
  SeoJob.failedCount j = 0 ->
  itemCount (hasStatus (trim (default [] jobId)) "failed") w = 0 ->
  let id := trim (default [] jobId) in
  let w' := snd (fst (handle jobId owner preloadedJob w tbl)) in
  exists j',
    jobs w' !! id = Some j'
    /\ SeoJob.total j' = itemCount (fun it => eqb (SeoJobItem.jobId it) id) w'
    /\ SeoJob.okCount j' = itemCount (hasStatus id "success") w'
    /\ SeoJob.failedCount j' = itemCount (hasStatus id "failed") w'
    /\ SeoJob.okCount j' + SeoJob.failedCount j' <= SeoJob.total j'.
Proof.
  intros WF N E F P C Ph Res Ok Fail NoFailed. cbv zeta.
  destruct (handle_generating_path jobId owner preloadedJob w tbl j
              WF N E F P C Ph) as (job & Jc & H).
  rewrite H. clear H.
  set (id := trim (default [] jobId)) in *.
  set (n := itemCount (fun it => eqb (SeoJobItem.jobId it) id) w).
  set (j1 := SeoJob.set_lastHeartbeatAt (Some (clock w))
               (SeoJob.set_lockExpiresAt (Some (clock w + 5 * 60000))
                  (SeoJob.set_lockOwner (Some owner) j))) in *.
  set (j2 := if SeoJob.total j =? n then j1 else setTotal n j1).
  assert (I : SeoJob.id j = id) by exact (lookup_job_id w id j WF E).
  assert (T : trim id = id) by (unfold id; apply QueueFacts.trim_idem).
  destruct (lease_keeps (clock w) (clock w + 5 * 60000) owner j)
    as (A1 & A2 & A3 & A4 & _). cbv zeta in A1, A2, A3, A4. fold j1 in A1, A2, A3, A4.
  assert (Job : SeoJob.id job = id /\ SeoJob.shop job = SeoJob.shop j
                /\ SeoJob.usageReserved job = SeoJob.usageReserved j
                /\ usageCountOf job = usageCountOf j).
  { destruct Jc as [-> | ->]; [repeat split; exact I|].
    rewrite A1, A2, A3, A4. repeat split. exact I. }
  destruct Job as (J1 & J2 & J3 & J4).
  destruct (total_row (clock w) (clock w + 5 * 60000) n owner j)
    as (B1 & B2 & B3 & B4 & _). cbv zeta in B1, B2, B3, B4.
  fold j1 in B1, B2, B3, B4. fold j2 in B1, B2, B3, B4.
  set (run := SeoJob.set_lockOwner (Some owner) job).
  assert (R : SeoJob.id run = id).
  { unfold run. rewrite <- J1. clear. destruct job. fields. reflexivity. }
  assert (Tail : forall j3,
            SeoJob.id j3 = id -> SeoJob.total j3 = n ->
            SeoJob.okCount j3 = SeoJob.okCount j ->
            SeoJob.failedCount j3 = SeoJob.failedCount j ->
            let w3 := mkStore (<[id := j3]> (jobs w)) (items w) (shopLocks w)
                        (clock w) in
            exists j',
              jobs (jobUpdateMany (leasedBy id owner) releaseLease
                      (snd (processGenerate cfg env run w3))) !! id = Some j'
              /\ SeoJob.total j'
                 = itemCount (fun it => eqb (SeoJobItem.jobId it) id)
                     (jobUpdateMany (leasedBy id owner) releaseLease
                        (snd (processGenerate cfg env run w3)))
              /\ SeoJob.okCount j'
                 = itemCount (hasStatus id "success")
                     (jobUpdateMany (leasedBy id owner) releaseLease
                        (snd (processGenerate cfg env run w3)))
              /\ SeoJob.failedCount j'
                 = itemCount (hasStatus id "failed")
                     (jobUpdateMany (leasedBy id owner) releaseLease
                        (snd (processGenerate cfg env run w3)))
              /\ SeoJob.okCount j' + SeoJob.failedCount j' <= SeoJob.total j').
  { intros j3 C1 C2 C3 C4. cbv zeta.
    apply (generate_then_release cfg env id owner run _ j3).
    - apply wf_insert_job; assumption.
    - exact T.
    - exact R.
    - cbn [jobs]. apply lookup_insert_eq.
    - rewrite C2. reflexivity.
    - rewrite C3. exact Ok.
    - rewrite C4. exact Fail.
    - exact NoFailed. }
  unfold handleGenerating. fold run. rewrite J3, J2, J4.
  destruct Res as [Res | (g & Rg & Gok)].
  - rewrite Res. cbn [negb].
    destruct (Tail j2 (eq_trans B1 I) B2 B3 B4) as (j' & H). cbv zeta in H.
    destruct (processGenerate cfg env run _) as [r w4].
    cbn [fst snd] in H |- *. exists j'. exact H.
  - destruct (reserveFor mockEnabled subs fault monthKey now reserveNoShop
                (SeoJob.shop j) (usageCountOf j) tbl) as [[err|g'] tbl'];
      cbn [fst] in Rg; [discriminate Rg|]. injection Rg as ->.
    rewrite Gok. destruct (SeoJob.usageReserved j); cbn [negb].
    + destruct (Tail j2 (eq_trans B1 I) B2 B3 B4) as (j' & H). cbv zeta in H.
      destruct (processGenerate cfg env run _) as [r w4].
      cbn [fst snd] in H |- *. exists j'. exact H.
    + rewrite jobUpdate_insert.
      destruct (markReserved_columns (usageCountOf j) j2) as (M1 & M2 & M3 & M4).
      destruct (Tail (markReserved (usageCountOf j) j2)) as (j' & H);
        [rewrite M1; exact (eq_trans B1 I) | rewrite M2; exact B2
        | rewrite M3; exact B3 | rewrite M4; exact B4 |].
      cbv zeta in H.
      destruct (processGenerate cfg env run _) as [r w4].
      cbn [fst snd] in H |- *. exists j'. exact H.
Qed.

(** The free plan is enforced by the worker. A job in the generating
    phase whose usage was not reserved and whose reservation is refused
    is failed with the free-plan message without anything being
    generated: its items that were queued or running are failed, no
    other item changes, its counters stay as they were and its lease is
    given back. *)
Theorem handle_enforces_free_plan (jobId : option jsstring)
  (owner : jsstring) (preloadedJob : option SeoJob.t) (w : Store)
  (tbl : UsageTable) (j : SeoJob.t) (g : Gate) :
  wfStore w ->
  trim (default [] jobId) <> [] ->
  jobs w !! trim (default [] jobId) = Some j ->
  leaseFree (clock w) owner j = true ->
  preloadedJob = None \/ preloadedJob = Some j ->
  isJobCancelled (trim (default [] jobId)) w = false ->
  orElse (SeoJob.phase j) (js "generating") = js "generating" ->
  SeoJob.usageReserved j = false ->
  fst (reserveFor mockEnabled subs fault monthKey now reserveNoShop
         (SeoJob.shop j) (usageCountOf j) tbl) = inr g ->
  g_ok g = false ->
  let id := trim (default [] jobId) in
  let out := handle jobId owner preloadedJob w tbl in
  let w' := snd (fst out) in
  fst (fst out) = inr tt
  /\ snd out = snd (reserveFor mockEnabled subs fault monthKey now
                      reserveNoShop (SeoJob.shop j) (usageCountOf j) tbl)
  /\ (exists j',
        jobs w' !! id = Some j'
        /\ SeoJob.status j' = Some (js "failed")
        /\ SeoJob.lastError j' = Some enforcedMessage
        /\ SeoJob.usageReserved j' = false
        /\ SeoJob.okCount j' = SeoJob.okCount j
        /\ SeoJob.failedCount j' = SeoJob.failedCount j
        /\ SeoJob.lockOwner j' = None)
  /\ (forall k, k <> id -> jobs w' !! k = jobs w !! k)
  /\ (forall k,
        items w' !! k
        = (fun it => if inFlight id SeoJobItem.status it
                     then enforceItem (clock w) it else it) <$> items w !! k)
  /\ itemCount (inFlight id SeoJobItem.status) w' = 0.
Proof.
  intros WF N E F P C Ph Unres Rg Gok. cbv zeta.
  destruct (handle_generating_path jobId owner preloadedJob w tbl j
              WF N E F P C Ph) as (job & Jc & H).
  rewrite H. clear H.
  set (id := trim (default [] jobId)) in *.
  set (n := itemCount (fun it => eqb (SeoJobItem.jobId it) id) w).
  set (j1 := SeoJob.set_lastHeartbeatAt (Some (clock w))
               (SeoJob.set_lockExpiresAt (Some (clock w + 5 * 60000))
                  (SeoJob.set_lockOwner (Some owner) j))) in *.
  set (j2 := if SeoJob.total j =? n then j1 else setTotal n j1).
  assert (I : SeoJob.id j = id) by exact (lookup_job_id w id j WF E).
  destruct (lease_keeps (clock w) (clock w + 5 * 60000) owner j)
    as (A1 & A2 & A3 & A4 & _). cbv zeta in A1, A2, A3, A4. fold j1 in A1, A2, A3, A4.
  assert (Job : SeoJob.shop job = SeoJob.shop j
                /\ SeoJob.usageReserved job = SeoJob.usageReserved j
                /\ usageCountOf job = usageCountOf j).
  { destruct Jc as [-> | ->]; [repeat split|].
    rewrite A2, A3, A4. repeat split. }
  destruct Job as (J2 & J3 & J4).
  destruct (total_row (clock w) (clock w + 5 * 60000) n owner j)
    as (B1 & _ & B3 & B4 & B5). cbv zeta in B1, B3, B4, B5.
  fold j1 in B1, B3, B4, B5. fold j2 in B1, B3, B4, B5.
  unfold handleGenerating. rewrite J3, J2, J4, Unres. cbn [negb].
  destruct (reserveFor mockEnabled subs fault monthKey now reserveNoShop
              (SeoJob.shop j) (usageCountOf j) tbl) as [[err|g'] tbl'];
    cbn [fst] in Rg; [discriminate Rg|]. injection Rg as ->.
  rewrite Gok. cbn [negb fst snd].
  unfold itemUpdateMany. cbn [jobs items shopLocks clock].
  rewrite jobUpdate_insert.
  set (f := fun it => if inFlight id SeoJobItem.status it
                      then enforceItem (clock w) it else it).
  set (j3 := enforceJob (clock w) (usageCountOf j) j2).
  destruct (enforced_columns (clock w) (usageCountOf j) j2)
    as (E1 & E2 & E3 & E4 & E5 & E6 & _ & E8 & E9 & E10).
  cbv zeta in E1, E2, E3, E4, E5, E6, E8. fold j3 in E1, E2, E3, E4, E5, E6, E8, E9, E10.
  assert (L3 : leasedBy id owner j3 = true).
  { unfold leasedBy. rewrite E10, B1, I, eqb_same, E9, B5. cbn [andb].
    apply bool_decide_eq_true_2. reflexivity. }
  split; [reflexivity|]. split; [reflexivity|]. split; [|split; [|split]].
  - exists (releaseLease j3). rewrite release_row. cbn [jobs].
    rewrite lookup_insert_eq. cbn [fmap option_fmap option_map]. rewrite L3.
    split; [reflexivity|]. rewrite E5, E6, B3, B4. repeat split; assumption.
  - intros k Nk. rewrite release_row. cbn [jobs].
    rewrite lookup_insert_ne by congruence.
    destruct (jobs w !! k) as [x|] eqn:Ex; [|reflexivity].
    cbn [fmap option_fmap option_map]. unfold leasedBy, eqb.
    rewrite bool_decide_eq_false_2; [reflexivity|].
    rewrite (lookup_job_id w k x WF Ex). exact Nk.
  - intros k. unfold jobUpdateMany. cbn [items]. apply lookup_fmap.
  - rewrite (itemCount_fmap _ f w); [|intros k; unfold jobUpdateMany; cbn [items];
                                      apply lookup_fmap].
    apply itemCount_none. intros k it _. apply inFlight_enforced.
Qed.

End Handle.

(** The theorem on the sample job while another worker holds its
    lease: nothing changes. *)
Lemma handle_lease_discipline_witness :
  HandlerSamples.handleSample (Some (js "J1")) (js "worker-9") None
    HandlerSamples.leasedStore
  = (inr tt, HandlerSamples.leasedStore, ∅).
Proof.
  destruct (handle_lease_discipline defaultConfig Samples.happyEnv
              HandlerSamples.idlePublish false ∅ (fun _ => None) (js "2026-11")
              (fun _ => 0) HandlerSamples.noShop (Some (js "J1"))
              (js "worker-9") None HandlerSamples.leasedStore ∅)
    as (_ & H & _); [wf_by_computation|].
  apply (H Samples.interruptedJob (js "worker-7") 302000);
    [reflexivity | discriminate | reflexivity | discriminate | reflexivity
    | vm_compute; discriminate].
Defined.


(** The theorem on the sample job of eleven products on the free plan:
    the job is failed. *)
Lemma handle_enforces_free_plan_witness :
  exists j',
    jobs (snd (fst (HandlerSamples.handleSample (Some (js "J1"))
                      (js "worker-9") None HandlerSamples.unreservedStore)))
      !! js "J1" = Some j'
    /\ SeoJob.status j' = Some (js "failed")
    /\ SeoJob.lastError j' = Some enforcedMessage.
Proof.
  destruct (handle_enforces_free_plan defaultConfig Samples.happyEnv
              HandlerSamples.idlePublish false ∅ (fun _ => None) (js "2026-11")
              (fun _ => 0) HandlerSamples.noShop (Some (js "J1"))
              (js "worker-9") None HandlerSamples.unreservedStore ∅
              HandlerSamples.unreservedJob
              (mkGate false (Some (js "FREE_LIMIT_EXCEEDED")) (js "FREE")
                 (js "live")
                 (inr (mkReservation false (js "FREE_LIMIT_EXCEEDED")
                         (js "2026-11") 0 10 10))))
    as (_ & _ & (j' & E & S & L & _) & _);
    [wf_by_computation | discriminate | reflexivity | vm_compute; reflexivity
    | left; reflexivity | vm_compute; reflexivity | reflexivity | reflexivity
    | vm_compute; reflexivity | reflexivity |].
  exists j'. split; [exact E|]. split; assumption.
Defined.

(** The theorem on the sample job with one queued item. *)
Lemma handle_generate_within_total_witness :
  exists j',
    jobs (snd (fst (HandlerSamples.handleSample (Some (js "J1"))
                      (js "worker-9") None Samples.savedTitleStore)))
      !! js "J1" = Some j'
    /\ SeoJob.okCount j' + SeoJob.failedCount j' <= SeoJob.total j'.
Proof.
  destruct (handle_generate_within_total defaultConfig Samples.happyEnv
              HandlerSamples.idlePublish false ∅ (fun _ => None) (js "2026-11")
              (fun _ => 0) HandlerSamples.noShop (Some (js "J1"))
              (js "worker-9") None Samples.savedTitleStore ∅
              Samples.descriptionOnlyJob)
    as (j' & E & _ & _ & _ & B);
    [wf_by_computation | discriminate | reflexivity | vm_compute; reflexivity
    | left; reflexivity | vm_compute; reflexivity | reflexivity
    | left; reflexivity | vm_compute; reflexivity | reflexivity
    | vm_compute; reflexivity |].
  exists j'. split; [exact E | exact B].
Defined.

Section Entry.
Variable cfg : Config.
Variable env : Env.
Variable processPublish : SeoJob.t -> Store -> (jsstring + unit) * Store.
Variable mockEnabled : bool.
Variable subs : gmap jsstring Subscription.
Variable fault : Z -> option jsstring.
Variable monthKey : jsstring.
Variable now : Z -> Z.
Variable reserveNoShop : Z -> UsageTable -> (jsstring + Gate) * UsageTable.

Local Abbreviation process :=
  (processEntry cfg env processPublish mockEnabled subs fault monthKey now
     reserveNoShop).

(** One job per shop. An entry for a job of a shop whose lock is held
    touches neither jobs nor items nor the usage table, and is delayed
    by [SHOP_LOCK_RETRY_DELAY_MS] (or fails as busy when the delay
    cannot be set); an entry that names no stored job changes nothing;
    and an entry that got the lock never leaves it held by its
    worker. *)
Theorem entry_one_job_per_shop (retryDelayMs : Z) (moveFails : option jsstring)
  (id owner : jsstring) (w : Store) (tbl : UsageTable) :
  let out := process retryDelayMs moveFails (Some id) owner w tbl in
  let w' := snd (fst out) in
  (id <> [] -> jobs w !! trim id = None -> out = (Returned, w, tbl))
  /\ (forall dbJob,
        id <> [] -> jobs w !! trim id = Some dbJob ->
        let key := shopLockKey (SeoJob.shop dbJob) in
        (forall holder, redisGet key w = Some holder ->
           jobs w' = jobs w /\ items w' = items w
           /\ shopLocks w' = shopLocks w /\ snd out = tbl
           /\ fst (fst out)
              = match moveFails with
                | None => Delayed (clock w + retryDelayMs)
                | Some e => Threw (js "SHOP_LOCK_BUSY: " ++ e)
                end)
        /\ (redisGet key w = None -> redisGet key w' <> Some owner)).
Proof.
  cbv zeta. unfold processEntry. split.
  - intros N E. destruct id as [|c r]; [contradiction|]. rewrite E. reflexivity.
  - intros dbJob N E. destruct id as [|c r]; [contradiction|]. rewrite E.
    unfold acquireShopLock. split.
    + intros holder G. rewrite G. cbn [negb].
      destruct moveFails as [e|]; cbn [fst snd]; repeat split.
    + intros G. rewrite G. cbn [negb].
      match goal with
      | |- context [handleJob ?a1 ?a2 ?a3 ?a4 ?a5 ?a6 ?a7 ?a8 ?a9 ?b1 ?b2 ?b3 ?b4 ?b5] =>
          destruct (handleJob a1 a2 a3 a4 a5 a6 a7 a8 a9 b1 b2 b3 b4 b5)
            as [[r0 w2] tbl']
      end.
      cbn [fst snd]. unfold releaseShopLock.
      destruct (bool_decide (redisGet (shopLockKey (SeoJob.shop dbJob)) w2
                             = Some owner)) eqn:B.
      * unfold redisGet. cbn [shopLocks]. rewrite lookup_delete_eq. discriminate.
      * exact (bool_decide_eq_false_1 _ B).
Qed.

End Entry.

End HandlerFacts.

(** ** The retry loop of the text service *)

Module RetryFacts.
Import Js Classifier Generator Retry.

Lemma computeBackoffMs_bounds (attempt baseMs jitter : Z) :
  1 <= attempt -> 0 <= baseMs -> 0 <= jitter <= 249 ->
  baseMs + attempt * 500 <= computeBackoffMs attempt baseMs jitter
  <= 8 * baseMs + attempt * 500 + 249.
Proof.
  intros A B J. unfold computeBackoffMs. cbv zeta.
  assert (E : 1 <= 2 ^ Z.min 3 (attempt - 1) <= 8).
  { destruct (Z.min_spec 3 (attempt - 1)) as [[_ ->] | [H ->]].
    - change (2 ^ 3) with 8. lia.
    - assert (C : attempt = 1 \/ attempt = 2 \/ attempt = 3 \/ attempt = 4) by lia.
      destruct C as [-> | [-> | [-> | ->]]]; vm_compute; split; discriminate. }
  nia.
Qed.

Lemma retryWait_bounds (attempt baseMs jitter : Z) (t : Thrown) :
  1 <= attempt -> 0 <= baseMs -> 0 <= jitter <= 249 ->
  500 <= retryWait attempt baseMs jitter t
  /\ (t_retryAfter t <> 0 ->
      retryWait attempt baseMs jitter t = Z.max (t_retryAfter t * 1000) 1000)
  /\ (t_retryAfter t = 0 ->
      baseMs + attempt * 500 <= retryWait attempt baseMs jitter t
      <= 8 * baseMs + attempt * 500 + 249).
Proof.
  intros A B J. unfold retryWait.
  pose proof (computeBackoffMs_bounds attempt baseMs jitter A B J) as C.
  destruct (Z.eqb_spec (t_retryAfter t) 0) as [E|E].
  - split; [lia|]. split; [intros N; contradiction | intros _; exact C].
  - split; [lia|]. split; [reflexivity | intros N; contradiction].
Qed.

Section Loop.
Variable maxAttempts : Z.
Variable baseBackoffMs : Z.
Variable respond : Z -> Response.
Variable jitter : Z -> Z.

Local Abbreviation loop := (chatLoop maxAttempts baseBackoffMs respond jitter).

(** The loop in closed form: it stops at the first attempt [n] that is
    the last one allowed or is not retried. *)
Lemma chatLoop_stops (d : nat) :
  forall (fuel : nat) (a n : Z) (lastErr : option jsstring),
    Z.of_nat d = n - a -> (d < fuel)%nat -> n <= maxAttempts ->
    (forall k, a <= k < n -> retried respond k = true) ->
    n = maxAttempts \/ retried respond n = false ->
    loop fuel a lastErr
    = (mkChat
         (flat_map (retriedHooks baseBackoffMs respond jitter) (seqZ a (n - a))
          ++ [OnAttempt n])
         (settled respond n),
       flat_map (waitAfter baseBackoffMs respond jitter) (seqZ a (n - a))).
Proof.
  induction d as [|d IH]; intros fuel a n lastErr D F M R L.
  - assert (n = a) by lia. subst n. replace (a - a) with 0 by lia.
    destruct fuel as [|fuel]; [lia|]. cbn [chatLoop seqZ flat_map app].
    unfold settled, retried in *.
    destruct (respond a) as [f|reply]; [|reflexivity].
    cbv zeta. destruct (transientOf (thrownBy f)) eqn:T; cbn [negb]; [|reflexivity].
    destruct L as [L|L]; [|discriminate L].
    rewrite (proj2 (Z.leb_le maxAttempts a)) by lia. reflexivity.
  - destruct fuel as [|fuel]; [lia|].
    assert (Ra : retried respond a = true) by (apply R; lia).
    rewrite (seqZ_cons a (n - a)) by lia.
    cbn [chatLoop flat_map].
    unfold retriedHooks at 1. unfold waitAfter at 1. unfold retried in Ra.
    destruct (respond a) as [f|reply]; [|discriminate Ra].
    cbv zeta. rewrite Ra. cbn [negb].
    rewrite (proj2 (Z.leb_gt maxAttempts a)) by lia.
    rewrite (IH fuel (a + 1) n (Some (default [] (t_message (thrownBy f)))));
      [|lia | lia | exact M | intros k K; apply R; lia | exact L].
    cbn [chat_events chat_outcome].
    replace (Z.succ a) with (a + 1) by lia.
    replace (Z.pred (n - a)) with (n - (a + 1)) by lia.
    reflexivity.
Qed.

(** Whatever the attempts meet, a loop with enough rounds for the
    attempts left announces the attempts [a, a + 1, ...], at most as
    many as it has rounds, and sleeps exactly the waits it announces,
    one between two attempts. *)
Lemma chatLoop_counts (fuel : nat) :
  forall (a : Z) (lastErr : option jsstring),
  maxAttempts - a < Z.of_nat fuel ->
  exists m : nat,
    (m <= fuel)%nat
    /\ (fuel <> 0%nat -> m <> 0%nat)
    /\ attemptsOf (chat_events (fst (loop fuel a lastErr))) = seqZ a (Z.of_nat m)
    /\ waitsOf (chat_events (fst (loop fuel a lastErr)))
       = snd (loop fuel a lastErr)
    /\ length (snd (loop fuel a lastErr)) = pred m
    /\ (1 <= a -> 0 <= baseBackoffMs -> (forall k, 0 <= jitter k <= 249) ->
        Forall (fun waitMs => 500 <= waitMs) (snd (loop fuel a lastErr))).
Proof.
  induction fuel as [|fuel IH]; intros a lastErr Fu.
  - exists 0%nat. cbn.
    repeat split; first [reflexivity | lia | intros; constructor].
  - cbn [chatLoop].
    assert (One : exists m : nat,
              (m <= S fuel)%nat /\ (S fuel <> 0%nat -> m <> 0%nat)
              /\ attemptsOf [OnAttempt a] = seqZ a (Z.of_nat m)
              /\ waitsOf [OnAttempt a] = [] /\ length (@nil Z) = pred m
              /\ (1 <= a -> 0 <= baseBackoffMs ->
                  (forall k, 0 <= jitter k <= 249) ->
                  Forall (fun waitMs => 500 <= waitMs) [])).
    { exists 1%nat.
      repeat split; first [reflexivity | lia | intros; constructor]. }
    destruct (respond a) as [f|reply]; [|exact One].
    cbv zeta.
    destruct (negb (transientOf (thrownBy f))); [exact One|].
    destruct (Z.leb_spec maxAttempts a) as [Le|Gt]; [exact One|]. clear One.
    destruct (IH (a + 1) (Some (default [] (t_message (thrownBy f)))))
      as (m & M & Nz & A & W & Len & B); [lia|].
    destruct (loop fuel (a + 1) (Some (default [] (t_message (thrownBy f)))))
      as [rest sleeps].
    cbn [fst snd chat_events] in *.
    assert (m <> 0%nat) by (apply Nz; lia).
    exists (S m). split; [lia|]. split; [lia|]. split; [|split; [|split]].
    + cbn [attemptsOf omap list_omap]. fold (attemptsOf (chat_events rest)).
      rewrite A. rewrite (seqZ_cons a (Z.of_nat (S m))) by lia.
      replace (Z.succ a) with (a + 1) by lia.
      replace (Z.pred (Z.of_nat (S m))) with (Z.of_nat m) by lia. reflexivity.
    + cbn [waitsOf omap list_omap]. fold (waitsOf (chat_events rest)).
      rewrite W. reflexivity.
    + cbn [length]. rewrite Len. lia.
    + intros A1 B0 J. constructor.
      * apply retryWait_bounds; [exact A1 | exact B0 | apply J].
      * apply B; [lia | exact B0 | exact J].
Qed.

Local Abbreviation run :=
  (openAiChatJson maxAttempts baseBackoffMs respond jitter).

(** The retry discipline of [openAiChatJson]. Without an API key it
    throws before any attempt; with no attempt allowed it throws at
    once; otherwise it retries as long as the failure is transient and
    attempts are left, and stops at the first attempt [n] that returns,
    fails for good, or is the last one allowed: the hooks announce every
    attempt up to [n] and a retry after each but the last, the waits
    slept are those announced, and the outcome is that of attempt
    [n]. *)
Theorem openai_retry_trace (key : option jsstring) :
  (key = None \/ key = Some [] ->
   run key
   = (mkChat [] (inl (js "OPENAI_API_KEY is not set on the server.")), []))
  /\ (forall c r,
        key = Some (c :: r) ->
        (maxAttempts <= 0 ->
         run key = (mkChat [] (inl (js "OpenAI request failed.")), []))
        /\ (forall n,
              1 <= n <= maxAttempts ->
              (forall k, 1 <= k < n -> retried respond k = true) ->
              n = maxAttempts \/ retried respond n = false ->
              run key
              = (mkChat
                   (flat_map (retriedHooks baseBackoffMs respond jitter)
                      (seqZ 1 (n - 1))
                    ++ [OnAttempt n])
                   (settled respond n),
                 flat_map (waitAfter baseBackoffMs respond jitter)
                   (seqZ 1 (n - 1))))).
Proof.
  split.
  - intros [-> | ->]; reflexivity.
  - intros c r ->. unfold openAiChatJson. split.
    + intros M. replace (Z.to_nat maxAttempts) with 0%nat by lia. reflexivity.
    + intros n N R L.
      apply (chatLoop_stops (Z.to_nat (n - 1))); [lia | lia | lia | exact R | exact L].
Qed.

(** Attempts and waits are bounded. Whatever the attempts meet,
    [openAiChatJson] announces the attempts 1, 2, ..., [m] with [m] at
    most [OPENAI_MAX_ATTEMPTS], sleeps [m - 1] times, each time the wait
    it announced to [onRetry], and never less than 500 ms when the base
    is not negative. *)
Theorem openai_attempts_bounded (key : option jsstring) :
  exists m : nat,
    Z.of_nat m <= Z.max 0 maxAttempts
    /\ attemptsOf (chat_events (fst (run key))) = seqZ 1 (Z.of_nat m)
    /\ waitsOf (chat_events (fst (run key))) = snd (run key)
    /\ length (snd (run key)) = pred m
    /\ (0 <= baseBackoffMs -> (forall k, 0 <= jitter k <= 249) ->
        Forall (fun waitMs => 500 <= waitMs) (snd (run key))).
Proof.
  unfold openAiChatJson.
  assert (No : exists m : nat,
            Z.of_nat m <= Z.max 0 maxAttempts
            /\ attemptsOf [] = seqZ 1 (Z.of_nat m)
            /\ waitsOf [] = [] /\ length (@nil Z) = pred m
            /\ (0 <= baseBackoffMs -> (forall k, 0 <= jitter k <= 249) ->
                Forall (fun waitMs => 500 <= waitMs) [])).
  { exists 0%nat.
    repeat split; first [reflexivity | lia | intros; constructor]. }
  destruct key as [[|c r]|]; [exact No | | exact No]. clear No.
  destruct (chatLoop_counts (Z.to_nat maxAttempts) 1 None)
    as (m & M & _ & A & W & Len & B); [lia|].
  exists m. split; [lia|]. split; [exact A|]. split; [exact W|].
  split; [exact Len|]. intros B0 J. apply B; [lia | exact B0 | exact J].
Qed.

End Loop.

End RetryFacts.
